(* ===== verification/_CoqProject ===== *)
-Q . S2P
Prelude.v
PyString.v
PyPath.v
Job.v
World.v
Pretty.v
Gateway.v
Poll.v
Build.v
Collector.v
Lifecycle.v
Submit.v
Raises.v
Main.v
Program.v
Refinement.v
Launcher.v
Arith.v
Teta.v
TetaCffi.v
TetaScript.v
TetaFloat.v
