(* ===== verification/Prelude.v ===== *)
(** * Verification of the cluster job launcher [sub.py] and of the
      computation it launches, [tetaEvaluation.py]

    ** The programs

    [src/sources/script/sub.py] is a command-line tool that runs one MPI
    project on a PBS cluster.  [main] lists the configured source folder,
    checks its first argument against the projects found there and either
    prints the menu of projects or makes a [Submit] object and calls its
    method [run].  [run] checks that the project folder exists, compiles the
    project with [mpicc], fills the template [sub_template.sh] into
    [cur_sub.sh], submits it with [qsub], polls [qstat] until the job leaves
    the queue, cancels the job with [qdel] when the user presses Ctrl-C, and
    at the end moves the two output files of the job into the directory [log]
    and prints them.  Everything the program knows about the cluster comes
    through [call_command] (a shell command, its exit code and its output)
    and through the shared file system.

    [src/sources/tetaEvaluation.py] is the kind of program the launcher
    runs: it computes the deflection angle of a particle for 16 impact
    parameters as an integral from 0 to infinity, summed over windows of
    width 16 on which a midpoint sum is refined by halving its step, and
    compares it with the closed form, prints the points and plots them.
    [src/sources/tetaEvaluation_cffi.py] does the same for 201 impact
    parameters with an integration kernel in C.

    ** The files, in dependency order

    - [Prelude] (this file): the scope [py_scope], the exceptions of Python
      the code can raise ([pyexn]), negative indexing ([neg_index] for
      [data[-2]]), the tactics [case_step] and [by_compute], the hint
      databases [py] and [pystr], and lemmas on lists.
    - [PyString], [Module Str]: [str.strip], [split], [join], [find],
      [replace], [format] as executable functions on [string], with the
      theory of [replace] on [%NAME%] tokens that the template needs.
    - [PyPath], [Module OsPath]: [os.path.join] and [os.path.basename].
    - [Job]: the [Submit] object and [__init__] (lines 53-62), the tuple of
      [call_command], the configuration [config] from which [BIN_DIR] and
      [SOURCES] (lines 13-16) are computed, and the type [exit_point] of the
      [return] statements of [run].
    - [World]: the effect monad [M].  [env] holds what the program does not
      control: the answer to the n-th shell command ([replies]), the ticks at
      which SIGINT arrives ([sigint]), the files the cluster writes at each
      tick ([arrivals]) and the directories that can be written ([writable]).
      [state] holds the object [self], a logical clock, the count of commands
      launched, the file system (a [gmap] of files, a [gset] of directories)
      and the [trace] of events.  A computation returns [Val], [Exn] (a
      Python exception) or [Stop] (out of fuel, or outside the modelled
      fragment).  The file also has the program logic [emits] on traces.
    - [Pretty]: class [Colors] and [pretty_return] (lines 19-43).
    - [Gateway]: the three scheduler commands and the reading of one [qstat]
      listing, the [for] loop of lines 141-148 ([scan_line], [scan_lines],
      [scan_listing]) with its [IndexError] paths.
    - [Poll]: the [try] block of [run] (lines 119-166: [poll_body],
      [poll_loop], [render], [watch]) and the [except KeyboardInterrupt]
      handler (lines 167-179: [on_interrupt], [watch_or_cancel]).
    - [Build]: lines 69-118: [compile], [fill_template], [make_submit],
      [submit_job].
    - [Collector]: lines 181-209: [mkdir_log], [wait_files], [show_results],
      [move_and_show], [collect].
    - [Lifecycle]: the state machine of the specification, as a step relation
      on the actions of a run ([node], [step], [path], [ends], [run_spec]).
      It is a specification, not code.
    - [Submit]: [submit_and_watch] (the [else] branch) and [run] (lines
      64-209), composed from the parts above as the method composes them.
    - [Raises]: a typing of computations by the exceptions that can leave
      them ([raises m P]), one rule for each construct of the monad and one
      lemma for each component.
    - [Main]: [main] (lines 212-272): [parse_args], [get_list], [launch],
      [dispatch], with [sys.exit] as the exception [SystemExit].
    - [Program]: the statements that run when [sub.py] is loaded (lines
      13-16: [BIN_DIR], [read], [get], [load]), with the errors they raise,
      and [program], the load followed by [main].
    - [Refinement]: the proof that [run] implements the machine of
      [Lifecycle], and what follows for each terminal state.
    - [Launcher]: the load, [main] and [run] composed: the contract of the
      whole script for a command line that names a project.
    - [Arith]: the numbers of [tetaEvaluation.py] as a class of operations
      ([Arith.Arith]) with two instances, binary64 ([float_arith], the
      primitive floats) and the rationals ([Qc_arith]); the Python operators
      that raise ([truediv], [sqrt], [pow2], [float_of]); and the laws of
      exact arithmetic ([Arith.Exact]), which the rationals satisfy.
    - [Teta]: [tetaEvaluation.py] (lines 5-90): [integral_func],
      [finite_integral] ([sum_loop], [divisions]), [integral_to_infinite]
      ([windows]), [analytic_evaluation] and the loop over the impact
      parameter ([points]), with the sums they are meant to compute
      ([midpoint_sum], [refined_sum], [until_faded]).
    - [TetaCffi]: the Python side of [tetaEvaluation_cffi.py]: the
      generator [range_f] (lines 13-20), [analytic_evaluation] and the loop
      of [main] (lines 36-55), with the C kernel as a parameter.
    - [TetaScript]: what the two scripts print and plot (lines 75-102 of
      [tetaEvaluation.py], lines 36-67 of [tetaEvaluation_cffi.py]):
      [body], [figure], [script] and [main_body], [main_loop],
      [main_figure], [main], as values of [out]: the list of the lines
      printed and the [pyplot] calls made, and how the script ended.
    - [TetaFloat]: the proof that both scripts run to their end on
      binary64: the abscissas of the [while] loop as a [walk], and the walks
      of every window and division of the script evaluated by the kernel.

    ** How the model corresponds to the code

    Every statement of [run] and [main] that prints, launches a command,
    sleeps or touches the file system is one operation of [World] in the same
    order; a local variable that a loop assigns is a field of a record
    ([Gateway.scan], [Poll.locals]); a [return] in the middle of [run] is the
    value [Return x] of type [flow], which the steps after it skip
    ([and_then]); [try]/[except] is [try_except] with the handler's test of
    the exception.  Strings are byte strings, as [str] is in Python 2, and
    integers are [Z].  SIGINT is delivered at the operations that wait
    ([call_command], [time.sleep], the [os.path] tests), each of which
    advances the clock by one tick.

    The functions of [tetaEvaluation.py] are pure: each is a function into
    [res], with the operands of every expression evaluated from left to
    right, a [for] loop as a recursion on the number of iterations that are
    left and [break] as the branch that returns.  They are written once, for
    any type of numbers with the operations of [Arith.Arith]; at [float] the
    operations round as IEEE 754 binary64 does ([x ** 2] is [x * x], which
    agrees with the C library where the square is representable).

    The code of the two scripts around their loops prints and plots.  A
    script is a pair: the calls it made to the outside (a line printed, a
    call of [pyplot]) in the order it made them, and its result; the body
    of a [for] loop appends to the three lists of points, which are the
    variables the loop carries ([TetaScript.for_each]), and the generator
    of the second script is consumed one value at a time
    ([TetaScript.main_loop]).  The load of [sub.py] is a function from
    [$HOME] and the files to a configuration or the error raised
    ([Program.load]).

    ** What is proved

    - Refinement ([Refinement]): for every environment and state, the actions
      of a run are a path of the lifecycle machine that ends at the node of
      the run's result; from it, what a run has done when it returns
      [UserAbort], [BuildFailure], [SubmitFailure] or reaches its last line,
      and that the phase never moves backward.
    - Exceptions ([Raises], [Main]): the set of exceptions that can leave
      [run] and [main], and the exit statuses of [main].
    - Reading the queue ([Gateway]): the status decoded, when
      [cpu_time_used] is assigned and with what, when the reading raises.
    - Polling ([Poll]): what stops the loop, termination with enough fuel,
      divergence when nothing stops it, the spinner and its bounds, the
      cancellation.
    - Build and submission ([Build]): the outcome of each step, the compile
      command, the filling of the template.
    - Collection ([Collector]): termination and divergence of the wait, the
      hand-over of the two files to [log], idempotence of [mkdir], and the
      failures when one file or the directory is not as expected.
    - Command line ([Main]): each branch of [main], the agreement of the
      menu with the dictionary of numbers, and independence from the order
      in which the folder is listed.
    - The script as a whole ([Program], [Launcher]): when the load gives
      a configuration; that the exit with status -1 and the hint about
      [sub.cfg] happen exactly when the configured folder cannot be listed,
      never when the configuration itself is missing; and that for a
      command line that names a project the script executes a run that
      follows the lifecycle, for a project whose folder exists.
    - Integration ([Teta]): which exceptions [integral_func] handles; in
      exact arithmetic (every instance of [Arith.Exact]), that the loops of
      [finite_integral] and [integral_to_infinite] compute the refined
      midpoint sums of the windows, with the exact number of iterations, and
      that [finite_integral] never returns on an empty window; in binary64,
      that a window is empty when its start absorbs [DELTA].  For the
      second script ([TetaCffi]): the values [range_f] yields in exact
      arithmetic, and by evaluation the 201 impact parameters of [main] in
      binary64.
    - Output ([TetaScript]): in any arithmetic, the lines each script
      prints and the figure it plots, as a function of the points computed:
      the lines of the points before a failure are printed, the figure is
      made only when every point is computed, and [plot] never raises.
    - Termination on binary64 ([TetaFloat]): both scripts run to their end
      with the numbers they use, for any [math.asin], pi and kernel: no
      [while] loop is kept running by a rounded step, and no exception
      leaves a script, but [VerificationError] when the kernel of the
      second does not compile.  Every [while] loop of the first script
      executes its body exactly [2^k] times for the division [k]
      ([TetaFloat.float_loop_count]), as in exact arithmetic.

    ** Fuel and bounds

    The two [while] loops of [run] have no bound in the code.  [poll_loop]
    and [wait_files] take a fuel: one unit for each execution of the loop
    body.  An iteration of the polling loop launches exactly one [qstat], so
    fuel [n] is enough whenever one of the next [n] answers stops the loop
    ([Poll.poll_loop_terminates]); an iteration of the wait evaluates the
    condition, at most two ticks, so fuel [n] is enough whenever a file
    arrives within [2 * n + 1] ticks ([Collector.wait_files_terminates]).
    When the fuel runs out the result is [Stop OutOfFuel], which no theorem
    treats as a return: [Poll.poll_loop_diverges] and
    [Collector.wait_files_diverges] show that this is the case for every fuel
    exactly when the code would loop for ever.  Theorems quantify over the
    fuels, the environment and the state unless they say otherwise.

    The [while] loop of [finite_integral] has a fuel too, one unit for each
    execution of its body, and every division of every window gets the same
    fuel.  Division [i] of a window takes [2^i] executions in exact
    arithmetic ([Teta.sum_loop_midpoints]), and there are 21 divisions, so
    fuel [2^20] is enough for every call ([Teta.finite_integral_exact]).  The
    two [for] loops are bounded by the code (21 divisions, 21 windows) and
    need no fuel.

    In binary64 the same fuel is enough for the script, and this is proved
    for all its loops ([TetaFloat.float_script_returns]).  The abscissa
    [cur_step] of a loop does not depend on what the loop sums, so a loop
    returns when its abscissas pass [var_to], whichever divisions settle and
    whichever windows fade.  The script starts its windows at the 21
    multiples of 16 from 0 to 320 and each window has the 21 steps [16 / 2^k];
    [TetaFloat.script_walks] follows all 441 loops, about 44 million
    additions and comparisons of primitive floats, and the kernel evaluates
    it to [true]: each loop is past its window after exactly [2^k] steps,
    over abscissas at which [integral_func] returns.  This takes about ten
    seconds to compile and two minutes in the independent checker.  No
    theorem here bounds the rounding error of the sums.

    ** Not modelled

    - The behaviour of the libraries is assumed as [World], [PyString] and
      [PyPath] state it: [shutil.move] is modelled on regular files, [open]
      on whole files, and [str.format] on the positional fields the script
      uses; a format string with other fields gives [Stop NotModelled].
    - [argparse]: the syntax of the command line (options, [type=int], the
      help text, an option given without its value) is library code; [main]
      starts from the parsed command line.
    - [ConfigParser]: the grammar of [sub.cfg] and the interpolation of
      values are parameters of [Program.load] ([parse], [interpolate]);
      [run] and [main] take the configuration that was loaded
      ([Job.config]).
    - [multiprocessing]: [main] calls [run] directly, so no second process
      exists; [Process.__init__] has no effect the program observes.
    - In [tetaEvaluation.py]: [math.asin], pi and the text [str] gives for
      a float are parameters; of [matplotlib] only the calls, their order
      and arguments, and the [ValueError] of [plot] on lists of different
      lengths are modelled, not what is drawn.
    - In [tetaEvaluation_cffi.py]: the kernel, which is the C header
      [tetaQuad.h] compiled at run time by cffi and not among the sources.
      What [ffi.verify] returns is a parameter of [TetaScript.program]: the
      two functions that [ffi.cdef] declares, or nothing when the compiler
      fails. *)

From Stdlib Require Import Ascii String ZArith Lia.
From stdpp Require Import base tactics option list strings.

(** Notations of the development live in [py_scope]. *)
Declare Scope py_scope.
Delimit Scope py_scope with py.

(** Hint databases: [py] for resolution, [pystr] for rewriting. *)
Create HintDb py.
Create Rewrite HintDb pystr.

(** ** Python exceptions raised by the modelled code *)

Inductive pyexn : Type :=
| KeyboardInterrupt
| IndexError
| IOError
| OSError (errno : Z)
| ShutilError
| UnboundLocalError
| KeyError
| SystemExit (code : Z)
| ValueError
| ZeroDivisionError
| OverflowError
| VerificationError.

#[export] Instance pyexn_eq_dec : EqDecision pyexn.
Proof. solve_decision. Defined.

(** ** Negative indexing of a Python list: [l[-k]] for [k >= 1] *)

Definition neg_index {A : Type} (l : list A) (k : nat) : option A :=
  if decide (1 <= k <= length l) then l !! (length l - k) else None.

(** ** Tactics *)

(** Case analysis on the first [decide], [bool_decide] or [match] scrutinee. *)
Ltac case_step :=
  first [ case_decide | case_bool_decide | case_match ]; simplify_eq/=.

(** Decides a closed proposition by evaluation. *)
Ltac by_compute := apply (bool_decide_unpack _); by vm_compute.

(** ** Shared lemmas *)

Lemma neg_index_Some {A : Type} (l : list A) (k : nat) (x : A) :
  neg_index l k = Some x <-> 1 <= k <= length l /\ l !! (length l - k) = Some x.
Proof. unfold neg_index. case_decide; [tauto|]. split; [done|tauto]. Qed.

Lemma neg_index_None {A : Type} (l : list A) (k : nat) :
  neg_index l k = None <-> k = 0 \/ length l < k.
Proof.
  unfold neg_index. case_decide as H; [|split; [lia|done]].
  split; [|lia]. intros Hn%lookup_ge_None. lia.
Qed.

Lemma neg_index_app {A : Type} (l1 l2 : list A) (k : nat) :
  1 <= k <= length l2 -> neg_index (l1 ++ l2) k = neg_index l2 k.
Proof.
  intros Hk. unfold neg_index. rewrite length_app.
  rewrite !decide_True by lia.
  rewrite lookup_app_r by lia. f_equal. lia.
Qed.

#[export] Hint Rewrite @neg_index_app using (simpl; lia) : pystr.

Lemma filter_nil_Forall {A : Type} (P : A -> Prop) `{forall x, Decision (P x)} (l : list A) :
  filter P l = [] <-> Forall (fun x => ~ P x) l.
Proof.
  induction l as [|x l IH]; [done|].
  rewrite filter_cons, Forall_cons. case_decide; [|tauto].
  split; [done|tauto].
Qed.

Lemma last_filter_snoc {A : Type} (P : A -> Prop) `{forall x, Decision (P x)}
    (l : list A) (x : A) :
  last (filter P (l ++ [x])) = if decide (P x) then Some x else last (filter P l).
Proof.
  rewrite filter_app, filter_cons, filter_nil.
  case_decide; [apply last_snoc|by rewrite app_nil_r].
Qed.
