(* ===== verification/PyString.v ===== *)
(** * PyString: the Python string methods called by the program

    [sub.py] manipulates the text returned by the scheduler commands with
    [str.strip], [str.split], [str.find], [str.join] and [str.replace].  This
    file gives each an executable definition on [string] (a sequence of bytes,
    as Python 2 [str] is) and proves the facts the components rely on.
    [split] is the method applied to a one-character separator, the only form
    the program uses. The definitions live in [Module Str]. *)

From Stdlib Require Import Ascii String ZArith Lia.
From stdpp Require Import base tactics option list strings pretty.
From S2P Require Import Prelude.

Module Str.

(** The characters of a string, to state facts with list predicates. *)
Definition chars (s : string) : list ascii := list_ascii_of_string s.

(** The strings ["\n"] and ["\r"]. *)
Definition nl : string := String "010"%char EmptyString.
Definition cr : string := String "013"%char EmptyString.

(** [string.whitespace]: space, tab, newline, return, vertical tab, form feed. *)
Definition is_space (a : ascii) : bool := Ascii.is_space a.

Definition all_space (s : string) : Prop := Forall (fun a => is_space a = true) (chars s).

(** [s.lstrip()] *)
Fixpoint lstrip (s : string) : string :=
  match s with
  | EmptyString => EmptyString
  | String a s' => if is_space a then lstrip s' else s
  end.

(** [s.rstrip()] *)
Fixpoint rstrip (s : string) : string :=
  match s with
  | EmptyString => EmptyString
  | String a s' =>
      match rstrip s' with
      | EmptyString => if is_space a then EmptyString else String a EmptyString
      | r => String a r
      end
  end.

(** [s.strip()] *)
Definition strip (s : string) : string := rstrip (lstrip s).

(** [s.split(c)] for a one-character separator [c]: never the empty list. *)
Fixpoint split (c : ascii) (s : string) : list string :=
  match s with
  | EmptyString => [EmptyString]
  | String a s' =>
      if decide (a = c) then EmptyString :: split c s'
      else match split c s' with
           | w :: ws => String a w :: ws
           | [] => [String a EmptyString]
           end
  end.

(** [sep.join(l)] *)
Fixpoint join (sep : string) (l : list string) : string :=
  match l with
  | [] => EmptyString
  | [x] => x
  | x :: l' => x +:+ sep +:+ join sep l'
  end.

(** [s.startswith(p)] *)
Fixpoint startswith (p s : string) : bool :=
  match p, s with
  | EmptyString, _ => true
  | String a p', String b s' => bool_decide (a = b) && startswith p' s'
  | String _ _, EmptyString => false
  end.

(** The lowest index at which [sub] occurs in [s]. *)
Fixpoint index (sub s : string) : option nat :=
  if startswith sub s then Some 0
  else match s with
       | EmptyString => None
       | String _ s' => S <$> index sub s'
       end.

(** [s.find(sub)]: the lowest index, or [-1]. *)
Definition find (s sub : string) : Z :=
  match index sub s with
  | Some i => Z.of_nat i
  | None => (-1)%Z
  end.

(** [s.endswith(c)] for a one-character suffix. *)
Fixpoint endswith_char (c : ascii) (s : string) : bool :=
  match s with
  | EmptyString => false
  | String a EmptyString => bool_decide (a = c)
  | String _ s' => endswith_char c s'
  end.

(** [s.rstrip(c)] for a one-character set. *)
Fixpoint rstrip_char (c : ascii) (s : string) : string :=
  match s with
  | EmptyString => EmptyString
  | String a s' =>
      match rstrip_char c s' with
      | EmptyString => if decide (a = c) then EmptyString else String a EmptyString
      | r => String a r
      end
  end.

(** [s.replace(old, new)], scanning left to right; [skip] counts the
    characters of a matched occurrence that are still to be dropped. *)
Fixpoint replace_go (old new : string) (skip : nat) (s : string) : string :=
  match s with
  | EmptyString => EmptyString
  | String a s' =>
      match skip with
      | S k => replace_go old new k s'
      | O => if startswith old s
             then new +:+ replace_go old new (String.length old - 1) s'
             else String a (replace_go old new 0 s')
      end
  end.

(** With an empty [old], Python inserts [new] before every character and at
    the end. *)
Fixpoint intersperse (new s : string) : string :=
  match s with
  | EmptyString => new
  | String a s' => new +:+ String a (intersperse new s')
  end.

Definition replace (old new s : string) : string :=
  match old with
  | EmptyString => intersperse new s
  | _ => replace_go old new 0 s
  end.

(** The value of a decimal digit: the characters of codes 48 to 57. *)
Definition digit (a : ascii) : option nat :=
  let code := nat_of_ascii a in
  if decide (48 <= code <= 57) then Some (code - 48) else None.

(** [s.format] applied to [args], for templates whose replacement fields are a single
    digit: a field is replaced by the argument of that index, doubled braces
    stand for a brace.  [None] for any other use of a brace (other field
    syntax, or a template Python rejects) and for an index out of range. *)
Fixpoint format (args : list string) (s : string) : option string :=
  match s with
  | EmptyString => Some EmptyString
  | String "{" (String "{" s') => String "{" <$> format args s'
  | String "}" (String "}" s') => String "}" <$> format args s'
  | String "{" (String d (String "}" s')) =>
      match digit d with
      | Some i =>
          match args !! i with
          | Some a => String.app a <$> format args s'
          | None => None
          end
      | None => None
      end
  | String "{" _ => None
  | String "}" _ => None
  | String c s' => String c <$> format args s'
  end%char.

(** A placeholder of the submission template: [%name%]. *)
Definition token (name : string) : string := "%" +:+ name +:+ "%".

#[global] Arguments chars : simpl never.
#[global] Arguments token : simpl never.
#[global] Arguments strip : simpl never.

(** ** Lemmas: strip *)

Lemma chars_String a s : chars (String a s) = a :: chars s.
Proof. reflexivity. Qed.

Lemma app_String a s t : String a s +:+ t = String a (s +:+ t).
Proof. reflexivity. Qed.

Lemma app_empty_l s : EmptyString +:+ s = s.
Proof. reflexivity. Qed.

Lemma app_empty_r s : s +:+ EmptyString = s.
Proof. induction s as [|a s IH]; [done|]. by rewrite app_String, IH. Qed.

Lemma app_assoc s t u : s +:+ t +:+ u = (s +:+ t) +:+ u.
Proof. induction s as [|a s IH]; [done|]. by rewrite !app_String, IH. Qed.

Lemma chars_app s t : chars (s +:+ t) = chars s ++ chars t.
Proof.
  induction s as [|a s IH]; [done|].
  by rewrite app_String, !chars_String, IH.
Qed.

Lemma chars_inj s t : chars s = chars t -> s = t.
Proof.
  intros H. rewrite <-(string_of_list_ascii_of_string s),
    <-(string_of_list_ascii_of_string t). unfold chars in H. by rewrite H.
Qed.

Lemma lstrip_all_space s : all_space s -> lstrip s = EmptyString.
Proof.
  unfold all_space. induction s as [|a s IH]; [done|].
  rewrite chars_String, Forall_cons. intros [Ha Hs]. cbn. rewrite Ha. auto.
Qed.

Lemma lstrip_head s a t : lstrip s = String a t -> is_space a = false.
Proof.
  induction s as [|b s IH]; [done|]. cbn.
  destruct (is_space b) eqn:Hb; [done|]. by intros [= -> ->].
Qed.

Lemma lstrip_fixed a s : is_space a = false -> lstrip (String a s) = String a s.
Proof. intros H. cbn. by rewrite H. Qed.

Lemma lstrip_idem s : lstrip (lstrip s) = lstrip s.
Proof.
  destruct (lstrip s) as [|a t] eqn:E; [done|].
  apply lstrip_fixed. eauto using lstrip_head.
Qed.

Lemma rstrip_all_space s : all_space s -> rstrip s = EmptyString.
Proof.
  unfold all_space. induction s as [|a s IH]; [done|].
  rewrite chars_String, Forall_cons. intros [Ha Hs]. cbn.
  by rewrite (IH Hs), Ha.
Qed.

Lemma rstrip_empty_inv s : rstrip s = EmptyString -> all_space s.
Proof.
  unfold all_space. induction s as [|a s IH]; [constructor|]. cbn.
  destruct (rstrip s) eqn:E; [|done].
  destruct (is_space a) eqn:Ha; [|done]. intros _.
  rewrite chars_String. constructor; auto.
Qed.

Lemma rstrip_head a s :
  is_space a = false -> exists t, rstrip (String a s) = String a t.
Proof. intros Ha. cbn. destruct (rstrip s); rewrite ?Ha; eauto. Qed.

Lemma rstrip_cons a s b r :
  rstrip s = String b r -> rstrip (String a s) = String a (String b r).
Proof. cbn. by intros ->. Qed.

Lemma rstrip_idem s : rstrip (rstrip s) = rstrip s.
Proof.
  induction s as [|a s IH]; [done|].
  destruct (rstrip s) as [|b r] eqn:E.
  - cbn. rewrite E. destruct (is_space a) eqn:Ha; [done|]. cbn. by rewrite Ha.
  - rewrite (rstrip_cons a s b r E). by apply rstrip_cons.
Qed.

Lemma strip_all_space s : all_space s -> strip s = EmptyString.
Proof. intros H. unfold strip. by rewrite lstrip_all_space. Qed.

Lemma strip_empty_iff s : strip s = EmptyString <-> all_space s.
Proof.
  split; [|apply strip_all_space]. unfold strip.
  destruct (lstrip s) as [|a t] eqn:E.
  - intros _. clear -E. unfold all_space.
    induction s as [|b s IH]; [constructor|]. cbn in E.
    destruct (is_space b) eqn:Hb; [|done].
    rewrite chars_String. constructor; auto.
  - intros H. destruct (rstrip_head a t (lstrip_head _ _ _ E)) as [r Hr]. congruence.
Qed.

Lemma strip_idem s : strip (strip s) = strip s.
Proof.
  unfold strip. destruct (lstrip s) as [|a t] eqn:E; [done|].
  pose proof (lstrip_head _ _ _ E) as Ha.
  destruct (rstrip_head a t Ha) as [r Hr]. rewrite Hr.
  rewrite (lstrip_fixed _ _ Ha), <-Hr. apply rstrip_idem.
Qed.

Lemma strip_empty : strip EmptyString = EmptyString.
Proof. reflexivity. Qed.

(** ** Lemmas: split and join *)

Lemma split_nonnil c s : split c s <> [].
Proof. destruct s as [|a s]; [done|]. cbn. case_decide; [done|]. by case_match. Qed.

Lemma split_sep c s : split c (String c s) = EmptyString :: split c s.
Proof. cbn. by rewrite decide_True. Qed.

Lemma split_other a c s :
  a <> c ->
  exists w ws, split c s = w :: ws /\ split c (String a s) = String a w :: ws.
Proof.
  intros Hne. cbn. rewrite decide_False by done.
  destruct (split c s) as [|w ws] eqn:E; [by destruct (split_nonnil c s)|eauto].
Qed.

Lemma join_cons sep x y l : join sep (x :: y :: l) = x +:+ sep +:+ join sep (y :: l).
Proof. reflexivity. Qed.

(** Joining the pieces with the separator gives the string back. *)
Lemma join_split c s : join (String c EmptyString) (split c s) = s.
Proof.
  induction s as [|a s IH]; [done|].
  destruct (decide (a = c)) as [->|Hne].
  - rewrite split_sep.
    destruct (split c s) as [|w ws] eqn:E; [by destruct (split_nonnil c s)|].
    by rewrite join_cons, IH.
  - destruct (split_other a c s Hne) as (w & ws & E & ->). rewrite E in IH.
    destruct ws as [|y ws]; [by cbn in *; subst|].
    rewrite join_cons in *. by rewrite app_String, IH.
Qed.

(** No piece contains the separator. *)
Lemma split_no_sep c s : Forall (fun w => c ∉ chars w) (split c s).
Proof.
  induction s as [|a s IH].
  - repeat constructor. unfold chars. cbn. apply not_elem_of_nil.
  - destruct (decide (a = c)) as [->|Hne].
    + rewrite split_sep. constructor; [apply not_elem_of_nil|done].
    + destruct (split_other a c s Hne) as (w & ws & E & ->). rewrite E in IH.
      inversion_clear IH. constructor; [|done].
      rewrite chars_String, not_elem_of_cons. auto.
Qed.

(** A string without the separator is a single piece. *)
Lemma split_single c s : c ∉ chars s -> split c s = [s].
Proof.
  induction s as [|a s IH]; [done|].
  rewrite chars_String, not_elem_of_cons. intros [Hne Hs].
  destruct (split_other a c s (not_eq_sym Hne)) as (w & ws & E & ->).
  rewrite (IH Hs) in E. by simplify_eq.
Qed.

(** The first piece ends at the first separator. *)
Lemma split_app c s t :
  c ∉ chars s -> split c (s +:+ String c t) = s :: split c t.
Proof.
  induction s as [|a s IH]; [intros _; apply split_sep|].
  rewrite chars_String, not_elem_of_cons. intros [Hne Hs]. rewrite app_String.
  destruct (split_other a c (s +:+ String c t) (not_eq_sym Hne)) as (w & ws & E & ->).
  rewrite (IH Hs) in E. by simplify_eq.
Qed.

(** Splitting a joined list of separator-free pieces gives the list back. *)
Lemma split_join c l :
  l <> [] -> Forall (fun w => c ∉ chars w) l ->
  split c (join (String c EmptyString) l) = l.
Proof.
  induction l as [|x l IH]; [done|]. intros _ Hall.
  apply Forall_cons in Hall as [Hx Hl].
  destruct l as [|y l]; [by apply split_single|].
  change (join _ (x :: y :: l)) with (x +:+ String c (join (String c EmptyString) (y :: l))).
  rewrite split_app by done. f_equal. by apply IH.
Qed.

(** ** Lemmas: startswith, index and find *)

Lemma startswith_spec p s : startswith p s = true <-> exists r, s = p +:+ r.
Proof.
  revert s. induction p as [|a p IH]; intros s; cbn.
  - split; eauto.
  - destruct s as [|b s]; [split; [done|by intros [? ?]]|].
    rewrite andb_true_iff, bool_decide_eq_true, IH.
    split; [intros [-> [r ->]]; eauto|].
    intros [r Hr]. rewrite app_String in Hr. simplify_eq. eauto.
Qed.

Lemma index_Some sub s i :
  index sub s = Some i ->
  exists a b, s = a +:+ sub +:+ b /\ String.length a = i.
Proof.
  revert i. induction s as [|c s IH]; intros i; cbn.
  - destruct (startswith sub EmptyString) eqn:E; [|done].
    intros [= <-]. apply startswith_spec in E as [r ->]. by exists EmptyString, r.
  - destruct (startswith sub (String c s)) eqn:E.
    + intros [= <-]. apply startswith_spec in E as [r ->]. by exists EmptyString, r.
    + destruct (index sub s) as [j|]; [|done]. intros [= <-].
      destruct (IH j eq_refl) as (a & b & -> & <-). by exists (String c a), b.
Qed.

Lemma index_None sub s a b : index sub s = None -> s <> a +:+ sub +:+ b.
Proof.
  revert a. induction s as [|c s IH]; intros a; cbn.
  - destruct (startswith sub EmptyString) eqn:E; [done|]. intros _ Hs.
    destruct a; [|done]. rewrite app_empty_l in Hs.
    assert (startswith sub EmptyString = true) by (apply startswith_spec; eauto).
    congruence.
  - destruct (startswith sub (String c s)) eqn:E; [done|].
    destruct (index sub s) eqn:Ei; [done|]. intros _ Hs.
    destruct a as [|c' a].
    + rewrite app_empty_l in Hs.
      assert (startswith sub (String c s) = true) by (apply startswith_spec; eauto).
      congruence.
    + rewrite app_String in Hs. simplify_eq. by eapply IH.
Qed.

(** [s.find(sub) != -1] exactly when [sub] occurs in [s]. *)
Lemma find_found_iff s sub :
  find s sub <> (-1)%Z <-> exists a b, s = a +:+ sub +:+ b.
Proof.
  unfold find. destruct (index sub s) as [i|] eqn:E.
  - split; [|lia]. intros _. apply index_Some in E as (a & b & ? & ?). eauto.
  - split; [done|]. intros (a & b & Hs). by apply (index_None _ _ a b) in E.
Qed.

Lemma find_empty s : find s EmptyString = 0%Z.
Proof. unfold find. by destruct s. Qed.

Lemma find_self s : find s s = 0%Z.
Proof.
  unfold find. assert (startswith s s = true) as E.
  { apply startswith_spec. exists EmptyString. by rewrite app_empty_r. }
  destruct s; cbn in *; by rewrite ?E.
Qed.

(** ** Lemmas: characters that do not occur *)

Lemma rstrip_char_absent c s : c ∉ chars s -> rstrip_char c s = s.
Proof.
  induction s as [|a s IH]; [done|]. rewrite chars_String.
  intros [Ha Hs]%not_elem_of_cons. cbn. rewrite (IH Hs).
  destruct s; [by rewrite decide_False|done].
Qed.

Lemma startswith_absent c s : c ∉ chars s -> startswith (String c EmptyString) s = false.
Proof.
  destruct s as [|a s]; [done|]. rewrite chars_String.
  intros [Ha Hs]%not_elem_of_cons. cbn. by rewrite bool_decide_eq_false_2.
Qed.

(** ** Lemmas: format *)

(** A prefix without braces is copied. *)
Lemma format_plain args p s :
  "{"%char ∉ chars p -> "}"%char ∉ chars p ->
  format args (p +:+ s) = String.app p <$> format args s.
Proof.
  induction p as [|c p IH]; intros Ho Hc.
  { rewrite app_empty_l. by destruct (format args s). }
  rewrite chars_String in Ho, Hc. apply not_elem_of_cons in Ho as [Ho1 Ho2].
  apply not_elem_of_cons in Hc as [Hc1 Hc2].
  rewrite app_String. specialize (IH Ho2 Hc2).
  assert (format args (String c (p +:+ s)) = String c <$> format args (p +:+ s)) as ->.
  { destruct c as [[] [] [] [] [] [] [] []]; try done; by destruct (p +:+ s). }
  rewrite IH. by destruct (format args s).
Qed.

(** ** Lemmas: replace *)

Lemma replace_go_drop old new p s :
  replace_go old new (String.length p) (p +:+ s) = replace_go old new 0 s.
Proof.
  induction p as [|a p IH]; [done|]. cbn. done.
Qed.

Lemma startswith_refl_app p s : startswith p (p +:+ s) = true.
Proof. apply startswith_spec. by exists s. Qed.

(** An occurrence at the head is replaced. *)
Lemma replace_here c old new s :
  replace (String c old) new (String c old +:+ s) = new +:+ replace (String c old) new s.
Proof.
  unfold replace. rewrite app_String. cbn [replace_go].
  rewrite <-app_String, startswith_refl_app.
  cbn [String.length]. rewrite Nat.sub_1_r. cbn [Nat.pred]. by rewrite replace_go_drop.
Qed.

(** A character that does not start an occurrence is copied. *)
Lemma replace_copy c old new a s :
  startswith (String c old) (String a s) = false ->
  replace (String c old) new (String a s) = String a (replace (String c old) new s).
Proof. intros H. unfold replace. cbn [replace_go]. by rewrite H. Qed.

(** A prefix without the first character of [old] is copied. *)
Lemma replace_plain c old new p s :
  c ∉ chars p ->
  replace (String c old) new (p +:+ s) = p +:+ replace (String c old) new s.
Proof.
  induction p as [|a p IH]; [done|]. rewrite chars_String.
  intros [Ha Hp]%not_elem_of_cons. rewrite app_String, replace_copy, IH by
    first [done|cbn; by rewrite bool_decide_eq_false_2].
  done.
Qed.

Lemma replace_absent c old new p :
  c ∉ chars p -> replace (String c old) new p = p.
Proof.
  intros H. rewrite <-(app_empty_r p) at 1. rewrite replace_plain by done.
  by rewrite app_empty_r.
Qed.

Lemma not_in_String c a s : c ∉ chars (String a s) <-> c <> a /\ c ∉ chars s.
Proof. by rewrite chars_String, not_elem_of_cons. Qed.

(** The name of a token is what stands between its two signs. *)
Lemma startswith_name_ne name t r :
  "%"%char ∉ chars name -> "%"%char ∉ chars t -> name <> t ->
  startswith (name +:+ "%") (t +:+ String "%" r) = false.
Proof.
  revert t. induction name as [|b name IH]; intros [|a t] Hn Ht Hne;
    try apply not_in_String in Hn as [Hb Hn]; try apply not_in_String in Ht as [Ha Ht];
    rewrite ?app_String, ?app_empty_l; cbn [startswith]; [done|..].
  - by rewrite bool_decide_eq_false_2.
  - by rewrite bool_decide_eq_false_2.
  - destruct (decide (b = a)) as [->|Hab]; [|by rewrite bool_decide_eq_false_2].
    rewrite bool_decide_eq_true_2 by done. apply IH; [done..|congruence].
Qed.

Lemma startswith_name_open name t :
  "%"%char ∉ chars t -> startswith (name +:+ "%") t = false.
Proof.
  revert t. induction name as [|b name IH]; intros [|a t] Ht;
    try apply not_in_String in Ht as [Ha Ht];
    rewrite ?app_String, ?app_empty_l; cbn [startswith]; [done|..|done|].
  - by rewrite bool_decide_eq_false_2.
  - rewrite IH by done. apply andb_false_r.
Qed.

Lemma token_eq name : token name = String "%" (name +:+ "%").
Proof. unfold token. by rewrite app_String, app_empty_l. Qed.

(** ** Lemmas: replacing a token in a text cut in pieces *)

(** A piece without a sign is copied. *)
Lemma replace_token_plain name new p s :
  "%"%char ∉ chars p ->
  replace (token name) new (p +:+ s) = p +:+ replace (token name) new s.
Proof. rewrite token_eq. apply replace_plain. Qed.

Lemma replace_token_absent name new p :
  "%"%char ∉ chars p -> replace (token name) new p = p.
Proof. rewrite token_eq. apply replace_absent. Qed.

(** The token itself is replaced. *)
Lemma replace_token_here name new s :
  replace (token name) new (token name +:+ s) = new +:+ replace (token name) new s.
Proof. rewrite token_eq. apply replace_here. Qed.

(** Another token is copied, when what follows its second sign does not
    complete an occurrence. *)
Lemma replace_token_other name other new s :
  "%"%char ∉ chars name -> "%"%char ∉ chars other -> name <> other ->
  startswith (token name) ("%" +:+ s) = false ->
  replace (token name) new (token other +:+ s) =
    token other +:+ replace (token name) new s.
Proof.
  intros Hn Ho Hne Hs. rewrite !token_eq in *. rewrite app_String, app_empty_l in Hs.
  rewrite app_String, <-app_assoc, app_String, app_empty_l.
  rewrite replace_copy by (cbn [startswith]; by rewrite startswith_name_ne).
  rewrite replace_plain, replace_copy by done.
  by rewrite app_String, <-app_assoc, app_String, app_empty_l.
Qed.

(** What may follow another token: a piece without a sign that is not the
    name, and then a token; or a last piece without a sign. *)
Lemma startswith_token_ne name t other r :
  "%"%char ∉ chars name -> "%"%char ∉ chars t -> name <> t ->
  startswith (token name) ("%" +:+ t +:+ token other +:+ r) = false.
Proof.
  intros. rewrite !token_eq, !app_String, !app_empty_l. cbn [startswith].
  by rewrite startswith_name_ne.
Qed.

Lemma startswith_token_open name t :
  "%"%char ∉ chars t -> startswith (token name) ("%" +:+ t) = false.
Proof.
  intros. rewrite token_eq, !app_String, !app_empty_l. cbn [startswith].
  by rewrite startswith_name_open.
Qed.

(** ** Lemmas: decimal numbers *)

(** [str(n)] of an integer has digits and a sign, nothing else. *)
Lemma pretty_N_go_no_percent x s :
  "%"%char ∉ chars s -> "%"%char ∉ chars (pretty_N_go x s).
Proof.
  revert s. induction (N.lt_wf_0 x) as [x _ IH]; intros s Hs.
  destruct (decide (x = 0%N)) as [->|Hx]; [done|].
  rewrite pretty_N_go_step by lia. apply IH; [apply N.div_lt; lia|].
  apply not_in_String. split; [|done]. unfold pretty_N_char. by repeat case_match.
Qed.

Lemma pretty_Z_no_percent (z : Z) : "%"%char ∉ chars (pretty z).
Proof.
  assert (forall p : positive, "%"%char ∉ chars (pretty p)) as Hp.
  { intros p. unfold pretty, pretty_positive, pretty, pretty_N. case_decide; [done|].
    apply pretty_N_go_no_percent. by intros ?%elem_of_nil. }
  destruct z as [|p|p]; unfold pretty, pretty_Z; [|apply Hp|].
  { apply not_in_String. split; [done|by intros ?%elem_of_nil]. }
  apply not_in_String. split; [done|apply Hp].
Qed.

End Str.
