(* ===== verification/PyPath.v ===== *)
(** * PyPath: the [os.path] functions called by the program

    [os.path.join] of two components and [os.path.basename], as [posixpath]
    defines them, on the strings of [PyString]. *)

From Stdlib Require Import Ascii String.
From stdpp Require Import base strings list.
From S2P Require Import Prelude PyString.

Module OsPath.

(** [os.path.join(a, b)] *)
Definition join (a b : string) : string :=
  if Str.startswith "/" b then b
  else if bool_decide (a = EmptyString) || Str.endswith_char "/" a then a +:+ b
  else a +:+ "/" +:+ b.

(** [os.path.basename(p)]: what follows the last slash. *)
Definition basename (p : string) : string :=
  default EmptyString (last (Str.split "/" p)).

Lemma basename_no_slash p : "/"%char ∉ Str.chars p -> basename p = p.
Proof. intros H. unfold basename. by rewrite Str.split_single. Qed.

Lemma join_relative a b :
  a <> EmptyString -> Str.endswith_char "/" a = false -> Str.startswith "/" b = false ->
  join a b = a +:+ "/" +:+ b.
Proof.
  intros Ha He Hb. unfold join. rewrite Hb, He.
  by rewrite bool_decide_eq_false_2.
Qed.

(** The path of a file moved into a directory. *)
Lemma join_file dst src :
  "/"%char ∉ Str.chars src -> dst <> EmptyString -> Str.endswith_char "/" dst = false ->
  join dst (basename (Str.rstrip_char "/" src)) = dst +:+ "/" +:+ src.
Proof.
  intros Hs Hd He. rewrite Str.rstrip_char_absent, basename_no_slash by done.
  apply join_relative; [done..|]. by apply Str.startswith_absent.
Qed.

End OsPath.
