(* ===== verification/Job.v ===== *)
(** * Job: the data of one run

    The [Submit] object of [sub.py] with its constructor, the tuple returned by
    [call_command], and the two module-level paths [BIN_DIR] and [SOURCES],
    which the script computes from the environment and from [sub.cfg] when it
    is loaded and which are parameters here ([config]). *)

From Stdlib Require Import Ascii String ZArith.
From stdpp Require Import base tactics strings list.
From S2P Require Import Prelude PyString PyPath.

Module Job.

(** The tuple [(command, returncode, out, err)] returned by [call_command]. *)
Record cmd_result : Type := CmdResult {
  cr_command : string;
  cr_ret_code : Z;
  cr_stdout : string;
  cr_stderr : string }.

(** The attributes of a [Submit] instance. *)
Record Submit : Type := mkSubmit {
  project : string;
  proc_id : option string;
  num_nodes : Z;
  num_processes : Z;
  input_args : list string;
  cpu_time_used : string }.

(** [Submit.__init__] *)
Definition init (project : string) (num_nodes num_processes : Z)
    (input_args : list string) : Submit :=
  {| project := project; proc_id := None; num_nodes := num_nodes;
     num_processes := num_processes; input_args := input_args;
     cpu_time_used := EmptyString |}.

(** [self.cpu_time_used = v] *)
Definition set_cpu_time_used (v : string) (o : Submit) : Submit :=
  {| project := project o; proc_id := proc_id o; num_nodes := num_nodes o;
     num_processes := num_processes o; input_args := input_args o;
     cpu_time_used := v |}.

(** Two [Submit] objects that agree on everything but [cpu_time_used], the
    one attribute that [run] assigns. *)
Record same_job (o o' : Submit) : Prop := SameJob {
  same_project : project o = project o';
  same_proc_id : proc_id o = proc_id o';
  same_num_nodes : num_nodes o = num_nodes o';
  same_num_processes : num_processes o = num_processes o';
  same_input_args : input_args o = input_args o' }.

(** What the script reads when it is loaded: [$HOME] and the [source_dir]
    option of section [sub] in [sub.cfg]. *)
Record config : Type := Config {
  home : string;
  source_dir : string }.

(** Which [return] statement of [Submit.run] ended the run, named after the
    failure it reports; [Done] is the end of the method. *)
Inductive exit_point : Type :=
| BuildFailure
| TemplateIOFailure
| SubmitFailure
| QueryFailure
| CancelFailure
| UserAbort
| Done.

(** What a part of [run] hands to the rest: it returned, or control goes on. *)
Inductive flow (A : Type) : Type :=
| Return (x : exit_point)
| Continue (a : A).

#[global] Arguments Return {A} x.
#[global] Arguments Continue {A} a.

Definition BIN_DIR (cfg : config) : string := OsPath.join (home cfg) "bin".
Definition SOURCES (cfg : config) : string := source_dir cfg.

#[export] Instance cmd_result_eq_dec : EqDecision cmd_result.
Proof. solve_decision. Defined.

#[export] Instance Submit_eq_dec : EqDecision Submit.
Proof. solve_decision. Defined.

#[export] Instance exit_point_eq_dec : EqDecision exit_point.
Proof. solve_decision. Defined.

#[export] Instance flow_eq_dec {A : Type} `{EqDecision A} : EqDecision (flow A).
Proof. solve_decision. Defined.

(** What [same_job] means, attribute by attribute. *)
Lemma same_job_spec o o' :
  same_job o o' <->
  project o = project o' /\ proc_id o = proc_id o' /\ num_nodes o = num_nodes o' /\
  num_processes o = num_processes o' /\ input_args o = input_args o'.
Proof. split; [by intros []|by intros (? & ? & ? & ? & ?)]. Qed.

#[export] Instance same_job_dec : RelDecision same_job.
Proof.
  intros o o'. refine (cast_if (decide (project o = project o' /\ proc_id o = proc_id o' /\
    num_nodes o = num_nodes o' /\ num_processes o = num_processes o' /\
    input_args o = input_args o'))); by rewrite same_job_spec.
Defined.

#[export] Instance same_job_equiv : Equivalence same_job.
Proof.
  split.
  - by intros o.
  - intros o o' []. by split.
  - intros o1 o2 o3 [] []. split; congruence.
Qed.

Lemma same_job_set_cpu_time_used v o : same_job o (set_cpu_time_used v o).
Proof. done. Qed.

#[export] Instance project_proper : Proper (same_job ==> eq) project.
Proof. by intros o o' []. Qed.

#[export] Instance proc_id_proper : Proper (same_job ==> eq) proc_id.
Proof. by intros o o' []. Qed.

#[export] Instance num_nodes_proper : Proper (same_job ==> eq) num_nodes.
Proof. by intros o o' []. Qed.

#[export] Instance num_processes_proper : Proper (same_job ==> eq) num_processes.
Proof. by intros o o' []. Qed.

#[export] Instance input_args_proper : Proper (same_job ==> eq) input_args.
Proof. by intros o o' []. Qed.

End Job.
