(* ===== verification/World.v ===== *)
(** * World: the process state, its environment, and the effect monad

    [sub.py] is a sequence of effects: it prints, launches shell commands and
    waits for them ([call_command]), sleeps, and reads and changes the file
    system, and a keyboard interrupt may arrive while it waits.  This file
    fixes how those effects are modelled.

    - [env] is what the program does not control: the outcome of the n-th
      shell command, the ticks at which SIGINT arrives, the files the cluster
      writes at each tick, and which directories the user may write to.
    - [state] is what changes: the [Submit] object, a logical clock that ticks
      at every operation that waits ([elapse]), the number of commands
      launched, the file system (files by path, directories), and the [trace]
      of what the program did (prints, flushes, commands, sleeps, and every
      file-system call it attempted), oldest first.
    - [M A] is a computation: from an environment and a state to a result
      ([Val], a Python exception [Exn], or [Stop] when a loop ran out of fuel
      or left the modelled fragment) and the state reached.

    [call_command] models lines 46-50 of [sub.py]; the other operations model
    the library calls the script makes ([print], [sys.stdout.flush],
    [time.sleep], [os.path.exists], [os.path.isfile], [os.mkdir], [open],
    [shutil.move] on regular files, [os.listdir], [os.system]). *)

From Stdlib Require Import Ascii String ZArith Lia.
From stdpp Require Import base tactics option list strings gmap.
From S2P Require Import Prelude PyString PyPath Job.
Import Job.

Module World.

(** ** Data *)

Inductive event : Type :=
| EvPrint (text : string)
| EvFlush
| EvCall (command : string)
| EvSleep (ms : nat)
| EvStat (path : string)
| EvMkdir (path : string)
| EvRead (path : string)
| EvWrite (path : string)
| EvMove (src dst : string)
| EvListdir (path : string)
| EvSystem (command : string).

Record env : Type := Env {
  replies : nat -> Z * string * string;
  sigint : nat -> bool;
  arrivals : nat -> list (string * string);
  writable : string -> bool }.

Record state : Type := State {
  self : Submit;
  clock : nat;
  ncalls : nat;
  files : gmap string string;
  dirs : gset string;
  trace : list event }.

Inductive halt : Type := OutOfFuel | NotModelled.

Inductive res (A : Type) : Type :=
| Val (a : A)
| Exn (e : pyexn)
| Stop (h : halt).

#[global] Arguments Val {A} a.
#[global] Arguments Exn {A} e.
#[global] Arguments Stop {A} h.

Definition M (A : Type) : Type := env -> state -> res A * state.

(** ** The monad *)

Definition ret {A : Type} (a : A) : M A := fun _ s => (Val a, s).

Definition bind {A B : Type} (m : M A) (k : A -> M B) : M B := fun e s =>
  match m e s with
  | (Val a, s') => k a e s'
  | (Exn x, s') => (Exn x, s')
  | (Stop h, s') => (Stop h, s')
  end.

Definition raise {A : Type} (x : pyexn) : M A := fun _ s => (Exn x, s).

Definition stop {A : Type} (h : halt) : M A := fun _ s => (Stop h, s).

(** [try: m except ...]: the handler answers [None] for an exception that no
    [except] clause matches. *)
Definition try_except {A : Type} (m : M A) (h : pyexn -> option (M A)) : M A :=
  fun e s =>
    match m e s with
    | (Exn x, s') => match h x with
                     | Some k => k e s'
                     | None => (Exn x, s')
                     end
    | r => r
    end.

Notation "x <- m ;; k" := (bind m (fun x => k))
  (at level 100, m at next level, right associativity) : py_scope.
Notation "m ;; k" := (bind m (fun _ => k))
  (at level 100, right associativity) : py_scope.
#[local] Open Scope py_scope.

(** A step that returned ends the sequence; otherwise the next step runs. *)
Definition and_then {A B : Type} (m : M (flow A)) (k : A -> M (flow B)) : M (flow B) :=
  f <- m ;;
  match f with
  | Return x => ret (Return x)
  | Continue a => k a
  end.

(** ** State access *)

Definition gets {A : Type} (f : state -> A) : M A := fun _ s => (Val (f s), s).
Definition asks {A : Type} (f : env -> A) : M A := fun e s => (Val (f e), s).
Definition modify (f : state -> state) : M unit := fun _ s => (Val tt, f s).

Definition with_self (f : Submit -> Submit) (s : state) : state :=
  {| self := f (self s); clock := clock s; ncalls := ncalls s;
     files := files s; dirs := dirs s; trace := trace s |}.

Definition with_files (f : gmap string string -> gmap string string) (s : state) : state :=
  {| self := self s; clock := clock s; ncalls := ncalls s;
     files := f (files s); dirs := dirs s; trace := trace s |}.

Definition with_dirs (f : gset string -> gset string) (s : state) : state :=
  {| self := self s; clock := clock s; ncalls := ncalls s;
     files := files s; dirs := f (dirs s); trace := trace s |}.

Definition log (ev : event) (s : state) : state :=
  {| self := self s; clock := clock s; ncalls := ncalls s;
     files := files s; dirs := dirs s; trace := trace s ++ [ev] |}.

Definition count_call (s : state) : state :=
  {| self := self s; clock := clock s; ncalls := S (ncalls s);
     files := files s; dirs := dirs s; trace := trace s |}.

(** The files written during one tick; a later write to a path wins. *)
Definition write_all (ws : list (string * string)) (fs : gmap string string) :
    gmap string string :=
  foldl (fun m w => <[w.1 := w.2]> m) fs ws.

(** One tick: the clock advances and the cluster's writes of this tick land. *)
Definition advance (e : env) (s : state) : state :=
  {| self := self s; clock := S (clock s); ncalls := ncalls s;
     files := write_all (arrivals e (clock s)) (files s);
     dirs := dirs s; trace := trace s |}.

(** ** Effects *)

(** The program waits: time passes, and a SIGINT of this tick is delivered as
    [KeyboardInterrupt]. *)
Definition elapse : M unit := fun e s =>
  (if sigint e (clock s) then Exn KeyboardInterrupt else Val tt, advance e s).

Definition emit (ev : event) : M unit := modify (log ev).

(** [print(text, end=end_)] *)
Definition print (text end_ : string) : M unit := emit (EvPrint (text +:+ end_)).

(** [sys.stdout.flush()] *)
Definition flush : M unit := emit EvFlush.

(** [time.sleep], in milliseconds *)
Definition sleep (ms : nat) : M unit := emit (EvSleep ms) ;; elapse.

(** [call_command(command)]: the command is launched, the program waits for
    it, and gets the environment's answer for this launch. *)
Definition call_command (command : string) : M cmd_result :=
  emit (EvCall command) ;;
  n <- gets ncalls ;;
  modify count_call ;;
  elapse ;;
  r <- asks (fun e => replies e n) ;;
  ret (CmdResult command r.1.1 r.1.2 r.2).

(** The tuple [call_command(command)] returns for the [n]-th launch. *)
Definition reply_at (e : env) (n : nat) (command : string) : cmd_result :=
  CmdResult command (replies e n).1.1 (replies e n).1.2 (replies e n).2.

(** [self.cpu_time_used = v] *)
Definition assign_cpu_time_used (v : string) : M unit :=
  modify (with_self (set_cpu_time_used v)).

(** ** File system *)

Definition is_file (p : string) (s : state) : bool := bool_decide (is_Some (files s !! p)).
Definition is_dir (p : string) (s : state) : bool := bool_decide (p ∈ dirs s).
Definition path_exists (p : string) (s : state) : bool := is_dir p s || is_file p s.

(** [os.path.exists(p)] *)
Definition exists_ (p : string) : M bool :=
  emit (EvStat p) ;; elapse ;; gets (path_exists p).

(** [os.path.isfile(p)] *)
Definition isfile (p : string) : M bool :=
  emit (EvStat p) ;; elapse ;; gets (is_file p).

(** [os.mkdir(p)] in the working directory: errno 17 when the path exists,
    13 when the directory may not be written. *)
Definition mkdir (p : string) : M unit :=
  emit (EvMkdir p) ;;
  ex <- gets (path_exists p) ;;
  w <- asks (fun e => writable e ".") ;;
  if ex then raise (OSError 17)
  else if w then modify (with_dirs (fun d => {[p]} ∪ d))
  else raise (OSError 13).

(** [open(p, "r").read()] *)
Definition read_file (p : string) : M string :=
  emit (EvRead p) ;;
  c <- gets (fun s => files s !! p) ;;
  match c with
  | Some text => ret text
  | None => raise IOError
  end.

(** [open(p, "w").write(text)] for a path in the working directory. *)
Definition write_file (p text : string) : M unit :=
  emit (EvWrite p) ;;
  d <- gets (is_dir p) ;;
  f <- gets (is_file p) ;;
  w <- asks (fun e => writable e ".") ;;
  if d then raise IOError
  else if f || w then modify (with_files (insert p text))
  else raise IOError.

(** [shutil.move(src, dst)] for a regular file [src] of the working directory.
    Into a directory [dst] the file keeps its base name and an existing
    destination is an error; otherwise [dst] is overwritten.  When the rename
    is refused the library copies and then unlinks. *)
Definition move (src dst : string) : M unit :=
  emit (EvMove src dst) ;;
  src_dir <- gets (is_dir src) ;;
  dst_dir <- gets (is_dir dst) ;;
  let real_dst :=
    if dst_dir then OsPath.join dst (OsPath.basename (Str.rstrip_char "/" src)) else dst in
  taken <- gets (path_exists real_dst) ;;
  content <- gets (fun s => files s !! src) ;;
  w_cwd <- asks (fun e => writable e ".") ;;
  w_dst <- asks (fun e => writable e (if dst_dir then dst else ".")) ;;
  if src_dir then stop NotModelled
  else if dst_dir && taken then raise ShutilError
  else match content with
       | None => raise IOError
       | Some text =>
           if w_cwd && w_dst
           then modify (with_files (fun fs => <[real_dst := text]> (delete src fs)))
           else if w_dst
           then modify (with_files (insert real_dst text)) ;; raise (OSError 13)
           else raise IOError
       end.

(** The entries of directory [d]: the last components of the paths that are
    [d] joined with them.  The order is that of the underlying set; the system
    promises none. *)
Definition entries (d : string) (s : state) : list string :=
  omap (fun q => let n := OsPath.basename q in
                 if decide (n <> EmptyString /\ OsPath.join d n = q) then Some n else None)
       (elements (dirs s ∪ dom (files s))).

(** [os.listdir(p)]: errno 2 when there is no such path, 20 when it is a file. *)
Definition listdir (p : string) : M (list string) :=
  emit (EvListdir p) ;;
  d <- gets (is_dir p) ;;
  f <- gets (is_file p) ;;
  if d then gets (entries p)
  else raise (OSError (if f then 20 else 2)).

(** [os.system(command)]: the command runs on the terminal and the program
    waits for it; SIGINT is ignored in the meantime. *)
Definition system (command : string) : M unit :=
  emit (EvSystem command) ;;
  (fun e s => (Val tt, advance e s)).

(** ** Specifications on computations *)

(** Two computations are equal when they agree on every environment and state. *)
Definition meq {A : Type} (m1 m2 : M A) : Prop := forall e s, m1 e s = m2 e s.

(** [preserves I m]: a run of [m] from a state of [I] ends in a state of [I],
    whatever its result. *)
Definition preserves {A : Type} (I : state -> Prop) (m : M A) : Prop :=
  forall e s r s', I s -> m e s = (r, s') -> I s'.

(** [relates R m]: a run of [m] takes a state to an [R]-related state. *)
Definition relates {A : Type} (R : state -> state -> Prop) (m : M A) : Prop :=
  forall e s r s', m e s = (r, s') -> R s s'.

(** What no operation undoes: the trace and the two counters only grow,
    directories are never removed, and the [Submit] object changes in
    [cpu_time_used] only. *)
Record grows (s s' : state) : Prop := Grows {
  grows_self : same_job (self s) (self s');
  grows_trace : trace s `prefix_of` trace s';
  grows_clock : clock s <= clock s';
  grows_ncalls : ncalls s <= ncalls s';
  grows_dirs : dirs s ⊆ dirs s' }.

(** The number of commands in a trace. *)
Definition is_call (ev : event) : bool :=
  match ev with EvCall _ => true | _ => false end.

Definition calls (t : list event) : list string :=
  omap (fun ev => match ev with EvCall c => Some c | _ => None end) t.

Definition prints (t : list event) : list string :=
  omap (fun ev => match ev with EvPrint c => Some c | _ => None end) t.

(** The file-system calls of a trace. *)
Definition is_fs (ev : event) : bool :=
  match ev with
  | EvStat _ | EvMkdir _ | EvRead _ | EvWrite _ | EvMove _ _ | EvListdir _ => true
  | _ => false
  end.

Definition fs_calls (t : list event) : list event := filter (fun ev => is_fs ev = true) t.

(** The actions of the program on its surroundings: the commands it launches
    and its file-system calls.  Prints, flushes and sleeps are not. *)
Definition external (ev : event) : bool := is_call ev || is_fs ev.

(** What was logged between [s] and a later state [s'], and the actions in it. *)
Definition news (s s' : state) : list event := drop (length (trace s)) (trace s').
Definition acts (s s' : state) : list event :=
  filter (fun ev => external ev = true) (news s s').

(** [emits o m L]: every run of [m] for the job [o] only extends the state
    ([grows]) and its result and the actions it performed satisfy [L]. *)
Definition emits {A : Type} (o : Submit) (m : M A) (L : res A -> list event -> Prop) :
    Prop :=
  forall e s r s', same_job o (self s) -> m e s = (r, s') ->
    grows s s' /\ L r (acts s s').

(** The language of a sequence [x <- m ;; k x]. *)
Definition seq_lang {A B : Type} (L1 : res A -> list event -> Prop)
    (L2 : A -> res B -> list event -> Prop) (r : res B) (w : list event) : Prop :=
  (exists a w1 w2, L1 (Val a) w1 /\ L2 a r w2 /\ w = w1 ++ w2) \/
  (exists x, r = Exn x /\ L1 (Exn x) w) \/
  (exists h, r = Stop h /\ L1 (Stop h) w).

(** The language of [try: m except ...] with handlers [h]. *)
Definition try_lang {A : Type} (h : pyexn -> option (M A))
    (L1 : res A -> list event -> Prop) (L2 : pyexn -> res A -> list event -> Prop)
    (r : res A) (w : list event) : Prop :=
  (L1 r w /\ match r with Exn x => h x = None | _ => True end) \/
  (exists x w1 w2, L1 (Exn x) w1 /\ is_Some (h x) /\ L2 x r w2 /\ w = w1 ++ w2).

(** Languages of the operations: no action and a value; one action. *)
Definition silent {A : Type} (r : res A) (w : list event) : Prop :=
  w = [] /\ exists a, r = Val a.
Definition silent_or_int {A : Type} (r : res A) (w : list event) : Prop :=
  w = [] /\ ((exists a, r = Val a) \/ r = Exn KeyboardInterrupt).
Definition one {A : Type} (ev : event) (ok : res A -> Prop) (r : res A) (w : list event) : Prop :=
  w = [ev] /\ ok r.

#[export] Instance event_eq_dec : EqDecision event.
Proof. solve_decision. Defined.

#[export] Instance halt_eq_dec : EqDecision halt.
Proof. solve_decision. Defined.

#[export] Instance res_eq_dec {A : Type} `{EqDecision A} : EqDecision (res A).
Proof. solve_decision. Defined.

(** ** Lemmas: the monad *)

#[export] Instance meq_equiv {A : Type} : Equivalence (@meq A).
Proof.
  split; [done| |]; unfold meq.
  - intros m1 m2 H e s. by rewrite H.
  - intros m1 m2 m3 H1 H2 e s. by rewrite H1, H2.
Qed.

#[export] Instance bind_proper {A B : Type} :
  Proper (meq ==> pointwise_relation A meq ==> meq) (@bind A B).
Proof.
  intros m1 m2 Hm k1 k2 Hk e s. unfold bind. rewrite Hm.
  destruct (m2 e s) as [[a|x|h] s']; [apply Hk|done|done].
Qed.

#[export] Instance try_except_proper {A : Type} :
  Proper (meq ==> eq ==> meq) (@try_except A).
Proof. intros m1 m2 Hm h ? <- e s. unfold try_except. by rewrite Hm. Qed.

Lemma bind_ret_l {A B : Type} (a : A) (k : A -> M B) : meq (bind (ret a) k) (k a).
Proof. done. Qed.

Lemma bind_ret_r {A : Type} (m : M A) : meq (bind m ret) m.
Proof. intros e s. unfold bind, ret. by destruct (m e s) as [[a|x|h] s']. Qed.

Lemma bind_assoc {A B C : Type} (m : M A) (k : A -> M B) (k' : B -> M C) :
  meq (bind (bind m k) k') (bind m (fun a => bind (k a) k')).
Proof. intros e s. unfold bind. by destruct (m e s) as [[a|x|h] s']. Qed.

Lemma bind_raise {A B : Type} (x : pyexn) (k : A -> M B) : meq (bind (raise x) k) (raise x).
Proof. done. Qed.

Lemma bind_val {A B : Type} (m : M A) (k : A -> M B) e s a s' :
  m e s = (Val a, s') -> bind m k e s = k a e s'.
Proof. unfold bind. by intros ->. Qed.

Lemma bind_exn {A B : Type} (m : M A) (k : A -> M B) e s x s' :
  m e s = (Exn x, s') -> bind m k e s = (Exn x, s').
Proof. unfold bind. by intros ->. Qed.

Lemma bind_stop {A B : Type} (m : M A) (k : A -> M B) e s h s' :
  m e s = (Stop h, s') -> bind m k e s = (Stop h, s').
Proof. unfold bind. by intros ->. Qed.

(** A run of [bind m k] either runs [k] on the value of [m] or ends with [m]. *)
Lemma bind_inv {A B : Type} (m : M A) (k : A -> M B) e s r s' :
  bind m k e s = (r, s') ->
  (exists a s1, m e s = (Val a, s1) /\ k a e s1 = (r, s')) \/
  (exists x, m e s = (Exn x, s') /\ r = Exn x) \/
  (exists h, m e s = (Stop h, s') /\ r = Stop h).
Proof.
  unfold bind. destruct (m e s) as [[a|x|h] s1]; intros H.
  - left. eauto.
  - right. left. simplify_eq. eauto.
  - right. right. simplify_eq. eauto.
Qed.

Lemma try_except_val {A : Type} (m : M A) h e s a s' :
  m e s = (Val a, s') -> try_except m h e s = (Val a, s').
Proof. unfold try_except. by intros ->. Qed.

Lemma try_except_caught {A : Type} (m : M A) h k e s x s' :
  m e s = (Exn x, s') -> h x = Some k -> try_except m h e s = k e s'.
Proof. unfold try_except. by intros -> ->. Qed.

Lemma try_except_passed {A : Type} (m : M A) h e s x s' :
  m e s = (Exn x, s') -> h x = None -> try_except m h e s = (Exn x, s').
Proof. unfold try_except. by intros -> ->. Qed.

(** ** Lemmas: what every operation preserves *)

#[export] Instance grows_preorder : PreOrder grows.
Proof.
  split.
  - intros s. by split.
  - intros s1 s2 s3 [] []. split; etrans; eauto.
Qed.

Section relates.
Context {R : state -> state -> Prop} `{!PreOrder R}.

Lemma relates_ret {A : Type} (a : A) : relates R (ret a).
Proof. intros e s r s' [= <- <-]. done. Qed.

Lemma relates_raise {A : Type} (x : pyexn) : relates R (@raise A x).
Proof. intros e s r s' [= <- <-]. done. Qed.

Lemma relates_stop {A : Type} (h : halt) : relates R (@stop A h).
Proof. intros e s r s' [= <- <-]. done. Qed.

Lemma relates_gets {A : Type} (f : state -> A) : relates R (gets f).
Proof. intros e s r s' [= <- <-]. done. Qed.

Lemma relates_asks {A : Type} (f : env -> A) : relates R (asks f).
Proof. intros e s r s' [= <- <-]. done. Qed.

Lemma relates_modify (f : state -> state) :
  (forall s, R s (f s)) -> relates R (modify f).
Proof. intros Hf e s r s' [= <- <-]. done. Qed.

Lemma relates_bind {A B : Type} (m : M A) (k : A -> M B) :
  relates R m -> (forall a, relates R (k a)) -> relates R (bind m k).
Proof.
  intros Hm Hk e s r s' H.
  apply bind_inv in H as [(a & s1 & H1 & H2)|[(x & H1 & _)|(h & H1 & _)]].
  - trans s1; [eapply Hm|eapply Hk]; eauto.
  - eapply Hm; eauto.
  - eapply Hm; eauto.
Qed.

Lemma relates_try_except {A : Type} (m : M A) (h : pyexn -> option (M A)) :
  relates R m -> (forall x k, h x = Some k -> relates R k) ->
  relates R (try_except m h).
Proof.
  intros Hm Hh e s r s'. unfold try_except.
  destruct (m e s) as [[a|x|hl] s1] eqn:E;
    [intros [= <- <-]; eapply Hm; eauto| |intros [= <- <-]; eapply Hm; eauto].
  destruct (h x) as [k|] eqn:Ek; [|intros [= <- <-]; eapply Hm; eauto].
  intros Hk. trans s1; [eapply Hm|eapply Hh]; eauto.
Qed.

Lemma relates_if {A : Type} (b : bool) (m1 m2 : M A) :
  relates R m1 -> relates R m2 -> relates R (if b then m1 else m2).
Proof. by destruct b. Qed.

Lemma relates_preserves {A : Type} (m : M A) (s0 : state) :
  relates R m -> preserves (R s0) m.
Proof. intros Hm e s r s' H0 H. etrans; eauto. Qed.

End relates.

#[export] Hint Extern 1 (relates _ (ret _)) => apply relates_ret : py.
#[export] Hint Extern 1 (relates _ (raise _)) => apply relates_raise : py.
#[export] Hint Extern 1 (relates _ (stop _)) => apply relates_stop : py.
#[export] Hint Extern 1 (relates _ (gets _)) => apply relates_gets : py.
#[export] Hint Extern 1 (relates _ (asks _)) => apply relates_asks : py.
#[export] Hint Extern 1 (relates _ (modify _)) => apply relates_modify : py.
#[export] Hint Extern 2 (relates _ (bind _ _)) => apply relates_bind; intros : py.
#[export] Hint Extern 2 (relates _ (try_except _ _)) =>
  apply relates_try_except; intros : py.
#[export] Hint Extern 2 (relates _ (if _ then _ else _)) => apply relates_if : py.

Lemma grows_log ev s : grows s (log ev s).
Proof. split; cbn; [done|by apply prefix_app_r|done..]. Qed.

Lemma grows_count_call s : grows s (count_call s).
Proof. split; cbn; [done|done|done|lia|done]. Qed.

Lemma grows_advance e s : grows s (advance e s).
Proof. split; cbn; [done|done|lia|done|done]. Qed.

Lemma grows_with_self v s : grows s (with_self (set_cpu_time_used v) s).
Proof. by split. Qed.

Lemma grows_with_files f s : grows s (with_files f s).
Proof. by split. Qed.

Lemma grows_add_dir p s : grows s (with_dirs (fun d => {[p]} ∪ d) s).
Proof. split; cbn; [done..|set_solver]. Qed.

#[export] Hint Resolve grows_log grows_count_call grows_advance grows_with_self
  grows_with_files grows_add_dir : py.

Lemma grows_elapse : relates grows elapse.
Proof. intros e s r s' [= _ <-]. apply grows_advance. Qed.

#[export] Hint Resolve grows_elapse : py.

(** Solves [relates grows m] for a computation built from the operations. *)
Ltac solve_grows :=
  repeat first
    [ progress (intros; cbv beta zeta)
    | solve [eauto 3 with py]
    | apply relates_bind
    | apply relates_try_except
    | apply relates_if
    | match goal with
      | |- relates _ (match ?x with _ => _ end) => destruct x
      end ].

Lemma grows_emit ev : relates grows (emit ev).
Proof. unfold emit. solve_grows. Qed.

Lemma grows_print text end_ : relates grows (print text end_).
Proof. apply grows_emit. Qed.

Lemma grows_flush : relates grows flush.
Proof. apply grows_emit. Qed.

#[export] Hint Resolve grows_emit grows_print grows_flush : py.

Lemma grows_sleep ms : relates grows (sleep ms).
Proof. unfold sleep. solve_grows. Qed.

Lemma grows_call_command c : relates grows (call_command c).
Proof. unfold call_command. solve_grows. Qed.

Lemma grows_assign_cpu_time_used v : relates grows (assign_cpu_time_used v).
Proof. unfold assign_cpu_time_used. solve_grows. Qed.

Lemma grows_exists_ p : relates grows (exists_ p).
Proof. unfold exists_. solve_grows. Qed.

Lemma grows_isfile p : relates grows (isfile p).
Proof. unfold isfile. solve_grows. Qed.

Lemma grows_mkdir p : relates grows (mkdir p).
Proof. unfold mkdir. solve_grows. Qed.

Lemma grows_read_file p : relates grows (read_file p).
Proof. unfold read_file. solve_grows. Qed.

Lemma grows_write_file p text : relates grows (write_file p text).
Proof. unfold write_file. solve_grows. Qed.

Lemma grows_move src dst : relates grows (move src dst).
Proof. unfold move. solve_grows. Qed.

#[export] Hint Resolve grows_sleep grows_call_command grows_assign_cpu_time_used
  grows_exists_ grows_isfile grows_mkdir grows_read_file grows_write_file
  grows_move : py.

(** ** Lemmas: the operations *)

Lemma calls_app t1 t2 : calls (t1 ++ t2) = calls t1 ++ calls t2.
Proof. apply omap_app. Qed.

Lemma prints_app t1 t2 : prints (t1 ++ t2) = prints t1 ++ prints t2.
Proof. apply omap_app. Qed.

Lemma fs_calls_app t1 t2 : fs_calls (t1 ++ t2) = fs_calls t1 ++ fs_calls t2.
Proof. apply filter_app. Qed.

(** A command that is not interrupted returns the environment's answer, is
    logged, and takes one tick. *)
Lemma call_command_val c e s :
  sigint e (clock s) = false ->
  call_command c e s =
    (Val (reply_at e (ncalls s) c), advance e (count_call (log (EvCall c) s))).
Proof. intros H. unfold call_command, bind, elapse; cbn. by rewrite H. Qed.

(** An interrupted command raises [KeyboardInterrupt]; it was launched. *)
Lemma call_command_int c e s :
  sigint e (clock s) = true ->
  call_command c e s =
    (Exn KeyboardInterrupt, advance e (count_call (log (EvCall c) s))).
Proof. intros H. unfold call_command, bind, elapse; cbn. by rewrite H. Qed.

Lemma sleep_val ms e s :
  sigint e (clock s) = false ->
  sleep ms e s = (Val tt, advance e (log (EvSleep ms) s)).
Proof. intros H. unfold sleep, bind, elapse; cbn. by rewrite H. Qed.

Lemma sleep_int ms e s :
  sigint e (clock s) = true ->
  sleep ms e s = (Exn KeyboardInterrupt, advance e (log (EvSleep ms) s)).
Proof. intros H. unfold sleep, bind, elapse; cbn. by rewrite H. Qed.

Lemma print_val text end_ e s :
  print text end_ e s = (Val tt, log (EvPrint (text +:+ end_)) s).
Proof. done. Qed.

(** ** Lemmas: the file system *)

(** The files after the writes of a tick: those before and those written. *)
Lemma write_all_is_Some ws fs p :
  is_Some (write_all ws fs !! p) <-> is_Some (fs !! p) \/ p ∈ ws.*1.
Proof.
  unfold write_all. revert fs. induction ws as [|[q v] ws IH]; intros fs; cbn.
  - rewrite elem_of_nil. tauto.
  - rewrite IH, elem_of_cons. destruct (decide (p = q)) as [->|Hne].
    + rewrite lookup_insert_eq. split; eauto.
    + rewrite lookup_insert_ne by done. split; [intros [?|?]|intros [?|[?|?]]]; eauto; done.
Qed.

Lemma is_file_advance p e s :
  is_file p (advance e s) = is_file p s || bool_decide (p ∈ (arrivals e (clock s)).*1).
Proof.
  unfold is_file. cbn. rewrite <-bool_decide_or. apply bool_decide_ext, write_all_is_Some.
Qed.

Lemma is_file_log p ev s : is_file p (log ev s) = is_file p s.
Proof. done. Qed.

(** A file that is there stays there while the program only waits. *)
Lemma is_file_advance_mono p e s : is_file p s = true -> is_file p (advance e s) = true.
Proof. intros H. by rewrite is_file_advance, H. Qed.

Lemma isfile_val p e s :
  sigint e (clock s) = false ->
  isfile p e s =
    (Val (is_file p (advance e (log (EvStat p) s))), advance e (log (EvStat p) s)).
Proof. intros H. unfold isfile, bind, elapse, emit, modify, gets; cbn. by rewrite H. Qed.

Lemma exists_val p e s :
  sigint e (clock s) = false ->
  exists_ p e s =
    (Val (path_exists p (advance e (log (EvStat p) s))), advance e (log (EvStat p) s)).
Proof. intros H. unfold exists_, bind, elapse, emit, modify, gets; cbn. by rewrite H. Qed.

Lemma exists_int p e s :
  sigint e (clock s) = true ->
  exists_ p e s = (Exn KeyboardInterrupt, advance e (log (EvStat p) s)).
Proof. intros H. unfold exists_, bind, elapse, emit, modify, gets; cbn. by rewrite H. Qed.

(** What is there stays there while the program only waits. *)
Lemma path_exists_advance_mono p e s :
  path_exists p s = true -> path_exists p (advance e s) = true.
Proof.
  unfold path_exists. intros [H|H]%orb_true_iff; apply orb_true_iff; [by left|right].
  by apply is_file_advance_mono.
Qed.

(** Unfolds the operations and the monad, to compute a run step by step. *)
Ltac unfold_ops :=
  unfold call_command, sleep, print, flush, exists_, isfile, mkdir, read_file,
    write_file, move, assign_cpu_time_used, emit, elapse;
  unfold and_then, try_except, bind, modify, gets, asks, ret, raise, stop.

Lemma is_file_None p s : files s !! p = None -> is_file p s = false.
Proof. intros H. unfold is_file. rewrite H. apply bool_decide_eq_false_2. by intros []. Qed.

Lemma is_file_Some p v s : files s !! p = Some v -> is_file p s = true.
Proof. intros H. unfold is_file. rewrite H. by apply bool_decide_eq_true_2. Qed.

Lemma path_exists_false p s : path_exists p s = false <-> (p ∉ dirs s) /\ files s !! p = None.
Proof.
  unfold path_exists, is_dir, is_file.
  by rewrite orb_false_iff, !bool_decide_eq_false, <-eq_None_not_Some.
Qed.

Lemma read_file_val p text e s :
  files s !! p = Some text -> read_file p e s = (Val text, log (EvRead p) s).
Proof. intros H. unfold read_file. unfold_ops. cbn. by rewrite H. Qed.

Lemma read_file_missing p e s :
  files s !! p = None -> read_file p e s = (Exn IOError, log (EvRead p) s).
Proof. intros H. unfold read_file. unfold_ops. cbn. by rewrite H. Qed.

(** A regular file moved into a directory that has no entry of its name. *)
Lemma move_into_dir src dst text e s :
  "/"%char ∉ Str.chars src -> dst <> EmptyString -> Str.endswith_char "/" dst = false ->
  is_dir src s = false -> is_dir dst s = true ->
  files s !! src = Some text ->
  path_exists (dst +:+ "/" +:+ src) s = false ->
  writable e "." = true -> writable e dst = true ->
  move src dst e s =
    (Val tt, with_files (fun fs => <[dst +:+ "/" +:+ src := text]> (delete src fs))
               (log (EvMove src dst) s)).
Proof.
  intros Hs Hd He Hsd Hdd Hf Hp Hw1 Hw2. unfold move. unfold_ops.
  cbn -[is_dir is_file path_exists OsPath.join].
  change (is_dir src (log (EvMove src dst) s)) with (is_dir src s).
  change (is_dir dst (log (EvMove src dst) s)) with (is_dir dst s).
  rewrite Hsd, Hdd, OsPath.join_file by done.
  change (path_exists (dst +:+ "/" +:+ src) (log (EvMove src dst) s))
    with (path_exists (dst +:+ "/" +:+ src) s).
  by rewrite Hp, Hf, Hw1, Hw2.
Qed.

(** A file that is not there cannot be moved. *)
Lemma move_missing src dst e s :
  is_dir src s = false -> files s !! src = None ->
  (move src dst e s).1 = Exn IOError \/ (move src dst e s).1 = Exn ShutilError.
Proof.
  intros Hsd Hf. unfold move. unfold_ops. cbn -[is_dir is_file path_exists OsPath.join].
  change (is_dir src (log (EvMove src dst) s)) with (is_dir src s). rewrite Hsd, Hf.
  destruct (_ && _); eauto.
Qed.

(** A file that is not there cannot be moved into a directory: the rename
    fails and so does the copy. *)
Lemma move_missing_into_dir src dst e s :
  is_dir src s = false -> is_dir dst s = true -> files s !! src = None ->
  path_exists (OsPath.join dst (OsPath.basename (Str.rstrip_char "/" src))) s = false ->
  move src dst e s = (Exn IOError, log (EvMove src dst) s).
Proof.
  intros Hsd Hdd Hf Hp. unfold move. unfold_ops.
  cbn -[is_dir is_file path_exists OsPath.join].
  change (is_dir src (log (EvMove src dst) s)) with (is_dir src s).
  change (is_dir dst (log (EvMove src dst) s)) with (is_dir dst s).
  rewrite Hsd, Hdd, Hf.
  change (path_exists ?p (log (EvMove src dst) s)) with (path_exists p s).
  by rewrite Hp.
Qed.

(** ** Lemmas: the actions of a run *)

Lemma grows_news s s' : grows s s' -> trace s' = trace s ++ news s s'.
Proof. intros [_ [w Hw] _ _ _]. unfold news. by rewrite Hw, drop_app_length. Qed.

Lemma news_same s s' : trace s' = trace s -> news s s' = [].
Proof. intros H. unfold news. rewrite H. apply drop_all. Qed.

Lemma news_trans s s1 s2 :
  grows s s1 -> grows s1 s2 -> news s s2 = news s s1 ++ news s1 s2.
Proof.
  intros H1 H2. unfold news at 1.
  by rewrite (grows_news _ _ H2), (grows_news _ _ H1), <-app_assoc, drop_app_length.
Qed.

Lemma acts_same s s' : trace s' = trace s -> acts s s' = [].
Proof. intros H. unfold acts. by rewrite news_same. Qed.

Lemma acts_trans s s1 s2 :
  grows s s1 -> grows s1 s2 -> acts s s2 = acts s s1 ++ acts s1 s2.
Proof. intros H1 H2. unfold acts. by rewrite (news_trans s s1 s2), filter_app. Qed.

Lemma acts_log ev s : acts s (log ev s) = if external ev then [ev] else [].
Proof.
  unfold acts, news. cbn. rewrite drop_app_length.
  destruct (external ev) eqn:E; [by rewrite filter_cons_True|].
  rewrite filter_cons_False; [done|]. by rewrite E.
Qed.

(** The commands and file-system calls of a run are those of its actions. *)
Lemma calls_external t : calls (filter (fun ev => external ev = true) t) = calls t.
Proof.
  unfold calls. induction t as [|ev t IH]; [done|]. rewrite filter_cons.
  destruct ev; cbn; case_decide; simplify_eq/=; by rewrite ?IH.
Qed.

Lemma fs_calls_external t : fs_calls (filter (fun ev => external ev = true) t) = fs_calls t.
Proof.
  unfold fs_calls. induction t as [|ev t IH]; [done|]. rewrite !filter_cons.
  destruct ev; cbn; repeat case_decide; simplify_eq/=;
    rewrite ?filter_cons; cbn; repeat case_decide; simplify_eq/=; by rewrite ?IH.
Qed.

Lemma calls_acts s s' : grows s s' -> calls (trace s') = calls (trace s) ++ calls (acts s s').
Proof.
  intros H. rewrite (grows_news _ _ H) at 1. rewrite calls_app. f_equal.
  unfold acts. by rewrite calls_external.
Qed.

Lemma fs_calls_acts s s' :
  grows s s' -> fs_calls (trace s') = fs_calls (trace s) ++ fs_calls (acts s s').
Proof.
  intros H. rewrite (grows_news _ _ H) at 1. rewrite fs_calls_app. f_equal.
  unfold acts. by rewrite fs_calls_external.
Qed.

(** ** Lemmas: the language of a computation *)

Section emits_rules.
Context (o : Submit).

Lemma emits_weaken {A : Type} (m : M A) (L L' : res A -> list event -> Prop) :
  emits o m L -> (forall r w, L r w -> L' r w) -> emits o m L'.
Proof. intros Hm HL e s r s' Ho H. destruct (Hm _ _ _ _ Ho H). eauto. Qed.

(** A computation that returns [r] and leaves the state as it is. *)
Lemma emits_pure {A : Type} (m : M A) (L : res A -> list event -> Prop) :
  (forall e s, same_job o (self s) -> exists r, m e s = (r, s) /\ L r []) -> emits o m L.
Proof.
  intros Hm e s r s' Ho H. destruct (Hm e s Ho) as (r' & H' & HL).
  rewrite H' in H. simplify_eq. by rewrite acts_same.
Qed.

Lemma emits_ret {A : Type} (a : A) : emits o (ret a) (fun r w => w = [] /\ r = Val a).
Proof. apply emits_pure. intros. by eexists. Qed.

Lemma emits_raise {A : Type} (x : pyexn) :
  emits o (@raise A x) (fun r w => w = [] /\ r = Exn x).
Proof. apply emits_pure. intros. by eexists. Qed.

Lemma emits_stop {A : Type} (h : halt) :
  emits o (@stop A h) (fun r w => w = [] /\ r = Stop h).
Proof. apply emits_pure. intros. by eexists. Qed.

Lemma emits_gets {A : Type} (f : state -> A) : emits o (gets f) silent.
Proof. apply emits_pure. intros. eexists. split; [done|]. split; eauto. Qed.

(** Reading [self] gives the job [o], up to [cpu_time_used]. *)
Lemma emits_gets_self :
  emits o (gets self) (fun r w => w = [] /\ exists o', same_job o o' /\ r = Val o').
Proof. apply emits_pure. intros e s Ho. eexists. split; [done|]. split; eauto. Qed.

Lemma emits_asks {A : Type} (f : env -> A) : emits o (asks f) silent.
Proof. apply emits_pure. intros. eexists. split; [done|]. split; eauto. Qed.

Lemma emits_modify (f : state -> state) :
  (forall s, grows s (f s)) -> (forall s, trace (f s) = trace s) ->
  emits o (modify f) silent.
Proof.
  intros Hg Ht e s r s' _ [= <- <-]. rewrite acts_same by done.
  split; [done|]. split; eauto.
Qed.

Lemma emits_emit ev :
  emits o (emit ev) (fun r w => w = (if external ev then [ev] else []) /\ r = Val tt).
Proof. intros e s r s' _ [= <- <-]. rewrite acts_log. split; [apply grows_log|done]. Qed.

Lemma emits_elapse : emits o elapse silent_or_int.
Proof.
  intros e s r s' _ [= <- <-]. rewrite acts_same by done.
  split; [apply grows_advance|]. split; [done|]. destruct (sigint _ _); eauto.
Qed.

Lemma emits_bind {A B : Type} (m : M A) (k : A -> M B) L1 L2 :
  emits o m L1 -> (forall a, emits o (k a) (L2 a)) -> emits o (bind m k) (seq_lang L1 L2).
Proof.
  intros Hm Hk e s r s' Ho H. unfold seq_lang.
  apply bind_inv in H as [(a & s1 & H1 & H2)|[(x & H1 & ->)|(h & H1 & ->)]].
  - destruct (Hm _ _ _ _ Ho H1) as [G1 W1].
    destruct (Hk a e s1 r s') as [G2 W2]; [by rewrite Ho; apply G1|done|].
    split; [by etrans|]. left. exists a, (acts s s1), (acts s1 s').
    by rewrite <-acts_trans.
  - destruct (Hm _ _ _ _ Ho H1). eauto 10.
  - destruct (Hm _ _ _ _ Ho H1). eauto 10.
Qed.

Lemma emits_try_except {A : Type} (m : M A) h L1 L2 :
  emits o m L1 -> (forall x, emits o (default (raise x) (h x)) (L2 x)) ->
  emits o (try_except m h) (try_lang h L1 L2).
Proof.
  intros Hm Hh e s r s' Ho. unfold try_except, try_lang.
  destruct (m e s) as [[a|x|hl] s1] eqn:E; destruct (Hm _ _ _ _ Ho E) as [G1 W1];
    [intros [= <- <-]; eauto| |intros [= <- <-]; eauto].
  specialize (Hh x). destruct (h x) as [k|] eqn:Ek; [|intros [= <- <-]; eauto].
  intros H2. destruct (Hh e s1 r s') as [G2 W2]; [by rewrite Ho; apply G1|done|].
  split; [by etrans|]. right. exists x, (acts s s1), (acts s1 s').
  rewrite <-acts_trans by done. eauto.
Qed.

(** A language for each exception, from a language for each constructor. *)
Lemma emits_pyexn {A : Type} (k : pyexn -> M A) LK LI LIO LOS LSh LU LKe LEx LV LZ LO LVe :
  emits o (k KeyboardInterrupt) LK -> emits o (k IndexError) LI ->
  emits o (k IOError) LIO -> (forall n, emits o (k (OSError n)) (LOS n)) ->
  emits o (k ShutilError) LSh -> emits o (k UnboundLocalError) LU ->
  emits o (k KeyError) LKe -> (forall n, emits o (k (SystemExit n)) (LEx n)) ->
  emits o (k ValueError) LV -> emits o (k ZeroDivisionError) LZ ->
  emits o (k OverflowError) LO -> emits o (k VerificationError) LVe ->
  forall x, emits o (k x)
    match x with
    | KeyboardInterrupt => LK
    | IndexError => LI
    | IOError => LIO
    | OSError n => LOS n
    | ShutilError => LSh
    | UnboundLocalError => LU
    | KeyError => LKe
    | SystemExit n => LEx n
    | ValueError => LV
    | ZeroDivisionError => LZ
    | OverflowError => LO
    | VerificationError => LVe
    end.
Proof. by intros ???????????? []. Qed.

Lemma emits_if {A : Type} (b : bool) (m1 m2 : M A) L1 L2 :
  emits o m1 L1 -> emits o m2 L2 ->
  emits o (if b then m1 else m2)
    (fun r w => (b = true /\ L1 r w) \/ (b = false /\ L2 r w)).
Proof. destruct b; intros H1 H2; eapply emits_weaken; eauto. Qed.

Lemma emits_decide {A : Type} (P : Prop) `{Decision P} (m1 m2 : M A) L1 L2 :
  emits o m1 L1 -> emits o m2 L2 ->
  emits o (if decide P then m1 else m2) (fun r w => (P /\ L1 r w) \/ (~ P /\ L2 r w)).
Proof. destruct (decide P); intros H1 H2; eapply emits_weaken; eauto. Qed.

Lemma emits_option {A B : Type} (x : option B) (m1 : B -> M A) (m2 : M A) L1 L2 :
  (forall b, emits o (m1 b) (L1 b)) -> emits o m2 L2 ->
  emits o (match x with Some b => m1 b | None => m2 end)
    (fun r w => (exists b, x = Some b /\ L1 b r w) \/ (x = None /\ L2 r w)).
Proof. destruct x; intros H1 H2; eapply emits_weaken; eauto. Qed.

Lemma emits_flow {A B : Type} (f : flow B) (m1 : exit_point -> M A) (m2 : B -> M A) L1 L2 :
  (forall x, emits o (m1 x) (L1 x)) -> (forall b, emits o (m2 b) (L2 b)) ->
  emits o (match f with Return x => m1 x | Continue b => m2 b end)
    (fun r w => (exists x, f = Return x /\ L1 x r w) \/ (exists b, f = Continue b /\ L2 b r w)).
Proof. destruct f; intros H1 H2; eapply emits_weaken; eauto. Qed.

Lemma emits_prod {A B C : Type} (p : B * C) (m : B -> C -> M A) L :
  (forall b c, emits o (m b c) (L b c)) ->
  emits o (let '(b, c) := p in m b c) (fun r w => L p.1 p.2 r w).
Proof. destruct p. intros H. apply H. Qed.

(** The operations that act on nothing outside the process. *)

Lemma emits_print text end_ : emits o (print text end_) silent.
Proof.
  eapply emits_weaken; [apply emits_emit|]. cbn. intros r w [-> ->]. split; eauto.
Qed.

Lemma emits_flush : emits o flush silent.
Proof.
  eapply emits_weaken; [apply emits_emit|]. cbn. intros r w [-> ->]. split; eauto.
Qed.

Lemma emits_assign_cpu_time_used v : emits o (assign_cpu_time_used v) silent.
Proof. apply emits_modify; [apply grows_with_self|done]. Qed.

End emits_rules.

Create HintDb emits.
#[export] Hint Extern 1 (emits _ (ret _) _) => apply emits_ret : emits.
#[export] Hint Extern 1 (emits _ (raise _) _) => apply emits_raise : emits.
#[export] Hint Extern 1 (emits _ (stop _) _) => apply emits_stop : emits.
#[export] Hint Extern 0 (emits _ (gets self) _) => apply emits_gets_self : emits.
#[export] Hint Extern 1 (emits _ (gets _) _) => apply emits_gets : emits.
#[export] Hint Extern 1 (emits _ (asks _) _) => apply emits_asks : emits.
#[export] Hint Extern 1 (emits _ elapse _) => apply emits_elapse : emits.
#[export] Hint Extern 1 (emits _ (print _ _) _) => apply emits_print : emits.
#[export] Hint Extern 1 (emits _ flush _) => apply emits_flush : emits.
#[export] Hint Extern 1 (emits _ (assign_cpu_time_used _) _) =>
  apply emits_assign_cpu_time_used : emits.
#[export] Hint Extern 1 (emits _ (emit _) _) => apply emits_emit : emits.
#[export] Hint Extern 1 (emits _ (modify _) _) =>
  apply emits_modify; [intros; eauto with py|done] : emits.

(** Builds the language of a computation from those of its parts. *)
(** The handlers of a [try]: one goal for each exception. *)
Ltac emits_handler :=
  refine (emits_pyexn _ _ _ _ _ _ _ _ _ _ _ _ _ _ _ _ _ _ _ _ _ _ _ _ _ _); intros;
  cbn [from_option id].

Ltac emits_build :=
  intros; cbv beta zeta;
  lazymatch goal with
  | |- emits _ (bind _ _) _ => eapply emits_bind; [emits_build|intros ?; emits_build]
  | |- emits _ (try_except _ _) _ =>
      eapply emits_try_except;
      [emits_build
      |emits_handler; emits_build]
  | |- emits _ (if decide _ then _ else _) _ => eapply emits_decide; emits_build
  | |- emits _ (if _ then _ else _) _ => eapply emits_if; emits_build
  | |- emits _ (match ?x with Some _ => _ | None => _ end) _ =>
      eapply emits_option; [intros ?; emits_build|emits_build]
  | |- emits _ (match ?f with Return _ => _ | Continue _ => _ end) _ =>
      eapply emits_flow; intros ?; emits_build
  | |- emits ?o (match ?p with (_, _) => _ end) _ =>
      refine (emits_prod o p _ _ _); intros ? ?; emits_build
  | |- _ => solve [eauto with emits]
  end.

(** Proves [emits o m L] for a given language [L]: builds the language of [m]
    and shows that it is included in [L]. *)
Ltac emits_auto :=
  eapply emits_weaken; [emits_build|];
  unfold seq_lang, try_lang, silent, silent_or_int, one; cbn; intros.

(** Case analysis on a hypothesis produced by [emits_auto]: every
    disjunction is split and the impossible branches are closed. *)
Ltac lang_step :=
  match goal with
  | H : _ /\ _ |- _ => destruct H
  | H : ex _ |- _ => destruct H
  | H : _ \/ _ |- _ => destruct H
  | x : unit |- _ => destruct x
  | H : is_Some None |- _ => by apply is_Some_None in H
  | H : context [match ?x with KeyboardInterrupt => _ | _ => _ end] |- _ =>
      is_var x; destruct x
  end.
Ltac lang_cases := repeat (simplify_eq/=; try lang_step).
Ltac lang_solve := lang_cases; rewrite ?app_nil_r; eauto 10.

Section emits_operations.
Context (o : Submit).

(** The operations that wait or act on the file system: one action each. *)

Lemma emits_sleep ms : emits o (sleep ms) silent_or_int.
Proof. unfold sleep. emits_auto. lang_solve. Qed.

Lemma emits_call_command c :
  emits o (call_command c)
    (one (EvCall c) (fun r => r = Exn KeyboardInterrupt \/ exists v, r = Val v)).
Proof. unfold call_command. emits_auto. lang_solve. Qed.

Lemma emits_exists_ p :
  emits o (exists_ p)
    (one (EvStat p) (fun r => r = Exn KeyboardInterrupt \/ exists b, r = Val b)).
Proof. unfold exists_. emits_auto. lang_solve. Qed.

Lemma emits_isfile p :
  emits o (isfile p)
    (one (EvStat p) (fun r => r = Exn KeyboardInterrupt \/ exists b, r = Val b)).
Proof. unfold isfile. emits_auto. lang_solve. Qed.

Lemma emits_read_file p :
  emits o (read_file p) (one (EvRead p) (fun r => r = Exn IOError \/ exists v, r = Val v)).
Proof. unfold read_file. emits_auto. lang_solve. Qed.

Lemma emits_write_file p text :
  emits o (write_file p text) (one (EvWrite p) (fun r => r = Exn IOError \/ r = Val tt)).
Proof. unfold write_file. emits_auto. lang_solve. Qed.

Lemma emits_mkdir p :
  emits o (mkdir p)
    (one (EvMkdir p) (fun r => r = Val tt \/ r = Exn (OSError 17) \/ r = Exn (OSError 13))).
Proof. unfold mkdir. emits_auto. lang_solve. Qed.

Lemma emits_move src dst :
  emits o (move src dst)
    (one (EvMove src dst)
       (fun r => r = Val tt \/ r = Stop NotModelled \/ r = Exn ShutilError \/
                 r = Exn IOError \/ r = Exn (OSError 13))).
Proof. unfold move. emits_auto. lang_solve. Qed.

Lemma emits_and_then {A B : Type} (m : M (flow A)) (k : A -> M (flow B)) L1 L2 :
  emits o m L1 -> (forall a, emits o (k a) (L2 a)) ->
  emits o (and_then m k)
    (fun r w =>
       (exists x, r = Val (Return x) /\ L1 (Val (Return x)) w) \/
       (exists a w1 w2, L1 (Val (Continue a)) w1 /\ L2 a r w2 /\ w = w1 ++ w2) \/
       (exists x, r = Exn x /\ L1 (Exn x) w) \/
       (exists h, r = Stop h /\ L1 (Stop h) w)).
Proof.
  intros Hm Hk. unfold and_then. eapply emits_weaken.
  { eapply emits_bind; [done|]. intros f. eapply emits_flow; [intros x; apply emits_ret|done]. }
  unfold seq_lang, silent. cbn. intros r w H. lang_cases.
  - left. rewrite app_nil_r. eauto.
  - right; left. eauto 10.
  - eauto 10.
  - eauto 10.
Qed.

End emits_operations.

#[export] Hint Extern 1 (emits _ (read_file _) _) => apply emits_read_file : emits.
#[export] Hint Extern 1 (emits _ (write_file _ _) _) => apply emits_write_file : emits.
#[export] Hint Extern 1 (emits _ (mkdir _) _) => apply emits_mkdir : emits.
#[export] Hint Extern 1 (emits _ (move _ _) _) => apply emits_move : emits.
#[export] Hint Extern 1 (emits _ (sleep _) _) => apply emits_sleep : emits.
#[export] Hint Extern 1 (emits _ (call_command _) _) => apply emits_call_command : emits.
#[export] Hint Extern 1 (emits _ (exists_ _) _) => apply emits_exists_ : emits.
#[export] Hint Extern 1 (emits _ (isfile _) _) => apply emits_isfile : emits.

End World.
