(* ===== verification/Pretty.v ===== *)
(** * Pretty: terminal colours and the framed report of a command

    [Colors] holds the ANSI escape sequences of class [Colors] and
    [pretty_return] builds, prints and returns the report of a failed command
    (lines 19-43 of [sub.py]).  [pretty_string] is the text it builds (the
    variable [string], here [str]);
    [frame_lines] is one of its two [for] loops. *)

From Stdlib Require Import Ascii String ZArith Lia.
From stdpp Require Import base tactics option list strings pretty.
From S2P Require Import Prelude PyString Job World.
Import World.
#[local] Open Scope py_scope.

Module Colors.

Definition HEADER : string := String "027"%char "[95m".
Definition OKBLUE : string := String "027"%char "[94m".
Definition OKGREEN : string := String "027"%char "[92m".
Definition WARNING : string := String "027"%char "[93m".
Definition FAIL : string := String "027"%char "[91m".
Definition ENDC : string := String "027"%char "[0m".
Definition BOLD : string := String "027"%char "[1m".
Definition UNDERLINE : string := String "027"%char "[4m".

End Colors.

Module Pretty.
Import Colors.

(** [for line in text.strip().split("\n"): string += str("| " + line + "\n")] *)
Definition frame_lines (text : string) (str : string) : string :=
  foldl (fun str line => str +:+ ("| " +:+ line +:+ Str.nl))
    str (Str.split "010" (Str.strip text)).

(** The value of [string] when [pretty_return] prints it. *)
Definition pretty_string (command : string) (ret_code : Z) (stdout stderr : string) :
    string :=
  let str := "|" +:+ HEADER +:+ "------- CMD ------" +:+ ENDC +:+ Str.nl in
  let str := str +:+ ("| " +:+ HEADER +:+ command +:+ ENDC +:+ Str.nl
               +:+ "| -> returned: " +:+ HEADER +:+ pretty ret_code +:+ ENDC +:+ Str.nl) in
  let str := str +:+ ("|" +:+ OKGREEN +:+ "----- STDOUT -----" +:+ ENDC +:+ Str.nl) in
  let str := frame_lines stdout str in
  let str := str +:+ ("|" +:+ FAIL +:+ "----- STDERR -----" +:+ ENDC +:+ Str.nl) in
  let str := frame_lines stderr str in
  str +:+ ("|------------------" +:+ Str.nl).

(** [pretty_return(command, ret_code, stdout, stderr)] *)
Definition pretty_return (command : string) (ret_code : Z) (stdout stderr : string) :
    M string :=
  print (pretty_string command ret_code stdout stderr) Str.nl ;;
  ret (pretty_string command ret_code stdout stderr).

(** [pretty_return] applied to the four components of a [call_command] result. *)
Definition report (r : Job.cmd_result) : M string :=
  pretty_return (Job.cr_command r) (Job.cr_ret_code r) (Job.cr_stdout r) (Job.cr_stderr r).

Lemma grows_pretty_return c r o e : relates grows (pretty_return c r o e).
Proof. unfold pretty_return. solve_grows. Qed.

Lemma grows_report r : relates grows (report r).
Proof. unfold report. apply grows_pretty_return. Qed.

#[global] Hint Resolve grows_pretty_return grows_report : py.

Lemma emits_report o r : emits o (report r) silent.
Proof. unfold report, pretty_return. emits_auto. lang_solve. Qed.

#[global] Hint Extern 1 (emits _ (report _) _) => apply emits_report : emits.

End Pretty.
