(* ===== verification/Gateway.v ===== *)
(** * Gateway: what the program says to the scheduler and reads from it

    The three scheduler commands ([qsub], [qstat], [qdel]) and the reading of
    one [qstat] listing: the table [job_state] of status codes, the tokens of a
    line, and the [for] loop of lines 141-148 of [sub.py] that looks for the
    job and decodes its status.

    A scan is a pure function on the record [scan] of what the loop assigns:
    [cur_status], the value last assigned to [self.cpu_time_used] ([cpu], [None]
    when the loop assigned nothing) and [ended].  Indexing [data[-2]] or
    [data[-3]] past the start of a short line raises [IndexError]; the scan
    then stops with what was assigned so far. *)

From Stdlib Require Import Ascii String ZArith Lia.
From stdpp Require Import base tactics option list strings gmap.
From S2P Require Import Prelude PyString.

Module Gateway.

(** ** Commands *)

Definition qsub_command : string := "qsub ./cur_sub.sh".
Definition qstat_command : string := "qstat".

(** [process_id.split(".")[0]] *)
Definition job_prefix (process_id : string) : string :=
  match Str.split "." process_id with
  | p :: _ => p
  | [] => EmptyString
  end.

(** ["qdel " + process_id.split(".")[0]] *)
Definition qdel_command (process_id : string) : string :=
  "qdel " +:+ job_prefix process_id.

(** ** Status codes *)

(** The dictionary [job_state]. *)
Definition job_state : gmap string string :=
  <["C" := "Job is completed  "]> (
  <["E" := "Job is exiting    "]> (
  <["H" := "Job is held       "]> (
  <["Q" := "job is queued     "]> (
  <["R" := "job is running    "]> (
  <["T" := "job is being moved"]> (
  <["W" := "job is waiting    "]> (
  <["S" := "job is suspend    "]> ∅))))))).

(** [job_state.get(code, "undefined")] *)
Definition job_state_get (code : string) : string :=
  default "undefined" (job_state !! code).

(** [job_state['E']] *)
Definition job_state_E : string := job_state !!! "E".

(** ** One line of the listing *)

(** [[char for char in line.split(" ") if char]] *)
Definition data_of (line : string) : list string :=
  filter (fun char => char <> EmptyString) (Str.split " " line).

(** [line.find(process_id) != -1] *)
Definition mentions (line process_id : string) : bool :=
  bool_decide (Str.find line process_id <> (-1)%Z).

Record scan : Type := Scan {
  cur_status : string;
  cpu : option string;
  ended : bool }.

(** The body of the [for] loop over the lines. *)
Definition scan_line (process_id line : string) (a : scan) : scan * option pyexn :=
  let data := data_of line in
  if mentions line process_id then
    match neg_index data 2 with
    | None => (a, Some IndexError)
    | Some code =>
        let a1 := Scan (job_state_get code) (cpu a) (ended a) in
        if decide (cur_status a1 = job_state_E) then
          match neg_index data 3 with
          | None => (a1, Some IndexError)
          | Some used => (Scan (cur_status a1) (Some used) true, None)
          end
        else (a1, None)
    end
  else (a, None).

(** The [for] loop: the lines in order, until one raises. *)
Fixpoint scan_lines (process_id : string) (lines : list string) (a : scan) :
    scan * option pyexn :=
  match lines with
  | [] => (a, None)
  | line :: rest =>
      match scan_line process_id line a with
      | (a', None) => scan_lines process_id rest a'
      | (a', Some x) => (a', Some x)
      end
  end.

(** [stdout.strip().split("\n")] *)
Definition lines_of (stdout : string) : list string :=
  Str.split "010" (Str.strip stdout).

(** One reading of a listing: [cur_status = ""], the loop, and
    [if cur_status == "": ended = True] when the loop did not raise. *)
Definition scan_listing (process_id stdout : string) (ended0 : bool) :
    scan * option pyexn :=
  match scan_lines process_id (lines_of stdout) (Scan EmptyString None ended0) with
  | (a, None) =>
      (if decide (cur_status a = EmptyString) then Scan (cur_status a) (cpu a) true else a,
       None)
  | (a, Some x) => (a, Some x)
  end.

(** The lines that mention the job, and those among them that are exiting rows. *)
Definition rows (process_id : string) (lines : list string) : list string :=
  filter (fun line => mentions line process_id = true) lines.

(** A line is a row of the job when it mentions the job's identifier; it is an
    exiting row when its last token but one is [E]. *)
Definition exiting_row (process_id line : string) : Prop :=
  mentions line process_id = true /\ neg_index (data_of line) 2 = Some "E".

(** A line can be read without indexing past its start: a row of the job has
    at least two tokens, and an exiting row at least three. *)
Definition readable (process_id line : string) : Prop :=
  mentions line process_id = true ->
  2 <= length (data_of line) /\
  (neg_index (data_of line) 2 = Some "E" -> 3 <= length (data_of line)).

#[export] Instance scan_eq_dec : EqDecision scan.
Proof. solve_decision. Defined.

#[export] Instance exiting_row_dec process_id line : Decision (exiting_row process_id line).
Proof. unfold exiting_row. apply _. Defined.

#[export] Instance readable_dec process_id line : Decision (readable process_id line).
Proof. unfold readable. apply _. Defined.

Definition exiting_rows (process_id : string) (lines : list string) : list string :=
  filter (exiting_row process_id) lines.

(** ** Lemmas: commands *)

Lemma job_prefix_no_dot process_id :
  "."%char ∉ Str.chars process_id -> job_prefix process_id = process_id.
Proof. intros H. unfold job_prefix. by rewrite Str.split_single. Qed.

Lemma job_prefix_dot p rest :
  "."%char ∉ Str.chars p -> job_prefix (p +:+ String "." rest) = p.
Proof. intros H. unfold job_prefix. by rewrite Str.split_app. Qed.

Lemma job_prefix_clean process_id : "."%char ∉ Str.chars (job_prefix process_id).
Proof.
  unfold job_prefix. pose proof (Str.split_no_sep "." process_id) as H.
  destruct (Str.split "." process_id) as [|p ?]; [apply not_elem_of_nil|].
  by inversion H.
Qed.

(** ** Lemmas: status codes *)

Lemma job_state_get_spec code :
  job_state_get code =
    if decide (code = "C") then "Job is completed  "
    else if decide (code = "E") then "Job is exiting    "
    else if decide (code = "H") then "Job is held       "
    else if decide (code = "Q") then "job is queued     "
    else if decide (code = "R") then "job is running    "
    else if decide (code = "T") then "job is being moved"
    else if decide (code = "W") then "job is waiting    "
    else if decide (code = "S") then "job is suspend    "
    else "undefined".
Proof.
  unfold job_state_get, job_state.
  repeat (case_decide; [subst; reflexivity|]).
  by rewrite !lookup_insert_ne, lookup_empty by done.
Qed.

Lemma job_state_E_eq : job_state_E = "Job is exiting    ".
Proof. reflexivity. Qed.

(** Only code [E] decodes to the text of [job_state['E']]. *)
Lemma job_state_get_E_iff code : job_state_get code = job_state_E <-> code = "E".
Proof.
  rewrite job_state_get_spec, job_state_E_eq.
  repeat case_decide; subst; split; done.
Qed.

(** A decoded status is never the empty string. *)
Lemma job_state_get_nonempty code : job_state_get code <> EmptyString.
Proof. rewrite job_state_get_spec. by repeat case_decide. Qed.

(** ** Lemmas: one line *)

Lemma mentions_iff line process_id :
  mentions line process_id = true <-> exists a b, line = a +:+ process_id +:+ b.
Proof. unfold mentions. by rewrite bool_decide_eq_true, Str.find_found_iff. Qed.

Lemma data_of_nonempty line : Forall (fun w => w <> EmptyString) (data_of line).
Proof. unfold data_of. apply Forall_forall. by intros w [? _]%list_elem_of_filter. Qed.

Lemma data_of_no_space line : Forall (fun w => " "%char ∉ Str.chars w) (data_of line).
Proof.
  unfold data_of. apply Forall_forall. intros w [_ Hw]%list_elem_of_filter.
  revert w Hw. apply Forall_forall, Str.split_no_sep.
Qed.

Lemma scan_line_other process_id line a :
  mentions line process_id = false -> scan_line process_id line a = (a, None).
Proof. unfold scan_line. by intros ->. Qed.

Lemma scan_line_short process_id line a :
  mentions line process_id = true -> length (data_of line) < 2 ->
  scan_line process_id line a = (a, Some IndexError).
Proof.
  intros Hm Hl. unfold scan_line. rewrite Hm.
  by rewrite (proj2 (neg_index_None _ 2)) by lia.
Qed.

Lemma scan_line_row process_id line a code :
  mentions line process_id = true -> neg_index (data_of line) 2 = Some code ->
  code <> "E" ->
  scan_line process_id line a = (Scan (job_state_get code) (cpu a) (ended a), None).
Proof.
  intros Hm Hc Hne. unfold scan_line. rewrite Hm, Hc. cbn.
  by rewrite decide_False by (by rewrite job_state_get_E_iff).
Qed.

Lemma scan_line_exiting process_id line a used :
  exiting_row process_id line -> neg_index (data_of line) 3 = Some used ->
  scan_line process_id line a = (Scan job_state_E (Some used) true, None).
Proof. intros [Hm Hc] Hu. unfold scan_line. by rewrite Hm, Hc, Hu. Qed.

Lemma scan_line_exiting_short process_id line a :
  exiting_row process_id line -> length (data_of line) < 3 ->
  scan_line process_id line a = (Scan job_state_E (cpu a) (ended a), Some IndexError).
Proof.
  intros [Hm Hc] Hl. unfold scan_line. rewrite Hm, Hc. cbn.
  by rewrite (proj2 (neg_index_None _ 3)) by lia.
Qed.

(** The only exception a line can raise is [IndexError]. *)
Lemma scan_line_exn process_id line a a' x :
  scan_line process_id line a = (a', Some x) -> x = IndexError.
Proof. unfold scan_line. intros H. repeat case_match; by simplify_eq. Qed.

(** What a line that does not raise assigns. *)
Lemma scan_line_val process_id line a a' :
  scan_line process_id line a = (a', None) ->
  (mentions line process_id = false /\ a' = a) \/
  (exists code, mentions line process_id = true /\
     neg_index (data_of line) 2 = Some code /\ code <> "E" /\
     a' = Scan (job_state_get code) (cpu a) (ended a)) \/
  (exists used, exiting_row process_id line /\
     neg_index (data_of line) 3 = Some used /\
     a' = Scan job_state_E (Some used) true).
Proof.
  unfold scan_line, exiting_row.
  destruct (mentions line process_id) eqn:Hm; [|intros [= <-]; by left].
  destruct (neg_index (data_of line) 2) as [code|] eqn:Hc; [|done]. cbn.
  case_decide as HE.
  - apply job_state_get_E_iff in HE as ->.
    destruct (neg_index (data_of line) 3) as [used|] eqn:Hu; [|done].
    intros [= <-]. right. right. eauto.
  - intros [= <-]. right. left. exists code. rewrite job_state_get_E_iff in HE. eauto.
Qed.

(** A line raises nothing exactly when it is readable. *)
Lemma scan_line_None_iff process_id line a :
  (scan_line process_id line a).2 = None <-> readable process_id line.
Proof.
  unfold scan_line, readable.
  destruct (mentions line process_id); [|by split].
  destruct (neg_index (data_of line) 2) as [code|] eqn:Hc; cbn.
  - apply neg_index_Some in Hc as Hl. case_decide as HE.
    + apply job_state_get_E_iff in HE as ->.
      destruct (neg_index (data_of line) 3) as [u|] eqn:Hu; cbn.
      * apply neg_index_Some in Hu. split; [intros _ _; split; lia|done].
      * apply neg_index_None in Hu. split; [done|]. intros H.
        destruct (H eq_refl) as [_ H3]. specialize (H3 eq_refl). lia.
    + split; [|done]. intros _ _. split; [lia|]. intros [= ->].
      by rewrite job_state_get_E_iff in HE.
  - apply neg_index_None in Hc. split; [done|]. intros H. destruct (H eq_refl). lia.
Qed.

(** ** Lemmas: a listing *)

Lemma scan_lines_None_iff process_id lines a :
  (scan_lines process_id lines a).2 = None <-> Forall (readable process_id) lines.
Proof.
  revert a. induction lines as [|l lines IH]; intros a; [by split|]. cbn.
  rewrite Forall_cons, <-(scan_line_None_iff _ _ a).
  destruct (scan_line process_id l a) as [a1 [x|]]; cbn; [by split; [|intros []]|].
  rewrite IH. tauto.
Qed.

Lemma scan_lines_app process_id l1 l2 a :
  scan_lines process_id (l1 ++ l2) a =
    match scan_lines process_id l1 a with
    | (a1, None) => scan_lines process_id l2 a1
    | (a1, Some x) => (a1, Some x)
    end.
Proof.
  revert a. induction l1 as [|l l1 IH]; intros a; [done|]. cbn.
  destruct (scan_line process_id l a) as [a1 [x|]]; [done|apply IH].
Qed.

Lemma scan_lines_snoc_val process_id lines line a a' :
  scan_lines process_id (lines ++ [line]) a = (a', None) ->
  exists a1, scan_lines process_id lines a = (a1, None) /\
             scan_line process_id line a1 = (a', None).
Proof.
  rewrite scan_lines_app.
  destruct (scan_lines process_id lines a) as [a1 [x|]]; [done|]. cbn.
  destruct (scan_line process_id line a1) as [a2 [x|]] eqn:E; [done|].
  intros [= <-]. eauto.
Qed.

Lemma scan_lines_exn process_id lines a a' x :
  scan_lines process_id lines a = (a', Some x) -> x = IndexError.
Proof.
  revert a. induction lines as [|l lines IH]; intros a; [done|]. cbn.
  destruct (scan_line process_id l a) as [a1 [y|]] eqn:E; [|apply IH].
  intros [= <- <-]. eauto using scan_line_exn.
Qed.

Lemma scan_listing_exn process_id stdout ended0 x :
  (scan_listing process_id stdout ended0).2 = Some x -> x = IndexError.
Proof.
  unfold scan_listing.
  destruct (scan_lines _ _ _) as [a [y|]] eqn:E; [|done].
  intros [= <-]. eauto using scan_lines_exn.
Qed.

Lemma scan_listing_None_iff process_id stdout ended0 :
  (scan_listing process_id stdout ended0).2 = None <->
  Forall (readable process_id) (lines_of stdout).
Proof.
  rewrite <-(scan_lines_None_iff _ _ (Scan EmptyString None ended0)).
  unfold scan_listing. by destruct (scan_lines _ _ _) as [a [x|]].
Qed.

Lemma rows_snoc process_id lines line :
  rows process_id (lines ++ [line]) =
    rows process_id lines ++ (if mentions line process_id then [line] else []).
Proof.
  unfold rows. rewrite filter_app. f_equal.
  destruct (mentions line process_id) eqn:E.
  - by rewrite filter_cons_True.
  - rewrite filter_cons_False; [done|]. by rewrite E.
Qed.

Lemma exiting_rows_snoc process_id lines line :
  exiting_rows process_id (lines ++ [line]) =
    exiting_rows process_id lines ++
      (if decide (exiting_row process_id line) then [line] else []).
Proof.
  unfold exiting_rows. by rewrite filter_app.
Qed.

(** What a listing that raises nothing assigns: the status of the last row of
    the job, the third token from the end of its last exiting row, and [ended]
    as soon as there is an exiting row. *)
Lemma scan_lines_spec process_id lines a a' :
  scan_lines process_id lines a = (a', None) ->
  cur_status a' =
    match last (rows process_id lines) with
    | Some l => job_state_get (default EmptyString (neg_index (data_of l) 2))
    | None => cur_status a
    end /\
  cpu a' =
    match last (exiting_rows process_id lines) with
    | Some l => neg_index (data_of l) 3
    | None => cpu a
    end /\
  ended a' = ended a || bool_decide (exiting_rows process_id lines <> []).
Proof.
  revert a'. induction lines as [|line lines IH] using rev_ind; intros a'.
  - intros [= <-]. cbn. by rewrite orb_false_r.
  - intros (a1 & H1 & H2)%scan_lines_snoc_val.
    destruct (IH _ H1) as (IHs & IHc & IHe). clear IH H1.
    rewrite rows_snoc, exiting_rows_snoc.
    apply scan_line_val in H2 as [[Hm ->]|[(code & Hm & Hc & Hne & ->)|(used & Hx & Hu & ->)]].
    + rewrite Hm, decide_False, !app_nil_r by (intros [? _]; congruence). done.
    + rewrite Hm, decide_False, last_snoc, app_nil_r, Hc by (intros [_ ?]; congruence).
      done.
    + destruct Hx as [Hm Hc]. rewrite Hm, decide_True, !last_snoc, Hc, Hu by done. cbn.
      split; [symmetry; by apply job_state_get_E_iff|split; [done|]].
      rewrite bool_decide_eq_true_2, orb_true_r; [done|].
      by intros [_ ?]%app_eq_nil.
Qed.

Lemma rows_nil_iff process_id lines :
  rows process_id lines = [] <-> Forall (fun l => mentions l process_id = false) lines.
Proof.
  unfold rows. rewrite filter_nil_Forall. apply Forall_iff. intros l.
  by destruct (mentions l process_id).
Qed.

Lemma exiting_rows_sub process_id lines :
  exiting_rows process_id lines ⊆ rows process_id lines.
Proof.
  intros l [[Hm _] Hl]%list_elem_of_filter. by apply list_elem_of_filter.
Qed.

Lemma scan_lines_absent process_id lines a :
  Forall (fun l => mentions l process_id = false) lines ->
  scan_lines process_id lines a = (a, None).
Proof.
  induction 1 as [|l lines Hl _ IH]; [done|]. cbn.
  by rewrite scan_line_other.
Qed.

(** No exception: the scan of the lines ended with [None]. *)
Lemma scan_listing_val process_id stdout ended0 a :
  scan_listing process_id stdout ended0 = (a, None) ->
  exists a1,
    scan_lines process_id (lines_of stdout) (Scan EmptyString None ended0) = (a1, None) /\
    cur_status a = cur_status a1 /\ cpu a = cpu a1 /\
    ended a = ended a1 || bool_decide (cur_status a1 = EmptyString).
Proof.
  unfold scan_listing.
  destruct (scan_lines _ _ _) as [a1 [x|]]; [done|]. intros [= <-]. exists a1.
  case_decide; cbn; rewrite ?bool_decide_eq_true_2, ?bool_decide_eq_false_2 by done;
    by rewrite ?orb_true_r, ?orb_false_r.
Qed.

(** The status is empty after the loop exactly when no line mentions the job. *)
Lemma scan_lines_status_empty process_id lines ended0 a :
  scan_lines process_id lines (Scan EmptyString None ended0) = (a, None) ->
  cur_status a = EmptyString <-> rows process_id lines = [].
Proof.
  intros (Hs & _ & _)%scan_lines_spec. rewrite Hs.
  destruct (rows process_id lines) as [|l ls] eqn:E using rev_ind; [done|].
  rewrite last_snoc. split; [by intros ?%job_state_get_nonempty|].
  by intros [_ ?]%app_eq_nil.
Qed.

Lemma exiting_rows_nil_iff process_id lines :
  exiting_rows process_id lines = [] <-> ~ Exists (exiting_row process_id) lines.
Proof.
  unfold exiting_rows. by rewrite filter_nil_Forall, <-Forall_Exists_neg.
Qed.

(** The last exiting row of a listing that raises nothing has a third token
    from the end. *)
Lemma last_exiting_row_used process_id lines a a' l :
  scan_lines process_id lines a = (a', None) ->
  last (exiting_rows process_id lines) = Some l ->
  is_Some (neg_index (data_of l) 3).
Proof.
  intros Hs Hl. apply last_Some_elem_of, list_elem_of_filter in Hl as [[Hm HE] Hin].
  assert (readable process_id l) as Hr.
  { eapply Forall_forall; [|done]. apply (scan_lines_None_iff _ _ a). by rewrite Hs. }
  destruct (Hr Hm) as [_ H3]. specialize (H3 HE).
  destruct (neg_index (data_of l) 3) eqn:E; [done|]. apply neg_index_None in E. lia.
Qed.

(** When a reading that raises nothing sets [ended]: it was set before, or an
    exiting row was read, or no line mentions the job. *)
Lemma scan_listing_ended process_id stdout ended0 a :
  scan_listing process_id stdout ended0 = (a, None) ->
  ended a = ended0
            || bool_decide (Exists (exiting_row process_id) (lines_of stdout))
            || bool_decide (rows process_id (lines_of stdout) = []).
Proof.
  intros (a1 & Hs & _ & _ & ->)%scan_listing_val.
  rewrite (bool_decide_ext _ _ (scan_lines_status_empty _ _ _ _ Hs)).
  apply scan_lines_spec in Hs as (_ & _ & ->). cbn. do 2 f_equal.
  apply bool_decide_ext. rewrite exiting_rows_nil_iff.
  destruct (decide (Exists (exiting_row process_id) (lines_of stdout))); tauto.
Qed.

(** A reading that assigns [cpu_time_used] sets [ended]. *)
Lemma scan_listing_cpu_ended process_id stdout ended0 a :
  scan_listing process_id stdout ended0 = (a, None) ->
  is_Some (cpu a) -> ended a = true /\ Exists (exiting_row process_id) (lines_of stdout).
Proof.
  intros Hs Hc. pose proof Hs as (a1 & H1 & _ & Hcpu & _)%scan_listing_val.
  assert (Exists (exiting_row process_id) (lines_of stdout)) as Hx.
  { destruct (decide (Exists (exiting_row process_id) (lines_of stdout))) as [|Hn]; [done|].
    apply exiting_rows_nil_iff in Hn. apply scan_lines_spec in H1 as (_ & H1 & _).
    rewrite Hn in H1. cbn in H1. rewrite Hcpu, H1 in Hc. by destruct Hc. }
  split; [|done]. rewrite (scan_listing_ended _ _ _ _ Hs).
  by rewrite (bool_decide_eq_true_2 _ Hx), orb_true_r.
Qed.

(** ** Properties of a reading *)

(** C5. The status shown for the job is the decoding of the last token but one
    of the last line of the listing that mentions the job: the text of
    [job_state] for each of the eight codes, and ["undefined"] for any other
    token. *)
Theorem scan_listing_decodes process_id stdout ended0 a line code :
  scan_listing process_id stdout ended0 = (a, None) ->
  last (rows process_id (lines_of stdout)) = Some line ->
  neg_index (data_of line) 2 = Some code ->
  cur_status a =
    if decide (code = "C") then "Job is completed  "
    else if decide (code = "E") then "Job is exiting    "
    else if decide (code = "H") then "Job is held       "
    else if decide (code = "Q") then "job is queued     "
    else if decide (code = "R") then "job is running    "
    else if decide (code = "T") then "job is being moved"
    else if decide (code = "W") then "job is waiting    "
    else if decide (code = "S") then "job is suspend    "
    else "undefined".
Proof.
  intros (a1 & (Hs & _)%scan_lines_spec & -> & _)%scan_listing_val Hl Hc.
  rewrite Hs, Hl, Hc. apply job_state_get_spec.
Qed.

Lemma scan_listing_decodes_witness :
  cur_status (Scan "job is running    " None false) = "job is running    ".
Proof.
  apply (scan_listing_decodes "123.host" "123.host user queue demo.run 1 2 R 00:01"
           false _ "123.host user queue demo.run 1 2 R 00:01" "R");
    vm_compute; reflexivity.
Defined.

(** C7. When no line of the listing mentions the job, the reading raises
    nothing, assigns nothing to [cpu_time_used], leaves the status empty and
    sets [ended]: a job that is gone from the queue ends the polling. *)
Theorem scan_listing_absent process_id stdout ended0 :
  Forall (fun l => mentions l process_id = false) (lines_of stdout) ->
  scan_listing process_id stdout ended0 = (Scan EmptyString None true, None).
Proof. intros H. unfold scan_listing. by rewrite scan_lines_absent. Qed.

Lemma scan_listing_absent_witness :
  scan_listing "123.host" "124.host user queue other.run 1 2 R 00:01" false
  = (Scan EmptyString None true, None).
Proof. apply scan_listing_absent. vm_compute. repeat constructor. Defined.

(** C6. A reading that raises nothing assigns [cpu_time_used] if and only if
    some line mentions the job and has [E] as its last token but one. *)
Theorem scan_listing_cpu_iff process_id stdout ended0 a :
  scan_listing process_id stdout ended0 = (a, None) ->
  is_Some (cpu a) <-> Exists (exiting_row process_id) (lines_of stdout).
Proof.
  intros Hs. split; [intros Hc; by destruct (scan_listing_cpu_ended _ _ _ _ Hs Hc)|].
  apply scan_listing_val in Hs as (a1 & Hs & _ & -> & _). intros Hx.
  pose proof (fun l => last_exiting_row_used _ _ _ _ l Hs) as Hu.
  apply scan_lines_spec in Hs as (_ & -> & _).
  destruct (last (exiting_rows _ _)) as [l|] eqn:E; [eauto|].
  by apply last_None, exiting_rows_nil_iff in E.
Qed.

Lemma scan_listing_cpu_iff_witness :
  is_Some (Some "00:10") <->
  Exists (exiting_row "12.h") (lines_of "12.h n u 00:10 E q").
Proof.
  apply (scan_listing_cpu_iff "12.h" "12.h n u 00:10 E q" false
           (Scan "Job is exiting    " (Some "00:10") true)).
  vm_compute. reflexivity.
Defined.

(** C36. A reading raises exactly when some line of the listing cannot be
    read: a line that mentions the job and has fewer than two tokens, or has
    [E] as its last token but one and fewer than three tokens.  What it raises
    is [IndexError], which nothing in [run] catches. *)
Theorem scan_listing_raises_iff process_id stdout ended0 :
  ((scan_listing process_id stdout ended0).2 = Some IndexError <->
   ~ Forall (readable process_id) (lines_of stdout)) /\
  ((scan_listing process_id stdout ended0).2 = None <->
   Forall (readable process_id) (lines_of stdout)).
Proof.
  rewrite <-(scan_listing_None_iff process_id stdout ended0).
  pose proof (scan_listing_exn process_id stdout ended0) as Hx.
  destruct (scan_listing _ _ _).2 as [x|]; [rewrite (Hx x eq_refl)|];
    (split; split; first [done|congruence]).
Qed.

(** C37. The value assigned to [cpu_time_used] is the third token from the end
    of the last line that mentions the job and has [E] as its last token but
    one.  For a row whose last token is the time, as in the listing
    ["123.host user queue demo.run 1 2 E 00:05"], this is the token before
    the status and not the time. *)
Theorem scan_listing_cpu_value process_id stdout ended0 a line :
  scan_listing process_id stdout ended0 = (a, None) ->
  last (exiting_rows process_id (lines_of stdout)) = Some line ->
  cpu a = neg_index (data_of line) 3 /\ is_Some (cpu a).
Proof.
  intros (a1 & Hs & _ & -> & _)%scan_listing_val Hl.
  pose proof (last_exiting_row_used _ _ _ _ _ Hs Hl) as Hu.
  apply scan_lines_spec in Hs as (_ & -> & _). by rewrite Hl.
Qed.

Lemma scan_listing_cpu_value_witness :
  cpu (Scan "Job is exiting    " (Some "2") true) =
    neg_index (data_of "123.host user queue demo.run 1 2 E 00:05") 3 /\
  is_Some (cpu (Scan "Job is exiting    " (Some "2") true)).
Proof.
  apply (scan_listing_cpu_value "123.host" "123.host user queue demo.run 1 2 E 00:05" false);
    by vm_compute.
Defined.

(** A line mentions the job exactly when the identifier occurs somewhere in
    it, at a token boundary or not: the rows of a job whose identifier
    contains the tracked one (["312.host"] for ["12.host"]) are read as rows
    of the tracked job, and the last such row decides the status. *)
Lemma mentions_substring process_id line :
  mentions line process_id = true <->
  exists before after, line = before +:+ process_id +:+ after.
Proof. apply mentions_iff. Qed.

End Gateway.
