(* ===== verification/Poll.v ===== *)
(** * Poll: watching the job in the queue

    The [try] block of [Submit.run] (lines 119-166 of [sub.py]) and its
    [except KeyboardInterrupt] handler (lines 167-179).

    - [locals] holds the variables the [while] loop reads and assigns: the
      last [call_command] result, [last_string], [proc_pass] and [ended].
    - [polling] is the loop condition, [poll_body] one iteration, [poll_loop]
      the loop with fuel: an iteration issues exactly one [qstat], so fuel [n]
      is enough for any environment in which the job leaves the queue within
      [n] listings, and [Stop OutOfFuel] means the loop was still running.
    - [render] is the status line with its spinner; [watch] the whole [try]
      block; [on_interrupt] the handler; [watch_or_cancel] the two together. *)

From Stdlib Require Import Ascii String ZArith Lia.
From stdpp Require Import base tactics option list strings gmap.
From S2P Require Import Prelude PyString Job World Pretty Gateway.
Import Job World Colors.
#[local] Open Scope py_scope.

Module Poll.

(** [bar] *)
Definition bar : list string := ["▌"; "▀"; "▐"; "▄"].

Record locals : Type := Locals {
  cmd : cmd_result;
  last_string : string;
  proc_pass : nat;
  ended : bool }.

(** [stdout.strip() != "" and ret_code == 0 and not ended] *)
Definition polling (l : locals) : bool :=
  negb (bool_decide (Str.strip (cr_stdout (cmd l)) = EmptyString))
  && bool_decide (cr_ret_code (cmd l) = 0%Z)
  && negb (ended l).

(** [Colors.WARNING + "  - status: {0}".format(cur_status) + Colors.ENDC] *)
Definition status_line (cur_status : string) : string :=
  WARNING +:+ "  - status: " +:+ cur_status +:+ ENDC.

(** [proc_pass += 1; proc_pass %= 4] *)
Definition next_pass (proc_pass : nat) : nat := (proc_pass + 1) mod 4.

(** The text to print and the new [last_string] and [proc_pass]; [None] when
    [bar[proc_pass]] is out of range. *)
Definition render (cur_status last_string : string) (proc_pass : nat) :
    option (string * string * nat) :=
  let new_string := status_line cur_status in
  if decide (new_string <> last_string) then Some (new_string, new_string, proc_pass)
  else match bar !! proc_pass with
       | Some glyph => Some (new_string +:+ glyph, last_string, next_pass proc_pass)
       | None => None
       end.

(** One iteration of the [while] loop. *)
Definition poll_body (process_id : string) (l : locals) : M locals :=
  r <- call_command Gateway.qstat_command ;;
  let reading := Gateway.scan_listing process_id (cr_stdout r) (ended l) in
  match Gateway.cpu reading.1 with
  | Some used => assign_cpu_time_used used
  | None => ret tt
  end ;;
  match reading.2 with
  | Some x => raise x
  | None => ret tt
  end ;;
  match render (Gateway.cur_status reading.1) (last_string l) (proc_pass l) with
  | None => raise IndexError
  | Some (new_string, last_string', proc_pass') =>
      print new_string Str.cr ;;
      flush ;;
      sleep 150 ;;
      ret (Locals r last_string' proc_pass' (Gateway.ended reading.1))
  end.

(** The [while] loop. *)
Fixpoint poll_loop (fuel : nat) (process_id : string) (l : locals) : M locals :=
  if polling l then
    match fuel with
    | O => stop OutOfFuel
    | S fuel' => l' <- poll_body process_id l ;; poll_loop fuel' process_id l'
    end
  else ret l.

(** The [try] block: announce the job, a first [qstat], the loop, and the
    check of the last return code. *)
Definition watch (fuel : nat) (process_id : string) : M (flow unit) :=
  print (WARNING +:+ "- Processing job -> " +:+ process_id +:+ ENDC) Str.nl ;;
  r <- call_command Gateway.qstat_command ;;
  l <- poll_loop fuel process_id (Locals r EmptyString 0 false) ;;
  print (WARNING +:+ Str.nl +:+ "  - done" +:+ ENDC) Str.nl ;;
  if decide (cr_ret_code (cmd l) <> 0%Z) then
    print (FAIL +:+ "FAIL" +:+ ENDC) Str.nl ;;
    Pretty.report (cmd l) ;;
    ret (Return QueryFailure)
  else ret (Continue tt).

(** The [except KeyboardInterrupt] handler. *)
Definition on_interrupt (process_id : string) : M (flow unit) :=
  print (Str.cr +:+ HEADER +:+ "!!! REQUESTED INTERRUPT !!!" +:+ ENDC) Str.nl ;;
  r <- call_command (Gateway.qdel_command process_id) ;;
  if decide (cr_ret_code r <> 0%Z) then
    print (FAIL +:+ "FAIL" +:+ ENDC) Str.nl ;;
    Pretty.report r ;;
    ret (Return CancelFailure)
  else
    print (HEADER +:+ "!!! JOB successful aborted !!!" +:+ ENDC) Str.nl ;;
    ret (Return UserAbort).

(** [try: ... except KeyboardInterrupt: ...] *)
Definition watch_or_cancel (fuel : nat) (process_id : string) : M (flow unit) :=
  try_except (watch fuel process_id)
    (fun x => match x with
              | KeyboardInterrupt => Some (on_interrupt process_id)
              | _ => None
              end).

(** ** The actions of the watch *)

(** [k] status queries in a row. *)
Definition queries (k : nat) : list event := replicate k (EvCall Gateway.qstat_command).

(** How an iteration, the loop, the [try] block and the handler may end, and
    what they did to the scheduler meanwhile. *)
Definition body_ends (r : res locals) : Prop :=
  (exists l', r = Val l') \/ r = Exn KeyboardInterrupt \/ r = Exn IndexError.

Definition loop_lang (fuel : nat) (r : res locals) (w : list event) : Prop :=
  exists k, k <= fuel /\ w = queries k /\
    ((exists l', r = Val l' /\ polling l' = false) \/
     (0 < k /\ (r = Exn KeyboardInterrupt \/ r = Exn IndexError)) \/
     (k = fuel /\ r = Stop OutOfFuel)).

Definition watch_ends (r : res (flow unit)) : Prop :=
  r = Val (Return QueryFailure) \/ r = Val (Continue tt) \/ r = Exn IndexError \/
  r = Stop OutOfFuel.

Definition watch_lang (fuel : nat) (r : res (flow unit)) (w : list event) : Prop :=
  exists k, k <= fuel /\ w = queries (S k) /\ (watch_ends r \/ r = Exn KeyboardInterrupt).

Definition cancel_ends (r : res (flow unit)) : Prop :=
  r = Val (Return CancelFailure) \/ r = Val (Return UserAbort) \/ r = Exn KeyboardInterrupt.

Definition watch_or_cancel_lang (fuel : nat) (process_id : string)
    (r : res (flow unit)) (w : list event) : Prop :=
  exists k, k <= fuel /\
    ((w = queries (S k) /\ watch_ends r) \/
     (w = queries (S k) ++ [EvCall (Gateway.qdel_command process_id)] /\ cancel_ends r)).

#[export] Instance locals_eq_dec : EqDecision locals.
Proof. solve_decision. Defined.

(** The state after the [qstat] of an iteration and the assignment of [used]
    (when the reading assigned something). *)
Definition after_scan (e : env) (s : state) (used : option string) : state :=
  let s1 := advance e (count_call (log (EvCall Gateway.qstat_command) s)) in
  match used with
  | Some u => with_self (set_cpu_time_used u) s1
  | None => s1
  end.

(** The state after an iteration that also printed [printed] and slept. *)
Definition after_body (e : env) (s : state) (used : option string) (printed : string) :
    state :=
  advance e (log (EvSleep 150) (log EvFlush (log (EvPrint (printed +:+ Str.cr))
    (after_scan e s used)))).

(** The listing the [j]-th next [qstat] returns stops the loop: it is empty,
    the command failed, or its reading sets [ended] or raises. *)
Definition stops (process_id : string) (r : cmd_result) : bool :=
  bool_decide (Str.strip (cr_stdout r) = EmptyString)
  || negb (bool_decide (cr_ret_code r = 0%Z))
  || Gateway.ended (Gateway.scan_listing process_id (cr_stdout r) false).1
  || bool_decide (is_Some (Gateway.scan_listing process_id (cr_stdout r) false).2).

(** ** Environments for the examples *)

(** The job runs during the first listing and is gone from the second on. *)
Definition ready_env : env :=
  Env (fun n => match n with
                | 0 => (0%Z, "123.host demo u 00:10 R batch", EmptyString)
                | _ => (0%Z, "124.host other u 00:02 R batch", EmptyString)
                end)
      (fun _ => false) (fun _ => []) (fun _ => true).

(** The job is held in every listing. *)
Definition held_env : env :=
  Env (fun _ => (0%Z, "123.host demo u 00:10 H batch", EmptyString))
      (fun _ => false) (fun _ => []) (fun _ => true).

(** The job is held and the user presses Ctrl-C during the fourth wait. *)
Definition pressed_env : env :=
  Env (replies held_env) (fun t => bool_decide (t = 3)) (fun _ => []) (fun _ => true).

(** A fresh process: a [Submit] for project [demo], nothing done yet. *)
Definition ready_state : state := State (init "demo" 4 1 []) 0 0 ∅ ∅ [].

#[global] Arguments status_line : simpl never.
#[global] Arguments next_pass : simpl never.
#[global] Arguments queries : simpl never.

(** ** Lemmas: the spinner *)

Lemma render_fresh cur_status last_string proc_pass :
  status_line cur_status <> last_string ->
  render cur_status last_string proc_pass =
    Some (status_line cur_status, status_line cur_status, proc_pass).
Proof. intros H. unfold render. by rewrite decide_True. Qed.

Lemma render_repeat cur_status proc_pass glyph :
  bar !! proc_pass = Some glyph ->
  render cur_status (status_line cur_status) proc_pass =
    Some (status_line cur_status +:+ glyph, status_line cur_status, next_pass proc_pass).
Proof. intros H. unfold render. by rewrite decide_False, H by naive_solver. Qed.

Lemma next_pass_bound proc_pass : next_pass proc_pass < 4.
Proof. apply Nat.mod_upper_bound. lia. Qed.

Lemma bar_lookup proc_pass : proc_pass < 4 -> is_Some (bar !! proc_pass).
Proof. intros H. apply lookup_lt_is_Some. cbn. lia. Qed.

(** With [proc_pass] below 4 the status line is always rendered, and
    [proc_pass] stays below 4. *)
Lemma render_Some cur_status last_string proc_pass :
  proc_pass < 4 ->
  exists printed last_string' proc_pass',
    render cur_status last_string proc_pass = Some (printed, last_string', proc_pass') /\
    proc_pass' < 4.
Proof.
  intros H. unfold render. case_decide; [eauto|].
  destruct (bar_lookup _ H) as [g ->]. do 3 eexists. split; [done|].
  apply next_pass_bound.
Qed.

Lemma render_bound cur_status last_string proc_pass printed last_string' proc_pass' :
  render cur_status last_string proc_pass = Some (printed, last_string', proc_pass') ->
  proc_pass < 4 -> proc_pass' < 4.
Proof.
  unfold render. case_decide; [by intros [= _ _ <-]|].
  destruct (bar !! proc_pass); [|done]. intros [= _ _ <-] _.
  apply next_pass_bound.
Qed.

(** ** Lemmas: one iteration *)

Lemma advance_clock e s : clock (advance e s) = S (clock s).
Proof. done. Qed.

(** What an iteration does, case by case: interrupted during [qstat]; a
    reading that raises; a spinner index out of range; interrupted during the
    sleep; or a new set of locals. *)
Lemma poll_body_eq process_id l e s :
  poll_body process_id l e s =
    let r := reply_at e (ncalls s) Gateway.qstat_command in
    let reading := Gateway.scan_listing process_id (cr_stdout r) (ended l) in
    if sigint e (clock s)
    then (Exn KeyboardInterrupt,
          advance e (count_call (log (EvCall Gateway.qstat_command) s)))
    else match reading.2 with
         | Some x => (Exn x, after_scan e s (Gateway.cpu reading.1))
         | None =>
             match render (Gateway.cur_status reading.1) (last_string l) (proc_pass l) with
             | None => (Exn IndexError, after_scan e s (Gateway.cpu reading.1))
             | Some (printed, last_string', proc_pass') =>
                 (if sigint e (S (clock s)) then Exn KeyboardInterrupt
                  else Val (Locals r last_string' proc_pass' (Gateway.ended reading.1)),
                  after_body e s (Gateway.cpu reading.1) printed)
             end
         end.
Proof.
  unfold poll_body. destruct (sigint e (clock s)) eqn:Hi1.
  { by rewrite (bind_exn _ _ _ _ _ _ (call_command_int _ _ _ Hi1)). }
  rewrite (bind_val _ _ _ _ _ _ (call_command_val _ _ _ Hi1)). cbn.
  destruct (Gateway.scan_listing _ _ _) as [a [x|]]; cbn.
  { by destruct (Gateway.cpu a). }
  unfold after_body, after_scan.
  destruct (render _ _ _) as [[[printed ls] pp]|]; [|by destruct (Gateway.cpu a)].
  destruct (Gateway.cpu a); cbn; unfold elapse; cbn;
    by destruct (sigint e (S (clock s))).
Qed.

Lemma poll_body_ncalls process_id l e s :
  ncalls (poll_body process_id l e s).2 = S (ncalls s).
Proof.
  rewrite poll_body_eq. cbn. unfold after_body, after_scan.
  repeat case_match; by simplify_eq/=.
Qed.

Lemma poll_body_not_stop process_id l e s h :
  (poll_body process_id l e s).1 <> Stop h.
Proof. rewrite poll_body_eq. cbn. by repeat case_match. Qed.

(** What the locals and the state are after an iteration that returns. *)
Lemma poll_body_Val_inv process_id l e s l' s' :
  poll_body process_id l e s = (Val l', s') ->
  exists a printed,
    Gateway.scan_listing process_id (cr_stdout (cmd l')) (ended l) = (a, None) /\
    cmd l' = reply_at e (ncalls s) Gateway.qstat_command /\
    ended l' = Gateway.ended a /\
    render (Gateway.cur_status a) (last_string l) (proc_pass l)
      = Some (printed, last_string l', proc_pass l') /\
    s' = after_body e s (Gateway.cpu a) printed.
Proof.
  rewrite poll_body_eq. cbn.
  destruct (sigint e (clock s)); [done|].
  destruct (Gateway.scan_listing _ _ _) as [a [x|]] eqn:Hs; cbn; [done|].
  destruct (render _ _ _) as [[[printed ls] pp]|] eqn:Hr; [|done].
  destruct (sigint e (S (clock s))); [done|]. intros [= <- <-]. cbn.
  exists a, printed. by rewrite Hs.
Qed.

(** The exceptions of an iteration: an interrupt, or an [IndexError] of the
    reading. *)
Lemma poll_body_Exn_inv process_id l e s x s' :
  poll_body process_id l e s = (Exn x, s') ->
  proc_pass l < 4 ->
  x = KeyboardInterrupt \/
  (x = IndexError /\
   ~ Forall (Gateway.readable process_id)
       (Gateway.lines_of (replies e (ncalls s)).1.2)).
Proof.
  rewrite poll_body_eq. cbn. intros H Hp.
  destruct (sigint e (clock s)); [left; by simplify_eq|].
  destruct (Gateway.scan_listing _ _ _) as [a [y|]] eqn:Hs; cbn in H.
  - right. simplify_eq. unfold Gateway.scan_listing in Hs.
    destruct (Gateway.scan_lines _ _ _) as [a1 [z|]] eqn:Hl; [|done]. simplify_eq.
    split; [by eapply Gateway.scan_lines_exn|].
    rewrite <-(Gateway.scan_lines_None_iff _ _ (Gateway.Scan EmptyString None (ended l))).
    by rewrite Hl.
  - destruct (render_Some (Gateway.cur_status a) (last_string l) _ Hp)
      as (p & ls & pp & Hr & _).
    rewrite Hr in H. destruct (sigint e (S (clock s))); left; by simplify_eq.
Qed.

Lemma polling_ended l : polling l = true -> ended l = false.
Proof. unfold polling. by intros [_ ?%negb_true_iff]%andb_true_iff. Qed.

Lemma render_bound_body process_id l e s l' s' :
  poll_body process_id l e s = (Val l', s') -> proc_pass l < 4 -> proc_pass l' < 4.
Proof.
  intros (a & p & _ & _ & _ & Hr & _)%poll_body_Val_inv. eauto using render_bound.
Qed.

(** Without an interrupt, an iteration raises only on a listing that stops
    the loop. *)
Lemma poll_body_stops_Exn process_id l e s x s' :
  polling l = true ->
  (forall t, sigint e t = false) ->
  proc_pass l < 4 ->
  poll_body process_id l e s = (Exn x, s') ->
  stops process_id (reply_at e (ncalls s) Gateway.qstat_command) = false ->
  False.
Proof.
  intros Hl Hi Hp. rewrite poll_body_eq, (polling_ended _ Hl). cbn. rewrite !Hi.
  unfold stops. intros H [[[_ _]%orb_false_iff _]%orb_false_iff Hx%bool_decide_eq_false]%orb_false_iff.
  cbn in Hx. destruct (Gateway.scan_listing _ _ _) as [a [y|]]; cbn in *; [by apply Hx|].
  destruct (render_Some (Gateway.cur_status a) (last_string l) _ Hp) as (p & ls & pp & Hr & _).
  by rewrite Hr in H.
Qed.

(** ** Lemmas: the loop *)

Lemma poll_loop_done fuel process_id l e s :
  polling l = false -> poll_loop fuel process_id l e s = (Val l, s).
Proof. intros H. destruct fuel; cbn; by rewrite H. Qed.

Lemma poll_loop_step fuel process_id l e s :
  polling l = true ->
  poll_loop (S fuel) process_id l e s =
    bind (poll_body process_id l) (poll_loop fuel process_id) e s.
Proof. intros H. cbn. by rewrite H. Qed.

Lemma poll_loop_out process_id l e s :
  polling l = true -> poll_loop 0 process_id l e s = (Stop OutOfFuel, s).
Proof. intros H. cbn. by rewrite H. Qed.

(** After an iteration that returns, the loop goes on exactly when the listing
    just read does not stop it. *)
Lemma poll_body_polling process_id l e s l' s' :
  polling l = true ->
  poll_body process_id l e s = (Val l', s') ->
  polling l' = negb (stops process_id (reply_at e (ncalls s) Gateway.qstat_command)).
Proof.
  intros Hl (a & printed & Hs & Hc & He & _)%poll_body_Val_inv.
  rewrite (polling_ended _ Hl), Hc in Hs. unfold polling, stops.
  rewrite Hc, Hs, He. cbn.
  by rewrite orb_false_r, !negb_orb, negb_involutive.
Qed.

(** The loop returns only with its condition false. *)
Lemma poll_loop_Val_polling fuel process_id l e s l' s' :
  poll_loop fuel process_id l e s = (Val l', s') -> polling l' = false.
Proof.
  revert l s. induction fuel as [|fuel IH]; intros l s;
    (destruct (polling l) eqn:Hl; [|rewrite poll_loop_done by done; by intros [= <- _]]).
  - by rewrite poll_loop_out.
  - rewrite poll_loop_step by done.
    intros [(l1 & s1 & _ & H)|[(x & _ & ?)|(h & _ & ?)]]%bind_inv; [eauto|done..].
Qed.

(** [proc_pass] stays below 4 through the loop. *)
Lemma poll_loop_proc_pass fuel process_id l e s l' s' :
  poll_loop fuel process_id l e s = (Val l', s') -> proc_pass l < 4 -> proc_pass l' < 4.
Proof.
  revert l s. induction fuel as [|fuel IH]; intros l s;
    (destruct (polling l) eqn:Hl; [|rewrite poll_loop_done by done; by intros [= <- _]]).
  - by rewrite poll_loop_out.
  - rewrite poll_loop_step by done.
    intros [(l1 & s1 & H1 & H)|[(x & _ & ?)|(h & _ & ?)]]%bind_inv; [|done..].
    apply poll_body_Val_inv in H1 as (a & p & _ & _ & _ & Hr & _).
    eauto using render_bound.
Qed.

(** ** Lemmas: the actions of the watch *)

Lemma queries_S k : queries (S k) = EvCall Gateway.qstat_command :: queries k.
Proof. done. Qed.

Section actions.
Context (o : Submit) (process_id : string).

Lemma emits_poll_body l :
  emits o (poll_body process_id l) (one (EvCall Gateway.qstat_command) body_ends).
Proof.
  unfold poll_body, body_ends. emits_auto.
  lang_cases; (split; [done|]); eauto;
    right; right; f_equal; eauto using Gateway.scan_listing_exn.
Qed.

Lemma emits_poll_loop fuel l : emits o (poll_loop fuel process_id l) (loop_lang fuel).
Proof.
  revert l. induction fuel as [|fuel IH]; intros l; cbn [poll_loop];
    (destruct (polling l) eqn:Hl; [|eapply emits_weaken; [apply emits_ret|]; cbn;
       intros r w [-> ->]; exists 0; split; [lia|eauto 10]]).
  - eapply emits_weaken; [apply emits_stop|]. intros r w [-> ->]. exists 0. eauto 10.
  - eapply emits_weaken; [eapply emits_bind; [apply emits_poll_body|intros l'; apply IH]|].
    unfold seq_lang, one, body_ends, loop_lang. intros r w H. lang_cases.
    all: try by (exists 1; split; [lia|]; split; [done|right; left; split; [lia|eauto]]).
    all: match goal with k : nat |- _ => exists (S k) end;
         (split; [lia|]); (split; [done|]); eauto 10 with lia.
Qed.

Lemma emits_watch fuel : emits o (watch fuel process_id) (watch_lang fuel).
Proof.
  unfold watch. eapply emits_weaken.
  { eapply emits_bind; [emits_build|intros ?].
    eapply emits_bind; [emits_build|intros ?].
    eapply emits_bind; [apply emits_poll_loop|emits_build]. }
  unfold seq_lang, silent, one, loop_lang, watch_lang, watch_ends. cbn. intros r w H.
  lang_cases; rewrite ?app_nil_r.
  all: try by (match goal with k : nat |- _ => exists k end; eauto 10).
  all: by exists 0; eauto 10 with lia.
Qed.

Lemma emits_on_interrupt :
  emits o (on_interrupt process_id)
    (one (EvCall (Gateway.qdel_command process_id)) cancel_ends).
Proof. unfold on_interrupt, cancel_ends. emits_auto. lang_solve. Qed.

Lemma emits_watch_or_cancel fuel :
  emits o (watch_or_cancel fuel process_id) (watch_or_cancel_lang fuel process_id).
Proof.
  unfold watch_or_cancel. eapply emits_weaken.
  { eapply emits_try_except; [apply emits_watch|].
    emits_handler;
      first [apply emits_on_interrupt|apply emits_raise]. }
  unfold try_lang, watch_lang, watch_ends, one, watch_or_cancel_lang. intros r w H.
  lang_cases; unfold watch_ends, cancel_ends;
    match goal with k : nat |- _ => exists k end; eauto 10.
Qed.

End actions.

#[global] Hint Extern 1 (emits _ (poll_loop _ _ _) _) => apply emits_poll_loop : emits.
#[global] Hint Extern 1 (emits _ (watch_or_cancel _ _) _) =>
  apply emits_watch_or_cancel : emits.

(** ** Properties of the loop *)

(** C8. The loop ends whenever the job leaves the queue: if one of the next
    [fuel] listings stops the loop (it is empty, or [qstat] failed, or no line
    mentions the job, or a line of the job has status [E], or the listing
    cannot be read), the loop does not run out of fuel, and it has issued at
    most one [qstat] per listing up to that one. *)
Theorem poll_loop_terminates fuel process_id l e s j :
  j < fuel ->
  stops process_id (reply_at e (ncalls s + j) Gateway.qstat_command) = true ->
  (poll_loop fuel process_id l e s).1 <> Stop OutOfFuel /\
  ncalls (poll_loop fuel process_id l e s).2 <= ncalls s + S j.
Proof.
  revert l s j. induction fuel as [|fuel IH]; intros l s j Hj Hstop; [lia|].
  destruct (polling l) eqn:Hl; [|rewrite poll_loop_done by done; cbn; split; [done|lia]].
  rewrite poll_loop_step by done. unfold bind.
  pose proof (poll_body_ncalls process_id l e s) as Hn.
  pose proof (poll_body_not_stop process_id l e s) as Hns.
  destruct (poll_body process_id l e s) as [[l1|x|h] s1] eqn:Hb; cbn in *;
    [|split; [done|lia]|by destruct (Hns h)].
  destruct j as [|j].
  - rewrite (poll_loop_done _ _ l1); cbn; [split; [done|lia]|].
    rewrite (poll_body_polling _ _ _ _ _ _ Hl Hb).
    rewrite Nat.add_0_r in Hstop. by rewrite Hstop.
  - destruct (IH l1 s1 j) as [H1 H2]; [lia|by rewrite Hn, Nat.add_succ_comm|].
    split; [done|lia].
Qed.

Lemma poll_loop_terminates_witness :
  (poll_loop 3 "123.host"
     (Locals (reply_at ready_env 0 Gateway.qstat_command) EmptyString 0 false)
     ready_env ready_state).1 <> Stop OutOfFuel /\
  ncalls (poll_loop 3 "123.host"
     (Locals (reply_at ready_env 0 Gateway.qstat_command) EmptyString 0 false)
     ready_env ready_state).2 <= ncalls ready_state + 2.
Proof. apply (poll_loop_terminates 3 "123.host" _ ready_env ready_state 1); [lia|]. by vm_compute. Defined.

(** C9. The loop does not end while the job stays: when no interrupt arrives
    and no listing ever stops the loop, it runs out of any fuel.  A job that
    stays in the queue with status [C], [H], or a code outside the table keeps
    the program polling. *)
Theorem poll_loop_diverges fuel process_id l e s :
  polling l = true ->
  proc_pass l < 4 ->
  (forall t, sigint e t = false) ->
  (forall j, stops process_id (reply_at e (ncalls s + j) Gateway.qstat_command) = false) ->
  (poll_loop fuel process_id l e s).1 = Stop OutOfFuel.
Proof.
  revert l s. induction fuel as [|fuel IH]; intros l s Hl Hp Hi Hstop.
  { by rewrite poll_loop_out. }
  rewrite poll_loop_step by done. unfold bind.
  pose proof (poll_body_ncalls process_id l e s) as Hn.
  destruct (poll_body process_id l e s) as [[l1|x|h] s1] eqn:Hb; cbn in *.
  - apply IH; [|by eapply render_bound_body|done|].
    + rewrite (poll_body_polling _ _ _ _ _ _ Hl Hb).
      specialize (Hstop 0). rewrite Nat.add_0_r in Hstop. by rewrite Hstop.
    + intros j. rewrite Hn, Nat.add_succ_comm. apply Hstop.
  - exfalso. specialize (Hstop 0). rewrite Nat.add_0_r in Hstop.
    apply (poll_body_stops_Exn _ _ _ _ _ _ Hl Hi Hp Hb Hstop).
  - by destruct (poll_body_not_stop process_id l e s h); rewrite Hb.
Qed.

Lemma poll_loop_diverges_witness :
  (poll_loop 5 "123.host"
     (Locals (reply_at held_env 0 Gateway.qstat_command) EmptyString 0 false)
     held_env ready_state).1 = Stop OutOfFuel.
Proof.
  apply (poll_loop_diverges 5 "123.host" _ held_env ready_state);
    [by vm_compute|cbn; lia|done|intros j; by vm_compute].
Defined.

(** C39. The spinner never indexes [bar] out of range: through the loop
    [proc_pass] stays below 4, the length of [bar], so that an [IndexError]
    of the loop can only come from a listing: the last one read has a row of
    the job that cannot be read. *)
Theorem poll_loop_in_range fuel process_id l e s :
  proc_pass l < 4 ->
  match (poll_loop fuel process_id l e s).1 with
  | Val l' => proc_pass l' < 4
  | Exn IndexError =>
      ncalls s < ncalls (poll_loop fuel process_id l e s).2 /\
      ~ Forall (Gateway.readable process_id)
          (Gateway.lines_of
             (replies e (ncalls (poll_loop fuel process_id l e s).2 - 1)).1.2)
  | _ => True
  end.
Proof.
  revert l s. induction fuel as [|fuel IH]; intros l s Hp;
    (destruct (polling l) eqn:Hl; [|by rewrite poll_loop_done]).
  { by rewrite poll_loop_out. }
  rewrite poll_loop_step by done. unfold bind.
  pose proof (poll_body_ncalls process_id l e s) as Hn.
  destruct (poll_body process_id l e s) as [[l1|x|h] s1] eqn:Hb; cbn in *; [| |done].
  - specialize (IH l1 s1 (render_bound_body _ _ _ _ _ _ Hb Hp)).
    destruct (poll_loop fuel process_id l1 e s1) as [[l2|[]|h] s2]; cbn in *; try done.
    split; [lia|tauto].
  - destruct (poll_body_Exn_inv _ _ _ _ _ _ Hb Hp) as [->|[-> Hx]]; [done|].
    rewrite Hn. split; [lia|]. by rewrite Nat.sub_1_r.
Qed.

Lemma poll_loop_in_range_witness :
  match (poll_loop 3 "123.host"
           (Locals (reply_at ready_env 0 Gateway.qstat_command) EmptyString 0 false)
           ready_env ready_state).1 with
  | Val l' => proc_pass l' < 4
  | Exn IndexError =>
      ncalls ready_state <
        ncalls (poll_loop 3 "123.host"
                  (Locals (reply_at ready_env 0 Gateway.qstat_command) EmptyString 0 false)
                  ready_env ready_state).2 /\
      ~ Forall (Gateway.readable "123.host")
          (Gateway.lines_of
             (replies ready_env
                (ncalls (poll_loop 3 "123.host"
                           (Locals (reply_at ready_env 0 Gateway.qstat_command) EmptyString 0
                              false)
                           ready_env ready_state).2 - 1)).1.2)
  | _ => True
  end.
Proof. apply poll_loop_in_range. cbn. lia. Defined.

(** ** Properties of the watch *)

(** C13. An interrupt anywhere in the [try] block is answered by the handler:
    whatever the block had done, the program then launches exactly one
    command, [qdel] with the job identifier cut at its first dot, touches no
    file, and ends with [UserAbort], [CancelFailure], or a second interrupt
    that arrived during [qdel]. *)
Theorem interrupt_cancels fuel process_id e s s1 :
  watch fuel process_id e s = (Exn KeyboardInterrupt, s1) ->
  watch_or_cancel fuel process_id e s = on_interrupt process_id e s1 /\
  cancel_ends (on_interrupt process_id e s1).1 /\
  acts s1 (on_interrupt process_id e s1).2 =
    [EvCall ("qdel " +:+ Gateway.job_prefix process_id)].
Proof.
  intros H. split; [by apply (try_except_caught _ _ _ _ _ _ _ H)|].
  destruct (on_interrupt process_id e s1) as [r s'] eqn:Hh.
  by destruct (emits_on_interrupt (self s1) process_id e s1 r s') as [_ [Hw Hr]].
Qed.

Lemma interrupt_cancels_witness :
  watch_or_cancel 5 "123.host" pressed_env ready_state =
    on_interrupt "123.host" pressed_env (watch 5 "123.host" pressed_env ready_state).2 /\
  cancel_ends
    (on_interrupt "123.host" pressed_env (watch 5 "123.host" pressed_env ready_state).2).1 /\
  acts (watch 5 "123.host" pressed_env ready_state).2
    (on_interrupt "123.host" pressed_env (watch 5 "123.host" pressed_env ready_state).2).2 =
    [EvCall ("qdel " +:+ Gateway.job_prefix "123.host")].
Proof. apply (interrupt_cancels 5 "123.host"). by vm_compute. Defined.

(** The spinner: when the status line differs from the one shown last it
    is printed as it is; when the same status is rendered again, what is
    printed is that line followed by one glyph of [bar], and the glyphs come
    in the order of [bar], cyclically. *)
Theorem render_spinner cur_status last_string proc_pass :
  status_line cur_status <> last_string ->
  proc_pass < 4 ->
  render cur_status last_string proc_pass =
    Some (status_line cur_status, status_line cur_status, proc_pass) /\
  exists glyph,
    bar !! proc_pass = Some glyph /\
    render cur_status (status_line cur_status) proc_pass =
      Some (status_line cur_status +:+ glyph, status_line cur_status,
            (proc_pass + 1) mod 4).
Proof.
  intros Hne Hp. split; [by apply render_fresh|].
  destruct (bar_lookup _ Hp) as [glyph Hg]. exists glyph. split; [done|].
  by apply render_repeat.
Qed.

Lemma render_spinner_witness :
  render "job is running    " EmptyString 0 =
    Some (status_line "job is running    ", status_line "job is running    ", 0) /\
  exists glyph,
    bar !! 0 = Some glyph /\
    render "job is running    " (status_line "job is running    ") 0 =
      Some (status_line "job is running    " +:+ glyph, status_line "job is running    ",
            (0 + 1) mod 4).
Proof. apply (render_spinner "job is running    " EmptyString 0); [done|lia]. Defined.

(** C38. What ends the polling: an answer of [qstat] stops the loop exactly when
    its output is blank, or its exit code is not zero, or a line of the job
    cannot be read, or a line of the job has [E] as its status, or no line
    mentions the job.  A job that stays listed with any other status,
    [C] (completed) and codes outside the table included, does not. *)
Theorem polling_stops_iff process_id r :
  stops process_id r = true <->
  Str.strip (cr_stdout r) = EmptyString \/ cr_ret_code r <> 0%Z \/
  ~ Forall (Gateway.readable process_id) (Gateway.lines_of (cr_stdout r)) \/
  Exists (Gateway.exiting_row process_id) (Gateway.lines_of (cr_stdout r)) \/
  Gateway.rows process_id (Gateway.lines_of (cr_stdout r)) = [].
Proof.
  unfold stops. rewrite !orb_true_iff, !bool_decide_eq_true, negb_true_iff,
    bool_decide_eq_false, <-(Gateway.scan_listing_None_iff process_id (cr_stdout r) false).
  destruct (Gateway.scan_listing _ _ _) as [a [x|]] eqn:Hs; cbn.
  { split; [intros _|]; eauto 6. }
  rewrite (Gateway.scan_listing_ended _ _ _ _ Hs). cbn.
  rewrite orb_true_iff, !bool_decide_eq_true.
  split; [intros [[[?|?]|?]|[? ?]]|intros [?|[?|[?|?]]]]; try done; tauto.
Qed.

End Poll.
