(* ===== verification/Build.v ===== *)
(** * Build: compiling the project, writing the script, submitting it

    The three steps of [Submit.run] that come before the job is watched
    (lines 69-118 of [sub.py]): [compile] runs [mpicc] in the project folder,
    [make_submit] fills the template [sub_template.sh] into [cur_sub.sh], and
    [submit_job] runs [qsub] and takes the job identifier from its output.
    Each returns [Return x] when the method returns at that step and
    [Continue] otherwise. *)

From Stdlib Require Import Ascii String ZArith Lia.
From stdpp Require Import base tactics option list strings gmap pretty.
From S2P Require Import Prelude PyString PyPath Job World Pretty Gateway.
Import Job World Colors.
#[local] Open Scope py_scope.

Module Build.

(** [os.path.join(SOURCES, self.project)] *)
Definition project_folder (cfg : config) (o : Submit) : string :=
  OsPath.join (SOURCES cfg) (project o).

(** [os.path.join(project_folder, self.project + ".run")] *)
Definition project_exe (cfg : config) (o : Submit) : string :=
  OsPath.join (project_folder cfg o) (project o +:+ ".run").

(** The compile command: the template with the project folder in it, then
    [.format(self.project, self.project + ".run")]. *)
Definition compile_command (cfg : config) (o : Submit) : option string :=
  Str.format [project o; project o +:+ ".run"]
    ("cd " +:+ project_folder cfg o +:+ " && mpicc {0}.c -O3 -o {1}").

(** [print(Colors.FAIL + "FAIL" + Colors.ENDC)] and
    [print(Colors.OKGREEN + "OK" + Colors.ENDC)] *)
Definition print_FAIL : M unit := print (FAIL +:+ "FAIL" +:+ ENDC) Str.nl.
Definition print_OK : M unit := print (OKGREEN +:+ "OK" +:+ ENDC) Str.nl.

(** Lines 69-83. *)
Definition compile (cfg : config) : M (flow unit) :=
  print (WARNING +:+ "- Compile source" +:+ ENDC) " -> " ;;
  flush ;;
  o <- gets self ;;
  match compile_command cfg o with
  | None => stop NotModelled
  | Some command =>
      r <- call_command command ;;
      if decide (cr_ret_code r <> 0%Z) then
        print_FAIL ;; Pretty.report r ;; ret (Return BuildFailure)
      else
        print_OK ;; ret (Continue tt)
  end.

(** The five [replace] calls on the text of the template. *)
Definition fill_template (cfg : config) (o : Submit) (template : string) : string :=
  Str.replace "%INPUTARGS%" (Str.join " " (input_args o))
    (Str.replace "%PROCESSES%" (pretty (num_processes o))
      (Str.replace "%NODES%" (pretty (num_nodes o))
        (Str.replace "%JOB_NAME%" (project o)
          (Str.replace "%EXE_PATH%" (project_exe cfg o) template)))).

(** [os.path.join(BIN_DIR, "sub_template.sh")] *)
Definition template_path (cfg : config) : string :=
  OsPath.join (BIN_DIR cfg) "sub_template.sh".

(** Lines 85-102. *)
Definition make_submit (cfg : config) : M (flow unit) :=
  print (WARNING +:+ "- Make submit command" +:+ ENDC) " -> " ;;
  flush ;;
  o <- gets self ;;
  and_then
    (try_except
       (template <- read_file (template_path cfg) ;;
        write_file "cur_sub.sh" (fill_template cfg o template) ;;
        ret (Continue tt))
       (fun x => match x with
                 | IOError => Some (print_FAIL ;; ret (Return TemplateIOFailure))
                 | _ => None
                 end))
    (fun _ => print_OK ;; ret (Continue tt)).

(** ['s' if n > 1 else ''] *)
Definition plural (suffix : string) (n : Z) : string :=
  if decide (1 < n)%Z then suffix else EmptyString.

(** The text of line 105. *)
Definition submit_banner (o : Submit) : string :=
  WARNING +:+ "- Submit job on " +:+ pretty (num_nodes o) +:+ " node"
    +:+ plural "s" (num_nodes o) +:+ " with " +:+ pretty (num_processes o)
    +:+ " process" +:+ plural "es" (num_processes o) +:+ ENDC.

(** Lines 104-118: the value is [process_id]. *)
Definition submit_job : M (flow string) :=
  o <- gets self ;;
  print (submit_banner o) " -> " ;;
  flush ;;
  r <- call_command Gateway.qsub_command ;;
  if decide (cr_ret_code r <> 0%Z) then
    print_FAIL ;; Pretty.report r ;; ret (Return SubmitFailure)
  else
    print_OK ;; ret (Continue (Str.strip (cr_stdout r))).

(** ** The template, stated apart from the code *)

(** The names of the five placeholders, in the order of their replacement. *)
Definition names : list string := ["EXE_PATH"; "JOB_NAME"; "NODES"; "PROCESSES"; "INPUTARGS"].

(** A text with five places, cut at them: the pieces [t] around the contents
    [v1] to [v5] of the places. *)
Definition skeleton (v1 v2 v3 v4 v5 : string) (t : list string) : string :=
  match t with
  | [t0; t1; t2; t3; t4; t5] =>
      t0 +:+ v1 +:+ t1 +:+ v2 +:+ t2 +:+ v3 +:+ t3 +:+ v4 +:+ t4 +:+ v5 +:+ t5
  | _ => EmptyString
  end.

(** ** The actions of the three steps *)

Definition compile_lang (cfg : config) (o : Submit) (r : res (flow unit))
    (w : list event) : Prop :=
  (compile_command cfg o = None /\ w = [] /\ r = Stop NotModelled) \/
  (exists c, compile_command cfg o = Some c /\ w = [EvCall c] /\
     (r = Val (Return BuildFailure) \/ r = Val (Continue tt) \/
      r = Exn KeyboardInterrupt)).

Definition make_submit_lang (cfg : config) (r : res (flow unit)) (w : list event) : Prop :=
  (w = [EvRead (template_path cfg)] /\ r = Val (Return TemplateIOFailure)) \/
  (w = [EvRead (template_path cfg); EvWrite "cur_sub.sh"] /\
     (r = Val (Return TemplateIOFailure) \/ r = Val (Continue tt))).

Definition submit_ends (r : res (flow string)) : Prop :=
  r = Val (Return SubmitFailure) \/ (exists process_id, r = Val (Continue process_id)) \/
  r = Exn KeyboardInterrupt.

(** ** Lemmas: the job of a run *)

#[global] Instance project_folder_proper cfg :
  Proper (same_job ==> eq) (project_folder cfg).
Proof. intros o o' H. unfold project_folder. by rewrite H. Qed.

#[global] Instance project_exe_proper cfg : Proper (same_job ==> eq) (project_exe cfg).
Proof. intros o o' H. unfold project_exe. by rewrite H. Qed.

#[global] Instance compile_command_proper cfg :
  Proper (same_job ==> eq) (compile_command cfg).
Proof. intros o o' H. unfold compile_command. by rewrite H. Qed.

#[global] Instance fill_template_proper cfg :
  Proper (same_job ==> eq ==> eq) (fill_template cfg).
Proof. intros o o' H t ? <-. unfold fill_template. by rewrite H. Qed.

#[global] Instance submit_banner_proper : Proper (same_job ==> eq) submit_banner.
Proof. intros o o' H. unfold submit_banner. by rewrite H. Qed.

(** ** Lemmas: the actions of the three steps *)

Section actions.
Context (cfg : config) (o : Submit).

Lemma emits_print_FAIL : emits o print_FAIL silent.
Proof. apply emits_print. Qed.

Lemma emits_print_OK : emits o print_OK silent.
Proof. apply emits_print. Qed.

Lemma emits_compile : emits o (compile cfg) (compile_lang cfg o).
Proof.
  unfold compile, compile_lang, print_FAIL, print_OK. emits_auto. lang_cases;
    match goal with H : same_job _ _ |- _ => rewrite <-H in * end; eauto 10.
Qed.

Lemma emits_make_submit : emits o (make_submit cfg) (make_submit_lang cfg).
Proof.
  unfold make_submit, make_submit_lang, print_FAIL, print_OK. eapply emits_weaken.
  { eapply emits_bind; [emits_build|intros ?].
    eapply emits_bind; [emits_build|intros ?].
    eapply emits_bind; [emits_build|intros ?].
    eapply emits_and_then; emits_build. }
  unfold seq_lang, try_lang, silent, one. cbn. intros r w H. lang_cases; eauto 10.
Qed.

Lemma emits_submit_job :
  emits o submit_job (one (EvCall Gateway.qsub_command) submit_ends).
Proof.
  unfold submit_job, submit_ends, print_FAIL, print_OK. emits_auto. lang_solve.
Qed.

End actions.

#[global] Hint Extern 1 (emits _ (compile _) _) => apply emits_compile : emits.
#[global] Hint Extern 1 (emits _ (make_submit _) _) => apply emits_make_submit : emits.
#[global] Hint Extern 1 (emits _ submit_job _) => apply emits_submit_job : emits.

(** ** Properties of the three steps *)

(** The build is a gate: when the compiler is not interrupted, the step
    hands over to the next one exactly when the exit code of the compiler is
    0, and any other code ends the run with [BuildFailure]. *)
Theorem compile_outcome cfg e s c :
  compile_command cfg (self s) = Some c ->
  sigint e (clock s) = false ->
  (compile cfg e s).1 =
    Val (if decide ((replies e (ncalls s)).1.1 = 0%Z) then Continue tt
         else Return BuildFailure).
Proof.
  intros Hc Hi. unfold compile, print_OK, print_FAIL, Pretty.report, Pretty.pretty_return.
  unfold_ops. cbn. rewrite Hc. cbn. rewrite Hi. cbn. by repeat case_decide.
Qed.

Lemma compile_outcome_witness :
  (compile (Config "/home/u" "/home/u/src")
     (Env (fun _ => (2%Z, EmptyString, "error")) (fun _ => false) (fun _ => []) (fun _ => true))
     (State (init "demo" 2 4 []) 0 0 ∅ ∅ [])).1 =
  Val (if decide ((2%Z, EmptyString, "error").1.1 = 0%Z) then Continue tt
       else Return BuildFailure).
Proof.
  by apply (compile_outcome (Config "/home/u" "/home/u/src")
    (Env (fun _ => (2%Z, EmptyString, "error")) (fun _ => false) (fun _ => []) (fun _ => true))
    (State (init "demo" 2 4 []) 0 0 ∅ ∅ [])
    "cd /home/u/src/demo && mpicc demo.c -O3 -o demo.run").
Defined.

(** The submission: when [qsub] is not interrupted, exit code 0 hands the
    output of [qsub], stripped of surrounding white space, to the watch as the
    job identifier, and any other code ends the run with [SubmitFailure]. *)
Theorem submit_job_outcome e s :
  sigint e (clock s) = false ->
  (submit_job e s).1 =
    Val (if decide ((replies e (ncalls s)).1.1 = 0%Z)
         then Continue (Str.strip (replies e (ncalls s)).1.2)
         else Return SubmitFailure).
Proof.
  intros Hi. unfold submit_job, print_OK, print_FAIL, Pretty.report, Pretty.pretty_return.
  unfold_ops. cbn. rewrite Hi. cbn. by repeat case_decide.
Qed.

Lemma submit_job_outcome_witness :
  (submit_job
     (Env (fun _ => (0%Z, "123.host" +:+ Str.nl, EmptyString)) (fun _ => false)
        (fun _ => []) (fun _ => true))
     (State (init "demo" 2 4 []) 0 0 ∅ ∅ [])).1 =
  Val (if decide ((0%Z, "123.host" +:+ Str.nl, EmptyString).1.1 = 0%Z)
       then Continue (Str.strip (0%Z, "123.host" +:+ Str.nl, EmptyString).1.2)
       else Return SubmitFailure).
Proof.
  by apply (submit_job_outcome
    (Env (fun _ => (0%Z, "123.host" +:+ Str.nl, EmptyString)) (fun _ => false)
       (fun _ => []) (fun _ => true))
    (State (init "demo" 2 4 []) 0 0 ∅ ∅ [])).
Defined.

(** The compile command of a project folder without braces is the
    command the script means: [cd] to the folder and [mpicc] of the project's
    source file into its executable. *)
Theorem compile_command_plain cfg o :
  "{"%char ∉ Str.chars (project_folder cfg o) ->
  "}"%char ∉ Str.chars (project_folder cfg o) ->
  compile_command cfg o =
    Some ("cd " +:+ project_folder cfg o +:+ " && mpicc " +:+ project o +:+ ".c -O3 -o "
          +:+ project o +:+ ".run").
Proof.
  intros Ho Hc. unfold compile_command.
  change ("cd " +:+ project_folder cfg o +:+ " && mpicc {0}.c -O3 -o {1}")
    with (String "c" (String "d" (String " "
            (project_folder cfg o +:+ " && mpicc {0}.c -O3 -o {1}")))).
  cbn [Str.format]. rewrite Str.format_plain by done. cbn [Str.format].
  change (Str.digit "0") with (Some 0). change (Str.digit "1") with (Some 1). cbn.
  by rewrite ?Str.app_String, ?Str.app_empty_l, ?Str.app_empty_r.
Qed.

Lemma compile_command_plain_witness :
  compile_command (Config "/home/u" "/home/u/src") (init "demo" 2 4 []) =
    Some ("cd " +:+ project_folder (Config "/home/u" "/home/u/src") (init "demo" 2 4 [])
          +:+ " && mpicc " +:+ project (init "demo" 2 4 []) +:+ ".c -O3 -o "
          +:+ project (init "demo" 2 4 []) +:+ ".run").
Proof.
  apply (compile_command_plain (Config "/home/u" "/home/u/src") (init "demo" 2 4 []));
    vm_compute; intros H; repeat (apply elem_of_cons in H as [?|H]; [done|]);
    by apply elem_of_nil in H.
Defined.

(** The project folder is part of the format string: a replacement field
    in the path is replaced too, and the compiler is run in another folder
    than the one whose existence was checked. *)
Example compile_command_field :
  compile_command (Config "/home/u" "/data/{1}") (init "demo" 2 4 []) =
    Some "cd /data/demo.run/demo && mpicc demo.c -O3 -o demo.run".
Proof. reflexivity. Qed.

(** The template of the specification's example, filled for the project
    [demo] on 2 nodes with 4 processes and the arguments [a] and [b]. *)
Example fill_template_scenario :
  fill_template (Config "/home/u" "/x") (init "demo" 2 4 ["a"; "b"])
    "exe=%EXE_PATH% name=%JOB_NAME% n=%NODES% p=%PROCESSES% args=%INPUTARGS%" =
  "exe=/x/demo/demo.run name=demo n=2 p=4 args=a b".
Proof. reflexivity. Qed.

(** ** Properties of the template *)

Lemma names_plain : Forall (fun name => "%"%char ∉ Str.chars name) names.
Proof. by_compute. Qed.

(** The side conditions of the lemmas on tokens, from the hypotheses. *)
Ltac token_side :=
  lazymatch goal with
  | |- _ ∉ Str.chars _ => assumption
  | |- _ <> _ => first [assumption | by apply not_eq_sym | discriminate]
  | |- Str.startswith _ _ = false =>
      first [apply Str.startswith_token_ne; token_side
            |apply Str.startswith_token_open; token_side]
  end.

(** One [replace] of the placeholder [name] on a text cut in pieces. *)
Ltac replace_token name :=
  repeat first
    [ rewrite (Str.replace_token_here name)
    | rewrite (Str.replace_token_plain name) by token_side
    | rewrite (Str.replace_token_other name) by token_side
    | rewrite (Str.replace_token_absent name) by token_side ].

(** C15. Filling the template: in a template made of the five placeholders in
    the order of their replacement and of text without percent signs around
    them, each placeholder is replaced by its value and the text is kept as
    it is, whatever the arguments of the job are.  The name of the project
    and its path must not contain a percent sign, and the text between two
    placeholders must not be the name of one: the five [replace] calls work
    one after the other, each on the result of the one before. *)
Theorem fill_template_fills cfg o t0 t1 t2 t3 t4 t5 :
  Forall (fun t => "%"%char ∉ Str.chars t) [t0; t1; t2; t3; t4; t5] ->
  Forall (fun t => t ∉ names) [t2; t3; t4] ->
  "%"%char ∉ Str.chars (project_exe cfg o) ->
  "%"%char ∉ Str.chars (project o) ->
  fill_template cfg o
    (skeleton "%EXE_PATH%" "%JOB_NAME%" "%NODES%" "%PROCESSES%" "%INPUTARGS%"
       [t0; t1; t2; t3; t4; t5]) =
  skeleton (project_exe cfg o) (project o) (pretty (num_nodes o)) (pretty (num_processes o))
    (Str.join " " (input_args o)) [t0; t1; t2; t3; t4; t5].
Proof.
  intros Ht Hn He Hp. pose proof names_plain as Hnames.
  pose proof (Str.pretty_Z_no_percent (num_nodes o)).
  pose proof (Str.pretty_Z_no_percent (num_processes o)).
  unfold names in *.
  repeat match goal with
         | H : Forall _ (_ :: _) |- _ => apply Forall_cons in H as [? ?]
         | H : _ ∉ _ :: _ |- _ => apply not_elem_of_cons in H as [? ?]
         end.
  unfold fill_template, skeleton.
  change "%EXE_PATH%" with (Str.token "EXE_PATH").
  change "%JOB_NAME%" with (Str.token "JOB_NAME").
  change "%NODES%" with (Str.token "NODES").
  change "%PROCESSES%" with (Str.token "PROCESSES").
  change "%INPUTARGS%" with (Str.token "INPUTARGS").
  replace_token "EXE_PATH"; replace_token "JOB_NAME"; replace_token "NODES";
    replace_token "PROCESSES"; replace_token "INPUTARGS".
  done.
Qed.

Lemma fill_template_fills_witness :
  fill_template (Config "/home/u" "/x") (init "demo" 2 4 ["a"; "b"])
    (skeleton "%EXE_PATH%" "%JOB_NAME%" "%NODES%" "%PROCESSES%" "%INPUTARGS%"
       ["exe="; " name="; " n="; " p="; " args="; EmptyString]) =
  skeleton (project_exe (Config "/home/u" "/x") (init "demo" 2 4 ["a"; "b"]))
    (project (init "demo" 2 4 ["a"; "b"]))
    (pretty (num_nodes (init "demo" 2 4 ["a"; "b"])))
    (pretty (num_processes (init "demo" 2 4 ["a"; "b"])))
    (Str.join " " (input_args (init "demo" 2 4 ["a"; "b"])))
    ["exe="; " name="; " n="; " p="; " args="; EmptyString].
Proof. apply fill_template_fills; by_compute. Defined.

End Build.
