(* ===== verification/Collector.v ===== *)
(** * Collector: moving the job's output into [log] and showing it

    The end of [Submit.run] (lines 181-209 of [sub.py]), reached when no step
    returned.  [process_id] is a local variable that is bound only when the
    project exists, hence an [option]: using it unbound raises
    [UnboundLocalError].

    [wait_files] is the [while] loop of lines 194-195 with fuel: one unit per
    execution of its body.  Every evaluation of the condition is a tick of the
    clock, so the files the cluster writes meanwhile do appear. *)

From Stdlib Require Import Ascii String ZArith Lia.
From stdpp Require Import base tactics option list strings gmap.
From S2P Require Import Prelude PyString PyPath Job World Pretty Gateway.
Import Job World Colors.
#[local] Open Scope py_scope.

Module Collector.

(** [self.project + "." + type_ + process_id.split(".")[0]] *)
Definition artifact (o : Submit) (type_ process_id : string) : string :=
  project o +:+ "." +:+ type_ +:+ Gateway.job_prefix process_id.

(** [try: os.mkdir("log")], passing over errno 17 and raising any other error again. *)
Definition mkdir_log : M unit :=
  try_except (mkdir "log")
    (fun x => match x with
              | OSError errno =>
                  Some (if decide (errno = 17%Z) then ret tt else raise (OSError errno))
              | _ => None
              end).

(** [while not os.path.isfile(f_stdout) and not os.path.isfile(f_stderr): pass] *)
Fixpoint wait_files (fuel : nat) (f_stdout f_stderr : string) : M unit :=
  a <- isfile f_stdout ;;
  if negb a then
    b <- isfile f_stderr ;;
    if negb b then
      match fuel with
      | O => stop OutOfFuel
      | S fuel' => wait_files fuel' f_stdout f_stderr
      end
    else ret tt
  else ret tt.

(** Lines 199-209: the report of the two files. *)
Definition show_results (f_stdout f_stderr : string) : M unit :=
  print (OKGREEN +:+ "!!! Output files moved in log folder !!!" +:+ ENDC) Str.nl ;;
  print (OKGREEN +:+ "@ Results: " +:+ ENDC) (Str.nl +:+ Str.nl) ;;
  print (OKGREEN +:+ "----- STDOUT -----" +:+ ENDC) Str.nl ;;
  out <- read_file ("log/" +:+ f_stdout) ;;
  print out Str.nl ;;
  print (OKGREEN +:+ "----- END STDOUT -----" +:+ ENDC) Str.nl ;;
  print (FAIL +:+ "----- STDERR -----" +:+ ENDC) Str.nl ;;
  err <- read_file ("log/" +:+ f_stderr) ;;
  print err Str.nl ;;
  print (FAIL +:+ "----- END STDERR -----" +:+ ENDC) Str.nl.

(** Lines 187-209: the [log] directory, the wait, the settle delay, the two
    moves and the report. *)
Definition move_and_show (fuel : nat) (f_stdout f_stderr : string) : M unit :=
  mkdir_log ;;
  wait_files fuel f_stdout f_stderr ;;
  sleep 1500 ;;
  move f_stdout "log" ;;
  move f_stderr "log" ;;
  show_results f_stdout f_stderr.

(** Lines 181-209. *)
Definition collect (fuel : nat) (process_id : option string) : M unit :=
  o <- gets self ;;
  print (OKGREEN +:+ "-> CPU USED: " +:+ cpu_time_used o +:+ " <-" +:+ ENDC) Str.nl ;;
  print (OKGREEN +:+ "------ End submit ------" +:+ ENDC) (Str.nl +:+ Str.nl) ;;
  match process_id with
  | None => raise UnboundLocalError
  | Some process_id =>
      move_and_show fuel (artifact o "o" process_id) (artifact o "e" process_id)
  end.

(** ** The actions of the collection *)

(** [k] rounds of the wait: a look for each of the two files. *)
Fixpoint probes (k : nat) (f_stdout f_stderr : string) : list event :=
  match k with
  | O => []
  | S k' => EvStat f_stdout :: EvStat f_stderr :: probes k' f_stdout f_stderr
  end.

(** The wait ends after a look for the first file or after a look for both,
    by returning or by an interrupt, or it runs out of fuel after a look for
    both. *)
Definition wait_lang (fuel : nat) (f_stdout f_stderr : string) (r : res unit)
    (w : list event) : Prop :=
  exists k, k <= fuel /\
    ((w = probes k f_stdout f_stderr ++ [EvStat f_stdout] /\
        (r = Val tt \/ r = Exn KeyboardInterrupt)) \/
     (w = probes (S k) f_stdout f_stderr /\
        (r = Val tt \/ r = Exn KeyboardInterrupt \/ (k = fuel /\ r = Stop OutOfFuel)))).

Definition show_lang (f_stdout f_stderr : string) (r : res unit) (w : list event) : Prop :=
  (w = [EvRead ("log/" +:+ f_stdout)] /\ r = Exn IOError) \/
  (w = [EvRead ("log/" +:+ f_stdout); EvRead ("log/" +:+ f_stderr)] /\
     (r = Exn IOError \/ r = Val tt)).

(** ** The result of the collection *)

(** The file system after the two moves: each file is under [log/] with its
    content and no longer in the working directory. *)
Definition handed_over (f_stdout f_stderr out err : string) (fs : gmap string string) :
    gmap string string :=
  <["log/" +:+ f_stderr := err]> (delete f_stderr
    (<["log/" +:+ f_stdout := out]> (delete f_stdout fs))).

(** What the report shows and reads, for two files of contents [out] and [err]. *)
Definition shown (f_stdout f_stderr out err : string) : list event :=
  [EvPrint (OKGREEN +:+ "!!! Output files moved in log folder !!!" +:+ ENDC +:+ Str.nl);
   EvPrint (OKGREEN +:+ "@ Results: " +:+ ENDC +:+ (Str.nl +:+ Str.nl));
   EvPrint (OKGREEN +:+ "----- STDOUT -----" +:+ ENDC +:+ Str.nl);
   EvRead ("log/" +:+ f_stdout);
   EvPrint (out +:+ Str.nl);
   EvPrint (OKGREEN +:+ "----- END STDOUT -----" +:+ ENDC +:+ Str.nl);
   EvPrint (FAIL +:+ "----- STDERR -----" +:+ ENDC +:+ Str.nl);
   EvRead ("log/" +:+ f_stderr);
   EvPrint (err +:+ Str.nl);
   EvPrint (FAIL +:+ "----- END STDERR -----" +:+ ENDC +:+ Str.nl)].

(** A working directory in which the collection can proceed: the two output
    files are regular files of different names without a slash, [log] is a
    directory or does not exist, and nothing is in the way under [log/]. *)
Record arrived (f_stdout f_stderr out err : string) (s : state) : Prop := Arrived {
  arrived_out : files s !! f_stdout = Some out;
  arrived_err : files s !! f_stderr = Some err;
  arrived_ne : f_stdout <> f_stderr;
  arrived_out_name : "/"%char ∉ Str.chars f_stdout;
  arrived_err_name : "/"%char ∉ Str.chars f_stderr;
  arrived_out_file : f_stdout ∉ dirs s;
  arrived_err_file : f_stderr ∉ dirs s;
  arrived_log : files s !! "log" = None;
  arrived_out_free : path_exists ("log/" +:+ f_stdout) s = false;
  arrived_err_free : path_exists ("log/" +:+ f_stderr) s = false }.

(** An environment that leaves the collection alone: no interrupt, no file
    written meanwhile, every directory writable. *)
Record calm (e : env) : Prop := Calm {
  calm_sigint : forall t, sigint e t = false;
  calm_arrivals : forall t, arrivals e t = [];
  calm_writable : forall p, writable e p = true }.

(** ** States and environments for the examples *)

Definition calm_env : env :=
  Env (fun _ => (0%Z, EmptyString, EmptyString)) (fun _ => false) (fun _ => [])
      (fun _ => true).

(** Both output files of job 123 of project [demo] have arrived. *)
Definition landed_state : state :=
  State (init "demo" 2 4 []) 0 0
    {[ "demo.o123" := "42"; "demo.e123" := "warning"; "demo.c" := "main" ]} ∅ [].

(** Only the file of standard error has arrived. *)
Definition half_landed_state : state :=
  State (init "demo" 2 4 []) 0 0 {[ "demo.e123" := "warning" ]} ∅ [].

(** Both files have arrived and [log] is a regular file. *)
Definition log_taken_state : state :=
  State (init "demo" 2 4 []) 0 0
    {[ "demo.o123" := "42"; "demo.e123" := "warning"; "log" := "notes" ]} ∅ [].

#[global] Arguments probes : simpl never.

(** ** Lemmas: the job of a run *)

#[global] Instance artifact_proper : Proper (same_job ==> eq ==> eq ==> eq) artifact.
Proof. intros o o' H t ? <- p ? <-. unfold artifact. by rewrite H. Qed.

(** ** Lemmas: the actions of the collection *)

Lemma probes_S k a b : probes (S k) a b = EvStat a :: EvStat b :: probes k a b.
Proof. done. Qed.

Lemma probes_snoc k a b : probes (S k) a b = probes k a b ++ [EvStat a; EvStat b].
Proof. induction k as [|k IH]; [done|]. by rewrite probes_S, IH at 1. Qed.

(** A round before [k] rounds is a round after them. *)
Lemma probes_round k a b w :
  EvStat a :: EvStat b :: probes k a b ++ w = probes k a b ++ EvStat a :: EvStat b :: w.
Proof.
  change (probes (S k) a b ++ w = probes k a b ++ [EvStat a; EvStat b] ++ w).
  by rewrite probes_snoc, <-app_assoc.
Qed.

Section actions.
Context (o : Submit).

Lemma emits_mkdir_log :
  emits o mkdir_log (one (EvMkdir "log") (fun r => r = Val tt \/ r = Exn (OSError 13))).
Proof. unfold mkdir_log. emits_auto. lang_solve. Qed.

Lemma emits_wait_files fuel f_stdout f_stderr :
  emits o (wait_files fuel f_stdout f_stderr) (wait_lang fuel f_stdout f_stderr).
Proof.
  induction fuel as [|fuel IH]; cbn [wait_files]; emits_auto; unfold wait_lang in *;
    lang_cases; rewrite ?app_nil_r.
  all: try by (exists 0; split; [lia|]; eauto 10).
  all: match goal with k : nat |- _ => exists (S k) end; (split; [lia|]); eauto 10 with lia.
Qed.

Lemma emits_show_results f_stdout f_stderr :
  emits o (show_results f_stdout f_stderr) (show_lang f_stdout f_stderr).
Proof. unfold show_results, show_lang. emits_auto. lang_solve. Qed.

End actions.

#[global] Hint Extern 1 (emits _ mkdir_log _) => apply emits_mkdir_log : emits.
#[global] Hint Extern 1 (emits _ (wait_files _ _ _) _) => apply emits_wait_files : emits.
#[global] Hint Extern 1 (emits _ (show_results _ _) _) => apply emits_show_results : emits.

(** ** Lemmas: the wait *)

(** One round of the wait when no interrupt arrives. *)
Lemma wait_files_eq fuel a b e s :
  (forall t, sigint e t = false) ->
  wait_files fuel a b e s =
    let s1 := advance e (log (EvStat a) s) in
    if is_file a s1 then (Val tt, s1)
    else let s2 := advance e (log (EvStat b) s1) in
         if is_file b s2 then (Val tt, s2)
         else match fuel with
              | O => (Stop OutOfFuel, s2)
              | S fuel' => wait_files fuel' a b e s2
              end.
Proof.
  intros Hi. destruct fuel; cbn [wait_files]; unfold bind;
    rewrite isfile_val by done; cbn zeta; (destruct (is_file a _); cbn [negb]; [done|]);
    rewrite isfile_val by done; by destruct (is_file b _).
Qed.

(** ** Lemmas: the hand-over *)

Lemma log_path_ne a b : "/"%char ∉ Str.chars b -> "log/" +:+ a <> b.
Proof.
  intros H <-. apply H. rewrite Str.chars_app. apply elem_of_app. left.
  vm_compute. set_solver.
Qed.

Lemma log_path_inj a b : "log/" +:+ a = "log/" +:+ b -> a = b.
Proof.
  intros H%(f_equal Str.chars). apply Str.chars_inj.
  rewrite !Str.chars_app in H. by apply app_inv_head in H.
Qed.

(** [os.mkdir("log")] when [log] is a directory or does not exist. *)
Lemma mkdir_log_val e s :
  files s !! "log" = None -> writable e "." = true ->
  exists s1, mkdir_log e s = (Val tt, s1) /\ files s1 = files s /\
    dirs s1 = {["log"]} ∪ dirs s /\ clock s1 = clock s /\
    trace s1 = trace s ++ [EvMkdir "log"].
Proof.
  intros Hf Hw. unfold mkdir_log, mkdir. unfold_ops. cbn -[is_dir is_file path_exists].
  change (path_exists "log" (log (EvMkdir "log") s)) with (path_exists "log" s).
  unfold path_exists. rewrite (is_file_None _ _ Hf), orb_false_r, Hw.
  destruct (is_dir "log" s) eqn:Hd; cbn; eexists; (split; [done|]); cbn; [|done].
  split; [done|]. split; [|done]. apply bool_decide_eq_true in Hd. set_solver.
Qed.

Lemma show_results_val a b out err e s :
  files s !! ("log/" +:+ a) = Some out -> files s !! ("log/" +:+ b) = Some err ->
  exists s', show_results a b e s = (Val tt, s') /\ files s' = files s /\ dirs s' = dirs s /\
    trace s' = trace s ++ shown a b out err.
Proof.
  intros Ha Hb. unfold show_results. unfold_ops. cbn. rewrite Ha. cbn. rewrite Hb. cbn.
  eexists. split; [done|]. cbn. by rewrite <-!app_assoc.
Qed.

(** [os.mkdir("log")] when something of that name is there: errno 17 passes. *)
Lemma mkdir_log_exists e s :
  path_exists "log" s = true -> mkdir_log e s = (Val tt, log (EvMkdir "log") s).
Proof.
  intros H. unfold mkdir_log, mkdir. unfold_ops. cbn -[is_dir is_file path_exists].
  change (path_exists "log" (log (EvMkdir "log") s)) with (path_exists "log" s).
  by rewrite H.
Qed.

(** After [os.mkdir("log")] has returned, something of that name is there. *)
Lemma mkdir_log_Val_inv e s s1 :
  mkdir_log e s = (Val tt, s1) -> path_exists "log" s1 = true.
Proof.
  destruct (path_exists "log" s) eqn:Hp.
  { rewrite mkdir_log_exists by done. by intros [= <-]. }
  unfold mkdir_log, mkdir. unfold_ops. cbn -[is_dir is_file path_exists].
  change (path_exists "log" (log (EvMkdir "log") s)) with (path_exists "log" s).
  rewrite Hp. destruct (writable e "."); cbn -[path_exists]; [|done].
  intros [= <-]. unfold path_exists, is_dir. cbn. rewrite bool_decide_eq_true_2; [done|].
  set_solver.
Qed.

(** The wait when the file of standard output is there: one look. *)
Lemma wait_files_present fuel a b e s :
  (forall t, sigint e t = false) -> is_file a s = true ->
  wait_files fuel a b e s = (Val tt, advance e (log (EvStat a) s)).
Proof.
  intros Hi Ha. rewrite wait_files_eq by done. cbn zeta.
  by rewrite is_file_advance, is_file_log, Ha.
Qed.

(** The wait when only the file of standard error is there: two looks. *)
Lemma wait_files_second fuel a b e s :
  (forall t, sigint e t = false) -> (forall t, arrivals e t = []) ->
  is_file a s = false -> is_file b s = true ->
  wait_files fuel a b e s =
    (Val tt, advance e (log (EvStat b) (advance e (log (EvStat a) s)))).
Proof.
  intros Hi Hq Ha Hb. rewrite wait_files_eq by done. cbn zeta.
  by rewrite !is_file_advance, !is_file_log, !Hq, Ha, !is_file_advance, !is_file_log, Hb.
Qed.

Lemma move_into_log src text e s :
  (forall p, writable e p = true) ->
  "/"%char ∉ Str.chars src -> src ∉ dirs s -> "log" ∈ dirs s ->
  files s !! src = Some text ->
  path_exists ("log/" +:+ src) s = false ->
  move src "log" e s =
    (Val tt, with_files (fun fs => <["log/" +:+ src := text]> (delete src fs))
               (log (EvMove src "log") s)).
Proof.
  intros Hw Hs Hd Hl Hf Hp.
  by apply (move_into_dir src "log" text e s); [..|apply bool_decide_eq_false_2
    |apply bool_decide_eq_true_2| | | |].
Qed.

(** A file that is not there cannot be moved into [log]. *)
Lemma move_missing_log src e s :
  files s !! src = None -> "/"%char ∉ Str.chars src -> src ∉ dirs s -> "log" ∈ dirs s ->
  path_exists ("log/" +:+ src) s = false ->
  move src "log" e s = (Exn IOError, log (EvMove src "log") s).
Proof.
  intros Hf Hs Hd Hl Hp. apply move_missing_into_dir;
    [by apply bool_decide_eq_false_2|by apply bool_decide_eq_true_2|done|].
  by rewrite OsPath.join_file.
Qed.

Lemma moves_val a b out err e s :
  (forall p, writable e p = true) ->
  files s !! a = Some out -> files s !! b = Some err -> a <> b ->
  "/"%char ∉ Str.chars a -> "/"%char ∉ Str.chars b ->
  "log" ∈ dirs s -> a ∉ dirs s -> b ∉ dirs s ->
  path_exists ("log/" +:+ a) s = false -> path_exists ("log/" +:+ b) s = false ->
  exists s', bind (move a "log") (fun _ => move b "log") e s = (Val tt, s') /\
    files s' = handed_over a b out err (files s) /\ dirs s' = dirs s /\
    trace s' = trace s ++ [EvMove a "log"; EvMove b "log"].
Proof.
  intros Hw Ha Hb Hab Hsa Hsb Hl Hda Hdb Hpa [Hpb1 Hpb2]%path_exists_false.
  rewrite (bind_val _ _ _ _ _ _ (move_into_log a out e s Hw Hsa Hda Hl Ha Hpa)).
  erewrite move_into_log; [|done..| |].
  - eexists. split; [done|]. cbn. by rewrite <-app_assoc.
  - cbn. rewrite lookup_insert_ne by by apply log_path_ne.
    by rewrite lookup_delete_ne.
  - apply path_exists_false. split; [done|]. cbn.
    rewrite lookup_insert_ne by (intros ?%log_path_inj; done).
    rewrite lookup_delete_ne; [done|]. intros E. symmetry in E. by apply log_path_ne in E.
Qed.

Lemma lookup_handed_over a b out err fs :
  a <> b -> "/"%char ∉ Str.chars b ->
  handed_over a b out err fs !! ("log/" +:+ a) = Some out /\
  handed_over a b out err fs !! ("log/" +:+ b) = Some err.
Proof.
  intros Hab Hb. unfold handed_over. split; [|by rewrite lookup_insert_eq].
  rewrite lookup_insert_ne by (intros ?%log_path_inj; done).
  rewrite lookup_delete_ne by (intros E; symmetry in E; by apply log_path_ne in E).
  by rewrite lookup_insert_eq.
Qed.

(** The state at the first move: [log] is a directory, nothing else changed. *)
Lemma settled s s1 p v :
  files s1 = files s -> dirs s1 = {["log"]} ∪ dirs s ->
  files s !! "log" = None -> files s !! p = Some v -> p ∉ dirs s ->
  path_exists ("log/" +:+ p) s = false ->
  files s1 !! p = Some v /\ (p ∉ dirs s1) /\ "log" ∈ dirs s1 /\
  path_exists ("log/" +:+ p) s1 = false.
Proof.
  intros Hf Hd Hl Hp Hn [H1 H2]%path_exists_false. rewrite Hf, Hd.
  split; [done|]. split; [|split; [set_solver|]].
  - apply not_elem_of_union. split; [|done]. apply not_elem_of_singleton. congruence.
  - apply path_exists_false. rewrite Hf, Hd. split; [|done].
    apply not_elem_of_union. split; [|done]. apply not_elem_of_singleton.
    apply log_path_ne. vm_compute. set_solver.
Qed.

(** ** Properties of the wait *)

(** C33. The wait ends as soon as one of the two files is there: with the
    file of standard output or the file of standard error present, and no
    interrupt, the loop returns after at most two looks, whether or not the
    other file exists. *)
Theorem wait_files_either fuel a b e s :
  (forall t, sigint e t = false) ->
  is_file a s = true \/ is_file b s = true ->
  (wait_files fuel a b e s).1 = Val tt /\
  clock (wait_files fuel a b e s).2 <= clock s + 2.
Proof.
  intros Hi H. rewrite wait_files_eq by done. cbn zeta.
  destruct (is_file a (advance e (log (EvStat a) s))) eqn:Ha; [cbn; split; [done|lia]|].
  rewrite is_file_advance, is_file_log in Ha. apply orb_false_iff in Ha as [Ha _].
  destruct H as [H|H]; [congruence|].
  repeat rewrite ?is_file_advance, ?is_file_log. rewrite H. cbn. split; [done|lia].
Qed.

Lemma wait_files_either_witness :
  (wait_files 3 "demo.o123" "demo.e123"
     (Env (fun _ => (0%Z, EmptyString, EmptyString)) (fun _ => false) (fun _ => [])
        (fun _ => true))
     (State (init "demo" 2 4 []) 0 0 {[ "demo.e123" := "warning" ]} ∅ [])).1 = Val tt /\
  clock (wait_files 3 "demo.o123" "demo.e123"
     (Env (fun _ => (0%Z, EmptyString, EmptyString)) (fun _ => false) (fun _ => [])
        (fun _ => true))
     (State (init "demo" 2 4 []) 0 0 {[ "demo.e123" := "warning" ]} ∅ [])).2 <=
  clock (State (init "demo" 2 4 []) 0 0 {[ "demo.e123" := "warning" ]} ∅ []) + 2.
Proof. apply wait_files_either; [done|right; by vm_compute]. Defined.

(** C32. The wait has no bound of its own: when neither file is there and the
    cluster never writes one, the loop runs out of every fuel. *)
Theorem wait_files_diverges fuel a b e s :
  (forall t, sigint e t = false) ->
  (forall t, (a ∉ (arrivals e t).*1) /\ (b ∉ (arrivals e t).*1)) ->
  is_file a s = false -> is_file b s = false ->
  (wait_files fuel a b e s).1 = Stop OutOfFuel.
Proof.
  intros Hi Hn. revert s. induction fuel as [|fuel IH]; intros s Ha Hb;
    rewrite wait_files_eq by done; cbn zeta;
    rewrite !is_file_advance, !is_file_log, Ha, !is_file_advance, !is_file_log, Hb;
    rewrite !bool_decide_eq_false_2 by apply Hn; cbn; [done|].
  apply IH; rewrite !is_file_advance, !is_file_log, ?Ha, ?Hb, ?is_file_advance, ?is_file_log;
    rewrite ?Ha, ?Hb, !bool_decide_eq_false_2 by apply Hn; done.
Qed.

Lemma wait_files_diverges_witness :
  (wait_files 4 "demo.o123" "demo.e123"
     (Env (fun _ => (0%Z, EmptyString, EmptyString)) (fun _ => false) (fun _ => [])
        (fun _ => true))
     (State (init "demo" 2 4 []) 0 0 ∅ ∅ [])).1 = Stop OutOfFuel.
Proof.
  apply wait_files_diverges; [done|intros t; split; apply not_elem_of_nil|done|done].
Defined.

(** C31. The wait ends when the file of standard output comes: if the cluster
    writes it at one of the next [2 * fuel + 1] ticks and no interrupt
    arrives, the loop returns. *)
Theorem wait_files_terminates fuel a b e s j :
  (forall t, sigint e t = false) ->
  j <= 2 * fuel ->
  a ∈ (arrivals e (clock s + j)).*1 ->
  (wait_files fuel a b e s).1 = Val tt.
Proof.
  intros Hi. revert s j. induction fuel as [|fuel IH]; intros s j Hj Ha;
    rewrite wait_files_eq by done; cbn zeta;
    (destruct (is_file a (advance e (log (EvStat a) s))) eqn:E1; [done|]);
    (destruct (is_file b _) eqn:E2; [done|]);
    rewrite is_file_advance, is_file_log in E1; apply orb_false_iff in E1 as [E0 E1];
    apply bool_decide_eq_false in E1; cbn in E1.
  - destruct j; [|lia]. by rewrite Nat.add_0_r in Ha.
  - destruct j as [|[|j]]; [by rewrite Nat.add_0_r in Ha| |].
    + eapply proj1, wait_files_either; [done|left]. rewrite Nat.add_1_r in Ha.
      rewrite is_file_advance, is_file_log. cbn [clock advance log].
      by rewrite (bool_decide_eq_true_2 _ Ha), orb_true_r.
    + apply (IH _ j); [lia|]. cbn. by rewrite <-!Nat.add_succ_comm in Ha.
Qed.

Lemma wait_files_terminates_witness :
  (wait_files 3 "demo.o123" "demo.e123"
     (Env (fun _ => (0%Z, EmptyString, EmptyString)) (fun _ => false)
        (fun t => match t with 4 => [("demo.o123", "42")] | _ => [] end) (fun _ => true))
     (State (init "demo" 2 4 []) 0 0 ∅ ∅ [])).1 = Val tt.
Proof.
  apply (wait_files_terminates 3 _ _ _ _ 4); [done|lia|by vm_compute; left].
Defined.

(** ** Properties of the hand-over *)

(** C4. The collection hands the output over: from a working directory where
    the two output files have arrived, in a calm environment, lines 187-209
    return normally; afterwards [log] is a directory, each file is under
    [log/] with its content and gone from the working directory, every other
    file is untouched, and the program has made the directory, looked once
    for the file of standard output, slept 1.5 s, moved the two files and
    shown the content of each between its markers, in this order. *)
Theorem move_and_show_hands_over fuel a b out err e s :
  calm e -> arrived a b out err s ->
  exists s', move_and_show fuel a b e s = (Val tt, s') /\
    files s' = handed_over a b out err (files s) /\
    dirs s' = {["log"]} ∪ dirs s /\
    trace s' = trace s ++ [EvMkdir "log"; EvStat a; EvSleep 1500; EvMove a "log";
                           EvMove b "log"] ++ shown a b out err.
Proof.
  intros [Hi Hq Hw] [Ha Hb Hab Hsa Hsb Hda Hdb Hl Hpa Hpb]. unfold move_and_show.
  destruct (mkdir_log_val e s Hl (Hw _)) as (s1 & H1 & Hf1 & Hd1 & Hc1 & Ht1).
  rewrite (bind_val _ _ _ _ _ _ H1).
  rewrite (bind_val _ _ _ _ _ _ (wait_files_present fuel a b e s1 Hi
             (is_file_Some _ _ _ (eq_ind_r (fun fs => fs !! a = Some out) Ha Hf1)))).
  rewrite (bind_val _ _ _ _ _ _ (sleep_val 1500 e _ (Hi _))).
  set (s3 := advance e _).
  assert (files s3 = files s /\ dirs s3 = {["log"]} ∪ dirs s /\
          trace s3 = trace s ++ [EvMkdir "log"; EvStat a; EvSleep 1500]) as (Hf3 & Hd3 & Ht3).
  { subst s3. cbn. by rewrite !Hq, Hf1, Hd1, Ht1, <-!app_assoc. }
  rewrite <-(bind_assoc (move a "log") (fun _ => move b "log") (fun _ => show_results a b) e s3).
  destruct (settled s s3 a out Hf3 Hd3 Hl Ha Hda Hpa) as (Ha3 & Hda3 & Hlog & Hpa3).
  destruct (settled s s3 b err Hf3 Hd3 Hl Hb Hdb Hpb) as (Hb3 & Hdb3 & _ & Hpb3).
  destruct (moves_val a b out err e s3) as (s5 & H5 & Hf5 & Hd5 & Ht5); [done..|].
  rewrite (bind_val _ _ _ _ _ _ H5).
  destruct (lookup_handed_over a b out err (files s) Hab Hsb) as [Hla Hlb].
  destruct (show_results_val a b out err e s5) as (s' & H' & Hf' & Hd' & Ht');
    rewrite ?Hf5, ?Hf3; [done..|].
  exists s'. split; [done|].
  by rewrite Hf', Hd', Ht', Hf5, Hd5, Ht5, Hf3, Hd3, Ht3, <-!app_assoc.
Qed.

Lemma move_and_show_hands_over_witness :
  exists s', move_and_show 0 "demo.o123" "demo.e123" calm_env landed_state = (Val tt, s') /\
    files s' = handed_over "demo.o123" "demo.e123" "42" "warning" (files landed_state) /\
    dirs s' = {["log"]} ∪ dirs landed_state /\
    trace s' = trace landed_state ++
      [EvMkdir "log"; EvStat "demo.o123"; EvSleep 1500; EvMove "demo.o123" "log";
       EvMove "demo.e123" "log"] ++ shown "demo.o123" "demo.e123" "42" "warning".
Proof.
  apply move_and_show_hands_over; [done|].
  split; try done; try (by apply path_exists_false); vm_compute; set_solver.
Defined.

(** C34. The wait lets a half-written job through: when only the file of
    standard error is there after the wait, the move of the file of standard
    output fails with [IOError], which nothing catches; the file of standard
    error stays in the working directory and nothing is shown. *)
Theorem move_and_show_half fuel a b err e s :
  calm e ->
  files s !! a = None -> files s !! b = Some err -> a ∉ dirs s -> a <> "log" ->
  "/"%char ∉ Str.chars a -> files s !! "log" = None ->
  path_exists ("log/" +:+ a) s = false ->
  exists s', move_and_show fuel a b e s = (Exn IOError, s') /\
    files s' = files s /\
    trace s' = trace s ++ [EvMkdir "log"; EvStat a; EvStat b; EvSleep 1500; EvMove a "log"].
Proof.
  intros [Hi Hq Hw] Ha Hb Hda Hna Hsa Hl Hpa. unfold move_and_show.
  destruct (mkdir_log_val e s Hl (Hw _)) as (s1 & H1 & Hf1 & Hd1 & Hc1 & Ht1).
  rewrite (bind_val _ _ _ _ _ _ H1).
  rewrite (bind_val _ _ _ _ _ _ (wait_files_second fuel a b e s1 Hi Hq
             (is_file_None _ _ (eq_ind_r (fun fs => fs !! a = None) Ha Hf1))
             (is_file_Some _ _ _ (eq_ind_r (fun fs => fs !! b = Some err) Hb Hf1)))).
  rewrite (bind_val _ _ _ _ _ _ (sleep_val 1500 e _ (Hi _))).
  set (s3 := advance e _).
  assert (files s3 = files s /\ dirs s3 = {["log"]} ∪ dirs s /\
          trace s3 = trace s ++ [EvMkdir "log"; EvStat a; EvStat b; EvSleep 1500])
    as (Hf3 & Hd3 & Ht3).
  { subst s3. cbn. by rewrite !Hq, Hf1, Hd1, Ht1, <-!app_assoc. }
  clearbody s3.
  erewrite bind_exn; [eexists; split; [done|]|apply (move_missing_log a e s3)].
  - cbn. by rewrite Hf3, Ht3, <-app_assoc.
  - by rewrite Hf3.
  - done.
  - rewrite Hd3. apply not_elem_of_union. split; [|done].
    by apply not_elem_of_singleton.
  - rewrite Hd3. set_solver.
  - apply path_exists_false in Hpa as [? ?]. apply path_exists_false. rewrite Hf3, Hd3.
    split; [|done]. apply not_elem_of_union. split; [|done]. apply not_elem_of_singleton.
    apply log_path_ne. vm_compute. set_solver.
Qed.

Lemma move_and_show_half_witness :
  exists s', move_and_show 0 "demo.o123" "demo.e123" calm_env half_landed_state =
      (Exn IOError, s') /\
    files s' = files half_landed_state /\
    trace s' = trace half_landed_state ++
      [EvMkdir "log"; EvStat "demo.o123"; EvStat "demo.e123"; EvSleep 1500;
       EvMove "demo.o123" "log"].
Proof.
  apply (move_and_show_half 0 "demo.o123" "demo.e123" "warning"); try done;
    try (by apply path_exists_false); vm_compute; set_solver.
Defined.

(** C35. Making the [log] directory is idempotent: once [os.mkdir("log")]
    with its handler has returned, doing it again returns too and changes
    neither the files nor the directories; a [log] directory that is already
    there is not an error and keeps its content. *)
Theorem mkdir_log_idempotent e s s1 :
  mkdir_log e s = (Val tt, s1) ->
  mkdir_log e s1 = (Val tt, log (EvMkdir "log") s1).
Proof. intros H%mkdir_log_Val_inv. by apply mkdir_log_exists. Qed.

Lemma mkdir_log_idempotent_witness :
  mkdir_log calm_env (mkdir_log calm_env landed_state).2 =
    (Val tt, log (EvMkdir "log") (mkdir_log calm_env landed_state).2).
Proof. by apply (mkdir_log_idempotent calm_env landed_state). Defined.

(** Errno 17 does not tell a directory from a file: when [log] is a
    regular file, [os.mkdir] fails with errno 17, the handler passes, and each
    move then renames an output file to [log]: the notes that were in [log]
    and the standard output of the job are overwritten, and the report fails
    with [IOError] at its first read. *)
Example move_and_show_log_file :
  exists s', move_and_show 0 "demo.o123" "demo.e123" calm_env log_taken_state =
      (Exn IOError, s') /\
    files s' = {[ "log" := "warning" ]} /\ dirs s' = ∅ /\
    fs_calls (trace s') =
      [EvMkdir "log"; EvStat "demo.o123"; EvMove "demo.o123" "log";
       EvMove "demo.e123" "log"; EvRead "log/demo.o123"].
Proof. eexists. split; [by vm_compute|]. split; [|done]. by apply map_eq; intros p; vm_compute. Qed.

End Collector.
