(* ===== verification/Lifecycle.v ===== *)
(** * Lifecycle: the state machine a run is meant to follow

    The specification of the launcher describes a job's life as a walk
    through the phases [BUILDING], [SUBMITTING], [POLLING],
    [EXITING_OBSERVED], [COLLECTING] and the three terminal phases [DONE],
    [ABORTED] and [FAILED].  This file states that machine over the actions
    the program performs on its surroundings (the commands it launches and
    its file-system calls, see [World.external]):

    - a [node] is a point of the walk: which action comes next, and for which
      job identifier once the job is submitted; [phase_of] gives its phase;
    - [step cfg o n ev n'] says that at node [n] the action [ev] is allowed
      and may lead to [n']; the outcome of an action (an exit code, a file
      that is there or not) is not part of the action, so one action may lead
      to several nodes;
    - [path] is a sequence of steps, [ends] relates the result of a run to
      the node its walk stops at, and [run_spec] is the contract of a run.

    Nothing here is code of [sub.py]: [Refinement.run_follows_lifecycle] shows
    that the code implements this machine. *)

From Stdlib Require Import Ascii String ZArith Lia.
From stdpp Require Import base tactics option list strings.
From S2P Require Import Prelude PyString PyPath Job World Gateway Poll Build Collector.
Import Job World.

Module Lifecycle.

(** ** Phases and nodes *)

Inductive phase : Type :=
| BUILDING
| SUBMITTING
| POLLING
| EXITING_OBSERVED
| COLLECTING
| DONE
| ABORTED
| FAILED.

(** The edges of the phase graph. *)
Inductive phase_next : phase -> phase -> Prop :=
| next_submitting : phase_next BUILDING SUBMITTING
| next_polling : phase_next SUBMITTING POLLING
| next_exiting : phase_next POLLING EXITING_OBSERVED
| next_collecting : phase_next EXITING_OBSERVED COLLECTING
| next_done : phase_next COLLECTING DONE
| next_aborted : phase_next POLLING ABORTED
| next_failed_build : phase_next BUILDING FAILED
| next_failed_submit : phase_next SUBMITTING FAILED
| next_failed_poll : phase_next POLLING FAILED.

Inductive node : Type :=
| AtValidate
| AtCompile
| AtTemplate
| AtScript
| AtSubmit
| AtWatch (process_id : string)
| AtPoll (process_id : string)
| AtExit (process_id : string)
| AtOut (process_id : string)
| AtErr (process_id : string)
| AtMoveOut (process_id : string)
| AtMoveErr (process_id : string)
| AtShowOut (process_id : string)
| AtShowErr (process_id : string)
| Final (x : exit_point).

Definition phase_of (n : node) : phase :=
  match n with
  | AtValidate | AtCompile => BUILDING
  | AtTemplate | AtScript | AtSubmit => SUBMITTING
  | AtWatch _ | AtPoll _ => POLLING
  | AtExit _ => EXITING_OBSERVED
  | AtOut _ | AtErr _ | AtMoveOut _ | AtMoveErr _ | AtShowOut _ | AtShowErr _ => COLLECTING
  | Final Done => DONE
  | Final UserAbort => ABORTED
  | Final _ => FAILED
  end.

(** How far a phase is along the graph: every edge goes up. *)
Definition phase_rank (p : phase) : nat :=
  match p with
  | BUILDING => 0
  | SUBMITTING => 1
  | POLLING => 2
  | EXITING_OBSERVED => 3
  | COLLECTING => 4
  | DONE | ABORTED | FAILED => 5
  end.

(** The nodes of the collection, with its end. *)
Definition collecting (n : node) : bool :=
  match n with
  | AtExit _ | AtOut _ | AtErr _ | AtMoveOut _ | AtMoveErr _ | AtShowOut _ | AtShowErr _
  | Final Done => true
  | _ => false
  end.

(** The nodes at which the program waits for the cluster. *)
Definition waiting (n : node) : bool :=
  match n with
  | AtPoll _ | AtOut _ => true
  | _ => false
  end.

#[export] Instance phase_eq_dec : EqDecision phase.
Proof. solve_decision. Defined.

#[export] Instance node_eq_dec : EqDecision node.
Proof. solve_decision. Defined.

(** ** Steps *)

Section machine.
Context (cfg : config) (o : Submit).

Definition f_stdout (process_id : string) : string := Collector.artifact o "o" process_id.
Definition f_stderr (process_id : string) : string := Collector.artifact o "e" process_id.

Inductive step : node -> event -> node -> Prop :=
| step_validate :
    step AtValidate (EvStat (Build.project_folder cfg o)) AtCompile
| step_compile c n :
    Build.compile_command cfg o = Some c ->
    n = AtTemplate \/ n = Final BuildFailure ->
    step AtCompile (EvCall c) n
| step_template n :
    n = AtScript \/ n = Final TemplateIOFailure ->
    step AtTemplate (EvRead (Build.template_path cfg)) n
| step_script n :
    n = AtSubmit \/ n = Final TemplateIOFailure ->
    step AtScript (EvWrite "cur_sub.sh") n
| step_submit n :
    (exists process_id, n = AtWatch process_id) \/ n = Final SubmitFailure ->
    step AtSubmit (EvCall Gateway.qsub_command) n
| step_watch process_id n :
    n = AtPoll process_id \/ n = AtExit process_id \/ n = Final QueryFailure ->
    step (AtWatch process_id) (EvCall Gateway.qstat_command) n
| step_poll process_id n :
    n = AtPoll process_id \/ n = AtExit process_id \/ n = Final QueryFailure ->
    step (AtPoll process_id) (EvCall Gateway.qstat_command) n
| step_cancel process_id n :
    n = Final UserAbort \/ n = Final CancelFailure ->
    step (AtPoll process_id) (EvCall (Gateway.qdel_command process_id)) n
| step_mkdir process_id :
    step (AtExit process_id) (EvMkdir "log") (AtOut process_id)
| step_out process_id n :
    n = AtErr process_id \/ n = AtMoveOut process_id ->
    step (AtOut process_id) (EvStat (f_stdout process_id)) n
| step_err process_id n :
    n = AtOut process_id \/ n = AtMoveOut process_id ->
    step (AtErr process_id) (EvStat (f_stderr process_id)) n
| step_move_out process_id :
    step (AtMoveOut process_id) (EvMove (f_stdout process_id) "log") (AtMoveErr process_id)
| step_move_err process_id :
    step (AtMoveErr process_id) (EvMove (f_stderr process_id) "log") (AtShowOut process_id)
| step_show_out process_id :
    step (AtShowOut process_id) (EvRead ("log/" +:+ f_stdout process_id))
      (AtShowErr process_id)
| step_show_err process_id :
    step (AtShowErr process_id) (EvRead ("log/" +:+ f_stderr process_id)) (Final Done).

Inductive path : node -> list event -> node -> Prop :=
| path_nil n : path n [] n
| path_cons n ev n1 w n2 : step n ev n1 -> path n1 w n2 -> path n (ev :: w) n2.

(** The node a run stops at, by its result: the return that ended it; a
    waiting node when a loop ran out of fuel; any node for an exception. *)
Definition ends (r : res exit_point) (n : node) : Prop :=
  match r with
  | Val x => n = Final x
  | Stop OutOfFuel => waiting n = true
  | _ => True
  end.

(** The same for a part of a run that hands [Continue a] to the rest: the
    walk goes on at [next a]. *)
Definition flow_ends {A : Type} (next : A -> node) (r : res (flow A)) (n : node) : Prop :=
  match r with
  | Val (Return x) => n = Final x
  | Val (Continue a) => n = next a
  | Stop OutOfFuel => waiting n = true
  | _ => True
  end.

(** The same for the collection, which ends the run when it returns. *)
Definition unit_ends (r : res unit) (n : node) : Prop :=
  match r with
  | Val _ => n = Final Done
  | Stop OutOfFuel => waiting n = true
  | _ => True
  end.

(** The actions [w] lead from [n] to a node that fits the result [r]. *)
Definition reaches {R : Type} (n : node) (fits : R -> node -> Prop) (r : R)
    (w : list event) : Prop :=
  exists n', path n w n' /\ fits r n'.

(** The collection with a job identifier that may be unbound. *)
Definition collect_spec (process_id : option string) (r : res unit) (w : list event) :
    Prop :=
  match process_id with
  | Some p => reaches (AtExit p) unit_ends r w
  | None => w = [] /\ r = Exn UnboundLocalError
  end.

(** The actions of the walks that end in a terminal node: those up to the
    submission, a look for one of the two output files, and what follows the
    wait. *)
Definition submitted (c : string) : list event :=
  [EvStat (Build.project_folder cfg o); EvCall c; EvRead (Build.template_path cfg);
   EvWrite "cur_sub.sh"; EvCall Gateway.qsub_command].

Definition probe (process_id : string) (ev : event) : Prop :=
  ev = EvStat (f_stdout process_id) \/ ev = EvStat (f_stderr process_id).

Definition moved_and_shown (process_id : string) : list event :=
  [EvMove (f_stdout process_id) "log"; EvMove (f_stderr process_id) "log";
   EvRead ("log/" +:+ f_stdout process_id); EvRead ("log/" +:+ f_stderr process_id)].

Definition collected (process_id : string) (w : list event) : Prop :=
  exists wt, w = EvMkdir "log" :: wt ++ moved_and_shown process_id /\
    Forall (probe process_id) wt /\ wt <> [].

(** What a run has done when it returns [x]. *)
Definition final_shape (x : exit_point) (w : list event) : Prop :=
  exists c, Build.compile_command cfg o = Some c /\
    match x with
    | BuildFailure => w = [EvStat (Build.project_folder cfg o); EvCall c]
    | TemplateIOFailure =>
        w = [EvStat (Build.project_folder cfg o); EvCall c; EvRead (Build.template_path cfg)] \/
        w = [EvStat (Build.project_folder cfg o); EvCall c; EvRead (Build.template_path cfg);
             EvWrite "cur_sub.sh"]
    | SubmitFailure => w = submitted c
    | QueryFailure => exists k, w = submitted c ++ Poll.queries (S k)
    | CancelFailure | UserAbort =>
        exists process_id k,
          w = submitted c ++ Poll.queries (S k) ++ [EvCall (Gateway.qdel_command process_id)]
    | Done =>
        exists process_id k w',
          w = submitted c ++ Poll.queries (S k) ++ w' /\ collected process_id w'
    end.

(** The contract of a run: its actions are a path from the validation of
    the project to a node that fits its result. *)
Definition run_spec (r : res exit_point) (w : list event) : Prop :=
  reaches AtValidate ends r w.

End machine.

(** ** Lemmas: the phases *)

(** Every step stays in its phase or follows an edge of the phase graph. *)
Lemma step_phase cfg o n ev n' :
  step cfg o n ev n' ->
  phase_of n = phase_of n' \/ phase_next (phase_of n) (phase_of n').
Proof.
  destruct 1; repeat match goal with
    | H : _ \/ _ |- _ => destruct H
    | H : ex _ |- _ => destruct H
    end; simplify_eq/=; eauto using phase_next.
Qed.

(** The phase graph has no way back. *)
Lemma phase_next_rank p q : phase_next p q -> phase_rank p < phase_rank q.
Proof. destruct 1; cbn; lia. Qed.

Lemma step_rank cfg o n ev n' :
  step cfg o n ev n' -> phase_rank (phase_of n) <= phase_rank (phase_of n').
Proof. intros [->|?%phase_next_rank]%step_phase; lia. Qed.

Lemma path_rank cfg o n w n' :
  path cfg o n w n' -> phase_rank (phase_of n) <= phase_rank (phase_of n').
Proof. induction 1 as [|? ? ? ? ? ?%step_rank]; lia. Qed.

(** A terminal node has no step. *)
Lemma step_Final cfg o x ev n : ~ step cfg o (Final x) ev n.
Proof. inversion 1. Qed.

Lemma path_Final cfg o x w n : path cfg o (Final x) w n -> w = [] /\ n = Final x.
Proof. inversion 1 as [|? ? ? ? ? Hs]; [done|]. by apply step_Final in Hs. Qed.

(** ** Lemmas: the machine of a job *)

(** The machine depends on the job only through what [same_job] keeps. *)
Lemma step_same_job cfg o o' n ev n' :
  same_job o o' -> step cfg o n ev n' -> step cfg o' n ev n'.
Proof.
  intros H Hs. destruct Hs; unfold f_stdout, f_stderr; rewrite ?H;
    try match goal with Hc : Build.compile_command _ _ = _ |- _ => rewrite H in Hc end;
    by constructor.
Qed.

#[export] Instance step_proper cfg :
  Proper (same_job ==> eq ==> eq ==> eq ==> iff) (step cfg).
Proof. intros o o' H n ? <- ev ? <- n' ? <-. split; by apply step_same_job. Qed.

#[export] Instance path_proper cfg :
  Proper (same_job ==> eq ==> eq ==> eq ==> iff) (path cfg).
Proof.
  intros o o' H n ? <- w ? <- n' ? <-.
  split; induction 1; econstructor; eauto; by eapply step_proper.
Qed.

Lemma reaches_same_job {R : Type} cfg o o' n (fits : R -> node -> Prop) r w :
  same_job o o' -> reaches cfg o n fits r w -> reaches cfg o' n fits r w.
Proof. intros H (n' & Hp & ?). exists n'. by rewrite <-H. Qed.

(** ** Lemmas: paths *)

Section paths.
Context (cfg : config) (o : Submit).

Lemma path_one n ev n' : step cfg o n ev n' -> path cfg o n [ev] n'.
Proof. eauto using path. Qed.

Lemma path_app n1 w1 n2 w2 n3 :
  path cfg o n1 w1 n2 -> path cfg o n2 w2 n3 -> path cfg o n1 (w1 ++ w2) n3.
Proof. induction 1; cbn; eauto using path. Qed.

Lemma path_snoc n1 w n2 ev n3 :
  path cfg o n1 w n2 -> step cfg o n2 ev n3 -> path cfg o n1 (w ++ [ev]) n3.
Proof. eauto using path_app, path_one. Qed.

Lemma path_app_inv n1 w1 w2 n3 :
  path cfg o n1 (w1 ++ w2) n3 -> exists n2, path cfg o n1 w1 n2 /\ path cfg o n2 w2 n3.
Proof.
  revert n1. induction w1 as [|ev w1 IH]; intros n1; cbn.
  - eauto using path.
  - inversion 1 as [|? ? n ? ? Hs Hp]; subst.
    destruct (IH _ Hp) as (n2 & ? & ?). eauto using path.
Qed.

(** Polling: any number of queries keeps the machine polling. *)
Lemma path_queries process_id k :
  path cfg o (AtPoll process_id) (Poll.queries k) (AtPoll process_id).
Proof.
  induction k as [|k IH]; [constructor|]. rewrite Poll.queries_S.
  eapply path_cons; [|done]. constructor. eauto.
Qed.

(** The queries of a watch lead to any of the three nodes a query may lead
    to. *)
Lemma path_watch process_id k n :
  n = AtPoll process_id \/ n = AtExit process_id \/ n = Final QueryFailure ->
  path cfg o (AtWatch process_id) (Poll.queries (S k)) n.
Proof.
  intros Hn. destruct k as [|k]; [apply path_one; by constructor|].
  rewrite Poll.queries_S. apply (path_cons _ _ _ _ (AtPoll process_id)); [constructor; eauto|].
  unfold Poll.queries. rewrite replicate_S_end.
  eapply path_snoc; [apply path_queries|by constructor].
Qed.

Lemma path_cancel process_id k n :
  n = Final UserAbort \/ n = Final CancelFailure ->
  path cfg o (AtWatch process_id)
    (Poll.queries (S k) ++ [EvCall (Gateway.qdel_command process_id)]) n.
Proof.
  intros Hn. apply (path_snoc _ _ (AtPoll process_id)); [apply path_watch; eauto|].
  by constructor.
Qed.

(** Waiting: any number of rounds keeps the machine waiting. *)
Lemma path_probes process_id k :
  path cfg o (AtOut process_id)
    (Collector.probes k (f_stdout o process_id) (f_stderr o process_id))
    (AtOut process_id).
Proof.
  induction k as [|k IH]; [constructor|]. rewrite Collector.probes_S.
  apply (path_cons _ _ _ _ (AtErr process_id)); [constructor; eauto|].
  apply (path_cons _ _ _ _ (AtOut process_id)); [constructor; eauto|done].
Qed.

Lemma path_probes_then process_id k w n :
  path cfg o (AtOut process_id) w n ->
  path cfg o (AtOut process_id)
    (Collector.probes k (f_stdout o process_id) (f_stderr o process_id) ++ w) n.
Proof. eauto using path_app, path_probes. Qed.

(** A sequence of two parts reaches what the second reaches from where the
    first stopped. *)
Lemma reaches_app {A R : Type} n next (fits : R -> node -> Prop) (a : A) w1 w2 r :
  reaches cfg o n (flow_ends next) (Val (Continue a)) w1 ->
  reaches cfg o (next a) fits r w2 ->
  reaches cfg o n fits r (w1 ++ w2).
Proof. intros (n1 & H1 & ->) (n2 & H2 & ?). exists n2. eauto using path_app. Qed.

(** Once collecting, always collecting. *)
Lemma step_collecting n ev n' :
  step cfg o n ev n' -> collecting n = true -> collecting n' = true.
Proof.
  destruct 1; repeat match goal with
    | H : _ \/ _ |- _ => destruct H
    | H : ex _ |- _ => destruct H
    end; by simplify_eq/=.
Qed.

Lemma path_collecting n w n' :
  path cfg o n w n' -> collecting n = true -> collecting n' = true.
Proof. induction 1; eauto using step_collecting. Qed.

End paths.

(** ** Lemmas: the walks that end in a terminal node *)

(** Inverts the steps of a walk through nodes that are not in a loop. *)
Ltac invert_step :=
  match goal with
  | H : path _ _ (Final _) _ _ |- _ => apply path_Final in H as [-> ?]
  | H : path _ _ ?n _ (Final _) |- _ =>
      lazymatch n with
      | AtWatch _ => fail
      | AtPoll _ => fail
      | AtOut _ => fail
      | AtErr _ => fail
      | _ => tryif is_var n then fail else (inversion H; clear H)
      end
  | H : step _ _ _ _ _ |- _ => inversion H; clear H
  | H : _ \/ _ |- _ => destruct H
  | H : ex _ |- _ => destruct H
  end.
Ltac invert_path := repeat (simplify_eq/=; try invert_step).

Section shapes.
Context (cfg : config) (o : Submit).

Lemma path_move_out_final p w x :
  path cfg o (AtMoveOut p) w (Final x) -> w = moved_and_shown o p /\ x = Done.
Proof. intros H. by invert_path. Qed.

Lemma path_wait_final p n w x :
  n = AtOut p \/ n = AtErr p ->
  path cfg o n w (Final x) ->
  exists wt, w = wt ++ moved_and_shown o p /\ Forall (probe o p) wt /\ wt <> [] /\ x = Done.
Proof.
  intros Hn Hp. remember (Final x) as n' eqn:En'. revert Hn.
  induction Hp as [|n ev n1 w n2 Hs Hp IH]; intros Hn; [by destruct Hn; simplify_eq|].
  assert (probe o p ev /\ (n1 = AtOut p \/ n1 = AtErr p \/ n1 = AtMoveOut p))
    as [Hev [H1|[H1| ->]]] by (unfold probe; destruct Hn; invert_path; eauto).
  - destruct (IH En') as (wt & -> & ? & ? & ->); [eauto|]. exists (ev :: wt). eauto.
  - destruct (IH En') as (wt & -> & ? & ? & ->); [eauto|]. exists (ev :: wt). eauto.
  - subst n2. apply path_move_out_final in Hp as [-> ->]. exists [ev]. eauto.
Qed.

Lemma path_exit_final p w x :
  path cfg o (AtExit p) w (Final x) -> collected o p w /\ x = Done.
Proof.
  inversion 1 as [|? ? ? ? ? Hs Hp]; subst. inversion Hs; subst.
  apply (path_wait_final p) in Hp as (wt & -> & ? & ? & ->); [|eauto].
  split; [|done]. by exists wt.
Qed.

(** From the polling node a walk ends with a failed query, with a cancel, or
    goes through the collection. *)
Lemma path_poll_final p w x :
  path cfg o (AtPoll p) w (Final x) ->
  exists k,
    (x = QueryFailure /\ w = Poll.queries (S k)) \/
    ((x = UserAbort \/ x = CancelFailure) /\
       w = Poll.queries k ++ [EvCall (Gateway.qdel_command p)]) \/
    (exists w', w = Poll.queries (S k) ++ w' /\ collected o p w' /\ x = Done).
Proof.
  intros Hp. remember (AtPoll p) as n eqn:En. remember (Final x) as n' eqn:En'.
  revert En. induction Hp as [|n ev n1 w n2 Hs Hp IH]; intros ->; [by simplify_eq|].
  inversion Hs as [| | | | | |? ? [->|[->| ->]]|? ? [->| ->]| | | | | | |]; subst.
  - destruct (IH eq_refl eq_refl) as (k & [[-> ->]|[[? ->]|(w' & -> & ? & ->)]]);
      exists (S k); rewrite !Poll.queries_S; eauto 10.
  - apply path_exit_final in Hp as [? ->]. exists 0. eauto 10.
  - apply path_Final in Hp as [-> [= <-]]. exists 0. eauto.
  - apply path_Final in Hp as [-> [= <-]]. exists 0. eauto.
  - apply path_Final in Hp as [-> [= <-]]. exists 0. eauto.
Qed.

(** From the first query on. *)
Lemma path_watch_final p w x :
  path cfg o (AtWatch p) w (Final x) ->
  exists k,
    (x = QueryFailure /\ w = Poll.queries (S k)) \/
    ((x = UserAbort \/ x = CancelFailure) /\
       w = Poll.queries (S k) ++ [EvCall (Gateway.qdel_command p)]) \/
    (exists w', w = Poll.queries (S k) ++ w' /\ collected o p w' /\ x = Done).
Proof.
  inversion 1 as [|? ? ? ? ? Hs Hp]; subst.
  inversion Hs as [| | | | |? ? [->|[->| ->]]| | | | | | | | |]; subst.
  - apply path_poll_final in Hp as (k & [[-> ->]|[[? ->]|(w' & -> & ? & ->)]]).
    + exists (S k). eauto.
    + exists k. eauto.
    + exists (S k). eauto 10.
  - apply path_exit_final in Hp as [? ->]. exists 0. eauto 10.
  - apply path_Final in Hp as [-> [= <-]]. exists 0. eauto.
Qed.

(** The actions of a walk from the validation to a terminal node. *)
Lemma path_final_shape w x : path cfg o AtValidate w (Final x) -> final_shape cfg o x w.
Proof.
  intros H. unfold final_shape. invert_path;
    try (match goal with
         | H : path _ _ (AtWatch _) _ _ |- _ =>
             apply path_watch_final in H as (k & [[-> ->]|[[[->| ->] ->]|(? & -> & ? & ->)]])
         end); eauto 12.
Qed.

End shapes.

End Lifecycle.
