(* ===== verification/Submit.v ===== *)
(** * Submit: the method [Submit.run]

    [run] composes the steps of [Build], [Poll] and [Collector] the way the
    method does (lines 64-209 of [sub.py]): the existence test of the project
    folder, the [else] branch with its early returns, and, after the
    [if]/[else], the collection of the output.  Its value tells which [return]
    ended the method; [Done] is its last line.  The two fuels bound the
    polling loop and the wait for the output files. *)

From Stdlib Require Import Ascii String ZArith Lia.
From stdpp Require Import base tactics option list strings gmap.
From S2P Require Import Prelude PyString PyPath Job World Pretty Gateway Poll Build Collector.
Import Job World Colors.
#[local] Open Scope py_scope.

Module Submit.

(** The [else] branch of line 68: lines 69-179. *)
Definition submit_and_watch (cfg : config) (fuel : nat) : M (flow (option string)) :=
  and_then (Build.compile cfg) (fun _ =>
  and_then (Build.make_submit cfg) (fun _ =>
  and_then Build.submit_job (fun process_id =>
  and_then (Poll.watch_or_cancel fuel process_id) (fun _ =>
  ret (Continue (Some process_id)))))).

(** [Submit.run] *)
Definition run (cfg : config) (fuel_poll fuel_wait : nat) : M exit_point :=
  print (OKGREEN +:+ "----- Start submit -----" +:+ ENDC) Str.nl ;;
  o <- gets self ;;
  found <- exists_ (Build.project_folder cfg o) ;;
  f <- (if negb found
        then print (FAIL +:+ "!!! Error: project not exist" +:+ ENDC) Str.nl ;;
             ret (Continue None)
        else submit_and_watch cfg fuel_poll) ;;
  match f with
  | Return x => ret x
  | Continue process_id => Collector.collect fuel_wait process_id ;; ret Done
  end.

(** ** Environments for the examples *)

Definition demo_cfg : config := Config "/home/u" "/home/u/src".

(** The process before [run]: a job for project [demo] on 2 nodes, the
    project folder and the template in place. *)
Definition demo_state : state :=
  State (init "demo" 2 4 ["a"; "b"]) 0 0
    {[ "/home/u/bin/sub_template.sh" :=
         "#PBS -N %JOB_NAME% -l nodes=%NODES%:ppn=%PROCESSES%" +:+ Str.nl +:+
         "mpirun %EXE_PATH% %INPUTARGS%" ]}
    {[ "/home/u/src/demo" ]} [].

(** What the cluster answers: the compiler and [qsub] succeed, the job runs
    during two listings and is exiting in the third. *)
Definition demo_replies (n : nat) : Z * string * string :=
  match n with
  | 0 => (0%Z, EmptyString, EmptyString)
  | 1 => (0%Z, "123.host" +:+ Str.nl, EmptyString)
  | 2 | 3 => (0%Z, "123.host user queue demo.run 1 2 R 00:01", EmptyString)
  | 4 => (0%Z, "123.host user queue demo.run 1 2 E 00:05", EmptyString)
  | _ => (0%Z, EmptyString, EmptyString)
  end.

(** The two output files appear at the tenth tick. *)
Definition demo_arrivals (t : nat) : list (string * string) :=
  match t with
  | 10 => [("demo.o123", "42"); ("demo.e123", EmptyString)]
  | _ => []
  end.

(** A run that nothing disturbs. *)
Definition quiet_env : env :=
  Env demo_replies (fun _ => false) demo_arrivals (fun _ => true).

(** The user presses Ctrl-C during the sixth wait of the program. *)
Definition interrupted_env : env :=
  Env demo_replies (fun t => bool_decide (t = 5)) demo_arrivals (fun _ => true).

(** The compiler fails. *)
Definition broken_env : env :=
  Env (fun _ => (1%Z, EmptyString, "demo.c:1: error")) (fun _ => false) demo_arrivals
    (fun _ => true).

(** [qsub] fails. *)
Definition refused_env : env :=
  Env (fun n => match n with
                | 1 => (1%Z, EmptyString, "qsub: no such queue")
                | _ => demo_replies n
                end)
    (fun _ => false) demo_arrivals (fun _ => true).

(** A row of the job without a status in the second listing of the loop. *)
Definition garbled_env : env :=
  Env (fun n => match n with
                | 3 => (0%Z, "123.host", EmptyString)
                | _ => demo_replies n
                end)
    (fun _ => false) demo_arrivals (fun _ => true).

(** The process before a run for a project that has no folder. *)
Definition stray_state : state :=
  State (init "nope" 2 4 []) 0 0 ∅ {[ "/home/u/src/demo" ]} [].

(** ** Properties of the validation *)

(** C19. A missing project is reported and then the run fails: when the
    project folder does not exist, [run] prints that the project does not
    exist, skips the [else] branch, and goes on to the lines after it, where
    the use of [process_id], never assigned, raises [UnboundLocalError].  No
    command is launched and no file is touched. *)
Theorem run_missing_project cfg fuel_poll fuel_wait e s :
  sigint e (clock s) = false ->
  path_exists (Build.project_folder cfg (self s)) (advance e s) = false ->
  exists s', run cfg fuel_poll fuel_wait e s = (Exn UnboundLocalError, s') /\
    trace s' = trace s ++
      [EvPrint (OKGREEN +:+ "----- Start submit -----" +:+ ENDC +:+ Str.nl);
       EvStat (Build.project_folder cfg (self s));
       EvPrint (FAIL +:+ "!!! Error: project not exist" +:+ ENDC +:+ Str.nl);
       EvPrint ((OKGREEN +:+ "-> CPU USED: " +:+ cpu_time_used (self s) +:+ " <-" +:+ ENDC)
                +:+ Str.nl);
       EvPrint (OKGREEN +:+ "------ End submit ------" +:+ ENDC +:+ (Str.nl +:+ Str.nl))] /\
    ncalls s' = ncalls s /\ dirs s' = dirs s /\ files s' = files (advance e s).
Proof.
  intros Hi Hp. unfold run. rewrite (bind_val _ _ _ _ _ _ (print_val _ _ _ _)).
  unfold bind at 1, gets at 1. unfold bind at 1. rewrite exists_val by done.
  change (self (log _ s)) with (self s).
  change (path_exists ?p (advance e (log _ (log _ s)))) with (path_exists p (advance e s)).
  rewrite Hp. eexists. split; [done|]. cbn. by rewrite <-!app_assoc.
Qed.

Lemma run_missing_project_witness :
  exists s', run demo_cfg 5 5 quiet_env stray_state = (Exn UnboundLocalError, s') /\
    trace s' = trace stray_state ++
      [EvPrint (OKGREEN +:+ "----- Start submit -----" +:+ ENDC +:+ Str.nl);
       EvStat (Build.project_folder demo_cfg (self stray_state));
       EvPrint (FAIL +:+ "!!! Error: project not exist" +:+ ENDC +:+ Str.nl);
       EvPrint ((OKGREEN +:+ "-> CPU USED: " +:+ cpu_time_used (self stray_state) +:+ " <-"
                 +:+ ENDC) +:+ Str.nl);
       EvPrint (OKGREEN +:+ "------ End submit ------" +:+ ENDC +:+ (Str.nl +:+ Str.nl))] /\
    ncalls s' = ncalls stray_state /\ dirs s' = dirs stray_state /\
    files s' = files (advance quiet_env stray_state).
Proof. apply run_missing_project; [done|by vm_compute]. Defined.

End Submit.
