(* ===== verification/Raises.v ===== *)
(** * Raises: the exceptions that leave each part of [run]

    [Submit.run] catches two exceptions: [IOError] around the template
    (lines 88-101) and [KeyboardInterrupt] around the watch (lines 119-179),
    and it lets errno 17 of [os.mkdir] pass.  Everything else that a library
    call or an index raises leaves the method as a traceback.  This file says
    which exceptions can leave each part, with a small logic of its own:
    [raises m P] holds when every exception a run of [m] ends with satisfies
    [P].  Its rules follow the structure of the code, and [raises_build]
    applies them. *)

From Stdlib Require Import Ascii String ZArith Lia.
From stdpp Require Import base tactics option list strings gmap.
From S2P Require Import Prelude PyString PyPath Job World Pretty Gateway Poll Build Collector.
From S2P Require Import Submit.
Import Job World Colors.
#[local] Open Scope py_scope.

Module Raises.

Definition raises {A : Type} (m : M A) (P : pyexn -> Prop) : Prop :=
  forall e s x s', m e s = (Exn x, s') -> P x.

(** [returns m Q]: every value a run of [m] returns satisfies [Q]. *)
Definition returns {A : Type} (m : M A) (Q : A -> Prop) : Prop :=
  forall e s a s', m e s = (Val a, s') -> Q a.

(** ** The exceptions of each part *)

(** Nothing is raised. *)
Definition never (x : pyexn) : Prop := False.

(** A wait was interrupted. *)
Definition interrupt (x : pyexn) : Prop := x = KeyboardInterrupt.

(** The watch: an interrupt, or a row of the listing that cannot be read. *)
Definition of_watch (x : pyexn) : Prop := x = KeyboardInterrupt \/ x = IndexError.

(** The collection of the output of a job. *)
Definition of_collection (x : pyexn) : Prop :=
  x = KeyboardInterrupt \/ x = IOError \/ x = ShutilError \/
  exists errno, x = OSError errno /\ errno <> 17%Z.

(** A run for a project whose folder is there. *)
Definition of_job (x : pyexn) : Prop := x = IndexError \/ of_collection x.

(** Any run. *)
Definition of_run (x : pyexn) : Prop := x = UnboundLocalError \/ of_job x.

Create HintDb raises.

(** ** Rules *)

Lemma raises_weaken {A : Type} (m : M A) (P Q : pyexn -> Prop) :
  raises m P -> (forall x, P x -> Q x) -> raises m Q.
Proof. intros Hm HP e s x s' H. apply HP, (Hm _ _ _ _ H). Qed.

Lemma raises_ret {A : Type} (a : A) P : raises (ret a) P.
Proof. by intros e s x s' [=]. Qed.

Lemma raises_stop {A : Type} (h : halt) P : raises (@stop A h) P.
Proof. by intros e s x s' [=]. Qed.

Lemma raises_raise {A : Type} (x : pyexn) (P : pyexn -> Prop) : P x -> raises (@raise A x) P.
Proof. by intros Hx e s ? s' [= <- <-]. Qed.

Lemma raises_gets {A : Type} (f : state -> A) P : raises (gets f) P.
Proof. by intros e s x s' [=]. Qed.

Lemma raises_asks {A : Type} (f : env -> A) P : raises (asks f) P.
Proof. by intros e s x s' [=]. Qed.

Lemma raises_modify (f : state -> state) P : raises (modify f) P.
Proof. by intros e s x s' [=]. Qed.

Lemma raises_elapse (P : pyexn -> Prop) : P KeyboardInterrupt -> raises elapse P.
Proof. intros HP e s x s'. unfold elapse. destruct (sigint _ _); by intros [= <- <-]. Qed.

Lemma raises_bind {A B : Type} (m : M A) (k : A -> M B) P :
  raises m P -> (forall a, raises (k a) P) -> raises (bind m k) P.
Proof.
  intros Hm Hk e s x s' H.
  apply bind_inv in H as [(a & s1 & H1 & H2)|[(x' & H1 & ?)|(h & _ & ?)]]; simplify_eq.
  - apply (Hk a _ _ _ _ H2).
  - apply (Hm _ _ _ _ H1).
Qed.

(** The same when the rest only has to cope with the values [m] returns. *)
Lemma raises_bind_val {A B : Type} (m : M A) (k : A -> M B) (Q : A -> Prop) P :
  raises m P -> returns m Q -> (forall a, Q a -> raises (k a) P) -> raises (bind m k) P.
Proof.
  intros Hm Hq Hk e s x s' H.
  apply bind_inv in H as [(a & s1 & H1 & H2)|[(x' & H1 & ?)|(h & _ & ?)]]; simplify_eq.
  - apply (Hk a (Hq _ _ _ _ H1) _ _ _ _ H2).
  - apply (Hm _ _ _ _ H1).
Qed.

Lemma returns_ret {A : Type} (a : A) (Q : A -> Prop) : Q a -> returns (ret a) Q.
Proof. by intros Ha e s ? s' [= <- <-]. Qed.

Lemma returns_bind {A B : Type} (m : M A) (k : A -> M B) (Q : B -> Prop) :
  (forall a, returns (k a) Q) -> returns (bind m k) Q.
Proof.
  intros Hk e s b s' H.
  apply bind_inv in H as [(a & s1 & H1 & H2)|[(x' & H1 & ?)|(h & _ & ?)]]; simplify_eq.
  apply (Hk a _ _ _ _ H2).
Qed.

Lemma returns_and_then {A B : Type} (m : M (flow A)) (k : A -> M (flow B))
    (Q : flow B -> Prop) :
  (forall x, Q (Return x)) -> (forall a, returns (k a) Q) -> returns (and_then m k) Q.
Proof.
  intros Hx Hk. apply returns_bind. intros [x|a]; [by apply returns_ret|apply Hk].
Qed.

Lemma raises_if {A : Type} (b : bool) (m1 m2 : M A) P :
  raises m1 P -> raises m2 P -> raises (if b then m1 else m2) P.
Proof. by destruct b. Qed.

(** A [try]: what the block raises is handled or passes. *)
Lemma raises_try_except {A : Type} (m : M A) h (Q P : pyexn -> Prop) :
  raises m Q ->
  (forall x, Q x -> match h x with Some k => raises k P | None => P x end) ->
  raises (try_except m h) P.
Proof.
  intros Hm Hh e s x s'. unfold try_except.
  destruct (m e s) as [[a|x1|hl] s1] eqn:H1; [done| |done].
  specialize (Hh x1 (Hm _ _ _ _ H1)). destruct (h x1) as [k|]; [apply Hh|].
  by intros [= <- <-].
Qed.

Lemma raises_and_then {A B : Type} (m : M (flow A)) (k : A -> M (flow B)) P :
  raises m P -> (forall a, raises (k a) P) -> raises (and_then m k) P.
Proof.
  intros Hm Hk. apply raises_bind; [done|]. intros [x|a]; [apply raises_ret|apply Hk].
Qed.

#[global] Hint Resolve raises_ret raises_stop raises_gets raises_asks raises_modify : raises.

(** Proves that a given exception is one of a part. *)
Ltac in_set :=
  unfold of_run, of_job, of_collection, of_watch, interrupt; cbv beta; eauto 10.

(** Proves that the exceptions of one part are among those of another. *)
Ltac sub_set :=
  let x := fresh "x" in
  intros x; unfold of_run, of_job, of_collection, of_watch, interrupt, never;
  cbv beta; naive_solver.

(** A part raises what its lemma says, in any larger set. *)
Tactic Notation "raises_by" uconstr(lem) :=
  apply (raises_weaken _ _ _ lem); sub_set.

(** Follows the structure of a computation down to the operations. *)
Ltac raises_build :=
  intros; cbv beta zeta;
  lazymatch goal with
  | |- raises (bind _ _) _ => apply raises_bind; [raises_build|intros ?; raises_build]
  | |- raises (and_then _ _) _ => apply raises_and_then; [raises_build|intros ?; raises_build]
  | |- raises (match ?x with _ => _ end) _ => destruct x; raises_build
  | |- raises (raise _) _ => apply raises_raise; in_set
  | |- raises elapse _ => apply raises_elapse; in_set
  | |- _ => solve [eauto with raises]
  end.

(** One step of a sequence whose head [raises_build] proves. *)
Ltac raises_step :=
  first [apply raises_bind | apply raises_and_then]; [raises_build|intros ?].

(** ** The operations *)

Lemma raises_emit ev P : raises (emit ev) P.
Proof. apply raises_modify. Qed.

Lemma raises_print text end_ P : raises (print text end_) P.
Proof. apply raises_modify. Qed.

Lemma raises_flush P : raises flush P.
Proof. apply raises_modify. Qed.

Lemma raises_assign v P : raises (assign_cpu_time_used v) P.
Proof. apply raises_modify. Qed.

#[global] Hint Resolve raises_emit raises_print raises_flush raises_assign : raises.

Lemma raises_sleep ms : raises (sleep ms) interrupt.
Proof. unfold sleep. raises_build. Qed.

Lemma raises_call_command c : raises (call_command c) interrupt.
Proof. unfold call_command. raises_build. Qed.

Lemma raises_exists_ p : raises (exists_ p) interrupt.
Proof. unfold exists_. raises_build. Qed.

Lemma raises_isfile p : raises (isfile p) interrupt.
Proof. unfold isfile. raises_build. Qed.

Lemma raises_mkdir p : raises (mkdir p) (fun x => exists errno, x = OSError errno).
Proof. unfold mkdir. raises_build. Qed.

Lemma raises_read_file p : raises (read_file p) (fun x => x = IOError).
Proof. unfold read_file. raises_build. Qed.

Lemma raises_write_file p text : raises (write_file p text) (fun x => x = IOError).
Proof. unfold write_file. raises_build. Qed.

Lemma raises_move src dst :
  raises (move src dst) (fun x => x = IOError \/ x = ShutilError \/ x = OSError 13).
Proof. unfold move. raises_build. Qed.

Lemma raises_report r P : raises (Pretty.report r) P.
Proof. unfold Pretty.report, Pretty.pretty_return. raises_build. Qed.

#[global] Hint Resolve raises_report : raises.

(** An operation raises what it raises, in any larger set. *)
#[global] Hint Extern 2 (raises (sleep _) _) => raises_by (raises_sleep _) : raises.
#[global] Hint Extern 2 (raises (call_command _) _) => raises_by (raises_call_command _) : raises.
#[global] Hint Extern 2 (raises (exists_ _) _) => raises_by (raises_exists_ _) : raises.
#[global] Hint Extern 2 (raises (isfile _) _) => raises_by (raises_isfile _) : raises.
#[global] Hint Extern 2 (raises (read_file _) _) => raises_by (raises_read_file _) : raises.
#[global] Hint Extern 2 (raises (write_file _ _) _) => raises_by (raises_write_file _ _) : raises.
#[global] Hint Extern 2 (raises (move _ _) _) => raises_by (raises_move _ _) : raises.

(** ** The parts of a run *)

Lemma raises_compile cfg : raises (Build.compile cfg) interrupt.
Proof. unfold Build.compile, Build.print_FAIL, Build.print_OK. raises_build. Qed.

(** The template: its [IOError] is handled, and nothing there waits. *)
Lemma raises_make_submit cfg : raises (Build.make_submit cfg) never.
Proof.
  unfold Build.make_submit, Build.print_FAIL, Build.print_OK.
  do 3 raises_step. apply raises_and_then; [|raises_build].
  apply (raises_try_except _ _ (fun x => x = IOError)); [raises_build|].
  intros x ->. raises_build.
Qed.

Lemma raises_submit_job : raises Build.submit_job interrupt.
Proof. unfold Build.submit_job, Build.print_FAIL, Build.print_OK. raises_build. Qed.

#[global] Hint Extern 2 (raises (Build.compile _) _) => raises_by (raises_compile _) : raises.
#[global] Hint Extern 2 (raises (Build.make_submit _) _) =>
  raises_by (raises_make_submit _) : raises.
#[global] Hint Extern 2 (raises Build.submit_job _) => raises_by raises_submit_job : raises.

Lemma raises_poll_body process_id l : raises (Poll.poll_body process_id l) of_watch.
Proof.
  unfold Poll.poll_body. do 2 raises_step. apply raises_bind; [|raises_build].
  destruct (Gateway.scan_listing _ _ _).2 as [x|] eqn:Hx; [|raises_build].
  apply raises_raise. rewrite (Gateway.scan_listing_exn _ _ _ _ Hx). in_set.
Qed.

Lemma raises_poll_loop fuel process_id l : raises (Poll.poll_loop fuel process_id l) of_watch.
Proof.
  revert l. induction fuel as [|fuel IH]; intros l; cbn [Poll.poll_loop];
    (apply raises_if; [|raises_build]); [raises_build|].
  apply raises_bind; [apply raises_poll_body|done].
Qed.

#[global] Hint Extern 2 (raises (Poll.poll_loop _ _ _) _) =>
  raises_by (raises_poll_loop _ _ _) : raises.

Lemma raises_watch fuel process_id : raises (Poll.watch fuel process_id) of_watch.
Proof. unfold Poll.watch. raises_build. Qed.

Lemma raises_on_interrupt process_id : raises (Poll.on_interrupt process_id) interrupt.
Proof. unfold Poll.on_interrupt. raises_build. Qed.

(** The watch with its handler: an interrupt of the block is handled, and
    what is left is an interrupt of [qdel] or a row that cannot be read. *)
Lemma raises_watch_or_cancel fuel process_id :
  raises (Poll.watch_or_cancel fuel process_id) of_watch.
Proof.
  unfold Poll.watch_or_cancel.
  apply (raises_try_except _ _ of_watch); [apply raises_watch|].
  intros x [->| ->]; [|in_set]. raises_by (raises_on_interrupt process_id).
Qed.

#[global] Hint Extern 2 (raises (Poll.watch_or_cancel _ _) _) =>
  raises_by (raises_watch_or_cancel _ _) : raises.

Lemma raises_submit_and_watch cfg fuel : raises (Submit.submit_and_watch cfg fuel) of_watch.
Proof. unfold Submit.submit_and_watch. raises_build. Qed.

(** [os.mkdir("log")] with its handler: any errno but 17. *)
Lemma raises_mkdir_log :
  raises Collector.mkdir_log (fun x => exists errno, x = OSError errno /\ errno <> 17%Z).
Proof.
  unfold Collector.mkdir_log.
  apply (raises_try_except _ _ (fun x => exists errno, x = OSError errno));
    [apply raises_mkdir|].
  intros x [errno ->]. case_decide; [raises_build|apply raises_raise; eauto].
Qed.

Lemma raises_wait_files fuel a b : raises (Collector.wait_files fuel a b) interrupt.
Proof. induction fuel as [|fuel IH]; cbn [Collector.wait_files]; raises_build. Qed.

Lemma raises_show_results a b : raises (Collector.show_results a b) (fun x => x = IOError).
Proof. unfold Collector.show_results. raises_build. Qed.

#[global] Hint Extern 2 (raises Collector.mkdir_log _) => raises_by raises_mkdir_log : raises.
#[global] Hint Extern 2 (raises (Collector.wait_files _ _ _) _) =>
  raises_by (raises_wait_files _ _ _) : raises.
#[global] Hint Extern 2 (raises (Collector.show_results _ _) _) =>
  raises_by (raises_show_results _ _) : raises.

Lemma raises_move_and_show fuel a b : raises (Collector.move_and_show fuel a b) of_collection.
Proof. unfold Collector.move_and_show. raises_build. Qed.

#[global] Hint Extern 2 (raises (Collector.move_and_show _ _ _) _) =>
  raises_by (raises_move_and_show _ _ _) : raises.

(** The collection when [process_id] is bound. *)
Lemma raises_collect fuel process_id :
  raises (Collector.collect fuel (Some process_id)) of_collection.
Proof. unfold Collector.collect. raises_build. Qed.

(** The [else] branch hands a job identifier to the collection. *)
Lemma returns_submit_and_watch cfg fuel :
  returns (Submit.submit_and_watch cfg fuel)
    (fun f => match f with Continue None => False | _ => True end).
Proof.
  unfold Submit.submit_and_watch. repeat (apply returns_and_then; [done|intros ?]).
  by apply returns_ret.
Qed.

(** What [run] does once the project folder is looked for. *)
Lemma raises_run_rest cfg fuel_poll fuel_wait (found : bool) :
  raises
    (f <- (if negb found
           then print (FAIL +:+ "!!! Error: project not exist" +:+ ENDC) Str.nl ;;
                ret (Continue None)
           else Submit.submit_and_watch cfg fuel_poll) ;;
     match f with
     | Return x => ret x
     | Continue process_id => Collector.collect fuel_wait process_id ;; ret Done
     end)
    (if found then of_job else fun x => x = UnboundLocalError).
Proof.
  destruct found; cbn [negb]; cbv iota.
  - eapply raises_bind_val; [|apply returns_submit_and_watch|].
    { raises_by (raises_submit_and_watch cfg fuel_poll). }
    intros [x|[process_id|]] Hf; [raises_build| |done].
    apply raises_bind; [|raises_build]. raises_by (raises_collect fuel_wait process_id).
  - apply (raises_bind_val _ _ (fun f => f = Continue None)); [raises_build|..].
    { apply returns_bind. intros _. by apply returns_ret. }
    intros f ->. unfold Collector.collect. raises_build.
Qed.

(** A run for a project whose folder is there never fails on the unbound
    [process_id]: whatever it raises is an interrupt, an unreadable row, or
    an error of the collection. *)
Lemma raises_run_found cfg fuel_poll fuel_wait e s x s' :
  path_exists (Build.project_folder cfg (self s)) s = true ->
  Submit.run cfg fuel_poll fuel_wait e s = (Exn x, s') ->
  of_job x.
Proof.
  intros Hp. unfold Submit.run. rewrite (bind_val _ _ _ _ _ _ (print_val _ _ _ _)).
  unfold bind at 1, gets at 1. unfold bind at 1.
  destruct (sigint e (clock (log (EvPrint (OKGREEN +:+ "----- Start submit -----" +:+ ENDC
    +:+ Str.nl)) s))) eqn:Hi.
  - rewrite exists_int by done. intros [= <- <-]. in_set.
  - rewrite exists_val by done. rewrite path_exists_advance_mono by done.
    apply (raises_run_rest cfg fuel_poll fuel_wait true).
Qed.

(** ** Properties of a run *)


End Raises.
