(* ===== verification/Main.v ===== *)
(** * Main: the command line of [sub.py]

    The function [main] (lines 212-269 of [sub.py]): it lists the source
    folder, numbers the projects in sorted order, checks the first argument
    against the accepted choices, and then prints the menu ([getList]) or
    builds a [Submit] object and calls its [run] method.

    What [argparse] does with [sys.argv] (the syntax of options, [type=int],
    the help text) is library code; [main] takes what the command line gives
    ([command_line]) and applies what the script configures: the check of
    [choices] and the two defaults.  A flag [-n] or [-p] given without a value
    leaves [None] in the namespace and is outside the model.  [sys.exit(n)]
    raises [SystemExit n], which nothing in the script catches.

    [Submit] inherits from [multiprocessing.Process], but [main] calls [run]
    and never [start]: the method runs in the calling process, [is_alive]
    answers [False] and [join] is not reached. *)

From Stdlib Require Import Ascii String ZArith Lia.
From stdpp Require Import base tactics option list strings gmap sorting pretty.
From S2P Require Import Prelude PyString PyPath Job World Pretty Gateway Poll Build Collector.
From S2P Require Import Submit Raises.
Import Job World Colors.
#[local] Open Scope py_scope.

Module Main.

(** The attributes of the object returned by [parser.parse_args()]. *)
Record namespace : Type := Namespace {
  name : string;
  input_args : list string;
  nodes : Z;
  processes : Z }.

(** [sorted(l)] on strings: the order of [str], by character codes. *)
Definition sorted (l : list string) : list string := merge_sort String.le l.

(** [dict(pairs)]: a later pair of the same key wins. *)
Definition dict {V : Type} (pairs : list (string * V)) : gmap string V :=
  foldl (fun d kv => <[kv.1 := kv.2]> d) ∅ pairs.

(** [[str(num) for num in range(len(list_dir))]] *)
Definition num_projects (list_dir : list string) : list string :=
  (fun num : nat => pretty num) <$> seq 0 (length list_dir).

(** [dict(zip(num_projects, sorted(list_dir)))] *)
Definition projects (list_dir : list string) : gmap string string :=
  dict (zip (num_projects list_dir) (sorted list_dir)).

(** [choices=list_dir + [str("getList")] + num_projects] *)
Definition choices (list_dir : list string) : list string :=
  list_dir ++ ["getList"] ++ num_projects list_dir.

(** What the command line gives: the first argument, the arguments after it,
    and the values of [-n] and [-p] when they are there. *)
Record command_line : Type := CommandLine {
  arg_name : string;
  arg_rest : list string;
  opt_nodes : option Z;
  opt_processes : option Z }.

(** The namespace of a command line: [default=4] for the nodes and
    [default=1] for the processes (lines 243-248). *)
Definition parsed (argv : command_line) : namespace :=
  Namespace (arg_name argv) (arg_rest argv) (default 4%Z (opt_nodes argv))
    (default 1%Z (opt_processes argv)).

(** [parser.parse_args()]: a first argument outside [choices] is an error of
    usage, exit status 2. *)
Definition parse_args (list_dir : list string) (argv : command_line) : M namespace :=
  if decide (arg_name argv ∈ choices list_dir) then ret (parsed argv)
  else raise (SystemExit 2).

(** The line of a project in the menu: ["  {0}) {1}".format(num, project)]. *)
Definition menu_line (num : nat) (project : string) : option string :=
  Str.format [pretty num; project] "  {0}) {1}".

(** [for num, project in enumerate(sorted(list_dir)): print(...)], from [num]. *)
Fixpoint print_menu (num : nat) (l : list string) : M unit :=
  match l with
  | [] => ret tt
  | project :: l' =>
      match menu_line num project with
      | Some line => print line Str.nl
      | None => stop NotModelled
      end ;;
      print_menu (S num) l'
  end.

(** Lines 252-255. *)
Definition get_list (list_dir : list string) : M unit :=
  print "Your projects are:" Str.nl ;;
  print_menu 0 (sorted list_dir).

(** [any([num == args.name for num in num_projects])] *)
Definition is_number (list_dir : list string) (args : namespace) : bool :=
  existsb (fun num => bool_decide (num = name args)) (num_projects list_dir).

(** [proc.is_alive()] of a process that was never started, and [proc.join()]. *)
Definition is_alive : M bool := ret false.
Definition join : M unit := stop NotModelled.

(** Lines 257-262 and 264-268: the object is made, the screen cleared, and
    [run] called; its value is dropped. *)
Definition launch (cfg : config) (fuel_poll fuel_wait : nat) (proc : Submit) : M unit :=
  modify (with_self (fun _ => proc)) ;;
  system "clear" ;;
  Submit.run cfg fuel_poll fuel_wait ;;
  alive <- is_alive ;;
  if alive then join else ret tt.

(** Lines 223-269: [main] once the source folder is listed. *)
Definition dispatch (cfg : config) (fuel_poll fuel_wait : nat) (list_dir : list string)
    (argv : command_line) : M unit :=
  args <- parse_args list_dir argv ;;
  (if decide (name args = "getList") then get_list list_dir
   else if is_number list_dir args then
     match projects list_dir !! name args with
     | Some project =>
         launch cfg fuel_poll fuel_wait
           (init project (nodes args) (processes args) (input_args args))
     | None => raise KeyError
     end
   else
     launch cfg fuel_poll fuel_wait
       (init (name args) (nodes args) (processes args) (input_args args))) ;;
  raise (SystemExit 0).

(** [main()] *)
Definition main (cfg : config) (fuel_poll fuel_wait : nat) (argv : command_line) :
    M unit :=
  list_dir <- try_except (listdir (SOURCES cfg))
    (fun x => match x with
              | OSError _ =>
                  Some (print "Error: you have to configure the source folder inside sub.cfg"
                          Str.nl ;;
                        raise (SystemExit (-1)))
              | _ => None
              end) ;;
  dispatch cfg fuel_poll fuel_wait list_dir argv.

(** ** What [main] does, stated apart from the code *)

(** The project a first argument stands for: the one of that number in the
    menu, or the one of that name. *)
Definition selected (list_dir : list string) (args : namespace) : string :=
  if is_number list_dir args then default (name args) (projects list_dir !! name args)
  else name args.

(** The [Submit] object [main] makes from the arguments. *)
Definition job_of (list_dir : list string) (args : namespace) : Submit :=
  init (selected list_dir args) (nodes args) (processes args) (input_args args).

(** The lines of the menu for the projects [l], numbered from [num]. *)
Definition menu (num : nat) (l : list string) : list event :=
  imap (fun i project =>
          EvPrint (("  " +:+ pretty (num + i) +:+ ") " +:+ project) +:+ Str.nl)) l.

(** The state once the events [evs] are logged. *)
Definition logged (evs : list event) (s : state) : state :=
  foldl (fun s ev => log ev s) s evs.

(** The state in which [run] starts: the folder was listed, the object made
    and the screen cleared. *)
Definition started (cfg : config) (argv : command_line) (e : env) (s : state) : state :=
  advance e (log (EvSystem "clear")
    (with_self (fun _ => job_of (entries (SOURCES cfg) s) (parsed argv))
       (log (EvListdir (SOURCES cfg)) s))).

(** How the outcome of [run] becomes that of [main]: a value is dropped and
    the program exits with status 0. *)
Definition after_run (r : res exit_point * state) : res unit * state :=
  match r with
  | (Val _, s') => (Exn (SystemExit 0), s')
  | (Exn x, s') => (Exn x, s')
  | (Stop h, s') => (Stop h, s')
  end.

(** ** States for the examples *)

(** Two projects in the source folder, the template in place. *)
Definition shell_state : state :=
  State (init EmptyString 0 0 []) 0 0
    {[ "/home/u/bin/sub_template.sh" :=
         "#PBS -N %JOB_NAME% -l nodes=%NODES%:ppn=%PROCESSES%" +:+ Str.nl +:+
         "mpirun %EXE_PATH% %INPUTARGS%" ]}
    {[ "/home/u/src"; "/home/u/src/heat"; "/home/u/src/demo" ]} [].

(** A project folder named like a number of the menu. *)
Definition numbered_state : state :=
  State (init EmptyString 0 0 []) 0 0 ∅
    {[ "/home/u/src"; "/home/u/src/1"; "/home/u/src/demo" ]} [].

(** ** Lemmas: dictionaries and the numbering *)

Lemma dict_lookup {V : Type} (pairs : list (string * V)) (d : gmap string V) k v :
  NoDup pairs.*1 ->
  foldl (fun d kv => <[kv.1 := kv.2]> d) d pairs !! k = Some v <->
  (k, v) ∈ pairs \/ ((k ∉ pairs.*1) /\ d !! k = Some v).
Proof.
  revert d. induction pairs as [|[k' v'] pairs IH]; intros d Hnd; cbn.
  { rewrite elem_of_nil. set_solver. }
  apply NoDup_cons in Hnd as [Hk' Hnd]. rewrite IH by done.
  rewrite elem_of_cons, not_elem_of_cons. destruct (decide (k = k')) as [->|Hne].
  - rewrite lookup_insert_eq. split; [|naive_solver].
    intros [Hin|[Hn [= ->]]]; [|by left; left].
    destruct Hk'. apply list_elem_of_fmap. by exists (k', v).
  - rewrite lookup_insert_ne by done. naive_solver.
Qed.

Lemma length_num_projects list_dir : length (num_projects list_dir) = length list_dir.
Proof. unfold num_projects. by rewrite length_fmap, length_seq. Qed.

Lemma lookup_num_projects list_dir i num :
  num_projects list_dir !! i = Some num <-> i < length list_dir /\ num = pretty i.
Proof.
  unfold num_projects. rewrite list_lookup_fmap, fmap_Some. split.
  - intros (j & [-> ?]%lookup_seq & ->). done.
  - intros [? ->]. exists i. by rewrite lookup_seq.
Qed.

Lemma NoDup_num_projects list_dir : NoDup (num_projects list_dir).
Proof. apply NoDup_fmap_2; [apply _|apply NoDup_seq]. Qed.

Lemma length_sorted l : length (sorted l) = length l.
Proof. unfold sorted. by rewrite merge_sort_Permutation. Qed.

Lemma sorted_perm l : sorted l ≡ₚ l.
Proof. apply merge_sort_Permutation. Qed.

(** Sorting forgets the order of its argument. *)
#[global] Instance sorted_proper : Proper ((≡ₚ) ==> (=)) sorted.
Proof.
  intros l1 l2 H. apply (StronglySorted_unique String.le);
    [apply StronglySorted_merge_sort; apply _..|].
  by rewrite !sorted_perm.
Qed.

Lemma projects_lookup list_dir key project :
  projects list_dir !! key = Some project <->
  exists num : nat, key = pretty num /\ sorted list_dir !! num = Some project.
Proof.
  unfold projects, dict. rewrite dict_lookup.
  2:{ rewrite fst_zip; [apply NoDup_num_projects|].
      by rewrite length_num_projects, length_sorted. }
  rewrite lookup_empty, elem_of_lookup_zip_with. split.
  - intros [(i & k & p & [= -> ->] & [_ ->]%lookup_num_projects & Hp)|[_ [=]]]. eauto.
  - intros (num & -> & Hp). left. exists num, (pretty num), project.
    split; [done|]. split; [|done]. apply lookup_num_projects. split; [|done].
    apply lookup_lt_Some in Hp. by rewrite length_sorted in Hp.
Qed.

Lemma is_number_iff list_dir args :
  is_number list_dir args = true <-> name args ∈ num_projects list_dir.
Proof.
  unfold is_number. rewrite existsb_exists. setoid_rewrite bool_decide_eq_true.
  setoid_rewrite <-list_elem_of_In. naive_solver.
Qed.

(** A number of the menu is a key of [projects]. *)
Lemma is_number_project list_dir args :
  is_number list_dir args = true ->
  exists project, projects list_dir !! name args = Some project /\ project ∈ list_dir.
Proof.
  intros (i & [Hi ->]%lookup_num_projects)%is_number_iff%list_elem_of_lookup.
  destruct (lookup_lt_is_Some_2 (sorted list_dir) i) as [project Hp];
    [by rewrite length_sorted|].
  exists project. split; [apply projects_lookup; eauto|].
  rewrite <-(sorted_perm list_dir). by eapply list_elem_of_lookup_2.
Qed.

(** An accepted first argument other than [getList] stands for a project of
    the listing. *)
Lemma selected_listed list_dir args :
  name args ∈ choices list_dir -> name args <> "getList" ->
  selected list_dir args ∈ list_dir.
Proof.
  intros Hc Hg. unfold selected. destruct (is_number list_dir args) eqn:Hn.
  - by destruct (is_number_project _ _ Hn) as (project & -> & ?).
  - apply not_true_iff_false in Hn. rewrite is_number_iff in Hn.
    unfold choices in Hc. set_solver.
Qed.

(** ** Lemmas: the steps of [main] *)

Lemma listdir_val p e s :
  is_dir p s = true -> listdir p e s = (Val (entries p s), log (EvListdir p) s).
Proof.
  intros H. unfold listdir, bind, emit, modify, gets. cbn -[is_dir is_file entries].
  change (is_dir p (log (EvListdir p) s)) with (is_dir p s). by rewrite H.
Qed.

Lemma listdir_fails p e s :
  is_dir p s = false ->
  listdir p e s = (Exn (OSError (if is_file p s then 20 else 2)), log (EvListdir p) s).
Proof.
  intros H. unfold listdir, bind, emit, modify, gets. cbn -[is_dir is_file entries].
  change (is_dir p (log (EvListdir p) s)) with (is_dir p s). by rewrite H.
Qed.

(** Every entry of a listing exists in the listed folder. *)
Lemma entries_exist d n s : n ∈ entries d s -> path_exists (OsPath.join d n) s = true.
Proof.
  unfold entries. rewrite list_elem_of_omap. intros (q & Hq & Hn).
  case_decide as H; [|done]. destruct H as [_ H]. simplify_eq. rewrite H.
  apply elem_of_elements, elem_of_union in Hq as [Hq|Hq%elem_of_dom].
  - unfold path_exists, is_dir. by rewrite bool_decide_eq_true_2.
  - unfold path_exists, is_file. rewrite (bool_decide_eq_true_2 _ Hq). apply orb_true_r.
Qed.

Lemma menu_line_eq num project :
  menu_line num project = Some ("  " +:+ pretty num +:+ ") " +:+ project).
Proof.
  unfold menu_line. cbn -[pretty Str.digit].
  change (Str.digit "0") with (Some 0). change (Str.digit "1") with (Some 1).
  cbn -[pretty]. by rewrite Str.app_empty_r.
Qed.

Lemma logged_app evs1 evs2 s : logged (evs1 ++ evs2) s = logged evs2 (logged evs1 s).
Proof. apply foldl_app. Qed.

Lemma trace_logged evs s : trace (logged evs s) = trace s ++ evs.
Proof.
  revert s. induction evs as [|ev evs IH]; intros s; [by rewrite app_nil_r|].
  change (logged (ev :: evs) s) with (logged evs (log ev s)).
  rewrite IH. cbn. by rewrite <-app_assoc.
Qed.

Lemma menu_cons num project l :
  menu num (project :: l) =
    EvPrint (("  " +:+ pretty num +:+ ") " +:+ project) +:+ Str.nl) :: menu (S num) l.
Proof.
  unfold menu. cbn [imap]. rewrite Nat.add_0_r. f_equal.
  apply imap_ext. intros i x _. cbn. by rewrite Nat.add_succ_r.
Qed.

Lemma print_menu_val num l e s : print_menu num l e s = (Val tt, logged (menu num l) s).
Proof.
  revert num s. induction l as [|project l IH]; intros num s; [done|].
  cbn [print_menu]. rewrite menu_line_eq, menu_cons. unfold bind at 1.
  by rewrite print_val, IH.
Qed.

(** The launch of a job and the end of [main], in terms of [run]. *)
Lemma launch_exit cfg fuel_poll fuel_wait proc e s :
  (launch cfg fuel_poll fuel_wait proc ;; raise (SystemExit 0)) e s =
  after_run (Submit.run cfg fuel_poll fuel_wait e
               (advance e (log (EvSystem "clear") (with_self (fun _ => proc) s)))).
Proof.
  unfold launch, system, is_alive, bind, modify, emit, ret, raise.
  cbn -[Submit.run advance log with_self].
  by destruct (Submit.run _ _ _ _ _) as [[x|x|h] s'].
Qed.

Lemma dispatch_usage cfg fuel_poll fuel_wait list_dir argv e s :
  arg_name argv ∉ choices list_dir ->
  dispatch cfg fuel_poll fuel_wait list_dir argv e s = (Exn (SystemExit 2), s).
Proof. intros H. unfold dispatch, parse_args, bind. by rewrite decide_False. Qed.

Lemma dispatch_get_list cfg fuel_poll fuel_wait list_dir argv e s :
  arg_name argv = "getList" ->
  dispatch cfg fuel_poll fuel_wait list_dir argv e s =
    (Exn (SystemExit 0),
     logged (EvPrint ("Your projects are:" +:+ Str.nl) :: menu 0 (sorted list_dir)) s).
Proof.
  intros H. unfold dispatch, parse_args. rewrite decide_True by (rewrite H; set_solver).
  unfold bind at 1, ret at 1. rewrite decide_True by done.
  unfold get_list, bind. by rewrite print_val, print_menu_val.
Qed.

Lemma dispatch_launch cfg fuel_poll fuel_wait list_dir argv e s :
  arg_name argv ∈ choices list_dir -> arg_name argv <> "getList" ->
  dispatch cfg fuel_poll fuel_wait list_dir argv e s =
  after_run (Submit.run cfg fuel_poll fuel_wait e
               (advance e (log (EvSystem "clear")
                  (with_self (fun _ => job_of list_dir (parsed argv)) s)))).
Proof.
  intros Hc Hg. unfold dispatch, parse_args. rewrite decide_True by done.
  unfold bind at 1, ret at 1. rewrite decide_False by done.
  unfold job_of, selected. destruct (is_number list_dir (parsed argv)) eqn:Hn;
    [|apply launch_exit].
  destruct (is_number_project _ _ Hn) as (project & -> & _). apply launch_exit.
Qed.

(** [main] up to the listing of the source folder. *)
Lemma main_listed cfg fuel_poll fuel_wait argv e s :
  is_dir (SOURCES cfg) s = true ->
  main cfg fuel_poll fuel_wait argv e s =
    dispatch cfg fuel_poll fuel_wait (entries (SOURCES cfg) s) argv e
      (log (EvListdir (SOURCES cfg)) s).
Proof.
  intros H. unfold main. by rewrite (bind_val _ _ _ _ _ _
    (try_except_val _ _ _ _ _ _ (listdir_val _ e s H))).
Qed.

Lemma num_projects_perm l l' : l ≡ₚ l' -> num_projects l = num_projects l'.
Proof. intros H. unfold num_projects. by rewrite H. Qed.

Lemma projects_perm l l' : l ≡ₚ l' -> projects l = projects l'.
Proof. intros H. unfold projects. by rewrite (num_projects_perm _ _ H), H. Qed.

Lemma choices_perm l l' : l ≡ₚ l' -> choices l ≡ₚ choices l'.
Proof. intros H. unfold choices. by rewrite (num_projects_perm _ _ H), H. Qed.

(** [dispatch] forgets the order of the listing. *)
#[global] Instance dispatch_proper cfg fuel_poll fuel_wait :
  Proper ((≡ₚ) ==> (=) ==> (=) ==> (=) ==> (=)) (dispatch cfg fuel_poll fuel_wait).
Proof.
  intros l l' H argv ? <- e ? <- s ? <-. unfold dispatch, parse_args, get_list, is_number.
  rewrite (projects_perm _ _ H), (num_projects_perm _ _ H), (sorted_proper _ _ H).
  assert (arg_name argv ∈ choices l <-> arg_name argv ∈ choices l') as Hc
    by (by rewrite (choices_perm _ _ H)).
  by destruct (decide (arg_name argv ∈ choices l)), (decide (arg_name argv ∈ choices l')); try tauto.
Qed.

(** The folder of the project that [main] launches exists. *)
Lemma started_found cfg argv e s :
  arg_name argv ∈ choices (entries (SOURCES cfg) s) -> arg_name argv <> "getList" ->
  path_exists (Build.project_folder cfg (self (started cfg argv e s)))
    (started cfg argv e s) = true.
Proof.
  intros Hc Hg. unfold started. apply path_exists_advance_mono.
  apply (entries_exist (SOURCES cfg) _ s), selected_listed; done.
Qed.

(** [main] once the source folder is listed: it exits with status 0 or 2,
    or an exception of the job leaves it. *)
Lemma main_listed_outcome cfg fuel_poll fuel_wait argv e s :
  is_dir (SOURCES cfg) s = true ->
  match (main cfg fuel_poll fuel_wait argv e s).1 with
  | Val _ => False
  | Exn (SystemExit code) => code = 0%Z \/ code = 2%Z
  | Exn x => Raises.of_job x
  | Stop _ => True
  end.
Proof.
  intros Hd. rewrite main_listed by done.
  destruct (decide (arg_name argv ∈ choices (entries (SOURCES cfg) s))) as [Hc|Hc];
    [|rewrite dispatch_usage by done; cbn; eauto].
  destruct (decide (arg_name argv = "getList")) as [Hg|Hg];
    [rewrite dispatch_get_list by done; cbn; eauto|].
  rewrite dispatch_launch by done.
  pose proof (fun x s' => Raises.raises_run_found cfg fuel_poll fuel_wait e _ x s'
    (started_found cfg argv e s Hc Hg)) as Hx. fold (started cfg argv e s).
  destruct (Submit.run _ _ _ _ _) as [[v|x|h] s']; cbn; [eauto|..|done].
  specialize (Hx x s' eq_refl). destruct x; try done.
  unfold Raises.of_job, Raises.of_collection in Hx. naive_solver.
Qed.

(** ** Properties of the command line *)

(** Without a source folder there is nothing to launch: when the
    configured folder cannot be listed, [main] prints the hint about
    [sub.cfg] and exits with status -1; it makes no object and launches
    nothing. *)
Theorem main_unlistable cfg fuel_poll fuel_wait argv e s :
  is_dir (SOURCES cfg) s = false ->
  main cfg fuel_poll fuel_wait argv e s =
    (Exn (SystemExit (-1)),
     logged [EvListdir (SOURCES cfg);
             EvPrint ("Error: you have to configure the source folder inside sub.cfg"
                      +:+ Str.nl)] s).
Proof.
  intros H. unfold main.
  by rewrite (bind_exn _ _ _ _ (SystemExit (-1)) _
    (try_except_caught _ _ _ _ _ _ _ (listdir_fails _ e s H) eq_refl)).
Qed.

Lemma main_unlistable_witness :
  main Submit.demo_cfg 10 10 (CommandLine "demo" [] None None) Submit.quiet_env Submit.demo_state =
    (Exn (SystemExit (-1)),
     logged [EvListdir (SOURCES Submit.demo_cfg);
             EvPrint ("Error: you have to configure the source folder inside sub.cfg"
                      +:+ Str.nl)] Submit.demo_state).
Proof. by apply main_unlistable. Defined.

(** A first argument that is neither a project of the listing, nor
    [getList], nor a number of the menu is refused: [main] exits with status 2
    once the folder is listed, and nothing else happens. *)
Theorem main_usage cfg fuel_poll fuel_wait argv e s :
  is_dir (SOURCES cfg) s = true ->
  arg_name argv ∉ choices (entries (SOURCES cfg) s) ->
  main cfg fuel_poll fuel_wait argv e s =
    (Exn (SystemExit 2), log (EvListdir (SOURCES cfg)) s).
Proof. intros Hd Hc. rewrite main_listed by done. by apply dispatch_usage. Qed.

Lemma main_usage_witness :
  main Submit.demo_cfg 10 10 (CommandLine "2" [] None None) Submit.quiet_env shell_state =
    (Exn (SystemExit 2), log (EvListdir (SOURCES Submit.demo_cfg)) shell_state).
Proof. apply main_usage; [done|]. by_compute. Defined.

(** The menu: [getList] prints the header and one line for each entry
    of the source folder, in sorted order and numbered from 0, then exits
    with status 0; no object is made and nothing is launched. *)
Theorem main_get_list cfg fuel_poll fuel_wait argv e s :
  is_dir (SOURCES cfg) s = true ->
  arg_name argv = "getList" ->
  main cfg fuel_poll fuel_wait argv e s =
    (Exn (SystemExit 0),
     logged ([EvListdir (SOURCES cfg); EvPrint ("Your projects are:" +:+ Str.nl)] ++
             menu 0 (sorted (entries (SOURCES cfg) s))) s).
Proof. intros Hd Hn. rewrite main_listed by done. by apply dispatch_get_list. Qed.

Lemma main_get_list_witness :
  main Submit.demo_cfg 10 10 (CommandLine "getList" [] None None) Submit.quiet_env shell_state =
    (Exn (SystemExit 0),
     logged ([EvListdir (SOURCES Submit.demo_cfg);
              EvPrint ("Your projects are:" +:+ Str.nl)] ++
             menu 0 (sorted (entries (SOURCES Submit.demo_cfg) shell_state))) shell_state).
Proof. by apply main_get_list. Defined.

(** C12. A launch: for an accepted first argument other than [getList],
    [main] makes the [Submit] object of the project the argument stands for,
    clears the screen and executes [run] in its own process; whatever [run]
    returns, a failure included, the program then exits with status 0. *)
Theorem main_launch cfg fuel_poll fuel_wait argv e s :
  is_dir (SOURCES cfg) s = true ->
  arg_name argv ∈ choices (entries (SOURCES cfg) s) ->
  arg_name argv <> "getList" ->
  main cfg fuel_poll fuel_wait argv e s =
    after_run (Submit.run cfg fuel_poll fuel_wait e (started cfg argv e s)).
Proof. intros Hd Hc Hg. rewrite main_listed by done. by apply dispatch_launch. Qed.

Lemma main_launch_witness :
  main Submit.demo_cfg 10 10 (CommandLine "0" ["a"; "b"] (Some 2%Z) (Some 4%Z)) Submit.broken_env shell_state =
    after_run (Submit.run Submit.demo_cfg 10 10 Submit.broken_env
                 (started Submit.demo_cfg (CommandLine "0" ["a"; "b"] (Some 2%Z) (Some 4%Z)) Submit.broken_env
                    shell_state)).
Proof. apply main_launch; [done|by_compute|done]. Defined.

(** C10. The outcomes of [main]: it never returns; it exits with status 0,
    -1 or 2; and any other exception is one that leaves [run] for a project
    whose folder exists: neither the dictionary of the menu ([KeyError]) nor
    the unbound [process_id] of a missing project can fail, since what the
    arguments are checked against is what the folder lists. *)
Theorem main_outcome cfg fuel_poll fuel_wait argv e s :
  match (main cfg fuel_poll fuel_wait argv e s).1 with
  | Val _ => False
  | Exn (SystemExit code) => code = 0%Z \/ code = (-1)%Z \/ code = 2%Z
  | Exn x => Raises.of_job x
  | Stop _ => True
  end.
Proof.
  destruct (is_dir (SOURCES cfg) s) eqn:Hd.
  - pose proof (main_listed_outcome cfg fuel_poll fuel_wait argv e s Hd) as Hm.
    destruct (main _ _ _ _ _ _).1 as [v|x|h]; [done| |done]. destruct x; naive_solver.
  - rewrite (main_unlistable _ _ _ _ _ _ Hd). cbn. eauto.
Qed.

(** The numbers of the menu work: the number printed before a project by
    [getList] is a key of the dictionary, and the project it selects is the
    one of that line. *)
Theorem menu_number_selects list_dir num project :
  sorted list_dir !! num = Some project ->
  menu 0 (sorted list_dir) !! num =
    Some (EvPrint (("  " +:+ pretty num +:+ ") " +:+ project) +:+ Str.nl)) /\
  projects list_dir !! pretty num = Some project /\
  selected list_dir (Namespace (pretty num) [] 4 1) = project.
Proof.
  intros H. assert (projects list_dir !! pretty num = Some project) as Hp.
  { apply projects_lookup. eauto. }
  split; [unfold menu; by rewrite list_lookup_imap, H|]. split; [done|].
  unfold selected. cbn [name]. rewrite Hp. cbn. case_match eqn:Hn; [done|].
  apply not_true_iff_false in Hn. destruct Hn. apply is_number_iff, list_elem_of_lookup.
  exists num. apply lookup_num_projects. split; [|done].
  apply lookup_lt_Some in H. by rewrite length_sorted in H.
Qed.

Lemma menu_number_selects_witness :
  menu 0 (sorted ["heat"; "demo"]) !! 1 =
    Some (EvPrint (("  " +:+ pretty 1 +:+ ") " +:+ "heat") +:+ Str.nl)) /\
  projects ["heat"; "demo"] !! pretty 1 = Some "heat" /\
  selected ["heat"; "demo"] (Namespace (pretty 1) [] 4 1) = "heat".
Proof. by apply (menu_number_selects ["heat"; "demo"] 1 "heat"). Defined.

(** C40. The order in which the system lists the folder does not matter: two
    listings with the same entries give the same menu, the same accepted
    arguments and the same launch. *)
Theorem dispatch_permutation cfg fuel_poll fuel_wait list_dir list_dir' argv e s :
  list_dir ≡ₚ list_dir' ->
  dispatch cfg fuel_poll fuel_wait list_dir argv e s =
  dispatch cfg fuel_poll fuel_wait list_dir' argv e s.
Proof. intros H. by rewrite H. Qed.

Lemma dispatch_permutation_witness :
  dispatch Submit.demo_cfg 10 10 ["heat"; "demo"] (CommandLine "1" [] None None)
    Submit.quiet_env shell_state =
  dispatch Submit.demo_cfg 10 10 ["demo"; "heat"] (CommandLine "1" [] None None)
    Submit.quiet_env shell_state.
Proof. apply dispatch_permutation. apply Permutation_swap. Defined.

(** A number of the menu wins over a name: with the folders [1] and
    [demo], the argument [1] is the second line of the menu, and [main]
    launches [demo]; the project named [1] cannot be launched by its name. *)
Example main_number_shadows_name :
  entries "/home/u/src" numbered_state ≡ₚ ["1"; "demo"] /\
  selected (entries "/home/u/src" numbered_state) (Namespace "1" [] 4 1) = "demo".
Proof. split; [by vm_compute|by vm_compute]. Qed.

End Main.
