(* ===== verification/Program.v ===== *)
(** * Program: [sub.py] from the moment it is loaded

    The four statements at the top of [sub.py] (lines 13-16) run before
    [main]: they compute [BIN_DIR] from [$HOME], read [sub.cfg] in that
    folder and take the option [source_dir] of its section [sub].  Each of
    them can raise, and nothing catches what they raise: the script ends
    with a traceback before [main] is called.  [program] is the script as
    the shell starts it: the load, and [main] with the configuration that
    was loaded.

    [ConfigParser] is library code.  Its parser is a parameter ([parse], the
    sections of a text with their options, those of [DEFAULT] included), and
    so is the interpolation that [get] applies to a value; what is modelled
    is what the script does with them: [read] skips a file that cannot be
    opened, and [get] raises for a section or an option that is not there. *)

From Stdlib Require Import Ascii String ZArith Lia.
From stdpp Require Import base tactics option list strings gmap.
From S2P Require Import Prelude PyString PyPath Job World Submit Raises Main.
Import Job World.

Module Program.

(** What the load raises. *)
Inductive config_error : Type :=
  | AttributeError
  | ParsingError
  | NoSectionError
  | NoOptionError
  | InterpolationError.

(** The sections of a configuration, each with its options. *)
Definition ini : Type := gmap string (gmap string string).

(** How the process ends, and the status the shell sees: a traceback gives
    status 1, [sys.exit(n)] the low byte of [n]. *)
Inductive ending : Type :=
  | Traceback
  | Exit (code : Z)
  | Returned
  | Unfinished.

Definition exit_status (x : ending) : option Z :=
  match x with
  | Traceback => Some 1%Z
  | Exit code => Some (code mod 256)%Z
  | Returned => Some 0%Z
  | Unfinished => None
  end.

Section Library.
(** [ConfigParser._read] on the text of a file, [None] for a text it
    rejects; and the interpolation of a value within its section. *)
Context (parse : string -> option ini).
Context (interpolate : gmap string string -> string -> option string).

(** [BIN_DIR = os.path.join(os.getenv("HOME"), 'bin')]: without [$HOME] the
    first argument is [None], and [join] fails on it. *)
Definition BIN_DIR (home : option string) : config_error + string :=
  match home with
  | Some h => inr (OsPath.join h "bin")
  | None => inl AttributeError
  end.

(** [CONFIG.read(path)] on a new parser: a file that cannot be opened is
    skipped and leaves the parser empty. *)
Definition read (fs : gmap string string) (path : string) : config_error + ini :=
  match fs !! path with
  | None => inr ∅
  | Some text =>
      match parse text with
      | Some c => inr c
      | None => inl ParsingError
      end
  end.

(** [CONFIG.get(section, option)] *)
Definition get (c : ini) (section option : string) : config_error + string :=
  match c !! section with
  | None => inl NoSectionError
  | Some options =>
      match options !! option with
      | None => inl NoOptionError
      | Some v =>
          match interpolate options v with
          | Some v' => inr v'
          | None => inl InterpolationError
          end
      end
  end.

(** Lines 13-16: what [BIN_DIR] and [SOURCES] are computed from. *)
Definition load (home : option string) (fs : gmap string string) : config_error + config :=
  match home with
  | None => inl AttributeError
  | Some h =>
      match BIN_DIR home with
      | inl x => inl x
      | inr bin =>
          match read fs (OsPath.join bin "sub.cfg") with
          | inl x => inl x
          | inr c =>
              match get c "sub" "source_dir" with
              | inl x => inl x
              | inr source_dir => inr (Config h source_dir)
              end
          end
      end
  end.

(** The script: the load, then [main()] under [if __name__ == '__main__']. *)
Definition program (home : option string) (fuel_poll fuel_wait : nat)
    (argv : Main.command_line) (e : env) (s : state) : config_error + res unit * state :=
  match load home (files s) with
  | inl x => inl x
  | inr cfg => inr (Main.main cfg fuel_poll fuel_wait argv e s)
  end.

(** How a run of the script ends. *)
Definition ending_of (r : config_error + res unit * state) : ending :=
  match r with
  | inl _ => Traceback
  | inr (Val _, _) => Returned
  | inr (Exn (SystemExit code), _) => Exit code
  | inr (Exn _, _) => Traceback
  | inr (Stop _, _) => Unfinished
  end.

(** What the script has printed and done. *)
Definition trace_of (s : state) (r : config_error + res unit * state) : list event :=
  match r with
  | inl _ => trace s
  | inr (_, s') => trace s'
  end.

(** ** The load *)

(** The path of the configuration file. *)
Definition config_path (h : string) : string := OsPath.join (OsPath.join h "bin") "sub.cfg".

#[global] Instance config_error_eq_dec : EqDecision config_error.
Proof. solve_decision. Defined.

(** The load, case by case. *)
Lemma load_cases (home : option string) (fs : gmap string string) :
  load home fs =
    match home with
    | None => inl AttributeError
    | Some h =>
        match fs !! config_path h with
        | None => inl NoSectionError
        | Some text =>
            match parse text with
            | None => inl ParsingError
            | Some c =>
                match c !! "sub" with
                | None => inl NoSectionError
                | Some options =>
                    match options !! "source_dir" with
                    | None => inl NoOptionError
                    | Some v =>
                        match interpolate options v with
                        | None => inl InterpolationError
                        | Some v' => inr (Config h v')
                        end
                    end
                end
            end
        end
    end.
Proof.
  destruct home as [h|]; [|done]. unfold load, BIN_DIR, read, get, config_path.
  destruct (fs !! _) as [text|]; [|done].
  destruct (parse text) as [c|]; [|done].
  destruct (c !! "sub") as [options|]; [|done].
  destruct (options !! "source_dir") as [v|]; [|done].
  by destruct (interpolate options v).
Qed.

(** The paths [main] and [run] use are those of the load. *)
Lemma load_paths (h : string) (fs : gmap string string) (cfg : config) :
  load (Some h) fs = inr cfg ->
  Job.BIN_DIR cfg = OsPath.join h "bin" /\ is_Some (fs !! config_path h).
Proof.
  rewrite load_cases. destruct (fs !! config_path h) as [text|]; [|done].
  intros Hl. split; [|by eexists]. by repeat (case_match; simplify_eq/=).
Qed.

(** The load on every branch.  It gives a configuration exactly when
    [$HOME] is set, [sub.cfg] is a file of [$HOME/bin] that parses, its
    section [sub] has the option [source_dir], and the value of the option
    interpolates: [SOURCES] is then that value.  A file that is not there
    is not an error of [read]: the parser stays empty and [get] raises
    [NoSectionError]. *)
Theorem load_outcome (home : option string) (fs : gmap string string) (cfg : config) :
  load home fs = inr cfg <->
  exists h text c options v,
    home = Some h /\ fs !! config_path h = Some text /\ parse text = Some c /\
    c !! "sub" = Some options /\ options !! "source_dir" = Some v /\
    interpolate options v = Some (Job.SOURCES cfg) /\ Job.home cfg = h.
Proof.
  rewrite load_cases. split.
  - intros Hl. repeat (case_match; simplify_eq/=). by eexists _, _, _, _, _.
  - intros (h & text & c & options & v & -> & -> & -> & -> & -> & Hv & <-).
    unfold Job.SOURCES in Hv. rewrite Hv. by destruct cfg.
Qed.

(** ** The script *)

(** Without [sub.cfg] the script ends in the load. *)
Lemma program_unconfigured (h : string) (fuel_poll fuel_wait : nat)
    (argv : Main.command_line) (e : env) (s : state) :
  files s !! config_path h = None ->
  program (Some h) fuel_poll fuel_wait argv e s = inl NoSectionError.
Proof. intros Hf. unfold program. by rewrite load_cases, Hf. Qed.

(** C29. When the script exits with status -1 (255 for the shell): exactly
    when the configuration is loaded and the folder it names cannot be
    listed; the script has then printed the hint about [sub.cfg] and
    nothing else.  A script that is not configured at all ([$HOME] unset, no
    [sub.cfg], no section or option) never gets that far: it ends with the
    traceback of the load, status 1, whatever the command line is. *)
Theorem program_hint_iff (home : option string) (fuel_poll fuel_wait : nat)
    (argv : Main.command_line) (e : env) (s : state) :
  let r := program home fuel_poll fuel_wait argv e s in
  (ending_of r = Exit (-1) <->
   exists cfg, load home (files s) = inr cfg /\ is_dir (Job.SOURCES cfg) s = false) /\
  (ending_of r = Exit (-1) ->
   exists cfg, load home (files s) = inr cfg /\
     trace_of s r = trace (Main.logged
       [EvListdir (Job.SOURCES cfg);
        EvPrint ("Error: you have to configure the source folder inside sub.cfg"
                 +:+ Str.nl)] s)) /\
  (forall x, load home (files s) = inl x -> ending_of r = Traceback /\ trace_of s r = trace s).
Proof.
  cbn zeta. unfold program. destruct (load home (files s)) as [x|cfg]; cbn [ending_of trace_of].
  { split_and!; [|done|done]. split; [done|]. by intros (? & ? & _). }
  destruct (is_dir (Job.SOURCES cfg) s) eqn:Hd.
  - pose proof (Main.main_listed_outcome cfg fuel_poll fuel_wait argv e s Hd) as Hm.
    destruct (Main.main _ _ _ _ _ _) as [[v|y|k] s']; cbn [fst] in Hm; [done| |].
    + assert (y <> SystemExit (-1)) as Hy by (destruct y; naive_solver lia).
      split_and!; [|by destruct y; naive_solver|done].
      split; [by destruct y; naive_solver|]. intros (? & [= <-] & ?). congruence.
    + split_and!; [|done..]. split; [done|]. intros (? & [= <-] & ?). congruence.
  - rewrite (Main.main_unlistable _ _ _ _ _ _ Hd). split_and!; [|by eauto|done].
    split; [by eauto|done].
Qed.

End Library.

End Program.
