(* ===== verification/Refinement.v ===== *)
(** * Refinement: a run follows the lifecycle

    Each part of [Submit.run] is shown to walk its share of the machine of
    [Lifecycle]: from the node at which it starts, the actions it performs
    are a path, and the node reached fits the way the part ended
    ([Lifecycle.reaches]).  The parts compose as [run] composes them, which
    gives the refinement theorem for the whole method, and the shape of the
    walks that end in each terminal node gives what a run has done when it
    returns. *)

From Stdlib Require Import Ascii String ZArith Lia.
From stdpp Require Import base tactics option list strings gmap.
From S2P Require Import Prelude PyString PyPath Job World Pretty Gateway Poll Build.
From S2P Require Import Collector Lifecycle Submit.
Import Job World Lifecycle.
#[local] Open Scope py_scope.

Module Refinement.

(** Walks a concrete list of actions through the machine. *)
Ltac walk :=
  unfold reaches; eexists; (split; [|try done]);
  eauto 20 using path, step.

(** Stops a walk of the watch at the node [n]. *)
Ltac stop_at n :=
  by (exists n; split; [first [apply path_watch|apply path_cancel]; eauto|]).

(** The collection for the files of the job [o], in a run of any job. *)
Lemma move_and_show_follows cfg o o1 fuel process_id :
  emits o1
    (Collector.move_and_show fuel (f_stdout o process_id) (f_stderr o process_id))
    (reaches cfg o (AtExit process_id) unit_ends).
Proof.
  unfold Collector.move_and_show. emits_auto.
  unfold Collector.wait_lang, Collector.show_lang in *. lang_cases.
  all: rewrite <-?app_assoc; cbn [app]; rewrite ?Collector.probes_round.
  all: unfold reaches; eexists;
    (split; [eauto 20 using path, step, path_probes, path_probes_then|done]).
Qed.

Section follows.
Context (cfg : config) (o : Submit).

Lemma follows_and_then {A B : Type} (m : M (flow A)) (k : A -> M (flow B))
    (n : node) (next1 : A -> node) (next2 : B -> node) :
  emits o m (reaches cfg o n (flow_ends next1)) ->
  (forall a, emits o (k a) (reaches cfg o (next1 a) (flow_ends next2))) ->
  emits o (and_then m k) (reaches cfg o n (flow_ends next2)).
Proof.
  intros Hm Hk. eapply emits_weaken; [exact (emits_and_then o m k _ _ Hm Hk)|].
  cbn. intros r w H.
  destruct H as [(x & -> & H)|[(a & w1 & w2 & H1 & H2 & ->)|[(x & -> & H)|(h & -> & H)]]];
    [done|by eapply reaches_app|done..].
Qed.

Lemma compile_follows :
  emits o (Build.compile cfg) (reaches cfg o AtCompile (flow_ends (fun _ => AtTemplate))).
Proof.
  eapply emits_weaken; [apply Build.emits_compile|]. unfold Build.compile_lang.
  intros r w H. lang_cases; walk.
Qed.

Lemma make_submit_follows :
  emits o (Build.make_submit cfg) (reaches cfg o AtTemplate (flow_ends (fun _ => AtSubmit))).
Proof.
  eapply emits_weaken; [apply Build.emits_make_submit|]. unfold Build.make_submit_lang.
  intros r w H. lang_cases; walk.
Qed.

Lemma submit_job_follows :
  emits o Build.submit_job (reaches cfg o AtSubmit (flow_ends AtWatch)).
Proof.
  eapply emits_weaken; [apply Build.emits_submit_job|]. unfold one, Build.submit_ends.
  intros r w H. lang_cases; walk.
Qed.

Lemma watch_or_cancel_follows fuel process_id :
  emits o (Poll.watch_or_cancel fuel process_id)
    (reaches cfg o (AtWatch process_id) (flow_ends (fun _ => AtExit process_id))).
Proof.
  eapply emits_weaken; [apply Poll.emits_watch_or_cancel|].
  unfold Poll.watch_or_cancel_lang, Poll.watch_ends, Poll.cancel_ends.
  intros r w H. lang_cases; unfold reaches;
    first [ stop_at (Final QueryFailure) | stop_at (AtExit process_id)
          | stop_at (AtPoll process_id) | stop_at (Final CancelFailure)
          | stop_at (Final UserAbort) ].
Qed.

Lemma submit_and_watch_follows fuel :
  emits o (Submit.submit_and_watch cfg fuel)
    (reaches cfg o AtCompile (flow_ends (from_option AtExit AtCompile))).
Proof.
  unfold Submit.submit_and_watch.
  repeat (eapply follows_and_then;
    [first [apply compile_follows|apply make_submit_follows|apply submit_job_follows
           |apply watch_or_cancel_follows]|intros ?]).
  eapply emits_weaken; [apply emits_ret|]. intros r w [-> ->]. walk.
Qed.

Lemma collect_follows fuel process_id :
  emits o (Collector.collect fuel (Some process_id))
    (reaches cfg o (AtExit process_id) unit_ends).
Proof.
  unfold Collector.collect. eapply emits_weaken.
  { eapply emits_bind; [emits_build|intros o'].
    eapply emits_bind; [emits_build|intros ?].
    eapply emits_bind; [emits_build|intros ?]. apply (move_and_show_follows cfg o'). }
  unfold seq_lang, silent. intros r w H. lang_cases;
    (eapply reaches_same_job; [symmetry; eassumption|done]).
Qed.

Lemma collect_any_follows fuel process_id :
  emits o (Collector.collect fuel process_id) (collect_spec cfg o process_id).
Proof.
  destruct process_id as [p|]; [apply collect_follows|].
  unfold Collector.collect. emits_auto. lang_solve.
Qed.

Lemma reaches_validate {R : Type} (fits : R -> node -> Prop) r w :
  reaches cfg o AtCompile fits r w ->
  reaches cfg o AtValidate fits r (EvStat (Build.project_folder cfg o) :: w).
Proof. intros (n & ? & ?). exists n. eauto using path, step. Qed.

(** What [run] does after the validation of the project. *)
Lemma run_rest_follows fuel_poll fuel_wait (found : bool) :
  emits o
    (f <- (if negb found
           then print (Colors.FAIL +:+ "!!! Error: project not exist" +:+ Colors.ENDC) Str.nl ;;
                ret (Continue None)
           else Submit.submit_and_watch cfg fuel_poll) ;;
     match f with
     | Return x => ret x
     | Continue process_id => Collector.collect fuel_wait process_id ;; ret Done
     end)
    (reaches cfg o AtCompile ends).
Proof.
  eapply emits_weaken.
  { eapply emits_bind.
    - eapply emits_if; [emits_build|apply submit_and_watch_follows].
    - intros f. eapply emits_flow; [intros x; apply emits_ret|intros p].
      eapply emits_bind; [apply collect_any_follows|intros ?; apply emits_ret]. }
  unfold seq_lang, silent, collect_spec. intros r w H. lang_cases.
  all: repeat match goal with
       | p : option string |- _ => destruct p
       | h : halt |- _ => destruct h
       | H : reaches _ _ _ _ _ _ |- _ => destruct H as (? & ? & ?)
       end; lang_cases; rewrite ?app_nil_r.
  all: by (eexists; split; [eauto using path, path_app|]).
Qed.

(** The whole method. *)
Lemma run_follows fuel_poll fuel_wait :
  emits o (Submit.run cfg fuel_poll fuel_wait) (run_spec cfg o).
Proof.
  unfold Submit.run. eapply emits_weaken.
  { eapply emits_bind; [emits_build|intros ?].
    eapply emits_bind; [apply emits_gets_self|intros o'].
    eapply emits_bind; [apply emits_exists_|intros found]. apply run_rest_follows. }
  unfold seq_lang, silent, one, run_spec. intros r w H. lang_cases;
    match goal with H : same_job _ _ |- _ => rewrite <-H end.
  - by apply reaches_validate.
  - exists AtCompile. split; [eauto using path, step|done].
Qed.

End follows.

(** ** Properties of a run *)

(** The actions of a run that returned are those of a walk to the terminal
    node of its [return]. *)
Lemma run_returned cfg fuel_poll fuel_wait e s x s' :
  Submit.run cfg fuel_poll fuel_wait e s = (Val x, s') ->
  final_shape cfg (self s) x (acts s s').
Proof.
  intros H.
  destruct (run_follows cfg (self s) fuel_poll fuel_wait e s (Val x) s')
    as [_ (n & Hp & ->)]; [done..|].
  by apply path_final_shape.
Qed.

(** C1. [Submit.run] implements the lifecycle: whatever the cluster answers,
    whenever the user interrupts and whatever the file system holds, the
    commands launched and the file-system calls made by a run, in their
    order, are a walk of the machine from the validation of the project, and
    the walk stops at the terminal node of the [return] that ended the run,
    or at a polling or waiting node when a loop was still running. *)
Theorem run_follows_lifecycle cfg fuel_poll fuel_wait e s :
  run_spec cfg (self s) (Submit.run cfg fuel_poll fuel_wait e s).1
    (acts s (Submit.run cfg fuel_poll fuel_wait e s).2).
Proof.
  destruct (Submit.run cfg fuel_poll fuel_wait e s) as [r s'] eqn:H.
  by destruct (run_follows cfg (self s) fuel_poll fuel_wait e s r s').
Qed.

(** C2. A run that ends with the job cancelled (it returns after the
    [KeyboardInterrupt] handler, whether [qdel] succeeded or not) has
    compiled, written the script, submitted, queried the queue at least once
    and then launched exactly one [qdel], for a job identifier cut at its
    first dot; it has made no attempt to collect output. *)
Theorem run_cancel_once cfg fuel_poll fuel_wait e s x s' :
  Submit.run cfg fuel_poll fuel_wait e s = (Val x, s') ->
  x = UserAbort \/ x = CancelFailure ->
  exists c process_id k,
    Build.compile_command cfg (self s) = Some c /\
    acts s s' = submitted cfg (self s) c ++ Poll.queries (S k) ++
                [EvCall ("qdel " +:+ Gateway.job_prefix process_id)].
Proof.
  intros (c & Hc & H)%run_returned [->| ->]; destruct H as (p & k & ->); eauto.
Qed.

Lemma run_cancel_once_witness :
  exists c process_id k,
    Build.compile_command Submit.demo_cfg (self Submit.demo_state) = Some c /\
    acts Submit.demo_state
      (Submit.run Submit.demo_cfg 10 10 Submit.interrupted_env Submit.demo_state).2 =
    submitted Submit.demo_cfg (self Submit.demo_state) c ++ Poll.queries (S k) ++
      [EvCall ("qdel " +:+ Gateway.job_prefix process_id)].
Proof.
  apply (run_cancel_once Submit.demo_cfg 10 10 Submit.interrupted_env Submit.demo_state
           UserAbort); [by vm_compute|by left].
Defined.

(** C17. A failed build ends the run before any scheduler command: a run
    that returns [BuildFailure] has looked for the project folder and
    launched the compiler, and nothing else. *)
Theorem run_build_failure cfg fuel_poll fuel_wait e s s' :
  Submit.run cfg fuel_poll fuel_wait e s = (Val BuildFailure, s') ->
  exists c,
    Build.compile_command cfg (self s) = Some c /\
    acts s s' = [EvStat (Build.project_folder cfg (self s)); EvCall c].
Proof. by intros H%run_returned. Qed.

Lemma run_build_failure_witness :
  exists c,
    Build.compile_command Submit.demo_cfg (self Submit.demo_state) = Some c /\
    acts Submit.demo_state
      (Submit.run Submit.demo_cfg 10 10 Submit.broken_env Submit.demo_state).2 =
    [EvStat (Build.project_folder Submit.demo_cfg (self Submit.demo_state)); EvCall c].
Proof.
  apply (run_build_failure Submit.demo_cfg 10 10 Submit.broken_env Submit.demo_state).
  by vm_compute.
Defined.

(** C18. A failed submission ends the run before any query: a run that
    returns [SubmitFailure] has launched the compiler and [qsub] and no
    [qstat]. *)
Theorem run_submit_failure cfg fuel_poll fuel_wait e s s' :
  Submit.run cfg fuel_poll fuel_wait e s = (Val SubmitFailure, s') ->
  exists c,
    Build.compile_command cfg (self s) = Some c /\
    acts s s' = submitted cfg (self s) c.
Proof. by intros H%run_returned. Qed.

Lemma run_submit_failure_witness :
  exists c,
    Build.compile_command Submit.demo_cfg (self Submit.demo_state) = Some c /\
    acts Submit.demo_state
      (Submit.run Submit.demo_cfg 10 10 Submit.refused_env Submit.demo_state).2 =
    submitted Submit.demo_cfg (self Submit.demo_state) c.
Proof.
  apply (run_submit_failure Submit.demo_cfg 10 10 Submit.refused_env Submit.demo_state).
  by vm_compute.
Defined.

(** C16. A run that reaches its last line has gone through every phase in
    order: build and submission, at least one query, the [log] directory,
    looks for the two output files and nothing else while it waits, then the
    two moves and the two reads. *)
Theorem run_done_collects cfg fuel_poll fuel_wait e s s' :
  Submit.run cfg fuel_poll fuel_wait e s = (Val Done, s') ->
  exists c process_id k w,
    Build.compile_command cfg (self s) = Some c /\
    acts s s' = submitted cfg (self s) c ++ Poll.queries (S k) ++ w /\
    collected (self s) process_id w.
Proof. intros (c & Hc & p & k & w & -> & Hw)%run_returned. eauto 10. Qed.

Lemma run_done_collects_witness :
  exists c process_id k w,
    Build.compile_command Submit.demo_cfg (self Submit.demo_state) = Some c /\
    acts Submit.demo_state
      (Submit.run Submit.demo_cfg 10 10 Submit.quiet_env Submit.demo_state).2 =
    submitted Submit.demo_cfg (self Submit.demo_state) c ++ Poll.queries (S k) ++ w /\
    collected (self Submit.demo_state) process_id w.
Proof.
  apply (run_done_collects Submit.demo_cfg 10 10 Submit.quiet_env Submit.demo_state).
  by vm_compute.
Defined.

(** C14. The phase of a run only moves forward: cut the actions of a run at
    any point; the walk of the machine passes a node there, and the phase of
    that node is not later in the phase graph than the phase the run ends in.
    No action of a run belongs to a phase the run had already left. *)
Theorem run_phase_forward cfg fuel_poll fuel_wait e s w1 w2 :
  acts s (Submit.run cfg fuel_poll fuel_wait e s).2 = w1 ++ w2 ->
  exists n1 n2,
    path cfg (self s) AtValidate w1 n1 /\ path cfg (self s) n1 w2 n2 /\
    ends (Submit.run cfg fuel_poll fuel_wait e s).1 n2 /\
    phase_rank (phase_of n1) <= phase_rank (phase_of n2).
Proof.
  intros Hw. destruct (Submit.run cfg fuel_poll fuel_wait e s) as [r s'] eqn:H.
  destruct (run_follows cfg (self s) fuel_poll fuel_wait e s r s') as [_ (n2 & Hp & He)];
    [done..|].
  cbn in Hw. rewrite Hw in Hp. apply path_app_inv in Hp as (n1 & H1 & H2).
  exists n1, n2. eauto using path_rank.
Qed.

Lemma run_phase_forward_witness :
  exists n1 n2,
    path Submit.demo_cfg (self Submit.demo_state) AtValidate
      (take 5 (acts Submit.demo_state
                 (Submit.run Submit.demo_cfg 10 10 Submit.quiet_env Submit.demo_state).2)) n1 /\
    path Submit.demo_cfg (self Submit.demo_state) n1
      (drop 5 (acts Submit.demo_state
                 (Submit.run Submit.demo_cfg 10 10 Submit.quiet_env Submit.demo_state).2)) n2 /\
    ends (Submit.run Submit.demo_cfg 10 10 Submit.quiet_env Submit.demo_state).1 n2 /\
    phase_rank (phase_of n1) <= phase_rank (phase_of n2).
Proof. apply run_phase_forward. by rewrite take_drop. Defined.

End Refinement.
