(* ===== verification/Launcher.v ===== *)
(** * Launcher: [sub.py] end to end

    The parts of the launcher composed as the script composes them: the
    load of the configuration ([Program]), the command line ([Main]) and the
    method [run] ([Submit]), against the lifecycle of the specification
    ([Lifecycle]).  The theorem of this file is the contract of the whole
    script for a command line that names a project. *)

From Stdlib Require Import Ascii String ZArith Lia.
From stdpp Require Import base tactics option list strings gmap.
From S2P Require Import Prelude PyString PyPath Job World Build Lifecycle Submit Raises Main.
From S2P Require Import Program Refinement.
Import Job World Lifecycle.

Module Launcher.

(** ** A configured account for the examples *)

(** The one configuration file of the examples: section [sub] with the
    option [source_dir]. *)
Definition demo_ini : Program.ini :=
  {[ "sub" := {[ "source_dir" := "/home/u/src" ]} ]}.

(** A parser that knows that file, and values without interpolation. *)
Definition demo_parse (text : string) : option Program.ini :=
  if decide (text = "[sub]") then Some demo_ini else None.

Definition demo_interpolate (options : gmap string string) (v : string) : option string :=
  Some v.

(** The account of [Main.shell_state] with its [sub.cfg]. *)
Definition configured_state : state :=
  with_files (fun fs => <["/home/u/bin/sub.cfg" := "[sub]"]> fs) Main.shell_state.

Section Composition.
Context (parse : string -> option Program.ini).
Context (interpolate : gmap string string -> string -> option string).

(** The script for a command line that names a project: the run that
    [main] starts. *)
Lemma program_launch home fuel_poll fuel_wait argv e s cfg :
  Program.load parse interpolate home (files s) = inr cfg ->
  is_dir (SOURCES cfg) s = true ->
  Main.arg_name argv ∈ Main.choices (entries (SOURCES cfg) s) ->
  Main.arg_name argv <> "getList" ->
  Program.program parse interpolate home fuel_poll fuel_wait argv e s =
    inr (Main.after_run (Submit.run cfg fuel_poll fuel_wait e (Main.started cfg argv e s))).
Proof.
  intros Hl Hd Hc Hg. unfold Program.program. rewrite Hl, Main.main_listed by done.
  by rewrite Main.dispatch_launch.
Qed.

(** C11. The launcher end to end.  When the configuration loads, the folder
    it names can be listed and the first argument is one of its projects or
    a number of the menu, the script runs [run] for that project, whose
    folder exists; the commands and file-system calls of the run are a walk
    of the lifecycle machine from the validation of the project to the node
    of its result; a run that returns, with a failure or not, ends the
    script with status 0; and an exception that ends it is one of the job,
    never the [UnboundLocalError] of a missing project nor an error of the
    command line. *)
Theorem program_follows_lifecycle home fuel_poll fuel_wait argv e s cfg :
  Program.load parse interpolate home (files s) = inr cfg ->
  is_dir (SOURCES cfg) s = true ->
  Main.arg_name argv ∈ Main.choices (entries (SOURCES cfg) s) ->
  Main.arg_name argv <> "getList" ->
  let s0 := Main.started cfg argv e s in
  let r := Submit.run cfg fuel_poll fuel_wait e s0 in
  let end_ := Program.program parse interpolate home fuel_poll fuel_wait argv e s in
  path_exists (Build.project_folder cfg (self s0)) s0 = true /\
  run_spec cfg (self s0) r.1 (acts s0 r.2) /\
  Program.trace_of s end_ = trace r.2 /\
  match r.1 with
  | Val _ => Program.ending_of end_ = Program.Exit 0
  | Exn x => Program.ending_of end_ = Program.Traceback /\ Raises.of_job x
  | Stop _ => Program.ending_of end_ = Program.Unfinished
  end.
Proof.
  intros Hl Hd Hc Hg s0 r end_. unfold end_. rewrite (program_launch _ _ _ _ _ _ cfg) by done.
  fold s0 r. pose proof (Main.started_found cfg argv e s Hc Hg) as Hf. fold s0 in Hf.
  pose proof (fun x s' => Raises.raises_run_found cfg fuel_poll fuel_wait e s0 x s' Hf) as Hx.
  pose proof (Refinement.run_follows cfg (self s0) fuel_poll fuel_wait e s0) as Hr.
  fold r in Hx, Hr. destruct r as [[x|x|h] s'];
    (split_and!; [done|by apply Hr|done|]); cbn; [done| |done].
  specialize (Hx x s' eq_refl). split; [|done].
  destruct x; try done. unfold Raises.of_job, Raises.of_collection in Hx. naive_solver.
Qed.

End Composition.

Lemma program_follows_lifecycle_witness :
  let argv := Main.CommandLine "0" ["a"; "b"] (Some 2%Z) (Some 4%Z) in
  let s0 := Main.started Submit.demo_cfg argv Submit.broken_env configured_state in
  let r := Submit.run Submit.demo_cfg 10 10 Submit.broken_env s0 in
  let end_ := Program.program demo_parse demo_interpolate (Some "/home/u") 10 10 argv
                Submit.broken_env configured_state in
  path_exists (Build.project_folder Submit.demo_cfg (self s0)) s0 = true /\
  run_spec Submit.demo_cfg (self s0) r.1 (acts s0 r.2) /\
  Program.trace_of configured_state end_ = trace r.2 /\
  match r.1 with
  | Val _ => Program.ending_of end_ = Program.Exit 0
  | Exn x => Program.ending_of end_ = Program.Traceback /\ Raises.of_job x
  | Stop _ => Program.ending_of end_ = Program.Unfinished
  end.
Proof.
  apply (program_follows_lifecycle demo_parse demo_interpolate (Some "/home/u") 10 10
           (Main.CommandLine "0" ["a"; "b"] (Some 2%Z) (Some 4%Z)) Submit.broken_env
           configured_state Submit.demo_cfg); [by vm_compute|done|by_compute|done].
Defined.

End Launcher.
