(* ===== verification/Arith.v ===== *)
(** * Arith: the numbers of [tetaEvaluation.py]

    [tetaEvaluation.py] computes with Python [float]s (binary64) and small
    [int]s.  Its functions are modelled once, over a type [F] with the
    operations of the class [Arith]; two instances give them a meaning:

    - [float_arith]: the primitive binary64 numbers, with the rounding of
      IEEE 754.  This is what the script computes with.
    - [Qc_arith]: the rational numbers, where [+], [-], [*] and [/] are
      exact (the square root is rounded down to a multiple of [2^-32] over
      the denominator).  This is the arithmetic the algorithm is written
      for, and the class [Exact] states the laws it has.

    The Python operators that can fail are functions into [res]: a zero
    divisor raises [ZeroDivisionError], [math.sqrt] of a negative number
    raises [ValueError], and a conversion or a power whose result does not
    fit raises [OverflowError]. *)

From Stdlib Require Import ZArith QArith Qcanon Qcabs Floats Ring Lia.
From stdpp Require Import base tactics option numbers.
From S2P Require Import Prelude World.
Import World.

Module Arith.

(** ** The operations *)

Class Arith (F : Type) : Type := {
  (** [float(n)], rounded to nearest *)
  of_Z : Z -> F;
  fadd : F -> F -> F;
  fsub : F -> F -> F;
  fmul : F -> F -> F;
  (** [x / y] for [y] other than zero *)
  fdiv : F -> F -> F;
  (** [math.sqrt(x)] for [x] not below zero *)
  fsqrt : F -> F;
  fabs : F -> F;
  feqb : F -> F -> bool;
  fltb : F -> F -> bool;
  fleb : F -> F -> bool;
  (** neither an infinity nor a NaN *)
  ffinite : F -> bool }.

Declare Scope num_scope.
Delimit Scope num_scope with num.
Infix "+" := fadd : num_scope.
Infix "-" := fsub : num_scope.
Infix "*" := fmul : num_scope.
Infix "/" := fdiv : num_scope.
Infix "<=?" := fleb : num_scope.
Infix "<?" := fltb : num_scope.
Infix "=?" := feqb : num_scope.

(** The literals [0.0] and [1.0]. *)
Abbreviation zero := (of_Z 0).
Abbreviation one := (of_Z 1).

(** Computations that may raise: [res] with the monad operations of stdpp. *)
#[global] Instance res_ret : MRet res := @Val.
#[global] Instance res_bind : MBind res := fun A B k r =>
  match r with
  | Val a => k a
  | Exn x => Exn x
  | Stop h => Stop h
  end.

(** What a computation returns, [d] when it does not return. *)
Definition value {A : Type} (d : A) (r : res A) : A :=
  match r with Val a => a | _ => d end.

(** Whether a computation returns. *)
Definition returned {A : Type} (r : res A) : bool :=
  match r with Val _ => true | _ => false end.

Section Python.
Context {F : Type} `{Arith F}.
#[local] Open Scope num_scope.

(** The conversion of an [int] operand of a mixed operation:
    [OverflowError: int too large to convert to float]. *)
Definition float_of (n : Z) : res F :=
  if ffinite (of_Z n) then Val (of_Z n) else Exn OverflowError.

(** [x / y] on floats: [ZeroDivisionError: float division by zero]. *)
Definition truediv (x y : F) : res F :=
  if y =? zero then Exn ZeroDivisionError else Val (x / y).

(** [math.sqrt(x)]: [ValueError: math domain error]. *)
Definition sqrt (x : F) : res F :=
  if x <? zero then Exn ValueError else Val (fsqrt x).

(** [x ** 2] on a float: [OverflowError] when the square of a finite number
    is not finite. *)
Definition pow2 (x : F) : res F :=
  if ffinite x && negb (ffinite (x * x)) then Exn OverflowError else Val (x * x).

(** A decimal literal [n / d] of the source, for [n] and [d] that binary64
    represents: the quotient is then the float nearest to the literal. *)
Definition lit (n d : Z) : F := of_Z n / of_Z d.

(** [float(n)] for a natural number. *)
Definition of_nat (n : nat) : F := of_Z (Z.of_nat n).

End Python.

(** ** Binary64 *)

(** [float(n)]: the integer rounded to nearest, ties to even; an integer
    beyond the range becomes an infinity. *)
Definition float_of_Z (n : Z) : float := SF2Prim (binary_normalize prec emax n 0 false).

#[global] Instance float_arith : Arith float := {|
  of_Z := float_of_Z;
  fadd := PrimFloat.add;
  fsub := PrimFloat.sub;
  fmul := PrimFloat.mul;
  fdiv := PrimFloat.div;
  fsqrt := PrimFloat.sqrt;
  fabs := PrimFloat.abs;
  feqb := PrimFloat.eqb;
  fltb := PrimFloat.ltb;
  fleb := PrimFloat.leb;
  ffinite := PrimFloat.is_finite |}.

(** ** Rational numbers *)

(** The square root of [q], rounded down to a multiple of [1 / (d * 2^32)]
    for the denominator [d] of [q]. *)
Definition Qc_sqrt (q : Qc) : Qc :=
  let n := Qnum q in
  let d := Zpos (Qden q) in
  Q2Qc (Qmake (Z.sqrt (n * d * 4 ^ 32)) (Qden q * 2 ^ 32)).

#[global] Instance Qc_arith : Arith Qc := {|
  of_Z := Qc_of_Z;
  fadd := Qcplus;
  fsub := Qcminus;
  fmul := Qcmult;
  fdiv := Qcdiv;
  fsqrt := Qc_sqrt;
  fabs := Qcabs;
  feqb x y := bool_decide (x = y);
  fltb x y := bool_decide (x < y)%Qc;
  fleb x y := bool_decide (x ≤ y)%Qc;
  ffinite _ := true |}.

(** ** The laws of exact arithmetic *)

(** An ordered field whose order and equality are decided by [fleb] and
    [feqb], with the integers embedded by [of_Z], and where nothing
    overflows.  No law speaks of [fsqrt]. *)
Class Exact (F : Type) `{Arith F} : Prop := {
  exact_ring :
    ring_theory (of_Z 0) (of_Z 1) fadd fmul fsub (fun x => fsub (of_Z 0) x) (@eq F);
  of_Z_add a b : of_Z (a + b) = (of_Z a + of_Z b)%num;
  fdiv_mul x y : y <> of_Z 0 -> (x / y * y)%num = x;
  feqb_eq x y : (x =? y)%num = true <-> x = y;
  fltb_leb x y : (x <? y)%num = negb (y <=? x)%num;
  fleb_trans x y z : (x <=? y)%num = true -> (y <=? z)%num = true -> (x <=? z)%num = true;
  fleb_add x y z : (x + z <=? y + z)%num = (x <=? y)%num;
  fleb_mul x y z : (of_Z 0 <? z)%num = true -> (x * z <=? y * z)%num = (x <=? y)%num;
  fleb_of_Z a b : (of_Z a <=? of_Z b)%num = (a <=? b)%Z;
  ffinite_true x : ffinite x = true }.

#[global] Hint Mode Exact ! - : typeclass_instances.

(** ** Sequences *)

(** A sequence returns when its head returns and the rest does. *)
Lemma returned_bind {A B : Type} (r : res A) (k : A -> res B) :
  returned (r ≫= k) = true <-> exists a, r = Val a /\ returned (k a) = true.
Proof. destruct r; cbn; naive_solver. Qed.

(** ** Consequences of the laws *)

Section Exact.
Context {F : Type} `{Exact F}.
#[local] Open Scope num_scope.

Add Ring exact_ring : exact_ring.

Lemma fleb_refl (x : F) : (x <=? x) = true.
Proof.
  replace x with (zero + x) by ring. by rewrite fleb_add, fleb_of_Z.
Qed.

Lemma of_Z_inj (a b : Z) : of_Z a = of_Z b :> F -> a = b.
Proof.
  intros Hab. pose proof (fleb_of_Z a b) as H1. pose proof (fleb_of_Z b a) as H2.
  rewrite Hab, fleb_refl in H1. rewrite Hab, fleb_refl in H2. lia.
Qed.

Lemma feqb_of_Z (a b : Z) : ((of_Z a : F) =? of_Z b) = (a =? b)%Z.
Proof.
  apply eq_true_iff_eq. rewrite feqb_eq, Z.eqb_eq. split; [apply of_Z_inj|by intros ->].
Qed.

Lemma fltb_of_Z (a b : Z) : ((of_Z a : F) <? of_Z b) = (a <? b)%Z.
Proof. rewrite fltb_leb, fleb_of_Z. lia. Qed.

Lemma of_nat_S (n : nat) : of_nat (S n) = of_nat n + one :> F.
Proof. unfold of_nat. by rewrite Nat2Z.inj_succ, <- of_Z_add. Qed.

Lemma fleb_add_l (x y z : F) : (z + x <=? z + y) = (x <=? y).
Proof.
  replace (z + x) with (x + z) by ring. replace (z + y) with (y + z) by ring.
  apply fleb_add.
Qed.

(** Multiples of a positive step are ordered as their factors. *)
Lemma fleb_multiples (a h : F) (m n : nat) :
  (zero <? h) = true ->
  (a + of_nat m * h <=? a + of_nat n * h) = (m <=? n)%nat.
Proof.
  intros Hh. rewrite fleb_add_l, fleb_mul by done. unfold of_nat. rewrite fleb_of_Z.
  apply eq_true_iff_eq. rewrite Z.leb_le, Nat.leb_le. lia.
Qed.

(** The quotient by a positive integer has the sign of the dividend. *)
Lemma fltb_quotient (x : F) (n : Z) :
  (0 < n)%Z -> (zero <? x / of_Z n) = (zero <? x).
Proof.
  intros Hn. assert (of_Z n <> of_Z 0 :> F) as Hn0 by (intros ?%of_Z_inj; lia).
  rewrite !fltb_leb. f_equal.
  rewrite <- (fleb_mul (x / of_Z n) zero (of_Z n)) by (rewrite fltb_of_Z; lia).
  rewrite fdiv_mul by done. f_equal. ring.
Qed.

(** No conversion, division by a non-zero number or square fails. *)
Lemma float_of_exact (n : Z) : float_of n = Val (of_Z n : F).
Proof. unfold float_of. by rewrite ffinite_true. Qed.

Lemma pow2_exact (x : F) : pow2 x = Val (x * x).
Proof. unfold pow2. by rewrite !ffinite_true. Qed.

Lemma truediv_of_Z (x : F) (n : Z) : n <> 0%Z -> truediv x (of_Z n) = Val (x / of_Z n).
Proof.
  intros Hn. unfold truediv. rewrite feqb_of_Z.
  by destruct (Z.eqb_spec n 0).
Qed.

End Exact.

(** ** The rational numbers are exact *)

#[global] Instance Qc_exact : Exact Qc.
Proof.
  split; cbn.
  - split; intros; cbn; rewrite ?Z2Qc_inj_0, ?Z2Qc_inj_1; ring.
  - apply Z2Qc_inj_add.
  - intros x y Hy. rewrite Z2Qc_inj_0 in Hy. rewrite Qcmult_comm. by apply Qcmult_div_r.
  - intros x y. apply bool_decide_eq_true.
  - intros x y. case_bool_decide as H1; case_bool_decide as H2; try done.
    + by apply Qclt_not_le in H1.
    + by apply Qcnot_lt_le in H1.
  - intros x y z ?%bool_decide_eq_true ?%bool_decide_eq_true.
    apply bool_decide_eq_true. by trans y.
  - intros x y z. apply bool_decide_ext. symmetry. apply Qcplus_le_mono_r.
  - intros x y z Hz%bool_decide_eq_true. rewrite Z2Qc_inj_0 in Hz.
    apply bool_decide_ext. symmetry. by apply Qcmult_le_mono_pos_r.
  - intros a b. apply eq_true_iff_eq. rewrite bool_decide_eq_true, Z.leb_le.
    symmetry. apply Z2Qc_inj_le.
  - done.
Qed.

End Arith.
