(* ===== verification/Teta.v ===== *)
(** * Teta: the deflection angle of [tetaEvaluation.py]

    The script computes, for the impact parameters [b = 0 .. 15] and the
    energy [0.1], the deflection angle of a particle in the potential [1/r]
    as [180 - degrees(2 b I)], where [I] is the integral of [integral_func]
    from 0 to infinity, and compares it with the closed form.  The integral
    is a sum over windows of width [DELTA]; on each window a midpoint sum is
    refined by halving the step until two sums agree.

    The functions are modelled over the numbers of [Arith]: what the script
    computes is their meaning at [float], and the theorems on exact
    arithmetic hold for every instance of [Arith.Exact].  The [while] loop of
    [finite_integral] has a fuel, one unit for each execution of its body;
    the two [for] loops are bounded by [MAX_DIVISIONS] and [MAX_ITERATIONS].
    [math.asin] and the constant pi are parameters; what the script prints
    and plots is in [TetaScript]. *)

From Stdlib Require Import ZArith QArith Qcanon Floats Ring Lia.
From stdpp Require Import base tactics option list numbers.
From S2P Require Import Prelude World Arith.
Import World Arith.

Module Teta.

Section Teta.
Context {F : Type} `{Arith F}.
#[local] Open Scope num_scope.

Definition MAX_DIVISIONS : nat := 21.
Definition MAX_ITERATIONS : nat := 21.
Definition PRECISION_DELTA : F := lit 2 100000000.
Definition DELTA : F := of_Z 16.

(** [potential = lambda var_r: 1.0 / var_r] *)
Definition potential (var_r : F) : res F := truediv one var_r.

(** The expression of the [try] block of [integral_func], its operands
    evaluated from left to right. *)
Definition integrand (var_r : F) (var_b : Z) (var_e : F) : res F :=
  r2 ← pow2 var_r;
  r2' ← pow2 var_r;
  b2 ← float_of (var_b ^ 2);
  q ← truediv b2 r2';
  p ← potential var_r;
  pe ← truediv p var_e;
  s ← sqrt (one - q - pe);
  truediv one (r2 * s).

(** [integral_func]: the two handlers return [0.0]. *)
Definition integral_func (var_r : F) (var_b : Z) (var_e : F) : res F :=
  match integrand var_r var_b var_e with
  | Exn ValueError => Val zero
  | Exn ZeroDivisionError => Val zero
  | r => r
  end.

(** The [while] loop of [finite_integral], from the values of [partial_sum]
    and [cur_step]. *)
Fixpoint sum_loop (fuel : nat) (step var_to : F) (var_b : Z) (var_e : F)
    (partial_sum cur_step : F) : res F :=
  if cur_step <=? var_to then
    match fuel with
    | O => Stop OutOfFuel
    | S fuel' =>
        half ← truediv step (of_Z 2);
        y ← integral_func (cur_step - half) var_b var_e;
        sum_loop fuel' step var_to var_b var_e (partial_sum + step * y) (cur_step + step)
    end
  else Val partial_sum.

(** [prev_sum != 0.0 and abs(prev_sum - partial_sum) < PRECISION_DELTA] *)
Definition settled (prev_sum partial_sum : F) : bool :=
  negb (prev_sum =? zero) && (fabs (prev_sum - partial_sum) <? PRECISION_DELTA).

(** The [for] loop of [finite_integral] from division [i], with [n]
    divisions to go.  When the loop is exhausted [partial_sum] is the value
    that was last assigned to [prev_sum]. *)
Fixpoint divisions (fuel n i : nat) (var_up var_to : F) (var_b : Z) (var_e : F)
    (prev_sum : F) : res F :=
  match n with
  | O => Val prev_sum
  | S n' =>
      d ← float_of (2 ^ Z.of_nat i);
      step ← truediv (var_to - var_up) d;
      partial_sum ← sum_loop fuel step var_to var_b var_e zero (var_up + step);
      if settled prev_sum partial_sum then Val partial_sum
      else divisions fuel n' (S i) var_up var_to var_b var_e partial_sum
  end.

(** [finite_integral] *)
Definition finite_integral (fuel : nat) (var_up var_to : F) (var_b : Z) (var_e : F) :
    res F :=
  divisions fuel MAX_DIVISIONS 0 var_up var_to var_b var_e zero.

(** [prev_res != 0.0 and partial_res != 0.0 and partial_res < PRECISION_DELTA] *)
Definition faded (prev_res partial_res : F) : bool :=
  negb (prev_res =? zero) && negb (partial_res =? zero)
  && (partial_res <? PRECISION_DELTA).

(** The [for] loop of [integral_to_infinite], with [n] windows to go. *)
Fixpoint windows (fuel n : nat) (var_up : F) (var_b : Z) (var_e : F) (prev_res : F) :
    res F :=
  match n with
  | O => Val prev_res
  | S n' =>
      let var_to := var_up + DELTA in
      partial_res ← finite_integral fuel var_up var_to var_b var_e;
      if faded prev_res partial_res then Val prev_res
      else windows fuel n' var_to var_b var_e (prev_res + partial_res)
  end.

(** [integral_to_infinite] *)
Definition integral_to_infinite (fuel : nat) (var_up : F) (var_b : Z) (var_e : F) :
    res F :=
  prev_res ← windows fuel MAX_ITERATIONS var_up var_b var_e zero;
  b ← float_of var_b;
  Val (of_Z 2 * b * prev_res).

Section Libm.
(** [math.asin] on its domain, and the [double] nearest to pi. *)
Context (asin : F -> F) (pi : F).

(** [math.asin(x)]: [ValueError] outside [[-1, 1]]. *)
Definition py_asin (x : F) : res F :=
  if one <? fabs x then Exn ValueError else Val (asin x).

(** [math.degrees(x)] *)
Definition degrees (x : F) : F := x * (of_Z 180 / pi).

(** [analytic_evaluation] *)
Definition analytic_evaluation (var_b : Z) (var_e : F) : res F :=
  e2 ← pow2 var_e;
  c ← float_of (4 * var_b ^ 2);
  s ← sqrt (one + c * e2);
  q ← truediv one s;
  a ← py_asin q;
  Val (of_Z 2 * a).

Definition var_a : F := zero.
Definition var_e : F := lit 1 10.

(** The body of the last [for] loop: the three values appended to
    [points_x], [points_y] and [points_y_a]. *)
Definition point (fuel : nat) (var_b : Z) : res (Z * F * F) :=
  i ← integral_to_infinite fuel var_a var_b var_e;
  let final_theta := of_Z 180 - degrees (fabs i) in
  a ← analytic_evaluation var_b var_e;
  Val (var_b, final_theta, degrees a).

(** [for var_b in range(0, 16)] *)
Definition points (fuel : nat) : res (list (Z * F * F)) :=
  mapM (point fuel) (Z.of_nat <$> seq 0 16).

End Libm.

(** ** The sums the loops compute *)

(** The integrand as a function: [0.0] where [integral_func] does not
    return. *)
Definition f (var_b : Z) (var_e : F) (var_r : F) : F :=
  value zero (integral_func var_r var_b var_e).

(** The midpoint sum of [g] over the [n] intervals of width [h] from [a]:
    the abscissa of interval [k] is its right end less half the step. *)
Definition midpoint_sum (g : F -> F) (a h : F) (n : nat) : F :=
  foldl (fun s k => s + h * g (a + of_nat (S k) * h - h / of_Z 2)) zero (seq 0 n).

(** The sum of division [i] of the window from [a] to [b]: [2^i] intervals. *)
Definition division_sum (g : F -> F) (a b : F) (i : nat) : F :=
  midpoint_sum g a ((b - a) / of_Z (2 ^ Z.of_nat i)) (2 ^ i).

(** The first of the sums [s i], [s (i + 1)], ... that is settled with
    respect to the one before it, and the last of [n] when none is. *)
Fixpoint first_settled (s : nat -> F) (n i : nat) (prev : F) : F :=
  match n with
  | O => prev
  | S n' => if settled prev (s i) then s i else first_settled s n' (S i) (s i)
  end.

(** What [finite_integral] is meant to return. *)
Definition refined_sum (var_up var_to : F) (var_b : Z) (var_e : F) : F :=
  first_settled (division_sum (f var_b var_e) var_up var_to) MAX_DIVISIONS 0 zero.

(** The windows [integral_to_infinite] adds up: the sum of window [j] from
    [a], and the total of the windows before the first faded one. *)
Definition window_sum (a : F) (var_b : Z) (var_e : F) (j : nat) : F :=
  refined_sum (a + of_nat j * DELTA) (a + of_nat (S j) * DELTA) var_b var_e.

Fixpoint until_faded (w : nat -> F) (n j : nat) (prev : F) : F :=
  match n with
  | O => prev
  | S n' => if faded prev (w j) then prev else until_faded w n' (S j) (prev + w j)
  end.

(** ** Exceptions *)

(** What the four operations raise. *)
Lemma truediv_cases (x y : F) :
  truediv x y = Val (x / y) \/ truediv x y = Exn ZeroDivisionError.
Proof. unfold truediv. case_match; auto. Qed.

Lemma sqrt_cases (x : F) : sqrt x = Val (fsqrt x) \/ sqrt x = Exn ValueError.
Proof. unfold sqrt. case_match; auto. Qed.

Lemma pow2_cases (x : F) : pow2 x = Val (x * x) \/ pow2 x = Exn OverflowError.
Proof. unfold pow2. case_match; auto. Qed.

Lemma float_of_cases (n : Z) : float_of n = Val (of_Z n : F) \/ float_of n = Exn OverflowError.
Proof. unfold float_of. case_match; auto. Qed.

(** The expression of [integral_func] raises one of three exceptions. *)
Lemma integrand_cases (var_r : F) (var_b : Z) (var_e : F) :
  match integrand var_r var_b var_e with
  | Val _ => True
  | Exn x => x = ValueError \/ x = ZeroDivisionError \/ x = OverflowError
  | Stop _ => False
  end.
Proof.
  unfold integrand, potential.
  destruct (pow2_cases var_r) as [-> | ->]; cbn; [|by auto].
  destruct (float_of_cases (var_b ^ 2)) as [-> | ->]; cbn; [|by auto].
  repeat match goal with
  | |- context [truediv ?x ?y] => destruct (truediv_cases x y) as [-> | ->]; cbn; [|by auto]
  | |- context [sqrt ?x] => destruct (sqrt_cases x) as [-> | ->]; cbn; [|by auto]
  end.
  done.
Qed.

(** The first division to go. *)
Lemma divisions_S (fuel n i : nat) (var_up var_to : F) (var_b : Z) (var_e : F)
    (prev_sum : F) :
  divisions fuel (S n) i var_up var_to var_b var_e prev_sum =
    (d ← float_of (2 ^ Z.of_nat i);
     step ← truediv (var_to - var_up) d;
     partial_sum ← sum_loop fuel step var_to var_b var_e zero (var_up + step);
     if settled prev_sum partial_sum then Val partial_sum
     else divisions fuel n (S i) var_up var_to var_b var_e partial_sum).
Proof. done. Qed.

(** A step that the abscissa absorbs: the loop makes no progress. *)
Lemma sum_loop_stuck (fuel : nat) (step var_to : F) (var_b : Z) (var_e : F)
    (partial_sum cur_step half : F) :
  (cur_step <=? var_to) = true ->
  truediv step (of_Z 2) = Val half ->
  returned (integral_func (cur_step - half) var_b var_e) = true ->
  cur_step + step = cur_step ->
  sum_loop fuel step var_to var_b var_e partial_sum cur_step = Stop OutOfFuel.
Proof.
  intros Hle Hhalf Hy Hstep. revert partial_sum.
  induction fuel as [|fuel IH]; intros partial_sum; cbn [sum_loop]; rewrite Hle; [done|].
  rewrite Hhalf. cbn [mbind res_bind].
  destruct (integral_func _ _ _) as [y| |]; [|done..]. cbn [mbind res_bind].
  rewrite Hstep. apply IH.
Qed.

(** [integral_func] returns when the square of the abscissa and the
    conversion of [var_b ** 2] fit. *)
Lemma integral_func_returns (var_r : F) (var_b : Z) (var_e : F) :
  ffinite (var_r * var_r) = true ->
  ffinite (of_Z (var_b ^ 2) : F) = true ->
  returned (integral_func var_r var_b var_e) = true.
Proof.
  intros Hr Hb. unfold integral_func, integrand, potential, pow2, float_of, truediv, sqrt.
  rewrite Hr, Hb, andb_false_r. cbn [negb].
  repeat (case_match; simplify_eq/=; try done).
Qed.

(** The loop returns with more fuel when it returns with less. *)
Lemma sum_loop_more_fuel (n m : nat) (step var_to : F) (var_b : Z) (var_e : F)
    (partial_sum cur_step : F) :
  n <= m ->
  returned (sum_loop n step var_to var_b var_e partial_sum cur_step) = true ->
  returned (sum_loop m step var_to var_b var_e partial_sum cur_step) = true.
Proof.
  revert m partial_sum cur_step.
  induction n as [|n IH]; intros [|m] s c Hm; cbn [sum_loop];
    destruct (c <=? var_to); try done; try lia.
  destruct (truediv step (of_Z 2)); [|done..]. cbn [mbind res_bind].
  destruct (integral_func _ _ _); [|done..]. cbn [mbind res_bind].
  apply IH. lia.
Qed.

(** A point carries its impact parameter. *)
Lemma point_parameter (asin : F -> F) (pi : F) (fuel : nat) (var_b : Z) (p : Z * F * F) :
  point asin pi fuel var_b = Val p -> p.1.1 = var_b.
Proof.
  unfold point. destruct (integral_to_infinite _ _ _ _); [|done..]. cbn [mbind res_bind].
  destruct (analytic_evaluation _ _ _); [|done..]. cbn [mbind res_bind]. by intros [= <-].
Qed.

(** ** Properties of the integrand *)

(** C28. [integral_func] on every branch: it is the integrand
    [1 / (r^2 sqrt(1 - b^2 / r^2 - 1 / (r e)))] where that is defined, and
    [0.0] where a divisor is zero ([ZeroDivisionError]) or the number under
    the root is negative ([ValueError]).  The one exception that leaves it
    is [OverflowError], when the square of [var_r] or the conversion of
    [var_b ** 2] does not fit. *)
Theorem integral_func_value (var_r : F) (var_b : Z) (var_e : F) :
  integral_func var_r var_b var_e =
    if ffinite var_r && negb (ffinite (var_r * var_r)) then Exn OverflowError
    else if negb (ffinite (of_Z (var_b ^ 2) : F)) then Exn OverflowError
    else if (var_r * var_r =? zero) || (var_r =? zero) || (var_e =? zero) then Val zero
    else
      let under := one - of_Z (var_b ^ 2) / (var_r * var_r) - one / var_r / var_e in
      if under <? zero then Val zero
      else if var_r * var_r * fsqrt under =? zero then Val zero
      else Val (one / (var_r * var_r * fsqrt under)).
Proof.
  unfold integral_func, integrand, potential, pow2, float_of, truediv, sqrt.
  repeat (case_match; simplify_eq/=; try done).
Qed.

End Teta.

(** ** Exact arithmetic *)

Section Exact.
Context {F : Type} `{Exact F}.
#[local] Open Scope num_scope.

Add Ring teta_ring : exact_ring.

(** In exact arithmetic nothing overflows: [integral_func] returns. *)
Lemma integral_func_exact (var_r : F) (var_b : Z) (var_e : F) :
  integral_func var_r var_b var_e = Val (f var_b var_e var_r).
Proof.
  unfold f, integral_func. pose proof (integrand_cases var_r var_b var_e) as Hc.
  destruct (integrand var_r var_b var_e) as [y|x|h] eqn:Hi; [done| |done].
  destruct Hc as [-> | [-> | ->]]; [done..|].
  revert Hi. unfold integrand, potential. rewrite !pow2_exact, float_of_exact. cbn.
  repeat match goal with
  | |- context [truediv ?x ?y] => destruct (truediv_cases x y) as [-> | ->]; cbn; [|done]
  | |- context [sqrt ?x] => destruct (sqrt_cases x) as [-> | ->]; cbn; [|done]
  end.
  done.
Qed.

Lemma fltb_gap (x y : F) : (zero <? y - x) = (x <? y).
Proof.
  rewrite !fltb_leb. f_equal. rewrite <- (fleb_add (y - x) zero x). f_equal; ring.
Qed.

Lemma fdiv_one (x : F) : x / one = x.
Proof.
  rewrite <- (fdiv_mul x one) at 2 by (intros ?%of_Z_inj; lia). ring.
Qed.

(** The loop from interval [k]: it adds the terms of the [n] intervals that
    are left, and needs one unit of fuel for each. *)
Lemma sum_loop_exact (fuel : nat) (h a : F) (var_b : Z) (var_e : F) (n k : nat) (s : F) :
  (zero <? h) = true ->
  sum_loop fuel h (a + of_nat (k + n) * h) var_b var_e s (a + of_nat (S k) * h) =
    if decide (n <= fuel)
    then Val (foldl (fun s j => s + h * f var_b var_e (a + of_nat (S j) * h - h / of_Z 2))
                s (seq k n))
    else Stop OutOfFuel.
Proof.
  intros Hh. revert fuel k s. induction n as [|n IH]; intros fuel k s.
  - destruct fuel; cbn [sum_loop]; rewrite fleb_multiples by done;
      (rewrite (proj2 (Nat.leb_gt _ _)) by lia); by rewrite decide_True by lia.
  - destruct fuel as [|fuel]; cbn [sum_loop]; rewrite fleb_multiples by done;
      (rewrite (proj2 (Nat.leb_le _ _)) by lia); [by rewrite decide_False by lia|].
    rewrite truediv_of_Z by done. cbn [mbind res_bind].
    rewrite integral_func_exact. cbn [mbind res_bind].
    replace (a + of_nat (S k) * h + h) with (a + of_nat (S (S k)) * h)
      by (rewrite (of_nat_S (S k)); ring).
    replace (k + S n)%nat with (S k + n)%nat by lia. rewrite IH. cbn [seq foldl].
    destruct (decide (n <= fuel)); [by rewrite decide_True by lia|by rewrite decide_False by lia].
Qed.

Lemma pow2_nonzero (i : nat) : (2 ^ Z.of_nat i <> 0)%Z.
Proof. apply Z.pow_nonzero; lia. Qed.

(** A window is [d] steps of a [d]-th of its width. *)
Lemma window_end (var_up var_to : F) (d : Z) :
  d <> 0%Z -> var_to = var_up + of_Z d * ((var_to - var_up) / of_Z d).
Proof.
  intros Hd. trans (var_up + (var_to - var_up) / of_Z d * of_Z d); [|ring].
  rewrite fdiv_mul; [ring|]. by intros ?%of_Z_inj.
Qed.

(** Division [i] of a window: [2^i] executions of the body. *)
Lemma division_exact (fuel : nat) (var_up var_to : F) (var_b : Z) (var_e : F) (i : nat) :
  (var_up <? var_to) = true -> 2 ^ i <= fuel ->
  sum_loop fuel ((var_to - var_up) / of_Z (2 ^ Z.of_nat i)) var_to var_b var_e zero
    (var_up + (var_to - var_up) / of_Z (2 ^ Z.of_nat i)) =
  Val (division_sum (f var_b var_e) var_up var_to i).
Proof.
  intros Hlt Hfuel. unfold division_sum, midpoint_sum.
  set (h := (var_to - var_up) / of_Z (2 ^ Z.of_nat i)).
  assert ((zero <? h) = true) as Hh.
  { unfold h. rewrite fltb_quotient, fltb_gap; [done|]. apply Z.pow_pos_nonneg; lia. }
  assert (var_to = var_up + of_nat (0 + 2 ^ i) * h) as Hto.
  { unfold of_nat. rewrite Nat.add_0_l, Nat2Z.inj_pow. apply window_end, pow2_nonzero. }
  clearbody h. subst var_to.
  replace (var_up + h) with (var_up + of_nat 1 * h)
    by (change (of_nat 1) with (one : F); ring).
  rewrite sum_loop_exact by done. by rewrite decide_True.
Qed.

(** The divisions from [i] on, when the fuel is enough for the finest. *)
Lemma divisions_exact (fuel m n i : nat) (var_up var_to : F) (var_b : Z) (var_e : F)
    (prev_sum : F) :
  (var_up <? var_to) = true -> 2 ^ m <= fuel -> i + n <= S m ->
  divisions fuel n i var_up var_to var_b var_e prev_sum =
    Val (first_settled (division_sum (f var_b var_e) var_up var_to) n i prev_sum).
Proof.
  intros Hlt Hfuel. revert i prev_sum.
  induction n as [|n IH]; intros i prev_sum Hi; cbn [divisions first_settled]; [done|].
  rewrite float_of_exact. cbn [mbind res_bind].
  rewrite truediv_of_Z by apply pow2_nonzero. cbn [mbind res_bind].
  rewrite division_exact; [|done|].
  - cbn [mbind res_bind]. case_match; [done|]. apply IH. lia.
  - etrans; [|apply Hfuel]. apply Nat.pow_le_mono_r; lia.
Qed.

(** A step that is not positive never takes the abscissa past [var_to]. *)
Lemma sum_loop_forever (fuel : nat) (step var_to : F) (var_b : Z) (var_e : F)
    (partial_sum cur_step : F) :
  (step <=? zero) = true -> (cur_step <=? var_to) = true ->
  sum_loop fuel step var_to var_b var_e partial_sum cur_step = Stop OutOfFuel.
Proof.
  intros Hstep. revert partial_sum cur_step.
  induction fuel as [|fuel IH]; intros partial_sum cur_step Hle; cbn [sum_loop];
    rewrite Hle; [done|].
  rewrite truediv_of_Z by done. cbn [mbind res_bind].
  rewrite integral_func_exact. cbn [mbind res_bind]. apply IH.
  apply (fleb_trans _ cur_step); [|done].
  replace cur_step with (cur_step + zero) at 2 by ring. by rewrite fleb_add_l.
Qed.

Lemma fltb_window (x : F) : (x <? x + DELTA) = true.
Proof.
  rewrite <- fltb_gap. replace (x + DELTA - x) with (DELTA : F) by ring.
  unfold DELTA. by rewrite fltb_of_Z.
Qed.

(** The windows from the [j]-th on. *)
Lemma windows_exact (fuel n j : nat) (a : F) (var_b : Z) (var_e : F) (prev_res : F) :
  2 ^ 20 <= fuel ->
  windows fuel n (a + of_nat j * DELTA) var_b var_e prev_res =
    Val (until_faded (window_sum a var_b var_e) n j prev_res).
Proof.
  intros Hfuel. revert j prev_res.
  induction n as [|n IH]; intros j prev_res; cbn [windows until_faded]; [done|].
  unfold finite_integral. rewrite (divisions_exact fuel 20) by (done || apply fltb_window).
  cbn [mbind res_bind]. fold (refined_sum (a + of_nat j * DELTA)
    (a + of_nat j * DELTA + DELTA) var_b var_e).
  replace (a + of_nat j * DELTA + DELTA) with (a + of_nat (S j) * DELTA)
    by (rewrite (of_nat_S j); ring).
  fold (window_sum a var_b var_e j). case_match; [done|apply IH].
Qed.

Lemma fleb_gap (x y : F) : (y - x <=? zero) = (y <=? x).
Proof. rewrite <- (fleb_add (y - x) zero x). f_equal; ring. Qed.

(** ** Properties of the sums in exact arithmetic *)

(** C23. The [while] loop of [finite_integral] in exact arithmetic: over [n]
    intervals of a positive width [h] the loop executes its body [n] times,
    no more and no less, and returns the midpoint sum of the integrand.  With
    less fuel than [n] the model stops for lack of fuel; with [n] or more it
    returns. *)
Theorem sum_loop_midpoints (fuel : nat) (h a : F) (var_b : Z) (var_e : F) (n : nat) :
  (zero <? h) = true ->
  sum_loop fuel h (a + of_nat n * h) var_b var_e zero (a + h) =
    if decide (n <= fuel) then Val (midpoint_sum (f var_b var_e) a h n)
    else Stop OutOfFuel.
Proof.
  intros Hh. replace (a + h) with (a + of_nat 1 * h)
    by (change (of_nat 1) with (one : F); ring).
  by rewrite (sum_loop_exact fuel h a var_b var_e n 0).
Qed.

(** C22. [finite_integral] in exact arithmetic: on a window that is not
    empty, and with fuel for the [2^20] intervals of the finest division, the
    function returns the refined midpoint sum: the sum of the first division
    that differs from the one before by less than [PRECISION_DELTA], or of
    the last of the 21 divisions.  The abscissa that the loop accumulates is
    the one of the closed form, and the comparison with [var_to] ends each
    division after [2^i] intervals. *)
Theorem finite_integral_exact (fuel : nat) (var_up var_to : F) (var_b : Z) (var_e : F) :
  (var_up <? var_to) = true -> 2 ^ 20 <= fuel ->
  finite_integral fuel var_up var_to var_b var_e =
    Val (refined_sum var_up var_to var_b var_e).
Proof. intros Hlt Hfuel. by apply (divisions_exact fuel 20). Qed.

(** C27. [finite_integral] does not return on an empty or reversed window:
    when [var_to] is not above [var_up] the first step is not positive, the
    abscissa never passes [var_to], and the [while] loop runs for ever. *)
Theorem finite_integral_diverges (fuel : nat) (var_up var_to : F) (var_b : Z) (var_e : F) :
  (var_to <=? var_up) = true ->
  finite_integral fuel var_up var_to var_b var_e = Stop OutOfFuel.
Proof.
  intros Hle. unfold finite_integral, MAX_DIVISIONS. rewrite divisions_S.
  rewrite float_of_exact. cbn [mbind res_bind].
  rewrite truediv_of_Z by apply pow2_nonzero. cbn [mbind res_bind].
  change (2 ^ Z.of_nat 0)%Z with 1%Z. rewrite fdiv_one.
  rewrite sum_loop_forever; [done|by rewrite fleb_gap|].
  replace (var_up + (var_to - var_up)) with var_to by ring. apply fleb_refl.
Qed.

(** C24. [integral_to_infinite] in exact arithmetic: with fuel for the finest
    division the function returns [2 b] times the total of the refined sums
    of the windows of width [DELTA] from [var_up], up to the first window
    whose sum has faded below [PRECISION_DELTA] (which is left out) or to the
    21st window.  The start of each window, which the loop accumulates, is
    [var_up] plus a multiple of [DELTA]. *)
Theorem integral_to_infinite_exact (fuel : nat) (var_up : F) (var_b : Z) (var_e : F) :
  2 ^ 20 <= fuel ->
  integral_to_infinite fuel var_up var_b var_e =
    Val (of_Z 2 * of_Z var_b *
         until_faded (window_sum var_up var_b var_e) MAX_ITERATIONS 0 zero).
Proof.
  intros Hfuel. unfold integral_to_infinite.
  replace var_up with (var_up + of_nat 0 * DELTA) at 1
    by (change (of_nat 0) with (zero : F); ring).
  rewrite windows_exact by done. cbn [mbind res_bind]. by rewrite float_of_exact.
Qed.

End Exact.

(** ** Witnesses on the rational numbers *)

Lemma sum_loop_midpoints_witness :
  sum_loop (F := Qc) 16 (of_Z 1) (of_Z 0 + of_nat 16 * of_Z 1)%num 1 (lit 1 10) zero
    (of_Z 0 + of_Z 1)%num =
  if decide (16 <= 16) then Val (midpoint_sum (f 1 (lit 1 10)) (of_Z 0) (of_Z 1) 16)
  else Stop OutOfFuel.
Proof. apply sum_loop_midpoints. by vm_compute. Defined.

Lemma finite_integral_exact_witness :
  finite_integral (F := Qc) (2 ^ 20) (of_Z 0) (of_Z 16) 1 (lit 1 10) =
    Val (refined_sum (of_Z 0) (of_Z 16) 1 (lit 1 10)).
Proof. apply finite_integral_exact; [by vm_compute|apply Nat.le_refl]. Defined.

Lemma finite_integral_diverges_witness :
  finite_integral (F := Qc) 5 (of_Z 3) (of_Z 3) 1 (lit 1 10) = Stop OutOfFuel.
Proof. apply finite_integral_diverges. by vm_compute. Defined.

Lemma integral_to_infinite_exact_witness :
  integral_to_infinite (F := Qc) (2 ^ 20) (of_Z 0) 1 (lit 1 10) =
    Val (of_Z 2 * of_Z 1 *
         until_faded (window_sum (of_Z 0) 1 (lit 1 10)) MAX_ITERATIONS 0 zero)%num.
Proof. apply integral_to_infinite_exact, Nat.le_refl. Defined.

(** ** Binary64 *)

(** On binary64 the abscissas of the script are exact where they can be
    checked by evaluation: division 10 of the first and of the last window
    takes 1024 executions of the body, as in exact arithmetic. *)
Example float_division_count :
  let step := (of_Z 16 / of_Z 1024 : float)%num in
  Forall (fun a : float =>
    returned (sum_loop 1024 step (a + 16)%float 1 var_e zero (a + step)%float) = true /\
    sum_loop 1023 step (a + 16)%float 1 var_e zero (a + step)%float = Stop OutOfFuel)
  [0%float; 320%float].
Proof. repeat (apply Forall_cons; [split; by vm_compute|]). apply Forall_nil. Qed.

(** C26. Exact arithmetic is not what the script runs on: in binary64 a
    window that starts at [2^60] is empty, because adding [DELTA] to its
    start gives the start again.  For each impact parameter of the script,
    [finite_integral] on that window and [integral_to_infinite] from that
    start run for ever. *)
Theorem float_window_absorbed (fuel : nat) (var_b : Z) :
  (0 <= var_b < 16)%Z ->
  finite_integral (F := float) fuel 0x1p60%float (0x1p60%float + DELTA)%num var_b var_e = Stop OutOfFuel /\
  integral_to_infinite (F := float) fuel 0x1p60%float var_b var_e = Stop OutOfFuel.
Proof.
  intros Hb.
  assert (finite_integral (F := float) fuel 0x1p60%float (0x1p60%float + DELTA)%num var_b var_e
          = Stop OutOfFuel) as Hw.
  { unfold finite_integral, MAX_DIVISIONS. rewrite divisions_S.
    change (float_of (2 ^ Z.of_nat 0)) with (Val 1%float). cbn [mbind res_bind].
    change (truediv _ 1%float) with (Val 0%float). cbn [mbind res_bind].
    rewrite (sum_loop_stuck fuel _ _ var_b _ _ _ 0%float); [done..| |done].
    assert (var_b ∈ Z.of_nat <$> seq 0 16) as Hin.
    { apply list_elem_of_fmap. exists (Z.to_nat var_b). rewrite elem_of_seq. lia. }
    revert Hin. generalize var_b. apply (proj1 (list.Forall_forall _ _)).
    repeat constructor; by vm_compute. }
  split; [done|]. unfold integral_to_infinite, MAX_ITERATIONS. cbn [windows].
  by rewrite Hw.
Qed.

Lemma float_window_absorbed_witness :
  finite_integral (F := float) 7 0x1p60%float (0x1p60%float + DELTA)%num 3 var_e = Stop OutOfFuel /\
  integral_to_infinite (F := float) 7 0x1p60%float 3 var_e = Stop OutOfFuel.
Proof. apply float_window_absorbed. lia. Defined.

End Teta.
