(* ===== verification/TetaCffi.v ===== *)
(** * TetaCffi: the Python side of [tetaEvaluation_cffi.py]

    The second script computes the same angle with a kernel in C
    ([tetaQuad.h], compiled by cffi) for the impact parameters from 0 to 100
    in steps of 0.5.  The kernel is not part of the sources: its two
    functions [integral_to_infinite] and [to_degrees], declared by
    [ffi.cdef], are parameters here, as are [math.asin] and pi.  What is
    modelled is the Python code around them: the generator [range_f], the
    closed form, and the loop of [main] that collects the points.

    [range_f] is a generator with a [while] loop; the [for] loop of [main]
    consumes it to its end, so the model gives the list of the values it
    yields, with a fuel of one unit for each value. *)

From Stdlib Require Import ZArith QArith Qcanon Floats Ring Lia.
From stdpp Require Import base tactics option list numbers.
From S2P Require Import Prelude World Arith Teta.
Import World Arith.

Module TetaCffi.

Section Cffi.
Context {F : Type} `{Arith F}.
#[local] Open Scope num_scope.

(** [analytic_evaluation]: both arguments are converted with [float]. *)
Definition analytic_evaluation (asin : F -> F) (var_b var_e : F) : res F :=
  b2 ← pow2 var_b;
  e2 ← pow2 var_e;
  s ← sqrt (one + of_Z 4 * b2 * e2);
  q ← truediv one s;
  a ← Teta.py_asin asin q;
  Val (of_Z 2 * a).

(** [range_f]: the values the generator yields until [start] passes [end]. *)
Fixpoint range_f (fuel : nat) (start end_ step : F) : res (list F) :=
  if start <=? end_ then
    match fuel with
    | O => Stop OutOfFuel
    | S fuel' => l ← range_f fuel' (start + step) end_ step; Val (start :: l)
    end
  else Val [].

Section Main.
(** The library and the functions of the kernel. *)
Context (asin : F -> F) (pi : F).
Context (integral_to_infinite : F -> F -> F -> F) (to_degrees : F -> F).

Definition var_e : F := lit 1 10.
Definition var_a : F := zero.

(** The body of the [for] loop of [main]: the three values appended to
    [points_x], [points_y] and [points_y_a]. *)
Definition point (var_b : F) : res (F * F * F) :=
  let rad := integral_to_infinite var_a var_b var_e in
  let theta := to_degrees (fabs rad) in
  a ← analytic_evaluation asin var_b var_e;
  Val (var_b, theta, Teta.degrees pi a).

(** [for var_b in range_f(0.0, 100, 0.5)] *)
Definition points (fuel : nat) : res (list (F * F * F)) :=
  l ← range_f fuel zero (of_Z 100) (lit 1 2);
  mapM point l.

End Main.

(** ** The values [range_f] is meant to yield *)

(** [n] values from [a + k * h] on, in steps of [h]. *)
Definition multiples (a h : F) (k n : nat) : list F :=
  (fun j => a + of_nat j * h) <$> seq k n.

(** ** The generator and the points *)

(** The generator yields the same values with more fuel. *)
Lemma range_f_more_fuel (n m : nat) (start end_ step : F) (l : list F) :
  n <= m ->
  range_f n start end_ step = Val l -> range_f m start end_ step = Val l.
Proof.
  revert m start l. induction n as [|n IH]; intros [|m] start l Hm; cbn [range_f];
    destruct (start <=? end_); try done; try lia.
  destruct (range_f n _ _ _) as [l'| |] eqn:Hl; [|done..].
  by rewrite (IH m _ l') by (done || lia).
Qed.

(** A point carries its impact parameter. *)
Lemma main_point_parameter (asin : F -> F) (pi : F) (integral_to_infinite : F -> F -> F -> F)
    (to_degrees : F -> F) (var_b : F) (p : F * F * F) :
  point asin pi integral_to_infinite to_degrees var_b = Val p -> p.1.1 = var_b.
Proof.
  unfold point. destruct (analytic_evaluation _ _ _); [|done..]. by intros [= <-].
Qed.

End Cffi.

(** ** Exact arithmetic *)

Section Exact.
Context {F : Type} `{Exact F}.
#[local] Open Scope num_scope.

Add Ring cffi_ring : exact_ring.

(** The generator from its [k]-th value, with [n] values to come. *)
Lemma range_f_from (fuel : nat) (a h : F) (k n : nat) :
  (zero <? h) = true ->
  range_f fuel (a + of_nat k * h) (a + of_nat (k + n) * h) h =
    if decide (S n <= fuel) then Val (multiples a h k (S n)) else Stop OutOfFuel.
Proof.
  intros Hh. revert fuel k. induction n as [|n IH]; intros fuel k.
  - destruct fuel as [|fuel]; cbn [range_f]; rewrite fleb_multiples by done;
      (rewrite (proj2 (Nat.leb_le _ _)) by lia); [done|].
    replace (a + of_nat k * h + h) with (a + of_nat (S k) * h)
      by (rewrite (of_nat_S k); ring).
    destruct fuel; cbn [range_f]; rewrite fleb_multiples by done;
      by rewrite (proj2 (Nat.leb_gt _ _)) by lia.
  - destruct fuel as [|fuel]; cbn [range_f]; rewrite fleb_multiples by done;
      (rewrite (proj2 (Nat.leb_le _ _)) by lia); [done|].
    replace (a + of_nat k * h + h) with (a + of_nat (S k) * h)
      by (rewrite (of_nat_S k); ring).
    replace (k + S n)%nat with (S k + n)%nat by lia. rewrite IH.
    destruct (decide (S n <= fuel)); [by rewrite decide_True by lia|].
    by rewrite decide_False by lia.
Qed.

(** The generator [range_f] in exact arithmetic: from [a] to
    [a + n h] with a positive step [h] it yields the [n + 1] values
    [a], [a + h], ..., [a + n h], both ends included, and then stops. *)
Theorem range_f_exact (fuel : nat) (a h : F) (n : nat) :
  (zero <? h) = true ->
  range_f fuel a (a + of_nat n * h) h =
    if decide (S n <= fuel) then Val (multiples a h 0 (S n)) else Stop OutOfFuel.
Proof.
  intros Hh. pose proof (range_f_from fuel a h 0 n Hh) as Hr.
  by replace (a + of_nat 0 * h) with a in Hr by (change (of_nat 0) with (zero : F); ring).
Qed.

End Exact.

Lemma range_f_exact_witness :
  range_f (F := Qc) 5 (of_Z 0) (of_Z 0 + of_nat 3 * lit 1 2)%num (lit 1 2) =
    if decide (4 <= 5) then Val (multiples (of_Z 0) (lit 1 2) 0 4) else Stop OutOfFuel.
Proof. apply range_f_exact. by vm_compute. Defined.

(** ** Binary64 *)

(** The impact parameters of [main] in binary64: the 201 multiples of 0.5
    from 0 to 100, each of them exact. *)
Example float_impact_parameters :
  range_f (F := float) 201 zero (of_Z 100) (lit 1 2) =
    Val ((fun k => (of_Z (Z.of_nat k) / of_Z 2)%num) <$> seq 0 201).
Proof. by vm_compute. Qed.

End TetaCffi.
