(* ===== verification/TetaScript.v ===== *)
(** * TetaScript: what the two scripts print and plot

    The code of [tetaEvaluation.py] after its functions, and [main] of
    [tetaEvaluation_cffi.py]: a line is printed, a loop computes one point
    for each impact parameter, prints it and appends it to three lists, and
    the lists are plotted with [matplotlib.pyplot].

    What a script does to the outside is the list of its [call]s, in order:
    the lines it prints and the calls of [pyplot].  A script is a value of
    [out]: the calls it made and how it ended, so that a script that raises
    has printed the lines of the points before the one that failed.  The
    text of a float ([str] in [format]) is a parameter, and so are
    [math.asin], pi and, for the second script, the result of [ffi.verify]:
    the two functions of the C kernel, or nothing when the kernel does not
    compile.  [pyplot.plot] raises [ValueError] for two lists of different
    lengths and draws nothing else; what the window shows is not modelled. *)

From Stdlib Require Import Ascii String ZArith Lia.
From stdpp Require Import base tactics option list strings pretty.
From S2P Require Import Prelude PyString World Arith Teta TetaCffi.
Import World Arith.

Module TetaScript.

(** ** Calls and scripts *)

(** A line printed (without its newline) or a call of [pyplot]; a handle of
    the legend is a [Patch] with its colour and its label. *)
Inductive call (X F : Type) : Type :=
  | Print (line : string)
  | Ylabel (label : string)
  | Xlabel (label : string)
  | Plot (xs : list X) (ys : list F) (fmt : string)
  | Legend (handles : list (string * string))
  | Grid (on : bool)
  | Show.

#[global] Arguments Print {X F} line.
#[global] Arguments Ylabel {X F} label.
#[global] Arguments Xlabel {X F} label.
#[global] Arguments Plot {X F} xs ys fmt.
#[global] Arguments Legend {X F} handles.
#[global] Arguments Grid {X F} on.
#[global] Arguments Show {X F}.

(** The calls made, and the result. *)
Definition out (E A : Type) : Type := list E * res A.

Definition tell {E : Type} (e : E) : out E unit := ([e], Val tt).
Definition lift {E A : Type} (r : res A) : out E A := ([], r).

#[global] Instance out_ret {E : Type} : MRet (out E) := fun A a => ([], Val a).
#[global] Instance out_bind {E : Type} : MBind (out E) := fun A B k m =>
  match m.2 with
  | Val a => (m.1 ++ (k a).1, (k a).2)
  | Exn x => (m.1, Exn x)
  | Stop h => (m.1, Stop h)
  end.

(** A [for] loop over a list, with the variables its body assigns. *)
Fixpoint for_each {E S X : Type} (body : S -> X -> out E S) (s : S) (xs : list X) :
    out E S :=
  match xs with
  | [] => mret s
  | x :: xs' => s' ← body s x; for_each body s' xs'
  end.

(** The result without its value. *)
Definition ended {A : Type} (r : res A) : res unit :=
  match r with
  | Val _ => Val tt
  | Exn x => Exn x
  | Stop h => Stop h
  end.

Definition tab : string := String "009"%char EmptyString.

(** The three lists [points_x], [points_y] and [points_y_a]. *)
Record lists (X F : Type) : Type := Lists {
  points_x : list X;
  points_y : list F;
  points_y_a : list F }.

#[global] Arguments Lists {X F} points_x points_y points_y_a.
#[global] Arguments points_x {X F} l.
#[global] Arguments points_y {X F} l.
#[global] Arguments points_y_a {X F} l.

Section Script.
Context {F : Type} `{Arith F}.
(** [math.asin], pi and [str] on floats. *)
Context (asin : F -> F) (pi : F) (str : F -> string).
#[local] Open Scope num_scope.

(** [pyplot.plot(xs, ys, fmt)]:
    [ValueError: x and y must have same first dimension]. *)
Definition plot {X : Type} (xs : list X) (ys : list F) (fmt : string) : out (call X F) unit :=
  if decide (length xs = length ys) then tell (Plot xs ys fmt) else lift (Exn ValueError).

(** ["b = {}\ttheta = {}\tanalytic = {}".format(b, theta, analytic)], from
    the texts of its three arguments. *)
Definition point_line (b theta analytic : string) : string :=
  "b = " +:+ b +:+ tab +:+ "theta = " +:+ theta +:+ tab +:+ "analytic = " +:+ analytic.

(** The legend: the two patches. *)
Definition red_line : string * string := ("red", "theta value").
Definition blue_line : string * string := ("blue", "analytic value").

(** *** [tetaEvaluation.py] *)

(** The body of [for var_b in range(0, 16)]. *)
Definition body (fuel : nat) (l : lists Z F) (var_b : Z) : out (call Z F) (lists Z F) :=
  let xs := points_x l ++ [var_b] in
  i ← lift (Teta.integral_to_infinite fuel Teta.var_a var_b Teta.var_e);
  let final_theta := of_Z 180 - Teta.degrees pi (fabs i) in
  a ← lift (Teta.analytic_evaluation asin var_b Teta.var_e);
  let analytic := Teta.degrees pi a in
  tell (Print (point_line (pretty var_b) (str final_theta) (str analytic)));;
  mret (Lists xs (points_y l ++ [final_theta]) (points_y_a l ++ [analytic])).

(** The calls of [pyplot] at the end of the script. *)
Definition figure (l : lists Z F) : out (call Z F) unit :=
  tell (Ylabel "teta");;
  tell (Xlabel "b");;
  plot (points_x l) (points_y l) "r--";;
  plot (points_x l) (points_y l) "ro";;
  plot (points_x l) (points_y_a l) "b--";;
  plot (points_x l) (points_y_a l) "bo";;
  tell (Legend [red_line; blue_line]);;
  tell (Grid true);;
  tell Show.

(** The script from its first [print]. *)
Definition script (fuel : nat) : out (call Z F) unit :=
  tell (Print "Calculus may take some time...");;
  l ← for_each (body fuel) (Lists [] [] []) (Z.of_nat <$> seq 0 16);
  figure l.

(** *** [tetaEvaluation_cffi.py] *)

Section Main.
(** The two functions of the kernel. *)
Context (integral_to_infinite : F -> F -> F -> F) (to_degrees : F -> F).

(** The body of [for var_b in range_f(0.0, 100, 0.5)]. *)
Definition main_body (l : lists F F) (var_b : F) : out (call F F) (lists F F) :=
  let xs := points_x l ++ [var_b] in
  let rad := integral_to_infinite TetaCffi.var_a var_b TetaCffi.var_e in
  let theta := to_degrees (fabs rad) in
  a ← lift (TetaCffi.analytic_evaluation asin var_b TetaCffi.var_e);
  let analytic := Teta.degrees pi a in
  tell (Print (point_line (str var_b) (str theta) (str analytic)));;
  mret (Lists xs (points_y l ++ [theta]) (points_y_a l ++ [analytic])).

(** The [for] loop of [main]: the generator [range_f] runs as the loop asks
    for its values, one test of its [while] before each body. *)
Fixpoint main_loop (fuel : nat) (start end_ step : F) (l : lists F F) :
    out (call F F) (lists F F) :=
  if start <=? end_ then
    match fuel with
    | O => lift (Stop OutOfFuel)
    | S fuel' => l' ← main_body l start; main_loop fuel' (start + step) end_ step l'
    end
  else mret l.

(** The calls of [pyplot] at the end of [main]. *)
Definition main_figure (l : lists F F) : out (call F F) unit :=
  tell (Ylabel "teta");;
  tell (Xlabel "b");;
  plot (points_x l) (points_y l) "ro";;
  plot (points_x l) (points_y_a l) "b--";;
  tell (Legend [red_line; blue_line]);;
  tell (Grid true);;
  tell Show.

(** [main] from its first [print]. *)
Definition main (fuel : nat) : out (call F F) unit :=
  tell (Print "Calculus may take some time...");;
  l ← main_loop fuel zero (of_Z 100) (lit 1 2) (Lists [] [] []);
  main_figure l.

End Main.

(** What [ffi.verify] returns: the library of the compiled kernel, with the
    two functions that [ffi.cdef] declares. *)
Record lib : Type := Lib {
  integral_to_infinite : F -> F -> F -> F;
  to_degrees : F -> F }.

(** The script: [main] from its first line.  [ffi.verify] compiles the
    header [tetaQuad.h] and raises [VerificationError] when the compiler
    fails, before anything is printed; [verify] is its result. *)
Definition program (verify : option lib) (fuel : nat) : out (call F F) unit :=
  match verify with
  | None => lift (Exn VerificationError)
  | Some l => main (integral_to_infinite l) (to_degrees l) fuel
  end.

(** ** What the scripts are meant to print and plot *)

(** The points that are computed before the first that is not. *)
Fixpoint computed {X P : Type} (point : X -> res P) (bs : list X) : list P :=
  match bs with
  | [] => []
  | b :: bs' =>
      match point b with
      | Val p => p :: computed point bs'
      | _ => []
      end
  end.

(** The lists after the points [ps]. *)
Definition extend {X : Type} (l : lists X F) (ps : list (X * F * F)) : lists X F :=
  Lists (points_x l ++ ps.*1.*1) (points_y l ++ ps.*1.*2) (points_y_a l ++ ps.*2).

(** The line of a point of the first script, and of the second. *)
Definition script_line (p : Z * F * F) : call Z F :=
  Print (point_line (pretty p.1.1) (str p.1.2) (str p.2)).

Definition main_line (p : F * F * F) : call F F :=
  Print (point_line (str p.1.1) (str p.1.2) (str p.2)).

(** The figure of the first script: both series as a dashed line and as
    dots. *)
Definition figure_calls (ps : list (Z * F * F)) : list (call Z F) :=
  [ Ylabel "teta"; Xlabel "b";
    Plot ps.*1.*1 ps.*1.*2 "r--"; Plot ps.*1.*1 ps.*1.*2 "ro";
    Plot ps.*1.*1 ps.*2 "b--"; Plot ps.*1.*1 ps.*2 "bo";
    Legend [("red", "theta value"); ("blue", "analytic value")]; Grid true; Show ].

(** The figure of the second script: the computed angles as dots, the
    closed form as a dashed line. *)
Definition main_figure_calls (ps : list (F * F * F)) : list (call F F) :=
  [ Ylabel "teta"; Xlabel "b";
    Plot ps.*1.*1 ps.*1.*2 "ro"; Plot ps.*1.*1 ps.*2 "b--";
    Legend [("red", "theta value"); ("blue", "analytic value")]; Grid true; Show ].

End Script.

(** ** Sequences of calls *)

Section Out.
Context {E : Type}.

Lemma tell_then {A : Type} (e : E) (m : out E A) : (tell e;; m) = (e :: m.1, m.2).
Proof. done. Qed.

Lemma lift_bind {A B : Type} (r : res A) (k : A -> out E B) :
  lift r ≫= k =
    match r with
    | Val a => k a
    | Exn x => ([], Exn x)
    | Stop h => ([], Stop h)
    end.
Proof. destruct r as [a| |]; [|done..]. unfold mbind, out_bind. cbn. by destruct (k a). Qed.

Lemma ret_bind {A B : Type} (a : A) (k : A -> out E B) : mret a ≫= k = k a.
Proof. apply (lift_bind (Val a)). Qed.

Lemma tell_ret_bind {A B : Type} (e : E) (a : A) (k : A -> out E B) :
  (tell e;; mret a) ≫= k = (e :: (k a).1, (k a).2).
Proof. done. Qed.

(** The other two laws of the monad: a script followed by [return], and
    three scripts in sequence. *)
Lemma out_bind_ret {A : Type} (m : out E A) : m ≫= mret = m.
Proof.
  destruct m as [w [a|x|h]]; unfold mbind, out_bind; cbn; [|done..]. by rewrite app_nil_r.
Qed.

Lemma out_bind_assoc {A B C : Type} (m : out E A) (k : A -> out E B) (k' : B -> out E C) :
  (m ≫= k) ≫= k' = m ≫= (fun a => k a ≫= k').
Proof.
  destruct m as [w [a|x|h]]; unfold mbind, out_bind; cbn; [|done..].
  destruct (k a) as [w' [b|x|h]]; cbn; [|done..]. by rewrite app_assoc.
Qed.

(** What a script has told is kept by what follows it. *)
Lemma out_bind_prefix {A B : Type} (m : out E A) (k : A -> out E B) : m.1 `prefix_of` (m ≫= k).1.
Proof.
  destruct m as [w [a|x|h]]; unfold mbind, out_bind; cbn; [by apply prefix_app_r|done..].
Qed.

(** The points computed are those of [mapM] when it returns. *)
Lemma computed_mapM {X P : Type} (point : X -> res P) (bs : list X) (ps : list P) :
  mapM point bs = Val ps -> computed point bs = ps.
Proof.
  revert ps. induction bs as [|b bs IH]; intros ps; cbn [mapM computed]; [by intros [= <-]|].
  destruct (point b) as [p| |]; [|done..]. cbn [mbind res_bind].
  destruct (mapM point bs) as [ps'| |]; [|done..]. intros [= <-]. by rewrite (IH ps').
Qed.

(** A loop whose body computes a point, tells its line and updates the
    variables: it tells the lines of the points computed, and ends as
    [mapM] does. *)
Lemma for_each_computed {S X P : Type} (point : X -> res P) (line : P -> E)
    (update : S -> P -> S) (body : S -> X -> out E S) :
  (forall s b, body s b = (p ← lift (point b); tell (line p);; mret (update s p))) ->
  forall bs s, for_each body s bs =
    (line <$> computed point bs,
     match mapM point bs with
     | Val ps => Val (foldl update s ps)
     | Exn x => Exn x
     | Stop h => Stop h
     end).
Proof.
  intros Hbody bs. induction bs as [|b bs IH]; intros s; [done|].
  cbn [for_each computed mapM]. rewrite Hbody, lift_bind.
  destruct (point b) as [p| |]; [|done..].
  rewrite tell_ret_bind, IH. cbn [mbind res_bind fst snd fmap list_fmap].
  by destruct (mapM point bs).
Qed.

End Out.

(** ** The lists and the figure *)

Section Figure.
Context {F : Type} `{Arith F}.
Context (asin : F -> F) (pi : F) (str : F -> string).

Lemma extend_foldl {X : Type} (ps : list (X * F * F)) (l : lists X F) :
  foldl (fun l p => extend l [p]) l ps = extend l ps.
Proof.
  revert l. induction ps as [|p ps IH]; intros [xs ys ya].
  - unfold extend. cbn. by rewrite !app_nil_r.
  - cbn [foldl]. rewrite IH. unfold extend. cbn. by rewrite <- !app_assoc.
Qed.

(** [plot] draws when its two lists have the same length, and raises
    [ValueError] when they have not. *)
Lemma plot_cases {X : Type} (xs : list X) (ys : list F) (fmt : string) :
  plot xs ys fmt =
    if decide (length xs = length ys) then ([Plot xs ys fmt], Val tt) else ([], Exn ValueError).
Proof. done. Qed.

(** The three lists have one length after any number of points, so no call
    of [plot] raises. *)
Lemma plot_points {X : Type} (ps : list (X * F * F)) (fmt : string) :
  plot ps.*1.*1 ps.*1.*2 fmt = ([Plot ps.*1.*1 ps.*1.*2 fmt], Val tt) /\
  plot ps.*1.*1 ps.*2 fmt = ([Plot ps.*1.*1 ps.*2 fmt], Val tt).
Proof. rewrite !plot_cases, !decide_True; [done|by rewrite !length_fmap..]. Qed.

Lemma figure_points (ps : list (Z * F * F)) :
  figure (extend (Lists [] [] []) ps) = (figure_calls ps, Val tt).
Proof.
  unfold figure, extend. cbn [points_x points_y points_y_a app].
  destruct (plot_points ps "r--") as [-> _], (plot_points ps "ro") as [-> _].
  by destruct (plot_points ps "b--") as [_ ->], (plot_points ps "bo") as [_ ->].
Qed.

Lemma main_figure_points (ps : list (F * F * F)) :
  main_figure (extend (Lists [] [] []) ps) = (main_figure_calls ps, Val tt).
Proof.
  unfold main_figure, extend. cbn [points_x points_y points_y_a app].
  by destruct (plot_points ps "ro") as [-> _], (plot_points ps "b--") as [_ ->].
Qed.

(** The body of the loop is [point] with its line printed. *)
Lemma body_point (fuel : nat) (l : lists Z F) (var_b : Z) :
  body asin pi str fuel l var_b =
    (p ← lift (Teta.point asin pi fuel var_b);
     tell (script_line str p);; mret (extend l [p])).
Proof.
  unfold body, Teta.point. rewrite !lift_bind.
  destruct (Teta.integral_to_infinite _ _ _ _); [|done..]. cbn [mbind res_bind].
  rewrite lift_bind. by destruct (Teta.analytic_evaluation _ _ _).
Qed.

Section Main.
Context (integral_to_infinite : F -> F -> F -> F) (to_degrees : F -> F).

Lemma main_body_point (l : lists F F) (var_b : F) :
  main_body asin pi str integral_to_infinite to_degrees l var_b =
    (p ← lift (TetaCffi.point asin pi integral_to_infinite to_degrees var_b);
     tell (main_line str p);; mret (extend l [p])).
Proof.
  unfold main_body, TetaCffi.point. rewrite !lift_bind.
  by destruct (TetaCffi.analytic_evaluation _ _ _).
Qed.

(** The loop over the generator is the loop over the values it yields. *)
Lemma main_loop_for_each (fuel : nat) (start end_ step : F) (bs : list F) (l : lists F F) :
  TetaCffi.range_f fuel start end_ step = Val bs ->
  main_loop asin pi str integral_to_infinite to_degrees fuel start end_ step l =
    for_each (main_body asin pi str integral_to_infinite to_degrees) l bs.
Proof.
  revert start bs l. induction fuel as [|fuel IH]; intros start bs l;
    cbn [TetaCffi.range_f main_loop]; destruct (fleb start end_); try done;
    try (by intros [= <-]).
  destruct (TetaCffi.range_f fuel _ _ _) as [bs'| |] eqn:Hbs; [|done..].
  intros [= <-]. cbn [for_each]. unfold mbind, out_bind.
  destruct (main_body _ _ _ _ _ l start) as [o [l'| |]]; [|done..].
  cbn [fst snd]. by rewrite (IH _ bs').
Qed.

End Main.

(** ** What the scripts print and plot *)

(** The loop of the first script: the lines and the lists. *)
Lemma script_loop (fuel : nat) (bs : list Z) :
  for_each (body asin pi str fuel) (Lists [] [] []) bs =
    (script_line str <$> computed (Teta.point asin pi fuel) bs,
     match mapM (Teta.point asin pi fuel) bs with
     | Val ps => Val (extend (Lists [] [] []) ps)
     | Exn x => Exn x
     | Stop h => Stop h
     end).
Proof.
  rewrite (for_each_computed _ _ _ _ (body_point fuel)).
  destruct (mapM _ _); by rewrite ?extend_foldl.
Qed.

(** The script when all its points are computed. *)
Lemma script_returns (fuel : nat) (ps : list (Z * F * F)) :
  Teta.points asin pi fuel = Val ps ->
  script asin pi str fuel =
    (Print "Calculus may take some time..." :: (script_line str <$> ps) ++ figure_calls ps,
     Val tt).
Proof.
  unfold script, Teta.points. intros Hps. rewrite tell_then, script_loop, Hps.
  rewrite (computed_mapM _ _ _ Hps). unfold mbind, out_bind. cbn [fst snd].
  by rewrite figure_points.
Qed.

(** C25. What [tetaEvaluation.py] does, in any arithmetic: it prints its
    first line, then the line of each point in the order of the impact
    parameters, for the points that are computed before the first that is
    not.  When all sixteen are computed it plots them, both series against
    the same abscissas, opens the window and returns; no call of [plot]
    raises.  When a point raises or does not end, so does the script, after
    the lines of the points before it and without a figure. *)
Theorem script_calls (fuel : nat) :
  script asin pi str fuel =
    let ps := computed (Teta.point asin pi fuel) (Z.of_nat <$> seq 0 16) in
    (Print "Calculus may take some time..." :: (script_line str <$> ps) ++
       (if returned (Teta.points asin pi fuel) then figure_calls ps else []),
     ended (Teta.points asin pi fuel)).
Proof.
  destruct (Teta.points asin pi fuel) as [ps| |] eqn:Hps;
    [rewrite (script_returns fuel ps Hps); cbn zeta; by rewrite (computed_mapM _ _ _ Hps)|..].
  all: unfold script; rewrite tell_then, script_loop; unfold Teta.points in Hps; rewrite Hps.
  all: cbn [returned ended]; by rewrite app_nil_r.
Qed.

Section Kernel.
Context (integral_to_infinite : F -> F -> F -> F) (to_degrees : F -> F).

(** The loop of [main] over the values [bs] of its generator. *)
Lemma main_loop_points (fuel : nat) (start end_ step : F) (bs : list F) :
  TetaCffi.range_f fuel start end_ step = Val bs ->
  let point := TetaCffi.point asin pi integral_to_infinite to_degrees in
  main_loop asin pi str integral_to_infinite to_degrees fuel start end_ step (Lists [] [] []) =
    (main_line str <$> computed point bs,
     match mapM point bs with
     | Val ps => Val (extend (Lists [] [] []) ps)
     | Exn x => Exn x
     | Stop h => Stop h
     end).
Proof.
  intros Hbs point. rewrite (main_loop_for_each _ _ fuel start end_ step bs) by done.
  rewrite (for_each_computed _ _ _ _ (main_body_point _ _)).
  fold point. destruct (mapM _ _); by rewrite ?extend_foldl.
Qed.

(** [main] when all its points are computed. *)
Lemma main_returns (fuel : nat) (ps : list (F * F * F)) :
  TetaCffi.points asin pi integral_to_infinite to_degrees fuel = Val ps ->
  main asin pi str integral_to_infinite to_degrees fuel =
    (Print "Calculus may take some time..." :: (main_line str <$> ps) ++ main_figure_calls ps,
     Val tt).
Proof.
  unfold main, TetaCffi.points.
  destruct (TetaCffi.range_f fuel _ _ _) as [bs| |] eqn:Hbs; [|done..]. cbn [mbind res_bind].
  intros Hps. rewrite tell_then, (main_loop_points _ _ _ _ bs Hbs). cbn zeta. rewrite Hps.
  rewrite (computed_mapM _ _ _ Hps). unfold mbind, out_bind. cbn [fst snd].
  by rewrite main_figure_points.
Qed.

(** What [main] of [tetaEvaluation_cffi.py] does over the values [bs]
    that its generator yields: the first line, the line of each point that
    is computed before the first that is not, and the figure when all are;
    it ends as the computation of the points does.  The values of the
    generator are taken one at a time, so the lines of the points before a
    failure are printed. *)
Theorem main_calls (fuel : nat) (bs : list F) :
  TetaCffi.range_f fuel (of_Z 0) (of_Z 100) (lit 1 2) = Val bs ->
  main asin pi str integral_to_infinite to_degrees fuel =
    let point := TetaCffi.point asin pi integral_to_infinite to_degrees in
    let ps := computed point bs in
    (Print "Calculus may take some time..." :: (main_line str <$> ps) ++
       (if returned (mapM point bs) then main_figure_calls ps else []),
     ended (mapM point bs)).
Proof.
  intros Hbs. cbn zeta.
  destruct (mapM _ bs) as [ps| |] eqn:Hps; cbn [returned ended];
    [rewrite (computed_mapM _ _ _ Hps); apply main_returns; unfold TetaCffi.points;
     by rewrite Hbs|..].
  all: unfold main; rewrite tell_then, (main_loop_points _ _ _ _ bs Hbs); cbn zeta.
  all: rewrite Hps; by rewrite app_nil_r.
Qed.

End Kernel.

End Figure.

End TetaScript.
