(* ===== verification/TetaFloat.v ===== *)
(** * TetaFloat: [tetaEvaluation.py] returns on binary64

    In exact arithmetic the [while] loop of [finite_integral] runs once for
    each interval (file [Teta]).  On binary64 the abscissa is rounded at
    every step, and a step that the abscissa absorbs keeps the loop running
    for ever, so that the loop ends is a property of the numbers of the
    script: the windows start at the multiples of 16 from 0 to 320, and the
    steps are 16 divided by the powers of two up to [2^20].

    The loop is followed here without its sum.  A [walk] is the abscissa
    [cur_step] alone; a [hop] is one test of the loop and, when the test
    holds, one step.  The abscissa does not depend on the values of the
    integrand, so the loop returns when its walk passes [var_to] over
    abscissas at which [integral_func] returns.  [leaps] makes [2^d] hops
    with a recursion of depth [d], and the walks of all windows and
    divisions of the script are one boolean, [script_walks], that the
    kernel evaluates: about 44 million hops. *)

From Stdlib Require Import String ZArith Floats Lia.
From stdpp Require Import base tactics option list numbers strings.
From S2P Require Import Prelude World Arith Teta TetaCffi TetaScript.
Import World Arith Teta.

Module TetaFloat.

Section Walk.
Context {F : Type} `{Arith F}.
#[local] Open Scope num_scope.

(** The abscissa of the loop: at [cur_step], past [var_to], or stopped at an
    abscissa that is not sound. *)
Inductive walk : Type :=
  | At (cur_step : F)
  | Past
  | Failed.

Definition is_past (w : walk) : bool :=
  match w with Past => true | _ => false end.

Definition is_at (w : walk) : bool :=
  match w with At _ => true | _ => false end.

(** One test of [while cur_step <= var_to] and one [cur_step += step]. *)
Definition hop (sound : F -> bool) (step var_to : F) (w : walk) : walk :=
  match w with
  | At cur_step =>
      if cur_step <=? var_to
      then if sound cur_step then At (cur_step + step) else Failed
      else Past
  | _ => w
  end.

(** [g] applied [2^d] times. *)
Fixpoint leaps (d : nat) (g : walk -> walk) (w : walk) : walk :=
  match d with
  | O => g w
  | S d' => leaps d' g (leaps d' g w)
  end.

(** Division [k] of a window: the step and its half are computed as
    [finite_integral] does, and the walk from [var_up + step] is still in
    the window after [2^k] steps and past [var_to] at the test that
    follows. *)
Definition division_walks (sound : F -> F -> bool) (var_up var_to : F) (k : nat) : bool :=
  value false
    (d ← float_of (2 ^ Z.of_nat k);
     step ← truediv (var_to - var_up) d;
     half ← truediv step (of_Z 2);
     let g := hop (sound half) step var_to in
     let w := leaps k g (At (var_up + step)) in
     Val (is_at w && is_past (g w))).

(** All the divisions of the window from [var_up]. *)
Definition window_walks (sound : F -> F -> bool) (var_up : F) : bool :=
  forallb (division_walks sound var_up (var_up + DELTA)) (seq 0 MAX_DIVISIONS).

(** The values [var_up] takes in [integral_to_infinite]. *)
Fixpoint starts (n : nat) (var_up : F) : list F :=
  match n with
  | O => []
  | S n' => var_up :: starts n' (var_up + DELTA)
  end.

(** All the windows from [var_up]. *)
Definition script_walks (sound : F -> F -> bool) (var_up : F) : bool :=
  forallb (window_walks sound) (starts MAX_ITERATIONS var_up).

End Walk.

Arguments walk : clear implicits.

(** On binary64 an abscissa is sound when the square of the point at which
    the integrand is taken is below the infinity. *)
Definition sound_float (half cur_step : float) : bool :=
  (abs ((cur_step - half) * (cur_step - half)) <? infinity)%float.

(** ** The loop follows its walk *)

Section Returns.
Context {F : Type} `{Arith F}.
Context (sound : F -> F -> bool) (var_b : Z) (var_e : F).
Context (sound_returns : forall half cur_step, sound half cur_step = true ->
  returned (integral_func (cur_step - half)%num var_b var_e) = true).
#[local] Open Scope num_scope.

Lemma hops_Failed (n : nat) (s : F -> bool) (step var_to : F) :
  Nat.iter n (hop s step var_to) Failed = Failed.
Proof. induction n as [|n IH]; [done|]. by rewrite Nat.iter_succ, IH. Qed.

Lemma leaps_iter (d : nat) (g : walk F -> walk F) (w : walk F) :
  leaps d g w = Nat.iter (2 ^ d) g w.
Proof.
  revert w. induction d as [|d IH]; intros w; [done|].
  cbn [leaps]. rewrite !IH, <- Nat.iter_add. f_equal. rewrite Nat.pow_succ_r'. lia.
Qed.

(** A walk is at an abscissa after a hop only from an abscissa in the
    window that is sound. *)
Lemma hop_at (s : F -> bool) (step var_to : F) (w : walk F) :
  is_at (hop s step var_to w) = true ->
  exists c, w = At c /\ (c <=? var_to) = true /\ s c = true /\
    hop s step var_to w = At (c + step).
Proof.
  destruct w as [c| |]; [|done..]. cbn [hop].
  destruct (c <=? var_to) eqn:Hle, (s c) eqn:Hs; try done. intros _. by exists c.
Qed.

Lemma hops_at (n : nat) (s : F -> bool) (step var_to : F) (w : walk F) :
  is_at (Nat.iter n (hop s step var_to) w) = true -> is_at w = true.
Proof.
  induction n as [|n IH]; [done|]. rewrite Nat.iter_succ.
  intros (c & Hc & _)%hop_at. apply IH. by rewrite Hc.
Qed.

(** A walk that is still in the window after [fuel + 1] tests: the loop
    runs out of that fuel. *)
Lemma sum_loop_short (fuel : nat) (step var_to half partial_sum cur_step : F) :
  truediv step (of_Z 2) = Val half ->
  is_at (Nat.iter (S fuel) (hop (sound half) step var_to) (At cur_step)) = true ->
  sum_loop fuel step var_to var_b var_e partial_sum cur_step = Stop OutOfFuel.
Proof.
  intros Hhalf. revert partial_sum cur_step.
  induction fuel as [|fuel IH]; intros s c; rewrite Nat.iter_succ_r; intros Hw;
    destruct (hop_at _ _ _ _ (hops_at _ _ _ _ _ Hw)) as (? & [= <-] & Hle & Hc & Hhop);
    cbn [sum_loop]; rewrite Hle; [done|].
  rewrite Hhalf. cbn [mbind res_bind].
  apply sound_returns in Hc. destruct (integral_func _ _ _); [|done..].
  apply IH. by rewrite <- Hhop.
Qed.

(** A walk that is past [var_to] after [fuel] steps: the loop returns with
    that fuel, whatever it has summed. *)
Lemma sum_loop_walk (fuel : nat) (step var_to half partial_sum cur_step : F) :
  truediv step (of_Z 2) = Val half ->
  is_past (Nat.iter (S fuel) (hop (sound half) step var_to) (At cur_step)) = true ->
  returned (sum_loop fuel step var_to var_b var_e partial_sum cur_step) = true.
Proof.
  intros Hhalf. revert partial_sum cur_step.
  induction fuel as [|fuel IH]; intros s c; rewrite Nat.iter_succ_r;
    cbn [hop sum_loop]; destruct (c <=? var_to); try done;
    destruct (sound half c) eqn:Hc; try done; [|by rewrite hops_Failed].
  intros Hw. rewrite Hhalf. cbn [mbind res_bind].
  apply sound_returns in Hc. destruct (integral_func _ _ _); [|done..].
  by apply IH.
Qed.

(** What [script_walks] says of one division of one window. *)
Lemma script_walks_division (var_up0 var_up : F) (k : nat) :
  script_walks sound var_up0 = true ->
  var_up ∈ starts MAX_ITERATIONS var_up0 -> k < MAX_DIVISIONS ->
  division_walks sound var_up (var_up + DELTA) k = true.
Proof.
  unfold script_walks, window_walks. rewrite forallb_forall.
  intros Hall Hup%list_elem_of_In Hk. apply Hall in Hup.
  rewrite forallb_forall in Hup. apply Hup, in_seq. lia.
Qed.

(** A division that walks: its step is computed, and its loop returns
    exactly when it may run [2^k] times. *)
Lemma division_count (var_up var_to : F) (k : nat) :
  division_walks sound var_up var_to k = true ->
  exists d step, float_of (2 ^ Z.of_nat k) = Val d /\ truediv (var_to - var_up) d = Val step /\
    forall fuel s, returned (sum_loop fuel step var_to var_b var_e s (var_up + step)) =
                   bool_decide (2 ^ k <= fuel).
Proof.
  unfold division_walks.
  destruct (float_of _) as [d| |]; [|done..]. cbn [mbind res_bind].
  destruct (truediv _ d) as [step| |] eqn:Hstep; [|done..]. cbn [mbind res_bind].
  destruct (truediv step _) as [half| |] eqn:Hhalf; [|done..]. cbn [mbind res_bind value].
  rewrite leaps_iter. intros [Hat Hpast]%andb_prop. exists d, step. split_and!; [done..|].
  intros fuel s. case_bool_decide as Hfuel.
  - apply (sum_loop_more_fuel (2 ^ k)); [done|].
    apply (sum_loop_walk _ _ _ half); [done|]. by rewrite Nat.iter_succ.
  - rewrite (sum_loop_short _ _ _ half); [done..|].
    replace (2 ^ k) with ((2 ^ k - S fuel) + S fuel)%nat in Hat by lia.
    rewrite Nat.iter_add in Hat. by apply hops_at in Hat.
Qed.

Section Fuel.
Context (fuel : nat) (enough : 2 ^ (MAX_DIVISIONS - 1) <= fuel).

(** With fuel for the finest division the loop of every division returns. *)
Lemma division_returns (var_up var_to : F) (k : nat) :
  k < MAX_DIVISIONS ->
  division_walks sound var_up var_to k = true ->
  exists d step, float_of (2 ^ Z.of_nat k) = Val d /\ truediv (var_to - var_up) d = Val step /\
    forall s, returned (sum_loop fuel step var_to var_b var_e s (var_up + step)) = true.
Proof.
  intros Hk (d & step & Hd & Hstep & Hs)%division_count. exists d, step.
  split_and!; [done..|]. intros s. rewrite Hs. apply bool_decide_eq_true.
  etrans; [|apply enough]. apply Nat.pow_le_mono_r; [done|]. unfold MAX_DIVISIONS in *. lia.
Qed.

(** The [for] loop over the divisions returns when they all walk. *)
Lemma divisions_return (n i : nat) (var_up var_to prev_sum : F) :
  i + n <= MAX_DIVISIONS ->
  (forall k, i <= k < i + n -> division_walks sound var_up var_to k = true) ->
  returned (divisions fuel n i var_up var_to var_b var_e prev_sum) = true.
Proof.
  revert i prev_sum. induction n as [|n IH]; intros i prev Hn Hall; [done|].
  rewrite divisions_S.
  destruct (division_returns var_up var_to i) as (d & step & Hd & Hstep & Hs);
    [lia|apply Hall; lia|].
  rewrite Hd. cbn [mbind res_bind]. rewrite Hstep. cbn [mbind res_bind]. specialize (Hs zero).
  destruct (sum_loop _ _ _ _ _ _ _) as [partial_sum| |]; [|done..]. cbn [mbind res_bind].
  destruct (settled prev partial_sum); [done|]. apply IH; [lia|]. intros k Hk. apply Hall. lia.
Qed.

Lemma finite_integral_returns (var_up : F) :
  window_walks sound var_up = true ->
  returned (finite_integral fuel var_up (var_up + DELTA) var_b var_e) = true.
Proof.
  unfold window_walks. rewrite forallb_forall. intros Hall.
  apply divisions_return; [done|]. intros k Hk. apply Hall, in_seq. lia.
Qed.

(** The [for] loop over the windows returns when they all walk. *)
Lemma windows_return (n : nat) (var_up prev_res : F) :
  forallb (window_walks sound) (starts n var_up) = true ->
  returned (windows fuel n var_up var_b var_e prev_res) = true.
Proof.
  revert var_up prev_res. induction n as [|n IH]; intros up prev; [done|].
  cbn [starts forallb windows]. intros [Hw Hrest]%andb_prop.
  apply finite_integral_returns in Hw.
  destruct (finite_integral _ _ _ _ _) as [partial_res| |]; [|done..]. cbn [mbind res_bind].
  destruct (faded prev partial_res); [done|]. by apply IH.
Qed.

(** The criterion: [integral_to_infinite] returns when every window and
    division walks over sound abscissas and [var_b] converts. *)
Lemma integral_to_infinite_returns (var_up : F) :
  script_walks sound var_up = true ->
  returned (float_of var_b : res F) = true ->
  returned (integral_to_infinite fuel var_up var_b var_e) = true.
Proof.
  intros Hw Hb. unfold integral_to_infinite.
  apply (windows_return _ _ zero) in Hw.
  destruct (windows _ _ _ _ _ _); [|done..]. cbn [mbind res_bind].
  by destruct (float_of var_b).
Qed.

End Fuel.
End Returns.

(** [mapM] returns when its function returns on every element. *)
Lemma mapM_returns {A B : Type} (g : A -> res B) (l : list A) :
  Forall (fun x => returned (g x) = true) l ->
  exists l', mapM g l = Val l' /\ Forall2 (fun x y => g x = Val y) l l'.
Proof.
  induction 1 as [|x l Hx _ (l' & Hl & Hall)]; [by exists []|].
  destruct (g x) as [y| |] eqn:Hg; [|done..].
  exists (y :: l'). cbn [mapM]. rewrite Hg. cbn [mbind res_bind]. rewrite Hl.
  split; [done|]. by constructor.
Qed.

(** ** Binary64 *)

(** A float whose absolute value is below the infinity is finite. *)
Lemma float_finite (x : float) : (abs x <? infinity)%float = true -> is_finite x = true.
Proof.
  unfold is_finite, is_nan, is_infinity.
  rewrite FloatAxioms.ltb_spec, !FloatAxioms.eqb_spec, FloatAxioms.abs_spec.
  change (Prim2SF infinity) with (S754_infinity false).
  destruct (Prim2SF x) as [s|s| |s m e]; try done.
  intros _. unfold SFabs, SFeqb, SFcompare. destruct s; cbn [negb orb];
    by rewrite Z.compare_refl, ?Pos.compare_cont_refl, ?Pos.compare_refl.
Qed.

Lemma sound_float_returns (var_b : Z) (var_e half cur_step : float) :
  is_finite (float_of_Z (var_b ^ 2)) = true ->
  sound_float half cur_step = true ->
  returned (integral_func (cur_step - half)%num var_b var_e) = true.
Proof. intros Hb Hs. apply integral_func_returns; [by apply float_finite|done]. Qed.

(** The integers below 256 convert. *)
Lemma small_finite (n : Z) : (0 <= n < 256)%Z -> is_finite (float_of_Z n) = true.
Proof.
  intros Hn.
  assert (forallb (fun k => is_finite (float_of_Z (Z.of_nat k))) (seq 0 256) = true) as Hall
    by (by vm_compute).
  rewrite forallb_forall in Hall. rewrite <- (Z2Nat.id n) by lia. apply Hall, in_seq. lia.
Qed.

(** The walks of the script: every division of every window from 0 leaves
    its window after [2^k] steps, over abscissas whose squares are finite. *)
Lemma float_script_walks : script_walks sound_float (var_a : float) = true.
Proof. by vm_compute. Qed.

(** The windows of the script start at the multiples of 16. *)
Lemma float_starts :
  starts MAX_ITERATIONS (var_a : float) =
    (fun j => of_Z (16 * Z.of_nat j)) <$> seq 0 MAX_ITERATIONS.
Proof. by vm_compute. Qed.

(** C21. On binary64 every [while] loop of the script makes the iterations
    of exact arithmetic.  For each of the 21 windows, which start at the
    multiples of 16 up to 320, each of the 21 divisions and each impact
    parameter, the loop of division [k] returns when it may run [2^k] times
    and runs out of any smaller fuel, whatever sum it starts from: the
    steps [16 / 2^k] are added to the abscissa without rounding. *)
Theorem float_loop_count (fuel j k : nat) (var_b : Z) (partial_sum : float) :
  j < MAX_ITERATIONS -> k < MAX_DIVISIONS -> (0 <= var_b < 16)%Z ->
  let var_up := of_Z (16 * Z.of_nat j) in
  let var_to := (var_up + DELTA)%num in
  let step := ((var_to - var_up) / of_Z (2 ^ Z.of_nat k))%num in
  returned (sum_loop fuel step var_to var_b var_e partial_sum (var_up + step)%num) =
    bool_decide (2 ^ k <= fuel).
Proof.
  intros Hj Hk Hb var_up var_to step.
  assert (var_up ∈ starts MAX_ITERATIONS (var_a : float)) as Hup.
  { rewrite float_starts. apply list_elem_of_fmap. exists j.
    split; [done|apply elem_of_seq; lia]. }
  pose proof (script_walks_division sound_float _ _ k float_script_walks Hup Hk) as Hw.
  assert (is_finite (float_of_Z (var_b ^ 2)) = true) as Hfin by (apply small_finite; nia).
  destruct (division_count sound_float var_b var_e
              (fun half c => sound_float_returns var_b var_e half c Hfin) var_up var_to k Hw)
    as (d & step' & Hd & Hstep & Hs).
  destruct (float_of_cases (F := float) (2 ^ Z.of_nat k)) as [Hd'|Hd']; [|congruence].
  assert (d = of_Z (2 ^ Z.of_nat k)) as -> by congruence.
  destruct (truediv_cases (var_to - var_up)%num (of_Z (2 ^ Z.of_nat k) : float))
    as [Hs'|Hs']; [|congruence].
  assert (step' = step) as -> by (unfold step; congruence).
  apply Hs.
Qed.

Lemma float_loop_count_witness :
  returned (sum_loop (F := float) (2 ^ 20)
              ((of_Z (16 * Z.of_nat 20) + DELTA - of_Z (16 * Z.of_nat 20))
               / of_Z (2 ^ Z.of_nat 20))%num
              (of_Z (16 * Z.of_nat 20) + DELTA)%num 3 var_e (of_Z 0)
              (of_Z (16 * Z.of_nat 20) +
               (of_Z (16 * Z.of_nat 20) + DELTA - of_Z (16 * Z.of_nat 20))
               / of_Z (2 ^ Z.of_nat 20))%num) =
    bool_decide (2 ^ 20 <= 2 ^ 20).
Proof. apply (float_loop_count (2 ^ 20) 20 20 3); unfold MAX_ITERATIONS, MAX_DIVISIONS; lia. Defined.

(** The integration returns on binary64 for the numbers of the script
    (windows from [var_a = 0.0], energy [0.1], impact parameters 0 to 15)
    when the [while] loop may run [2^20] times, the number of intervals of
    the finest division. *)
Lemma float_integral_returns (fuel : nat) (var_b : Z) :
  2 ^ 20 <= fuel ->
  (0 <= var_b < 16)%Z ->
  returned (integral_to_infinite (F := float) fuel var_a var_b var_e) = true.
Proof.
  intros Hfuel Hb.
  apply (integral_to_infinite_returns sound_float); [|done|apply float_script_walks|].
  - intros half c. apply sound_float_returns, small_finite. nia.
  - unfold float_of. cbn [ffinite float_arith of_Z]. rewrite small_finite by lia. done.
Qed.

(** The closed form returns for the impact parameters of the script,
    whatever [math.asin] is. *)
Lemma float_analytic_returns (asin : float -> float) (var_b : nat) :
  var_b < 16 ->
  returned (analytic_evaluation (F := float) asin (Z.of_nat var_b) var_e) = true.
Proof.
  intros Hb.
  assert (forallb (fun k => returned (analytic_evaluation asin (Z.of_nat k) var_e)) (seq 0 16)
          = true) as Hall by (by vm_compute).
  rewrite forallb_forall in Hall. apply Hall, in_seq. lia.
Qed.

(** The sixteen points of the script are computed. *)
Lemma float_points_return (asin : float -> float) (pi : float) (fuel : nat) :
  2 ^ 20 <= fuel ->
  exists ps, points (F := float) asin pi fuel = Val ps /\ ps.*1.*1 = Z.of_nat <$> seq 0 16.
Proof.
  intros Hfuel. unfold points.
  destruct (mapM_returns (point asin pi fuel) (Z.of_nat <$> seq 0 16)) as (l & -> & Hl).
  - apply Forall_fmap, list.Forall_forall. intros k Hk%elem_of_seq. unfold point. cbn [compose].
    pose proof (float_integral_returns fuel (Z.of_nat k) Hfuel ltac:(lia)) as Hi.
    destruct (integral_to_infinite _ _ _ _); [|done..]. cbn [mbind res_bind].
    pose proof (float_analytic_returns asin k ltac:(lia)) as Ha.
    by destruct (analytic_evaluation _ _ _).
  - exists l. split; [done|]. symmetry. apply list_eq_Forall2, Forall2_fmap_r, Forall2_fmap_r.
    eapply list.Forall2_impl; [apply Hl|]. intros b p Hp. symmetry.
    apply (Teta.point_parameter _ _ _ _ _ Hp).
Qed.

(** C20. [tetaEvaluation.py] runs to its end on binary64, whatever
    [math.asin], pi and the text of a float are: it prints its first line
    and the lines of the sixteen points, for the impact parameters 0 to 15
    in order, plots the two series and opens the window.  No loop is kept
    running by a rounded step and no exception leaves the script; the
    [while] loop needs [2^20] executions of its body at most. *)
Theorem float_script_returns (asin : float -> float) (pi : float) (str : float -> string)
    (fuel : nat) :
  2 ^ 20 <= fuel ->
  exists ps, ps.*1.*1 = Z.of_nat <$> seq 0 16 /\
    TetaScript.script asin pi str fuel =
      (TetaScript.Print "Calculus may take some time..." ::
         (TetaScript.script_line str <$> ps) ++ TetaScript.figure_calls ps,
       Val tt).
Proof.
  intros Hfuel. destruct (float_points_return asin pi fuel Hfuel) as (ps & Hps & Hx).
  exists ps. split; [done|]. by apply TetaScript.script_returns.
Qed.

Lemma float_script_returns_witness :
  exists ps, ps.*1.*1 = Z.of_nat <$> seq 0 16 /\
    TetaScript.script PrimFloat.sqrt 0x1.921fb54442d18p+1%float (fun _ => "x") (2 ^ 20) =
      (TetaScript.Print "Calculus may take some time..." ::
         (TetaScript.script_line (fun _ => "x") <$> ps) ++ TetaScript.figure_calls ps,
       Val tt).
Proof. apply float_script_returns. done. Defined.

(** ** The second script *)

(** The closed form returns on the impact parameters of [main]. *)
Lemma float_cffi_analytic_returns (asin : float -> float) :
  forallb (fun k => returned (TetaCffi.analytic_evaluation asin
                                (of_Z (Z.of_nat k) / of_Z 2)%num TetaCffi.var_e))
    (seq 0 201) = true.
Proof. by vm_compute. Qed.

(** The 201 points of [main] are computed, whatever the kernel returns. *)
Lemma float_cffi_points_return (asin : float -> float) (pi : float)
    (integral_to_infinite : float -> float -> float -> float) (to_degrees : float -> float)
    (fuel : nat) :
  201 <= fuel ->
  exists ps, TetaCffi.points asin pi integral_to_infinite to_degrees fuel = Val ps /\
    ps.*1.*1 = (fun k => (of_Z (Z.of_nat k) / of_Z 2)%num) <$> seq 0 201.
Proof.
  intros Hfuel. unfold TetaCffi.points.
  rewrite (TetaCffi.range_f_more_fuel 201 fuel _ _ _ _ Hfuel TetaCffi.float_impact_parameters).
  cbn [mbind res_bind].
  edestruct (mapM_returns (TetaCffi.point asin pi integral_to_infinite to_degrees))
    as (ps & -> & Hps).
  - apply Forall_fmap, list.Forall_forall. intros k Hk%elem_of_seq. unfold TetaCffi.point.
    cbn [compose]. pose proof (float_cffi_analytic_returns asin) as Hall.
    rewrite forallb_forall in Hall. specialize (Hall k ltac:(apply in_seq; lia)).
    by destruct (TetaCffi.analytic_evaluation _ _ _).
  - exists ps. split; [done|]. symmetry. apply list_eq_Forall2, Forall2_fmap_r, Forall2_fmap_r.
    eapply list.Forall2_impl; [apply Hps|]. intros b p Hp. symmetry.
    apply (TetaCffi.main_point_parameter _ _ _ _ _ _ Hp).
Qed.

(** [main] with a kernel that compiled: the 202 lines and the figure. *)
Lemma float_main_lines (asin : float -> float) (pi : float) (str : float -> string)
    (integral_to_infinite : float -> float -> float -> float) (to_degrees : float -> float)
    (fuel : nat) :
  201 <= fuel ->
  exists ps, ps.*1.*1 = (fun k => (of_Z (Z.of_nat k) / of_Z 2)%num) <$> seq 0 201 /\
    TetaScript.main asin pi str integral_to_infinite to_degrees fuel =
      (TetaScript.Print "Calculus may take some time..." ::
         (TetaScript.main_line str <$> ps) ++ TetaScript.main_figure_calls ps,
       Val tt).
Proof.
  intros Hfuel.
  destruct (float_cffi_points_return asin pi integral_to_infinite to_degrees fuel Hfuel)
    as (ps & Hps & Hx).
  exists ps. split; [done|]. by apply TetaScript.main_returns.
Qed.

(** C30. [tetaEvaluation_cffi.py] on binary64 has two outcomes.  When
    [ffi.verify] cannot compile the kernel, the script ends with
    [VerificationError] and has printed nothing.  When the kernel compiles,
    the script runs to its end whatever the two functions of the kernel
    return: the generator yields the 201 multiples of 0.5 from 0 to 100,
    each of them exact, the closed form raises for none of them, and the
    script prints 202 lines, plots the two series and opens the window. *)
Theorem float_main_returns (asin : float -> float) (pi : float) (str : float -> string)
    (verify : option (TetaScript.lib (F := float))) (fuel : nat) :
  201 <= fuel ->
  match verify with
  | None => TetaScript.program asin pi str verify fuel = ([], Exn VerificationError)
  | Some _ =>
      exists ps, ps.*1.*1 = (fun k => (of_Z (Z.of_nat k) / of_Z 2)%num) <$> seq 0 201 /\
        TetaScript.program asin pi str verify fuel =
          (TetaScript.Print "Calculus may take some time..." ::
             (TetaScript.main_line str <$> ps) ++ TetaScript.main_figure_calls ps,
           Val tt)
  end.
Proof. intros Hfuel. destruct verify as [l|]; [by apply float_main_lines|done]. Qed.

Lemma float_main_returns_witness :
  exists ps, ps.*1.*1 = (fun k => (of_Z (Z.of_nat k) / of_Z 2)%num) <$> seq 0 201 /\
    TetaScript.program PrimFloat.sqrt 0x1.921fb54442d18p+1%float (fun _ => "x")
        (Some (TetaScript.Lib (fun _ b _ => b) PrimFloat.abs)) 201 =
      (TetaScript.Print "Calculus may take some time..." ::
         (TetaScript.main_line (fun _ => "x") <$> ps) ++ TetaScript.main_figure_calls ps,
       Val tt).
Proof.
  apply (float_main_returns PrimFloat.sqrt 0x1.921fb54442d18p+1%float (fun _ => "x")
           (Some (TetaScript.Lib (fun _ b _ => b) PrimFloat.abs)) 201). done.
Defined.

End TetaFloat.
